(* ===== verification/_CoqProject ===== *)
-Q . S2P
Prelude.v
KernelArith.v
KernelPolicy.v
KernelDeposit.v
KernelWithdrawal.v
Types.v
Accounting.v
Authorization.v
Eip712.v
BaseToken.v
BaseBridge.v
BasePolicy.v
BaseCalls.v
BaseHistory.v
BaseMints.v
BaseTheorems.v
EvmDecode.v
External.v
Withdrawal.v
Deposit.v
DepositProtocol.v
DepositInvariant.v
Examples.v
DepositSafety.v
WithdrawalSafety.v
Reconciliation.v
HoldSafety.v
Tables.v
StorageTypes.v
Config.v
EvmRpc.v
EvmTruth.v
Admission.v
Jobs.v
Notifications.v
EventLog.v
Store.v
Bundles.v
Intake.v
Funding.v
Ledger.v
LedgerTruth.v
LedgerProgress.v
Admin.v
DepositRows.v
WithdrawalRows.v
IntakeRows.v
StoreInvariant.v
StoreSafety.v
StoreHolds.v
StorePayouts.v
StoreIntake.v
StoreFunding.v
StoreAdmin.v
StoreHistory.v
StoreRefinement.v
Scenario.v
StoreTheorems.v
System.v
