(* ===== verification/Prelude.v ===== *)
(** * KINIC-Base bridge: verification library

    The bridge moves KINIC between its ledger on the Internet Computer and the bSNS token
    on Base.  A deposit pulls KINIC into the escrow of the bridge canister, which signs an
    authorization with which the user mints bSNS on Base; if the authorization expires
    unused the deposit is refunded.  A withdrawal burns bSNS on Base and is paid from the
    escrow after the canister has seen the burn in a finalized block.  This library models
    the core of the canister, its storage, its view of Base and of the ledger, and the
    contracts, and proves what they guarantee, alone and together.

    ** Parts and files

    Paths are relative to [src/].

    The core, [canister/bridge-core/src]:
    - [kernel.rs]: [KernelArith.v] (amounts, limits, counters), [KernelPolicy.v] (authority,
      leases, evidence), [KernelDeposit.v] and [KernelWithdrawal.v] (the phase tables,
      effects and checkpoint quorum).  Every [*_body] macro is the definition of that name.
    - [types.rs]: [Types.v]; [accounting.rs] and [reserve.rs]: [Accounting.v];
      [authorization.rs]: [Authorization.v]; [external.rs]: [External.v].
    - [deposit.rs]: [Deposit.v], with [DepositProtocol.v], [DepositInvariant.v] and
      [DepositSafety.v]; [withdrawal.rs]: [Withdrawal.v], with [WithdrawalSafety.v];
      [reconciliation.rs]: [Reconciliation.v], with [HoldSafety.v].  A method on [&mut self]
      returns the next record or an error of [CoreError].

    The canister, [canister/bridge-canister/src]:
    - [storage/]: [Tables.v] ([transaction.rs]), [StorageTypes.v], [Admission.v]
      ([admission.rs]), [Jobs.v], [Notifications.v], [EventLog.v], [Store.v], [Bundles.v]
      and [Intake.v] ([mod.rs], [settlement.rs], [history.rs]).  A transaction takes the
      [Store] to the next one or fails and leaves it.
    - [api.rs] and [scheduler.rs]: [Funding.v], the deposit handler and the recovery of
      funding attempts, cut at the canister call in their middle; [admin.rs]: [Admin.v];
      [config.rs]: [Config.v]; the store transactions of [tasks.rs]: [StoreHistory.v].
    - [ledger.rs]: [Ledger.v], with [LedgerTruth.v] and [LedgerProgress.v].
    - [evm_rpc.rs]: [EvmDecode.v] (decoders) and [EvmRpc.v] (observations), with
      [EvmTruth.v]; [mint_authorization.rs]: [Eip712.v].

    The contracts, [contracts/src]: [BaseToken.v] ([BSNS.sol]) and [BaseBridge.v]
    ([Bridge.sol] and its libraries), with [BasePolicy.v], [BaseCalls.v], [BaseHistory.v],
    [BaseMints.v] and [BaseTheorems.v].

    Whole histories: [DepositRows.v], [WithdrawalRows.v], [IntakeRows.v] and
    [StoreInvariant.v] state the invariant of the store; [StoreSafety.v], [StoreHolds.v],
    [StorePayouts.v], [StoreIntake.v], [StoreFunding.v] and [StoreAdmin.v] prove that each
    message keeps it; [StoreHistory.v] composes the messages, [StoreRefinement.v] relates
    the store to the protocols, [StoreTheorems.v] states the results; [System.v] puts the
    canister and Base side by side.  [Examples.v] and [Scenario.v] are concrete records and
    a concrete history on which the theorems are evaluated.

    ** How the parts interact

    Messages of the canister and transactions on Base run in any order.  The canister acts
    on Base only by publishing signatures, and Base on the canister only through what the
    canister observes; both are explicit in [System.v].  Code that awaits another canister
    is a tree of calls ([EvmRpc.Obs], [Ledger.Calls]) whose answers are left open: a
    theorem quantifies over all of them, or over those a stated condition allows.

    ** What the theorems show

    - Both sides together ([System.v]): the escrow covers the supply on Base, the burns on
      their way, the open withdrawals and the fee reserve; a deposit is minted or refunded,
      never both; mints on Base and minted deposits in the books agree.
    - The store ([StoreTheorems.v]): its invariant holds in every reachable state; its
      accounts balance exactly; each message is steps of the abstract protocols, also when
      it fails half way; rows are final.
    - One deposit, withdrawal or hold ([DepositSafety.v], [WithdrawalSafety.v],
      [HoldSafety.v]): value is conserved along any history; [apply] and the resolvers
      accept exactly the steps of their protocols; refunds and mints need their evidence; a
      hold is resolved once.
    - The ledger ([LedgerTruth.v], [LedgerProgress.v]): the verdict of a scan is true of the
      log; a step is bounded; answers are classified as the ledger meant them; what was sent
      is recognised; the scan ends when the services answer.
    - Observations of Base ([EvmTruth.v], [EvmDecode.v], [Eip712.v]): with at most one faulty
      provider of three, what the canister records of Base is in a finalized block; decoders
      accept exactly the contract's encodings; both sides compute one digest, which binds
      the mint.
    - The contracts ([BaseTheorems.v], [BaseToken.v]): supply, mint rate, pauses, the mint
      call, withdrawals and the consent of token holders, after any history.
    - Storage services: exclusive and fenced leases ([Jobs.v]), bounded admission
      ([Admission.v]), the audit log ([EventLog.v]), valid configurations ([Config.v]).

    ** Conventions

    A Rust unsigned integer is a [Z] with the bound of its width; unchecked operators wrap,
    checked ones return an option.  A Solidity operation that leaves [uint256] reverts.
    Bytes are [list Z].  Fallible code returns [Result].  Rows are kept decoded, and a
    parameter [encode] says whether a value can be written.  Record fields carry a prefix;
    otherwise names are those of the source.

    Code outside the repository is a parameter: Keccak-256, SHA-256, JSON and other
    encoders, ECDSA recovery, the inherited ERC-20 (a class with the laws of its
    documentation), the EVM RPC canister, the ledger, its archives and the index.  Each
    theorem that assumes something of them is applied to concrete functions in its witness.

    ** Bounds and fuel

    Recursion is structural but for two functions.  [Ledger.reconcile_ledger] is the
    [loop] of its source with one unit of fuel per round; a round that goes on spends a
    call, so five rounds are enough for the four calls of a step, and it is proved that a
    step never runs out.  [EvmRpc.lower_hex_digits] prints a [u64], which has at most
    sixteen digits.

    ** Not modelled

    - [signer.rs], [base_governance.rs], [cycles_top_up.rs] and [consent.rs]: requests to
      the threshold signer, the administrator's own transactions on Base, cycle purchases
      and consent texts.  They surround the asset flow; what the asset flow needs of them
      (that a published signature is one the store recorded, that Base administrators may
      call anything) is an assumption of [System.v] or is left arbitrary.
    - The orchestration of [tasks.rs], [scheduler.rs], [lib.rs] and most of [api.rs]: timers,
      endpoints and response types.  Their store transactions are modelled and run in any
      order, which includes every order the scheduler produces.
    - The byte encodings of rows, schema migrations and the SQLite layer below [Tables.v].
    - [BridgeTimelockController.sol], which extends a library contract; the constructor of
      the bridge sees what it answers.
    - Response size estimates, cycles, time limits of calls; the mock services, tools and
      the user interface. *)

From Stdlib Require Export ZArith Lia.
From stdpp Require Export base tactics list strings option numbers gmap.

#[global] Open Scope Z_scope.

(** ** Machine integers

    A Rust unsigned integer of width [w] is a [Z]; its largest value is one of
    the constants below.  The release profile of the workspace does not enable
    overflow checks, so the unchecked operators [+], [-] and [*] wrap; the
    checked and saturating methods are the ones of [core]. *)

Abbreviation u8_max := 255.
Abbreviation u16_max := 65535.
Abbreviation u32_max := 4294967295.
Abbreviation u64_max := 18446744073709551615.
Abbreviation u128_max := 340282366920938463463374607431768211455.

Definition in_range (max x : Z) : Prop := 0 <= x <= max.

Abbreviation is_u8 := (in_range u8_max).
Abbreviation is_u16 := (in_range u16_max).
Abbreviation is_u32 := (in_range u32_max).
Abbreviation is_u64 := (in_range u64_max).
Abbreviation is_u128 := (in_range u128_max).

Definition wrap (max x : Z) : Z := x mod (max + 1).

Definition wrapping_add (max x y : Z) : Z := wrap max (x + y).
Definition wrapping_sub (max x y : Z) : Z := wrap max (x - y).
Definition wrapping_mul (max x y : Z) : Z := wrap max (x * y).

Definition checked_add (max x y : Z) : option Z :=
  if x + y <=? max then Some (x + y) else None.
Definition checked_sub (x y : Z) : option Z :=
  if y <=? x then Some (x - y) else None.
Definition saturating_add (max x y : Z) : Z := Z.min (x + y) max.
Definition saturating_sub (x y : Z) : Z := Z.max (x - y) 0.
Definition saturating_mul (max x y : Z) : Z := Z.min (x * y) max.

Declare Scope machine_scope.
Delimit Scope machine_scope with machine.
Notation "x +u8 y" := (wrapping_add u8_max x y)
  (at level 50, left associativity) : machine_scope.
Notation "x -u8 y" := (wrapping_sub u8_max x y)
  (at level 50, left associativity) : machine_scope.
Notation "x +u64 y" := (wrapping_add u64_max x y)
  (at level 50, left associativity) : machine_scope.
Notation "x -u64 y" := (wrapping_sub u64_max x y)
  (at level 50, left associativity) : machine_scope.
Notation "x *u64 y" := (wrapping_mul u64_max x y)
  (at level 40, left associativity) : machine_scope.
Notation "x +u128 y" := (wrapping_add u128_max x y)
  (at level 50, left associativity) : machine_scope.
Notation "x -u128 y" := (wrapping_sub u128_max x y)
  (at level 50, left associativity) : machine_scope.
Notation "x *u128 y" := (wrapping_mul u128_max x y)
  (at level 40, left associativity) : machine_scope.
#[global] Open Scope machine_scope.

(** ** Results *)

Inductive Result (E A : Type) : Type :=
| Ok (a : A)
| Err (e : E).
Arguments Ok {E A} a.
Arguments Err {E A} e.

(** The [?] operator: an error leaves the function with that error. *)
Notation "'let?' x ':=' c 'in' k" :=
  (match c with Ok x => k | Err e => Err e end)
  (at level 10, x pattern, c at level 200, k at level 200,
   format "'[v' 'let?'  x  ':='  c  'in' '//' k ']'").

Definition ok_or {E A} (o : option A) (e : E) : Result E A :=
  match o with Some a => Ok a | None => Err e end.

Definition is_ok {E A} (r : Result E A) : bool :=
  match r with Ok _ => true | Err _ => false end.

Definition result_map {E A B} (f : A -> B) (r : Result E A) : Result E B :=
  match r with Ok a => Ok (f a) | Err e => Err e end.

Definition map_err {E F A} (f : E -> F) (r : Result E A) : Result F A :=
  match r with Ok a => Ok a | Err e => Err (f e) end.

Definition is_some_and {A} (o : option A) (p : A -> bool) : bool :=
  match o with Some a => p a | None => false end.

Definition is_none {A} (o : option A) : bool :=
  match o with Some _ => false | None => true end.

Definition is_some {A} (o : option A) : bool := negb (is_none o).

Definition map_or {A B} (d : B) (f : A -> B) (o : option A) : B :=
  match o with Some a => f a | None => d end.

(** A byte string; [[u8; N]] is a byte string of length [N]. *)
Abbreviation bytes := (list Z).
Definition zeros (n : nat) : bytes := replicate n 0.
Definition is_byte (b : Z) : Prop := 0 <= b < 256.

(** The unsigned integer a big-endian byte string denotes. *)
Fixpoint be_value (l : bytes) : Z :=
  match l with
  | [] => 0
  | b :: l' => b * 256 ^ Z.of_nat (length l') + be_value l'
  end.

(** [to_be_bytes] of an [n]-byte integer. *)
Fixpoint to_be_bytes (n : nat) (x : Z) : bytes :=
  match n with
  | O => []
  | S n' => (x / 256 ^ Z.of_nat n') mod 256 :: to_be_bytes n' x
  end.

#[export] Instance Result_eq_dec `{EqDecision E, EqDecision A} :
  EqDecision (Result E A).
Proof. solve_decision. Defined.

(** ** Lemmas on machine integers *)

Lemma wrap_small max x : 0 <= x <= max -> wrap max x = x.
Proof. intros H. unfold wrap. apply Z.mod_small. lia. Qed.

Lemma wrap_range max x : 0 <= max -> in_range max (wrap max x).
Proof.
  intros H. unfold wrap, in_range.
  pose proof (Z.mod_pos_bound x (max + 1)). lia.
Qed.

Lemma wrapping_add_exact max x y :
  0 <= x + y <= max -> wrapping_add max x y = x + y.
Proof. apply wrap_small. Qed.

Lemma wrapping_sub_exact max x y :
  0 <= x - y <= max -> wrapping_sub max x y = x - y.
Proof. apply wrap_small. Qed.

Lemma wrapping_mul_exact max x y :
  0 <= x * y <= max -> wrapping_mul max x y = x * y.
Proof. apply wrap_small. Qed.

Lemma checked_add_Some max x y z :
  checked_add max x y = Some z <-> x + y <= max /\ z = x + y.
Proof. unfold checked_add. destruct (Z.leb_spec (x + y) max); naive_solver lia. Qed.

Lemma checked_add_None max x y : checked_add max x y = None <-> max < x + y.
Proof. unfold checked_add. case_match; split; intros; simplify_eq; done || lia. Qed.

Lemma checked_sub_Some x y z :
  checked_sub x y = Some z <-> y <= x /\ z = x - y.
Proof. unfold checked_sub. destruct (Z.leb_spec y x); naive_solver lia. Qed.

Lemma checked_sub_None x y : checked_sub x y = None <-> x < y.
Proof. unfold checked_sub. case_match; split; intros; simplify_eq; done || lia. Qed.

(** The no-overflow test [unit <= (max - floor) / count] used by the guards. *)
Lemma mul_fits max floor unit count :
  0 < count -> 0 <= unit -> unit <= (max - floor) / count <-> floor + unit * count <= max.
Proof.
  intros Hc Hu. split; intros H.
  - assert (count * ((max - floor) / count) <= max - floor) by (apply Z.mul_div_le; lia).
    nia.
  - apply Z.div_le_lower_bound; nia.
Qed.

(** ** Lemmas on results and options *)

Lemma ok_or_Ok {E A} (o : option A) (e : E) a : ok_or o e = Ok a <-> o = Some a.
Proof. destruct o; simpl; split; intros; simplify_eq; done. Qed.

Lemma Ok_inj {E A} (a b : A) : @Ok E A a = Ok b -> a = b.
Proof. by intros [= ->]. Qed.

Lemma ok_or_Err {E A} (o : option A) (e e' : E) :
  ok_or o e = Err e' <-> o = None /\ e = e'.
Proof. destruct o; simpl; naive_solver. Qed.

Lemma is_some_and_true {A} (o : option A) p :
  is_some_and o p = true <-> exists a, o = Some a /\ p a = true.
Proof. destruct o; simpl; naive_solver. Qed.

Lemma is_none_true {A} (o : option A) : is_none o = true <-> o = None.
Proof. destruct o; done. Qed.

Lemma is_some_true {A} (o : option A) : is_some o = true <-> exists a, o = Some a.
Proof. destruct o; simpl; naive_solver. Qed.

Lemma map_or_const {A B} (d : B) (o : option A) : map_or d (fun _ => d) o = d.
Proof. by destruct o. Qed.

(** ** Lemmas on byte strings *)

Lemma be_value_bounds l : Forall is_byte l -> 0 <= be_value l < 256 ^ Z.of_nat (length l).
Proof.
  induction 1 as [|b l Hb _ IH]; simpl; [lia|]. unfold is_byte in Hb.
  replace (Z.of_nat (S (length l))) with (Z.succ (Z.of_nat (length l))) by lia.
  rewrite Z.pow_succ_r by lia. nia.
Qed.

Lemma be_value_app l1 l2 :
  be_value (l1 ++ l2) = be_value l1 * 256 ^ Z.of_nat (length l2) + be_value l2.
Proof.
  induction l1 as [|b l1 IH]; simpl; [lia|].
  rewrite IH, length_app, Nat2Z.inj_add, Z.pow_add_r by lia. ring.
Qed.

Lemma be_value_zeros n : be_value (zeros n) = 0.
Proof. induction n; simpl; [done|]. unfold zeros in *. lia. Qed.

Lemma to_be_bytes_length n x : length (to_be_bytes n x) = n.
Proof. induction n; simpl; congruence. Qed.

Lemma to_be_bytes_byte n x : Forall is_byte (to_be_bytes n x).
Proof.
  induction n; simpl; constructor; [|done]. unfold is_byte.
  apply Z.mod_pos_bound. lia.
Qed.

Lemma be_value_to_be_bytes_mod n x : be_value (to_be_bytes n x) = x mod 256 ^ Z.of_nat n.
Proof.
  induction n as [|n IH]; [simpl; by rewrite Z.mod_1_r|].
  cbn [to_be_bytes be_value]. rewrite IH, to_be_bytes_length.
  replace (Z.of_nat (S n)) with (Z.succ (Z.of_nat n)) by lia.
  rewrite Z.pow_succ_r, (Z.mul_comm 256) by lia.
  rewrite (Z.rem_mul_r x (256 ^ Z.of_nat n) 256) by lia. ring.
Qed.

Lemma be_value_to_be_bytes n x :
  0 <= x < 256 ^ Z.of_nat n -> be_value (to_be_bytes n x) = x.
Proof. intros. rewrite be_value_to_be_bytes_mod. by apply Z.mod_small. Qed.

Lemma be_value_inj l1 l2 :
  Forall is_byte l1 -> Forall is_byte l2 -> length l1 = length l2 ->
  be_value l1 = be_value l2 -> l1 = l2.
Proof.
  intros H1. revert l2. induction H1 as [|b l1 Hb H1 IH]; intros [|c l2] H2 Hlen Hv; try done.
  apply Forall_cons_iff in H2 as [Hc H2]. simpl in *. injection Hlen as Hlen. rewrite Hlen in Hv.
  pose proof (be_value_bounds l1 H1). pose proof (be_value_bounds l2 H2).
  rewrite Hlen in *. unfold is_byte in *.
  assert (b = c) by nia. subst. f_equal. apply IH; [done|done|lia].
Qed.

(** ** Sums over finite maps *)

Definition map_sum {K V} `{Countable K} (f : V -> Z) (m : gmap K V) : Z :=
  map_fold (fun _ v acc => f v + acc) 0 m.

Section sums.
Context {K V : Type} `{Countable K}.
Implicit Types (f g : V -> Z) (m : gmap K V) (k : K) (v : V).

Lemma map_sum_empty f : map_sum f (∅ : gmap K V) = 0.
Proof. apply map_fold_empty. Qed.

Lemma map_sum_insert f m k v :
  m !! k = None -> map_sum f (<[k := v]> m) = f v + map_sum f m.
Proof. intros Hk. unfold map_sum. rewrite map_fold_insert_L; [done|intros; lia|done]. Qed.

Lemma map_sum_delete f m k v :
  m !! k = Some v -> map_sum f m = f v + map_sum f (delete k m).
Proof.
  intros Hk. rewrite <- (insert_delete_id m k v Hk) at 1.
  by rewrite map_sum_insert by apply lookup_delete_eq.
Qed.

Lemma map_sum_update f m k old v :
  m !! k = Some old -> map_sum f (<[k := v]> m) = map_sum f m - f old + f v.
Proof.
  intros Hk. rewrite (map_sum_delete f m k old Hk), <- insert_delete_eq.
  rewrite map_sum_insert by apply lookup_delete_eq. lia.
Qed.

Lemma map_sum_nonneg f m : (forall k v, m !! k = Some v -> 0 <= f v) -> 0 <= map_sum f m.
Proof.
  intros Hf. induction m as [|k v m Hk IH] using map_ind; [by rewrite map_sum_empty|].
  rewrite map_sum_insert by done. pose proof (Hf k v (lookup_insert_eq _ _ _)).
  enough (0 <= map_sum f m) by lia. apply IH. intros k' v' Hv. apply (Hf k').
  rewrite lookup_insert_ne; [done|]. by intros ->; rewrite Hk in Hv.
Qed.

Lemma map_sum_lookup_le f m k v :
  (forall k v, m !! k = Some v -> 0 <= f v) -> m !! k = Some v -> f v <= map_sum f m.
Proof.
  intros Hf Hk. rewrite (map_sum_delete f m k v Hk).
  enough (0 <= map_sum f (delete k m)) by lia. apply map_sum_nonneg.
  intros k' v' Hv. apply lookup_delete_Some in Hv as [_ Hv]. by apply (Hf k').
Qed.

Lemma map_sum_ext f g m :
  (forall k v, m !! k = Some v -> f v = g v) -> map_sum f m = map_sum g m.
Proof.
  intros Hf. induction m as [|k v m Hk IH] using map_ind; [done|].
  rewrite !map_sum_insert by done. rewrite (Hf k v (lookup_insert_eq _ _ _)). f_equal.
  apply IH. intros k' v' Hv. apply (Hf k'). rewrite lookup_insert_ne; [done|].
  by intros ->; rewrite Hk in Hv.
Qed.

Lemma map_sum_add f g m : map_sum (fun v => f v + g v) m = map_sum f m + map_sum g m.
Proof.
  induction m as [|k v m Hk IH] using map_ind; [by rewrite !map_sum_empty|].
  rewrite !map_sum_insert, IH by done. lia.
Qed.

(** Every row weighs at least as much, and one of them [gain] more. *)
Lemma map_sum_gain f g m k v gain :
  (forall k v, m !! k = Some v -> f v <= g v) -> m !! k = Some v -> f v + gain <= g v ->
  map_sum f m + gain <= map_sum g m.
Proof.
  intros Hle Hk Hgain.
  rewrite (map_sum_ext g (fun v => f v + (g v - f v))), map_sum_add by (intros; lia).
  enough (g v - f v <= map_sum (fun v => g v - f v) m) by lia.
  apply (map_sum_lookup_le (fun v => g v - f v) m k v); [|done].
  intros k' v' Hv'. specialize (Hle k' v' Hv'). lia.
Qed.

Lemma map_sum_mono f g m :
  (forall k v, m !! k = Some v -> f v <= g v) -> map_sum f m <= map_sum g m.
Proof.
  intros Hle. rewrite (map_sum_ext g (fun v => f v + (g v - f v))), map_sum_add by (intros; lia).
  enough (0 <= map_sum (fun v => g v - f v) m) by lia.
  apply map_sum_nonneg. intros k v Hv. specialize (Hle k v Hv). lia.
Qed.
End sums.

(** ** Automation *)

Create HintDb bridge.
Create Rewrite HintDb reflect.
#[export] Hint Rewrite andb_true_iff orb_true_iff negb_true_iff negb_false_iff
  andb_false_iff orb_false_iff
  Z.gtb_ltb Z.geb_leb Z.eqb_eq Z.eqb_neq Z.leb_le Z.leb_gt Z.ltb_lt Z.ltb_ge
  bool_decide_eq_true bool_decide_eq_false
  @is_none_true @is_some_true @is_some_and_true
  @ok_or_Ok @ok_or_Err : reflect.

(** Turn boolean hypotheses (or the goal) into the propositions they decide. *)
Ltac reflect := autorewrite with reflect in *.

(** Open conjunctions and existentials of the hypotheses. *)
Ltac open_hyps :=
  repeat match goal with
         | H : _ /\ _ |- _ => destruct H
         | H : exists _, _ |- _ => destruct H
         end.

(** Follow a [let?] that succeeded: name its value and keep the equation. *)
Tactic Notation "bind" hyp(H) "as" simple_intropattern(x) ident(E) :=
  match type of H with
  | match ?c with Ok _ => _ | Err _ => _ end = Ok _ => destruct c as [x|] eqn:E; [|discriminate H]
  end.

(** Open the range hypotheses. *)
Ltac ranges := unfold in_range in *.

(** Remove the wrapping operators whose exact result fits their width. *)
Ltac exact_step :=
  match goal with
  | |- context [wrapping_add ?m ?x ?y] => rewrite (wrapping_add_exact m x y) by (ranges; lia)
  | |- context [wrapping_sub ?m ?x ?y] => rewrite (wrapping_sub_exact m x y) by (ranges; lia)
  | H : context [wrapping_add ?m ?x ?y] |- _ => rewrite (wrapping_add_exact m x y) in H by (ranges; lia)
  | H : context [wrapping_sub ?m ?x ?y] |- _ => rewrite (wrapping_sub_exact m x y) in H by (ranges; lia)
  end.
Ltac exact_arith := repeat exact_step.

(** Case analysis on every [match] of the goal or of the hypotheses, with the
    arithmetic made exact as soon as the guards allow it. *)
Ltac guard_step :=
  first
    [ progress simplify_eq/=
    | exact_step
    | case_match; reflect
    | done ].
Ltac guards := repeat guard_step.

(** Close a goal about guarded arithmetic. *)
Ltac num_close := try solve [repeat first [done | lia | f_equal]].
Ltac guarded := intros; ranges; guards; num_close.
