(* ===== verification/KernelArith.v ===== *)
(** * Numeric decisions of the kernel

    The arithmetic part of [canister/bridge-core/src/kernel.rs]: counters and
    generations, capacity and cycle requirements, settlement amounts, deposit
    admission, reservations and fee payouts.  Each [*_body] is the expression
    macro of that name and the function below it instantiates it, as in the
    source.  The unchecked operators wrap at the width of the operands; the
    lemmas show that the guards keep every one of them exact. *)

From S2P Require Import Prelude.

(** ** Counters, attempts and generations *)

Definition next_attempt_body (attempt max one : Z) : option Z :=
  if attempt =? max then None else Some (attempt +u64 one).

Definition next_attempt (attempt : Z) : option Z := next_attempt_body attempt u64_max 1.
Definition refresh_generation_next (current : Z) : option Z := next_attempt_body current u64_max 1.
Definition lease_generation_next (current : Z) : option Z := next_attempt_body current u64_max 1.
Definition audit_next (current : Z) : option Z := next_attempt_body current u64_max 1.

Definition counter_delta_body (was is_ : bool) (zero one minus_one : Z) : Z :=
  if eqb was is_ then zero else if is_ then one else minus_one.

Definition counter_delta (was_active is_active : bool) : Z :=
  counter_delta_body was_active is_active 0 1 (-1).

Definition checked_counter_transition (current : Z) (was_active is_active : bool) : option Z :=
  let delta := counter_delta was_active is_active in
  if delta =? 1 then next_attempt_body current u64_max 1
  else if (delta =? -1) && (current =? 0) then None
  else if delta =? -1 then Some (current -u64 1)
  else Some current.

Definition settlement_failure_count
    (current : Z) (automatic_lane retryable_failure progress_or_deferred : bool) : Z :=
  if progress_or_deferred then 0
  else if automatic_lane && retryable_failure then saturating_add u8_max current 1
  else current.

Definition automatic_retry_allowed_body
    (automatic_lane : bool) (consecutive_failures failure_limit : Z) : bool :=
  automatic_lane && (consecutive_failures <? failure_limit).

Definition automatic_retry_allowed
    (automatic_lane : bool) (consecutive_failures failure_limit : Z) : bool :=
  automatic_retry_allowed_body automatic_lane consecutive_failures failure_limit.

(** ** Notification quotas *)

Definition notification_quota_acquire_body (global caller lane limit one : Z) : option (Z * Z) :=
  if (global >=? lane) || (caller >=? limit) then None
  else Some (global +u8 one, caller +u8 one).

Definition notification_quota_acquire (global caller lane_limit caller_limit : Z) : option (Z * Z) :=
  notification_quota_acquire_body global caller lane_limit caller_limit 1.

Definition notification_quota_release_body (count zero one : Z) : Z :=
  if count =? zero then zero else count -u8 one.

Definition notification_quota_release (count : Z) : Z :=
  notification_quota_release_body count 0 1.

Definition notification_reservation_slots_body (active max two : Z) : option Z :=
  if active >? max / two then None else Some (active *u64 two).

Definition notification_reservation_slots (active : Z) : option Z :=
  notification_reservation_slots_body active u64_max 2.

Definition notification_reservation_excluding_owner_body
    (total : Z) (owner : bool) (two zero : Z) : option Z :=
  if owner && (total <? two) then None
  else Some (total -u64 (if owner then two else zero)).

Definition notification_reservation_excluding_owner (total : Z) (owner_poll : bool) : option Z :=
  notification_reservation_excluding_owner_body total owner_poll 2 0.

Definition nonterminal_deposit_reservation_count_body (indexed funding : Z) : option Z :=
  if indexed <? funding then None else Some (indexed -u64 funding).

Definition nonterminal_deposit_reservation_count (indexed funding : Z) : option Z :=
  nonterminal_deposit_reservation_count_body indexed funding.

Definition notification_poll_owner_body (previous entering : bool) : bool :=
  previous || entering.

Definition notification_poll_owner (previous entering : bool) : bool :=
  notification_poll_owner_body previous entering.

Definition notification_admission_body
    (global_count caller_count global_limit caller_limit : Z) : bool :=
  (global_count <? global_limit) && (caller_count <? caller_limit).

Definition notification_admission_allowed
    (global_count caller_count global_limit caller_limit : Z) : bool :=
  notification_admission_body global_count caller_count global_limit caller_limit.

Definition notification_ingestion_allowed (ingestion_count ingestion_limit : Z) : bool :=
  ingestion_count <? ingestion_limit.

Definition notification_failure_cooldown_active_body
    (hash_matches : bool) (now_ns retry_after_ns : Z) : bool :=
  hash_matches && (now_ns <? retry_after_ns).

Definition notification_failure_cooldown_active
    (hash_matches : bool) (now_ns retry_after_ns : Z) : bool :=
  notification_failure_cooldown_active_body hash_matches now_ns retry_after_ns.

(** ** Cycle and wei requirements *)

Definition checked_requirement_body (floor unit count max zero : Z) : option Z :=
  if negb (count =? zero) && (unit >? (max -u128 floor) / count) then None
  else Some (floor +u128 (unit *u128 count)).

Definition checked_requirement (floor unit count : Z) : option Z :=
  checked_requirement_body floor unit count u128_max 0.

Definition signing_cycle_requirement_body
    (required_reserve signing_cost call_margin max : Z) : option Z :=
  if signing_cost >? max -u128 required_reserve then None
  else
    let reserve_and_signing := required_reserve +u128 signing_cost in
    if call_margin >? max -u128 reserve_and_signing then None
    else Some (reserve_and_signing +u128 call_margin).

Definition signing_cycle_requirement (required_reserve signing_cost call_margin : Z) : option Z :=
  signing_cycle_requirement_body required_reserve signing_cost call_margin u128_max.

Definition paid_call_cycle_requirement
    (required_reserve attached_cycles call_margin : Z) : option Z :=
  signing_cycle_requirement_body required_reserve attached_cycles call_margin u128_max.

Definition governance_affordability_body (finalized safe required : Z) : Z * bool :=
  let observed := if finalized <=? safe then finalized else safe in
  (observed, observed >=? required).

Definition governance_affordability_decision
    (finalized_wei safe_wei required_wei : Z) : Z * bool :=
  governance_affordability_body finalized_wei safe_wei required_wei.

Definition transaction_liability_body
    (gas_limit max_fee_per_gas l1_fee value max zero : Z) : option Z :=
  if value >? max -u128 l1_fee then None
  else
    let fixed := l1_fee +u128 value in
    if negb (gas_limit =? zero) && (max_fee_per_gas >? (max -u128 fixed) / gas_limit) then None
    else Some (fixed +u128 (gas_limit *u128 max_fee_per_gas)).

Definition transaction_liability_wei
    (gas_limit max_fee_per_gas l1_fee_upper_bound_wei transaction_value : Z) : option Z :=
  transaction_liability_body gas_limit max_fee_per_gas l1_fee_upper_bound_wei
    transaction_value u128_max 0.

Definition cycles_top_up_request_allowed_body
    (balance threshold : Z) (in_progress authorized : bool) : bool :=
  authorized && negb in_progress && (balance <=? threshold).

Definition cycles_top_up_request_allowed
    (balance threshold : Z) (in_progress authorized : bool) : bool :=
  cycles_top_up_request_allowed_body balance threshold in_progress authorized.

(** ** Settlement *)

Definition release_transfer_matches_body
    (transfer_amount transfer_fee amount_out ledger_fee : Z) : bool :=
  (transfer_amount =? amount_out) && (transfer_fee =? ledger_fee).

Definition release_transfer_matches
    (transfer_amount transfer_fee amount_out ledger_fee : Z) : bool :=
  release_transfer_matches_body transfer_amount transfer_fee amount_out ledger_fee.

Definition committed_quote_matches_body (amount amount_out service_fee max : Z) : bool :=
  (service_fee <? amount)
  && (amount_out <=? max -u128 service_fee)
  && (amount_out +u128 service_fee =? amount).

Definition committed_quote_matches (amount amount_out service_fee : Z) : bool :=
  committed_quote_matches_body amount amount_out service_fee u128_max.

Definition outbound_settlement_body
    (amount_out ledger_fee service_fee max : Z) : option (Z * Z * Z) :=
  if (ledger_fee >? service_fee)
     || (amount_out >? max -u128 ledger_fee)
     || (amount_out >? max -u128 service_fee)
  then None
  else Some (amount_out +u128 ledger_fee, service_fee -u128 ledger_fee,
             amount_out +u128 service_fee).

Definition outbound_settlement (amount_out ledger_fee service_fee : Z) : option (Z * Z * Z) :=
  outbound_settlement_body amount_out ledger_fee service_fee u128_max.

Record SettlementDecision := {
  sd_escrow_debit : Z;
  sd_reserve_credit : Z;
  sd_liability_debit : Z;
}.

Definition settlement_decision (amount_out ledger_fee service_fee : Z) : option SettlementDecision :=
  match outbound_settlement_body amount_out ledger_fee service_fee u128_max with
  | Some (escrow_debit, reserve_credit, liability_debit) =>
      Some {| sd_escrow_debit := escrow_debit;
              sd_reserve_credit := reserve_credit;
              sd_liability_debit := liability_debit |}
  | None => None
  end.

Definition deposit_refund_body (gross service_fee ledger_fee : Z) : option Z :=
  if (gross <=? service_fee) || (gross -u128 service_fee <=? ledger_fee) then None
  else Some (gross -u128 service_fee -u128 ledger_fee).

Definition deposit_refund_amount (gross service_fee ledger_fee : Z) : option Z :=
  deposit_refund_body gross service_fee ledger_fee.

(** ** Deposit admission and reservations *)

Definition mint_admission_total_body (consumed reserved candidate max : Z) : option Z :=
  if (reserved >? max) || (consumed >? max -u128 reserved) then None
  else
    let committed := consumed +u128 reserved in
    if candidate >? max -u128 committed then None
    else Some (committed +u128 candidate).

Definition mint_admission_total (consumed reserved candidate : Z) : option Z :=
  mint_admission_total_body consumed reserved candidate u128_max.

Record DepositAdmissionDecision := {
  dad_net_amount : Z;
  dad_next_window_total : Z;
}.

Definition deposit_admission_decision
    (gross_amount service_fee maximum_service_fee per_deposit_limit
     consumed reserved window_limit : Z) : option DepositAdmissionDecision :=
  if (service_fee >? maximum_service_fee) || (service_fee >=? gross_amount) then None
  else
    let net_amount := gross_amount -u128 service_fee in
    if (net_amount >? per_deposit_limit)
       || (consumed >? u128_max -u128 reserved)
       || (consumed +u128 reserved >? u128_max -u128 net_amount)
    then None
    else
      let next_window_total := consumed +u128 reserved +u128 net_amount in
      if next_window_total <=? window_limit
      then Some {| dad_net_amount := net_amount;
                   dad_next_window_total := next_window_total |}
      else None.

Record ReservationDecision := {
  rd_reserved : Z;
  rd_candidate : Z;
}.

Definition reservation_decision (before_reserved candidate : Z) : option ReservationDecision :=
  if before_reserved >? u128_max -u128 candidate then None
  else Some {| rd_reserved := before_reserved +u128 candidate; rd_candidate := 0 |}.

Definition reserve_admission_preserves_requirement
    (before_reserved before_candidate after_reserved after_candidate : Z) : bool :=
  match checked_add u128_max before_reserved before_candidate,
        checked_add u128_max after_reserved after_candidate with
  | Some before, Some after => before =? after
  | _, _ => false
  end.

Definition service_fee_change_allowed_body
    (service_fee minimum_service_fee maximum_service_fee : Z) : bool :=
  (minimum_service_fee <=? service_fee) && (service_fee <=? maximum_service_fee).

Definition service_fee_change_allowed
    (service_fee minimum_service_fee maximum_service_fee : Z) : bool :=
  service_fee_change_allowed_body service_fee minimum_service_fee maximum_service_fee.

(** ** Fee payouts *)

Definition fee_payout_capacity_body (reserve pending fee zero : Z) : Z :=
  if pending >? reserve then zero
  else if reserve -u128 pending <=? fee then zero
  else reserve -u128 pending -u128 fee.

Definition fee_payout_capacity (reserve pending fee : Z) : Z :=
  fee_payout_capacity_body reserve pending fee 0.

Definition payout_allowed_body (reserve pending amount fee max : Z) : bool :=
  if amount >? max -u128 fee then false
  else
    let debit := amount +u128 fee in
    (pending <=? reserve) && (debit <=? reserve -u128 pending).

Definition payout_allowed (reserve pending amount fee : Z) : bool :=
  payout_allowed_body reserve pending amount fee u128_max.

Record PayoutDecision := { pd_debit : Z }.

Definition payout_decision
    (reserve pending amount fee : Z) (confirmed_first_time : bool) : option PayoutDecision :=
  if (pending >? reserve)
     || (amount >? u128_max -u128 fee)
     || (amount +u128 fee >? reserve -u128 pending)
  then None
  else Some {| pd_debit := if confirmed_first_time then amount +u128 fee else 0 |}.

Definition payout_debit (confirmed_first_time : bool) (amount fee : Z) : option Z :=
  if negb confirmed_first_time then Some 0
  else if amount >? u128_max -u128 fee then None
  else Some (amount +u128 fee).

Definition fee_recipient_rotation_allowed_body (pending_payout_debit zero : Z) : bool :=
  pending_payout_debit =? zero.

Definition fee_recipient_rotation_allowed (pending_payout_debit : Z) : bool :=
  fee_recipient_rotation_allowed_body pending_payout_debit 0.

(** ** What the guards guarantee

    Each lemma gives the exact integer the function returns on inputs of its
    width; none of the wrapping operators ever wraps. *)

Lemma next_attempt_body_spec n :
  is_u64 n -> next_attempt_body n u64_max 1 = if n =? u64_max then None else Some (n + 1).
Proof. unfold next_attempt_body. guarded. Qed.

Lemma checked_counter_transition_spec n was now_ :
  is_u64 n ->
  checked_counter_transition n was now_ =
    let n' := n + Z.b2z now_ - Z.b2z was in
    if (n' <? 0) || (n' >? u64_max) then None else Some n'.
Proof.
  unfold checked_counter_transition, counter_delta, counter_delta_body, next_attempt_body.
  destruct was, now_; simpl; guarded.
Qed.

Lemma outbound_settlement_spec out lf sf :
  is_u128 out -> is_u128 lf -> is_u128 sf ->
  outbound_settlement out lf sf =
    if (lf <=? sf) && (out + sf <=? u128_max)
    then Some (out + lf, sf - lf, out + sf) else None.
Proof. unfold outbound_settlement, outbound_settlement_body. guarded. Qed.

Lemma settlement_decision_spec out lf sf :
  is_u128 out -> is_u128 lf -> is_u128 sf ->
  settlement_decision out lf sf =
    if (lf <=? sf) && (out + sf <=? u128_max)
    then Some {| sd_escrow_debit := out + lf; sd_reserve_credit := sf - lf;
                 sd_liability_debit := out + sf |}
    else None.
Proof.
  intros H1 H2 H3. pose proof (outbound_settlement_spec out lf sf H1 H2 H3) as E.
  unfold outbound_settlement in E. unfold settlement_decision. rewrite E. by case_match.
Qed.

Lemma committed_quote_matches_spec amount out sf :
  is_u128 amount -> is_u128 out -> is_u128 sf ->
  committed_quote_matches amount out sf = (0 <? out) && (out + sf =? amount).
Proof.
  unfold committed_quote_matches, committed_quote_matches_body. intros.
  ranges. exact_arith.
  destruct (Z.ltb_spec sf amount), (Z.leb_spec out (u128_max - sf)); simpl; exact_arith; lia.
Qed.

Lemma deposit_refund_amount_spec gross sf lf :
  is_u128 gross -> is_u128 sf -> is_u128 lf ->
  deposit_refund_amount gross sf lf =
    if sf + lf <? gross then Some (gross - sf - lf) else None.
Proof. unfold deposit_refund_amount, deposit_refund_body. guarded. Qed.

Lemma mint_admission_total_spec consumed reserved candidate :
  is_u128 consumed -> is_u128 reserved -> is_u128 candidate ->
  mint_admission_total consumed reserved candidate =
    if consumed + reserved + candidate <=? u128_max
    then Some (consumed + reserved + candidate) else None.
Proof. unfold mint_admission_total, mint_admission_total_body. guarded. Qed.

Lemma deposit_admission_decision_spec gross sf max_sf limit consumed reserved window :
  is_u128 gross -> is_u128 sf -> is_u128 consumed -> is_u128 reserved -> is_u128 window ->
  deposit_admission_decision gross sf max_sf limit consumed reserved window =
    if (sf <=? max_sf) && (sf <? gross) && (gross - sf <=? limit)
       && (consumed + reserved + (gross - sf) <=? window)
    then Some {| dad_net_amount := gross - sf;
                 dad_next_window_total := consumed + reserved + (gross - sf) |}
    else None.
Proof. unfold deposit_admission_decision. guarded. Qed.

Lemma checked_requirement_spec floor unit count :
  is_u128 floor -> is_u128 unit -> is_u128 count ->
  checked_requirement floor unit count =
    if floor + unit * count <=? u128_max then Some (floor + unit * count) else None.
Proof.
  unfold checked_requirement, checked_requirement_body. intros Hf Hu Hc. ranges. exact_arith.
  destruct (Z.eqb_spec count 0) as [->|Hne]; simpl.
  { rewrite wrapping_mul_exact by lia. exact_arith. guarded. }
  rewrite Z.gtb_ltb. pose proof (mul_fits u128_max floor unit count ltac:(lia) ltac:(lia)) as Hfit.
  destruct (Z.ltb_spec ((u128_max - floor) / count) unit); guarded.
  rewrite wrapping_mul_exact in * by nia. guarded.
Qed.

Lemma signing_cycle_requirement_spec reserve cost margin :
  is_u128 reserve -> is_u128 cost -> is_u128 margin ->
  signing_cycle_requirement reserve cost margin =
    if reserve + cost + margin <=? u128_max then Some (reserve + cost + margin) else None.
Proof. unfold signing_cycle_requirement, signing_cycle_requirement_body. guarded. Qed.

Lemma transaction_liability_wei_spec gas fee l1 value :
  is_u128 gas -> is_u128 fee -> is_u128 l1 -> is_u128 value ->
  transaction_liability_wei gas fee l1 value =
    if l1 + value + gas * fee <=? u128_max then Some (l1 + value + gas * fee) else None.
Proof.
  unfold transaction_liability_wei, transaction_liability_body. intros Hg Hf Hl Hv. ranges.
  exact_arith. rewrite !Z.gtb_ltb.
  destruct (Z.ltb_spec (u128_max - l1) value); [guarded; nia|]. exact_arith.
  destruct (Z.eqb_spec gas 0) as [->|Hne]; simpl.
  { rewrite wrapping_mul_exact by lia. exact_arith. guarded. }
  pose proof (mul_fits u128_max (l1 + value) fee gas ltac:(lia) ltac:(lia)) as Hfit.
  destruct (Z.ltb_spec ((u128_max - (l1 + value)) / gas) fee); [guarded; nia|].
  rewrite wrapping_mul_exact by nia. rewrite wrapping_add_exact by nia.
  guarded; nia.
Qed.

Lemma payout_allowed_spec reserve pending amount fee :
  is_u128 reserve -> is_u128 pending -> is_u128 amount -> is_u128 fee ->
  payout_allowed reserve pending amount fee = (pending + amount + fee <=? reserve).
Proof.
  unfold payout_allowed, payout_allowed_body.
  destruct (Z.leb_spec pending reserve); guarded.
Qed.

Lemma payout_decision_spec reserve pending amount fee first :
  is_u128 reserve -> is_u128 pending -> is_u128 amount -> is_u128 fee ->
  payout_decision reserve pending amount fee first =
    if pending + amount + fee <=? reserve
    then Some {| pd_debit := if first then amount + fee else 0 |} else None.
Proof. unfold payout_decision. guarded. Qed.

(** An accepted payout is covered, whatever the reserve and the debit are. *)
Lemma payout_decision_covers reserve pending amount fee first d :
  is_u128 amount -> is_u128 fee -> payout_decision reserve pending amount fee first = Some d ->
  pending + amount + fee <= reserve.
Proof.
  unfold payout_decision. ranges. intros Ha Hf H.
  rewrite (wrapping_sub_exact u128_max) in H by lia.
  destruct (Z.gtb_spec pending reserve); [done|].
  destruct (Z.gtb_spec amount (u128_max - fee)); [done|]. rewrite wrapping_add_exact in H by lia.
  destruct (Z.gtb_spec (amount + fee) (reserve -u128 pending)) as [|Hle]; [done|].
  unfold wrapping_sub, wrap in Hle. pose proof (Z.mod_le (reserve - pending) (u128_max + 1)). lia.
Qed.

Lemma fee_payout_capacity_spec reserve pending fee :
  is_u128 reserve -> is_u128 pending -> is_u128 fee ->
  fee_payout_capacity reserve pending fee = Z.max 0 (reserve - pending - fee).
Proof. unfold fee_payout_capacity, fee_payout_capacity_body. guarded. Qed.

(** ** Properties *)

(** Settlement.  A settlement is decided exactly when the service fee covers
    the ledger fee and the total fits 128 bits; it then conserves value: what
    leaves the escrow plus what the reserve gains is the liability that is
    closed, and no intermediate sum wraps. *)
Theorem settlement_conserves amount_out ledger_fee service_fee :
  is_u128 amount_out -> is_u128 ledger_fee -> is_u128 service_fee ->
  match settlement_decision amount_out ledger_fee service_fee with
  | Some d =>
      ledger_fee <= service_fee /\ amount_out + service_fee <= u128_max /\
      sd_escrow_debit d = amount_out + ledger_fee /\
      sd_liability_debit d = amount_out + service_fee /\
      sd_escrow_debit d + sd_reserve_credit d = sd_liability_debit d /\ 0 <= sd_reserve_credit d
  | None => service_fee < ledger_fee \/ u128_max < amount_out + service_fee
  end.
Proof.
  intros. rewrite settlement_decision_spec by done. ranges.
  destruct (Z.leb_spec ledger_fee service_fee), (Z.leb_spec (amount_out + service_fee) u128_max);
    cbn [andb sd_escrow_debit sd_reserve_credit sd_liability_debit]; lia.
Qed.

Lemma settlement_conserves_witness :
  match settlement_decision 480 10 20 with
  | Some d => sd_escrow_debit d + sd_reserve_credit d = sd_liability_debit d
  | None => False
  end.
Proof.
  destruct (settlement_conserves 480 10 20 ltac:(ranges; lia) ltac:(ranges; lia)
    ltac:(ranges; lia)) as (_ & _ & _ & _ & H & _). exact H.
Defined.

(** Fee payouts.  The three forms of the payout rule agree: a payout is
    allowed, decided and, for a positive amount, within the reported capacity
    exactly when pending debits, amount and fee together fit the reserve.  The
    reserve is debited amount plus fee the first time the payout is confirmed
    and nothing on a later confirmation. *)
Theorem payout_rules_agree reserve pending amount fee first :
  is_u128 reserve -> is_u128 pending -> is_u128 amount -> is_u128 fee ->
  (payout_allowed reserve pending amount fee = true <-> pending + amount + fee <= reserve) /\
  (0 < amount ->
     (payout_allowed reserve pending amount fee = true <->
      amount <= fee_payout_capacity reserve pending fee)) /\
  (payout_decision reserve pending amount fee first =
     if payout_allowed reserve pending amount fee
     then (fun debit => {| pd_debit := debit |}) <$> payout_debit first amount fee else None) /\
  (payout_allowed reserve pending amount fee = true ->
     payout_debit first amount fee = Some (if first then amount + fee else 0)).
Proof.
  intros Hr Hp Ha Hf. rewrite payout_allowed_spec, payout_decision_spec, fee_payout_capacity_spec
    by done. unfold payout_debit. ranges.
  destruct (Z.leb_spec (pending + amount + fee) reserve); (split_and!; [lia|lia|..]).
  - destruct first; simpl; [|done]. exact_arith. rewrite Z.gtb_ltb.
    rewrite (proj2 (Z.ltb_ge _ _)) by lia. done.
  - intros _. destruct first; simpl; [|done]. exact_arith. rewrite Z.gtb_ltb.
    by rewrite (proj2 (Z.ltb_ge _ _)) by lia.
  - done.
  - done.
Qed.

Lemma payout_rules_agree_witness :
  payout_allowed 1000 100 300 10 = true /\ payout_debit true 300 10 = Some 310.
Proof.
  destruct (payout_rules_agree 1000 100 300 10 true ltac:(ranges; lia) ltac:(ranges; lia)
    ltac:(ranges; lia) ltac:(ranges; lia)) as (H & _ & _ & Hd).
  assert (payout_allowed 1000 100 300 10 = true) as Ha by (apply H; lia).
  split; [exact Ha|exact (Hd Ha)].
Defined.

(** Requirements.  The cycle and wei requirements are exact: each is the
    integer sum of its parts when that fits 128 bits and is refused otherwise,
    for every input. *)
Theorem requirements_exact a b c d :
  is_u128 a -> is_u128 b -> is_u128 c -> is_u128 d ->
  let exact total := if total <=? u128_max then Some total else None in
  checked_requirement a b c = exact (a + b * c) /\
  signing_cycle_requirement a b c = exact (a + b + c) /\
  paid_call_cycle_requirement a b c = exact (a + b + c) /\
  transaction_liability_wei a b c d = exact (c + d + a * b) /\
  mint_admission_total a b c = exact (a + b + c).
Proof.
  intros. split_and!; [by apply checked_requirement_spec|by apply signing_cycle_requirement_spec
    |by apply signing_cycle_requirement_spec|by apply transaction_liability_wei_spec
    |by apply mint_admission_total_spec].
Qed.

Lemma requirements_exact_witness :
  checked_requirement 5 7 3 = Some 26 /\ transaction_liability_wei 21000 2 9 1 = Some 42010.
Proof.
  destruct (requirements_exact 5 7 3 0 ltac:(ranges; lia) ltac:(ranges; lia)
    ltac:(ranges; lia) ltac:(ranges; lia)) as (H & _).
  destruct (requirements_exact 21000 2 9 1 ltac:(ranges; lia) ltac:(ranges; lia)
    ltac:(ranges; lia) ltac:(ranges; lia)) as (_ & _ & _ & H' & _).
  split; [exact H|exact H'].
Defined.

(** Deposit admission.  A deposit is admitted exactly when the fee is within
    the limit and below the gross amount, the net amount is within the limit per
    deposit, and consumed, reserved and net amounts together are within the
    window; the decision returns that net amount and total, and what a refund
    would return after it is the gross less both fees. *)
Theorem deposit_admission_within_limits gross fee max_fee limit consumed reserved window :
  is_u128 gross -> is_u128 fee -> is_u128 consumed -> is_u128 reserved -> is_u128 window ->
  match deposit_admission_decision gross fee max_fee limit consumed reserved window with
  | Some d =>
      fee <= max_fee /\ 0 < dad_net_amount d <= limit /\ dad_net_amount d + fee = gross /\
      dad_next_window_total d = consumed + reserved + dad_net_amount d /\
      dad_next_window_total d <= window /\
      forall ledger_fee, is_u128 ledger_fee ->
        deposit_refund_amount gross fee ledger_fee =
          if ledger_fee <? dad_net_amount d then Some (dad_net_amount d - ledger_fee) else None
  | None =>
      max_fee < fee \/ gross <= fee \/ limit < gross - fee \/
      window < consumed + reserved + (gross - fee)
  end.
Proof.
  intros. rewrite deposit_admission_decision_spec by done. ranges.
  destruct (Z.leb_spec fee max_fee), (Z.ltb_spec fee gross), (Z.leb_spec (gross - fee) limit),
    (Z.leb_spec (consumed + reserved + (gross - fee)) window);
    cbn [andb dad_net_amount dad_next_window_total]; try lia.
  split_and!; try lia. intros ledger_fee Hl.
  rewrite deposit_refund_amount_spec by (ranges; lia).
  destruct (Z.ltb_spec (fee + ledger_fee) gross), (Z.ltb_spec ledger_fee (gross - fee)); done || lia.
Qed.

Lemma deposit_admission_within_limits_witness :
  match deposit_admission_decision 1000 50 60 5000 700 300 9000 with
  | Some d => dad_net_amount d + 50 = 1000 /\ dad_next_window_total d <= 9000
  | None => False
  end.
Proof.
  destruct (deposit_admission_within_limits 1000 50 60 5000 700 300 9000 ltac:(ranges; lia)
    ltac:(ranges; lia) ltac:(ranges; lia) ltac:(ranges; lia) ltac:(ranges; lia))
    as (_ & _ & H1 & _ & H2 & _).
  split; [exact H1|exact H2].
Defined.
