(* ===== verification/KernelPolicy.v ===== *)
(** * Boolean policies of the kernel

    The authority, lifecycle, evidence, lease and funding decisions of
    [canister/bridge-core/src/kernel.rs].  Numeric codes of the source (phases,
    actions, outcome kinds) stay numbers; the constructors of an enum carry a
    prefix because several enums of the source share variant names. *)

From S2P Require Import Prelude.

(** ** Fee payouts and SNS governance *)

Definition sns_fee_payout_authorized_body
    (governance operational positive recipient identity : bool) : bool :=
  governance && operational && positive && recipient && identity.

Definition sns_fee_payout_authorized
    (governance operational positive recipient identity : bool) : bool :=
  sns_fee_payout_authorized_body governance operational positive recipient identity.

Definition sns_upgrade_completion_allowed_body
    (root : bool) (completed decided handover now zero : Z) : bool :=
  root && (decided >? zero) && (completed >=? decided) && (completed >=? handover)
  && (completed <=? now).

Definition sns_upgrade_completion_allowed
    (root_caller : bool) (completed decided handover now : Z) : bool :=
  sns_upgrade_completion_allowed_body root_caller completed decided handover now 0.

Definition sns_activation_proposal_allowed_body
    (activated paused predecessor schedule pending last_schedule : bool) : bool :=
  activated && paused && predecessor && negb (eqb pending schedule)
  && (schedule || last_schedule).

Definition sns_activation_proposal_allowed
    (activated paused predecessor_matches schedule pending_timelock last_was_schedule : bool)
    : bool :=
  sns_activation_proposal_allowed_body activated paused predecessor_matches schedule
    pending_timelock last_was_schedule.

Inductive FeeRecipientRotationDecision :=
| FeeRotation_Allow
| FeeRotation_Unauthorized
| FeeRotation_InvalidInput
| FeeRotation_Busy.

Definition fee_recipient_rotation_decision_body
    (authorized anonymous role_collision valid_subaccount no_pending : bool)
    (allow unauthorized invalid busy : FeeRecipientRotationDecision)
    : FeeRecipientRotationDecision :=
  if anonymous || negb valid_subaccount then invalid
  else if negb authorized then unauthorized
  else if role_collision then invalid
  else if negb no_pending then busy
  else allow.

Definition fee_recipient_rotation_decision
    (authorized anonymous role_collision : bool)
    (subaccount_len pending_payout_debit : Z) : FeeRecipientRotationDecision :=
  fee_recipient_rotation_decision_body authorized anonymous role_collision
    ((subaccount_len =? 0) || (subaccount_len =? 32))
    (pending_payout_debit =? 0)
    FeeRotation_Allow FeeRotation_Unauthorized FeeRotation_InvalidInput FeeRotation_Busy.

(** ** Administrators and confirmation roles *)

Definition authorized_body
    (action : Z) (pause governance : bool)
    (pause_action resume_action payout_action rotate_action : Z) : bool :=
  ((action =? pause_action) && pause)
  || (((action =? payout_action) || (action =? resume_action) || (action =? rotate_action))
      && governance).

Definition administrator_authorized (action : Z) (is_pause is_governance : bool) : bool :=
  authorized_body action is_pause is_governance 0 1 2 3.

Definition confirmation_caller_authorized_body
    (non_anonymous relayer governance pause : bool) : bool :=
  non_anonymous && (relayer || governance || pause).

Definition confirmation_caller_authorized
    (non_anonymous relayer governance pause : bool) : bool :=
  confirmation_caller_authorized_body non_anonymous relayer governance pause.

Definition confirmation_roles_distinct_body
    (relayer_governance relayer_pause governance_pause allow_staging : bool) : bool :=
  negb governance_pause && negb relayer_pause && (allow_staging || negb relayer_governance).

Definition confirmation_roles_distinct
    (relayer_is_governance relayer_is_pause governance_is_pause
     allow_staging_relayer_governance : bool) : bool :=
  confirmation_roles_distinct_body relayer_is_governance relayer_is_pause
    governance_is_pause allow_staging_relayer_governance.

(** ** Operational lifecycle and activation *)

Definition asset_operations_allowed_body (sealed : bool) : bool := sealed.

Definition asset_operations_allowed (operational_config_sealed : bool) : bool :=
  asset_operations_allowed_body operational_config_sealed.

Inductive AssetOperationLifecycleDecision :=
| AssetLifecycle_Allow
| AssetLifecycle_OperationalConfigNotSealed.

Definition asset_operation_lifecycle_decision (operational_config_sealed : bool)
    : AssetOperationLifecycleDecision :=
  if asset_operations_allowed operational_config_sealed
  then AssetLifecycle_Allow else AssetLifecycle_OperationalConfigNotSealed.

Definition operational_config_seal_allowed_body (sealed candidate_valid : bool) : bool :=
  negb sealed && candidate_valid.

Definition operational_config_seal_allowed
    (operational_config_sealed candidate_valid : bool) : bool :=
  operational_config_seal_allowed_body operational_config_sealed candidate_valid.

Inductive OperationalConfigSealDecision :=
| ConfigSeal_Seal
| ConfigSeal_AlreadySealed
| ConfigSeal_InvalidCandidate.

Definition operational_config_seal_decision
    (operational_config_sealed candidate_valid : bool) : OperationalConfigSealDecision :=
  if negb candidate_valid then ConfigSeal_InvalidCandidate
  else if negb (operational_config_seal_allowed operational_config_sealed candidate_valid)
  then ConfigSeal_AlreadySealed
  else ConfigSeal_Seal.

Definition operational_config_seal_caller_authorized_body (controller bootstrap : bool) : bool :=
  controller && bootstrap.

Definition operational_config_seal_caller_authorized
    (is_controller lifecycle_is_bootstrap : bool) : bool :=
  operational_config_seal_caller_authorized_body is_controller lifecycle_is_bootstrap.

Inductive BootstrapPausePrincipalMigrationDecision :=
| PauseMigration_Apply
| PauseMigration_AlreadyApplied
| PauseMigration_FreshInstallNoop
| PauseMigration_PostBootstrapNoop
| PauseMigration_Reject.

Definition bootstrap_pause_principal_migration_body
    (sealed paused pause_is_old pause_is_new marker_unbound marker_is_new roles_distinct : bool)
    (post_bootstrap already_applied fresh_install apply_ reject : Z) : Z :=
  if sealed then post_bootstrap
  else if pause_is_new && marker_is_new then already_applied
  else if paused && pause_is_new && marker_unbound && roles_distinct then fresh_install
  else if paused && pause_is_old && marker_unbound && roles_distinct then apply_
  else reject.

Definition bootstrap_pause_principal_migration_code
    (operational_config_sealed deposits_paused pause_is_old pause_is_new
     marker_unbound marker_is_new roles_distinct : bool) : Z :=
  bootstrap_pause_principal_migration_body operational_config_sealed deposits_paused
    pause_is_old pause_is_new marker_unbound marker_is_new roles_distinct 2 1 4 0 3.

Definition bootstrap_pause_principal_migration_decision
    (operational_config_sealed deposits_paused pause_is_old pause_is_new
     marker_unbound marker_is_new roles_distinct : bool)
    : BootstrapPausePrincipalMigrationDecision :=
  let code := bootstrap_pause_principal_migration_code operational_config_sealed
    deposits_paused pause_is_old pause_is_new marker_unbound marker_is_new roles_distinct in
  if code =? 0 then PauseMigration_Apply
  else if code =? 1 then PauseMigration_AlreadyApplied
  else if code =? 2 then PauseMigration_PostBootstrapNoop
  else if code =? 4 then PauseMigration_FreshInstallNoop
  else PauseMigration_Reject.

Definition activation_prepare_authorized_body
    (bootstrap_controller governance sealed_paused bootstrap_authority_present : bool)
    (phase schedule execute : Z) : bool :=
  if negb (phase =? schedule) && negb (phase =? execute) then false
  else if bootstrap_authority_present then bootstrap_controller && sealed_paused
  else governance && sealed_paused.

Definition activation_prepare_authorized
    (is_bootstrap_controller is_governance lifecycle_is_operational_config_sealed
     bootstrap_authority_present : bool) (phase : Z) : bool :=
  activation_prepare_authorized_body is_bootstrap_controller is_governance
    lifecycle_is_operational_config_sealed bootstrap_authority_present phase 0 1.

Definition bootstrap_activation_authority_after_transition_body
    (authority_present confirmed_execute : bool) : bool :=
  authority_present && negb confirmed_execute.

Definition bootstrap_activation_authority_after_transition
    (authority_present confirmed_execute : bool) : bool :=
  bootstrap_activation_authority_after_transition_body authority_present confirmed_execute.

Definition confirmed_activation_attempt_is_unique_body
    (found_match found_additional_match : bool) : bool :=
  found_match && negb found_additional_match.

Definition confirmed_activation_attempt_is_unique
    (found_match found_additional_match : bool) : bool :=
  confirmed_activation_attempt_is_unique_body found_match found_additional_match.

Definition confirmed_activation_metadata_matches_body
    (confirmed_generation confirmed_signed_at_ns artifact_generation artifact_signed_at_ns : Z)
    : bool :=
  (confirmed_generation =? artifact_generation)
  && (confirmed_signed_at_ns =? artifact_signed_at_ns).

Definition confirmed_activation_metadata_matches
    (confirmed_generation confirmed_signed_at_ns artifact_generation artifact_signed_at_ns : Z)
    : bool :=
  confirmed_activation_metadata_matches_body confirmed_generation confirmed_signed_at_ns
    artifact_generation artifact_signed_at_ns.

Inductive LegacyActivationEvidenceRequirement :=
| LegacyEvidence_NotRequired
| LegacyEvidence_Schedule
| LegacyEvidence_Execute.

Definition legacy_activation_evidence_requirement_body
    (sealed pending controller_present staging_sentinel paused exact_execute : bool)
    (none schedule execute : Z) : Z :=
  if negb sealed then none
  else if pending then schedule
  else if negb controller_present
          || (staging_sentinel && (negb paused || exact_execute)) then execute
  else none.

Definition legacy_activation_evidence_requirement
    (operational_config_sealed pending_activation bootstrap_controller_present
     legacy_staging_controller deposits_paused exact_execute_evidence : bool)
    : LegacyActivationEvidenceRequirement :=
  let code := legacy_activation_evidence_requirement_body operational_config_sealed
    pending_activation bootstrap_controller_present legacy_staging_controller
    deposits_paused exact_execute_evidence 0 1 2 in
  if code =? 1 then LegacyEvidence_Schedule
  else if code =? 2 then LegacyEvidence_Execute
  else LegacyEvidence_NotRequired.

Definition activation_base_preflight_matches_body
    (signer_matches deposits_paused withdrawals_paused expected_paused : bool) : bool :=
  signer_matches && eqb deposits_paused expected_paused && eqb withdrawals_paused expected_paused.

Definition activation_base_preflight_matches
    (signer_matches deposits_paused withdrawals_paused expected_paused : bool) : bool :=
  activation_base_preflight_matches_body signer_matches deposits_paused withdrawals_paused
    expected_paused.

Definition activation_postcondition_matches_body
    (deposits_paused withdrawals_paused : bool) : bool :=
  negb deposits_paused && negb withdrawals_paused.

Definition activation_postcondition_matches (deposits_paused withdrawals_paused : bool) : bool :=
  activation_postcondition_matches_body deposits_paused withdrawals_paused.

Definition runtime_attestation_matches_body
    (observation_present chain_id_matches runtime_hash_matches : bool) : bool :=
  observation_present && chain_id_matches && runtime_hash_matches.

Definition runtime_attestation_matches
    (observation_present chain_id_matches runtime_hash_matches : bool) : bool :=
  runtime_attestation_matches_body observation_present chain_id_matches runtime_hash_matches.

(** ** Evidence, holds and replays *)

Definition scan_complete_body (next tip watermark : Z) (archives matched : bool) : bool :=
  archives && negb matched && (watermark >=? tip) && (next >? tip).

Definition scan_complete (next tip watermark : Z) (archives matched : bool) : bool :=
  scan_complete_body next tip watermark archives matched.

Definition evidence_matches_body (request hold transfer open_or_retry evidence : bool) : bool :=
  request && hold && transfer && open_or_retry && evidence.

Definition evidence_matches (request hold transfer open_or_retry evidence : bool) : bool :=
  evidence_matches_body request hold transfer open_or_retry evidence.

Definition replay_body (same : bool) : bool := same.

Definition replay_matches (same_payload : bool) : bool := replay_body same_payload.

Definition refresh_owner_matches_body (current : option Z) (claimant : Z) : bool :=
  match current with
  | Some owner => owner =? claimant
  | None => false
  end.

Definition refresh_owner_matches (current : option Z) (claimant : Z) : bool :=
  refresh_owner_matches_body current claimant.

Definition reconciliation_hold_indexed_body (state open : Z) : bool := state =? open.

Definition reconciliation_hold_indexed (state : Z) : bool :=
  reconciliation_hold_indexed_body state 0.

Definition hold_retry_allowed_body (exact_success complete_absence : bool) : bool :=
  exact_success || complete_absence.

Definition hold_retry_allowed (exact_success complete_absence : bool) : bool :=
  hold_retry_allowed_body exact_success complete_absence.

Inductive HoldResolutionDecision :=
| HoldResolution_Wait
| HoldResolution_ResolveSucceeded
| HoldResolution_ResolveAbsent.

Definition hold_resolution_decision_body
    (exact_success complete_absence : bool)
    (wait success absence : HoldResolutionDecision) : HoldResolutionDecision :=
  if exact_success then success else if complete_absence then absence else wait.

Definition hold_resolution_decision
    (exact_success complete_absence : bool) : HoldResolutionDecision :=
  hold_resolution_decision_body exact_success complete_absence
    HoldResolution_Wait HoldResolution_ResolveSucceeded HoldResolution_ResolveAbsent.

(** ** Leases, claims and callers *)

Definition lease_outcome_is_current_body
    (active_generation outcome_generation : Z) (active : bool) : bool :=
  active && (active_generation =? outcome_generation).

Definition lease_outcome_is_current
    (active_generation outcome_generation : Z) (active : bool) : bool :=
  lease_outcome_is_current_body active_generation outcome_generation active.

Inductive LeaseOutcomeDecision :=
| LeaseOutcome_Accept
| LeaseOutcome_Reject.

Definition lease_outcome_decision
    (active_generation outcome_generation : Z) (active : bool) : LeaseOutcomeDecision :=
  if active && (active_generation =? outcome_generation)
  then LeaseOutcome_Accept else LeaseOutcome_Reject.

Definition manual_claim_allowed_body (scheduled active stopped overdue expired : bool) : bool :=
  (negb active || expired) && (negb scheduled || stopped || overdue || expired).

Definition manual_claim_allowed (scheduled active stopped overdue expired : bool) : bool :=
  manual_claim_allowed_body scheduled active stopped overdue expired.

Inductive ManualClaimDecision :=
| ManualClaim_Allow
| ManualClaim_AutomaticProgressPending.

Definition manual_claim_decision_body
    (allowed : bool) (allow pending : ManualClaimDecision) : ManualClaimDecision :=
  if allowed then allow else pending.

Definition manual_claim_decision
    (scheduled active stopped overdue expired : bool) : ManualClaimDecision :=
  manual_claim_decision_body
    (manual_claim_allowed_body scheduled active stopped overdue expired)
    ManualClaim_Allow ManualClaim_AutomaticProgressPending.

Inductive LeaseLaneClaimDecision :=
| LaneClaim_Allow
| LaneClaim_AutomaticProgressPending
| LaneClaim_Busy.

Definition lease_lane_claim_body
    (target_active target_automatic : bool) (active_in_lane capacity : Z)
    (allow automatic_pending busy : LeaseLaneClaimDecision) : LeaseLaneClaimDecision :=
  if target_active then (if target_automatic then automatic_pending else busy)
  else if active_in_lane >=? capacity then busy
  else allow.

Definition lease_lane_claim_decision
    (target_active target_automatic : bool) (active_in_lane capacity : Z)
    : LeaseLaneClaimDecision :=
  lease_lane_claim_body target_active target_automatic active_in_lane capacity
    LaneClaim_Allow LaneClaim_AutomaticProgressPending LaneClaim_Busy.

Inductive RefundRequestIdentityDecision :=
| RefundIdentity_Allow
| RefundIdentity_AnonymousCaller.

Definition refund_request_identity_decision_body
    (authenticated : bool) (allow anonymous : RefundRequestIdentityDecision)
    : RefundRequestIdentityDecision :=
  if negb authenticated then anonymous else allow.

Definition refund_request_identity_decision (authenticated : bool)
    : RefundRequestIdentityDecision :=
  refund_request_identity_decision_body authenticated
    RefundIdentity_Allow RefundIdentity_AnonymousCaller.

Inductive DepositContinuationDecision :=
| Continuation_Allow
| Continuation_AnonymousCaller
| Continuation_WrongState.

Definition deposit_continuation_decision_body
    (authenticated authorization_phase retryable_stop : bool)
    (allow anonymous wrong_state : DepositContinuationDecision) : DepositContinuationDecision :=
  if negb authenticated then anonymous
  else if authorization_phase && retryable_stop then allow
  else wrong_state.

Definition deposit_continuation_decision
    (authenticated authorization_phase retryable_stop : bool) : DepositContinuationDecision :=
  deposit_continuation_decision_body authenticated authorization_phase retryable_stop
    Continuation_Allow Continuation_AnonymousCaller Continuation_WrongState.

(** ** Funding *)

Inductive FundingAttemptDecision :=
| FundingAttempt_PromoteSuccess
| FundingAttempt_PromoteAmbiguous
| FundingAttempt_Release
| FundingAttempt_Retain.

Definition funding_attempt_decision_body
    (kind : Z) (success ambiguous release retain : FundingAttemptDecision)
    : FundingAttemptDecision :=
  if (kind =? 0) || (kind =? 1) then success
  else if kind =? 2 then ambiguous
  else if kind =? 3 then release
  else retain.

Definition funding_attempt_decision (outcome_kind : Z) : FundingAttemptDecision :=
  funding_attempt_decision_body outcome_kind FundingAttempt_PromoteSuccess
    FundingAttempt_PromoteAmbiguous FundingAttempt_Release FundingAttempt_Retain.

Inductive FundingReconciliationDecision :=
| FundingReconciliation_Wait
| FundingReconciliation_RestartFresh
| FundingReconciliation_Release.

Definition funding_reconciliation_decision_body
    (complete_absence final_scan dedup_expired : bool)
    (wait restart_fresh release : FundingReconciliationDecision)
    : FundingReconciliationDecision :=
  if negb complete_absence then wait
  else if negb final_scan then restart_fresh
  else if dedup_expired then release
  else wait.

Definition funding_reconciliation_decision
    (complete_absence final_scan dedup_expired : bool) : FundingReconciliationDecision :=
  funding_reconciliation_decision_body complete_absence final_scan dedup_expired
    FundingReconciliation_Wait FundingReconciliation_RestartFresh FundingReconciliation_Release.

Inductive DepositIdentityDecision :=
| DepositIdentity_Allow
| DepositIdentity_Conflict.

Definition deposit_identity_decision (processed : bool) : DepositIdentityDecision :=
  if processed then DepositIdentity_Conflict else DepositIdentity_Allow.

Definition deposit_recipient_allowed_body (zero bridge token : bool) : bool :=
  negb zero && negb bridge && negb token.

Definition deposit_recipient_allowed (is_zero is_bridge is_token : bool) : bool :=
  deposit_recipient_allowed_body is_zero is_bridge is_token.
