(* ===== verification/KernelDeposit.v ===== *)
(** * Deposit decisions of the kernel

    The compact deposit state machine of [canister/bridge-core/src/kernel.rs]:
    the phase table, the ledger block provenance rule, the event guards, the
    numeric effects and [deposit_transition_decision], which combines them.
    Phases and events are the [u8] codes of [DepositState::code] and
    [DepositEvent::code]. *)

From S2P Require Import Prelude.

(** ** Ledger block provenance *)

Definition deposit_ledger_block_transition_body
    (funding refund : option Z) (event block preserve funded refunded : Z)
    : option (option Z * option Z) :=
  if event =? preserve then Some (funding, refund)
  else if event =? funded then
    match funding with
    | None => Some (Some block, refund)
    | Some current => if current =? block then Some (funding, refund) else None
    end
  else if event =? refunded then
    match funding, refund with
    | Some _, None => Some (funding, Some block)
    | Some _, Some current => if current =? block then Some (funding, refund) else None
    | _, _ => None
    end
  else None.

Definition deposit_ledger_block_transition
    (funding refund : option Z) (event block : Z) : option (option Z * option Z) :=
  deposit_ledger_block_transition_body funding refund event block 0 1 2.

(** ** Phase table *)

Definition deposit_nonterminal_indexed_body (state refunded cancelled minted : Z) : bool :=
  negb (state =? refunded) && negb (state =? cancelled) && negb (state =? minted).

Definition deposit_nonterminal_indexed (state : Z) : bool :=
  deposit_nonterminal_indexed_body state 8 9 10.

Definition deposit_transition_body
    (state event zero one two three four five six seven eight nine ten eleven : Z)
    : option Z :=
  if (state =? zero) && (event =? zero) then Some one
  else if (state =? zero) && (event =? one) then Some five
  else if (state =? zero) && (event =? two) then Some nine
  else if (state =? one) && (event =? three) then Some two
  else if (state =? one) && (event =? four) then Some four
  else if (state =? two) && (event =? four) then Some four
  else if (state =? two) && (event =? five) then Some three
  else if (state =? three) && (event =? four) then Some four
  else if ((state =? three) || (state =? four)) && (event =? six) then Some ten
  else if (state =? four) && (event =? seven) then Some six
  else if (state =? six) && (event =? eight) then Some eight
  else if (state =? six) && (event =? nine) then Some seven
  else None.

Definition deposit_transition (state event : Z) : option Z :=
  deposit_transition_body state event 0 1 2 3 4 5 6 7 8 9 10 11.

(** ** Guards *)

Definition authorization_commit_allowed_body
    (identity amounts domain origin pristine deadline : bool) : bool :=
  identity && amounts && domain && origin && pristine && deadline.

Definition authorization_commit_allowed
    (identity_matches amounts_match domain_valid origin_valid record_pristine
     deadline_matches : bool) : bool :=
  authorization_commit_allowed_body identity_matches amounts_match domain_valid
    origin_valid record_pristine deadline_matches.

Definition expiry_refund_allowed_body
    (binding processed : bool) (timestamp deadline : Z) : bool :=
  binding && negb processed && (timestamp >? deadline).

Definition expiry_refund_allowed
    (binding_matches deposit_processed : bool) (finalized_timestamp deadline : Z) : bool :=
  expiry_refund_allowed_body binding_matches deposit_processed finalized_timestamp deadline.

Definition mint_finalization_allowed_body
    (binding receipt_succeeded : bool) (receipt_block finalized_block : Z) : bool :=
  binding && receipt_succeeded && (receipt_block <=? finalized_block).

Definition mint_finalization_allowed
    (binding_matches receipt_succeeded : bool) (receipt_block finalized_block : Z) : bool :=
  mint_finalization_allowed_body binding_matches receipt_succeeded receipt_block finalized_block.

Definition mint_authorization_before_deadline_body (observed_timestamp deadline : Z) : bool :=
  observed_timestamp <? deadline.

Definition mint_authorization_before_deadline (observed_timestamp deadline : Z) : bool :=
  mint_authorization_before_deadline_body observed_timestamp deadline.

Definition signature_install_allowed_body
    (dispatched absent length_ : bool) (observed_timestamp deadline : Z) : bool :=
  dispatched && absent && length_
  && mint_authorization_before_deadline_body observed_timestamp deadline.

Definition signature_install_allowed
    (signature_dispatched signature_absent signature_length_valid : bool)
    (observed_timestamp deadline : Z) : bool :=
  signature_install_allowed_body signature_dispatched signature_absent
    signature_length_valid observed_timestamp deadline.

Definition refund_start_allowed_body (attempt policy : bool) : bool := attempt && policy.

Definition refund_start_allowed (attempt_matches policy_matches : bool) : bool :=
  refund_start_allowed_body attempt_matches policy_matches.

Inductive DepositEventGuard :=
| Guard_Funding
| Guard_CommitAuthorization
    (quote_valid fixed_fields_match canonical_domain_strings deadline_valid pristine : bool)
| Guard_InstallSignature
    (dispatched signature_absent signature_length_valid : bool)
    (observed_timestamp deadline : Z)
| Guard_MarkRefundAvailable (policy_allowed : bool)
| Guard_MintFinalization
    (fixed_fields_match receipt_succeeded : bool) (receipt_block finalized_block : Z)
    (audit_complete : bool)
| Guard_StartRefund (attempt_matches policy_matches : bool)
| Guard_RefundResult.

Definition DepositEventGuard_matches_event (self : DepositEventGuard) (event : Z) : bool :=
  match self with
  | Guard_Funding => event <=? 2
  | Guard_CommitAuthorization _ _ _ _ _ => event =? 3
  | Guard_StartRefund _ _ => event =? 7
  | Guard_InstallSignature _ _ _ _ _ => event =? 5
  | Guard_MarkRefundAvailable _ => event =? 4
  | Guard_MintFinalization _ _ _ _ _ => event =? 6
  | Guard_RefundResult => (event =? 8) || (event =? 9)
  end.

Definition DepositEventGuard_accepts (self : DepositEventGuard) : bool :=
  match self with
  | Guard_Funding | Guard_RefundResult => true
  | Guard_MarkRefundAvailable policy_allowed => policy_allowed
  | Guard_CommitAuthorization quote_valid fixed_fields_match canonical_domain_strings
      deadline_valid pristine =>
      authorization_commit_allowed_body fixed_fields_match quote_valid
        canonical_domain_strings fixed_fields_match pristine deadline_valid
  | Guard_InstallSignature dispatched signature_absent signature_length_valid
      observed_timestamp deadline =>
      signature_install_allowed_body dispatched signature_absent signature_length_valid
        observed_timestamp deadline
  | Guard_MintFinalization fixed_fields_match receipt_succeeded receipt_block
      finalized_block audit_complete =>
      mint_finalization_allowed_body (fixed_fields_match && audit_complete)
        receipt_succeeded receipt_block finalized_block
  | Guard_StartRefund attempt_matches policy_matches =>
      refund_start_allowed_body attempt_matches policy_matches
  end.

(** ** Numeric effects *)

Definition deposit_reservation_active_body
    (state authorization_pending authorization_available : Z) : bool :=
  (state =? authorization_pending) || (state =? authorization_available).

Definition deposit_reservation_active (state : Z) : bool :=
  deposit_reservation_active_body state 2 3.

Definition deposit_charge_fee_body (state event authorization_pending signed : Z) : bool :=
  (state =? authorization_pending) && (event =? signed).

Definition deposit_charge_service_fee (state event : Z) : bool :=
  deposit_charge_fee_body state event 2 5.

Definition deposit_releases_reservation (state event : Z) : bool :=
  match deposit_transition state event with
  | None => false
  | Some next => deposit_reservation_active state && negb (deposit_reservation_active next)
  end.

(** The seven amounts, in the order of the source's tuple. *)
Record NumericEffects := {
  ne_reservation_after : Z;
  ne_reservation_add : Z;
  ne_reservation_release : Z;
  ne_fee_credit : Z;
  ne_pending_liability_debit : Z;
  ne_escrow_debit : Z;
  ne_mint_supply_increase : Z;
}.

Definition deposit_numeric_effects_body
    (state event gross net fee reserved amount_zero
     zero one two three four five six seven eight nine ten eleven : Z) : NumericEffects :=
  let next := deposit_transition_body state event zero one two three four five six seven
                eight nine ten eleven in
  let was_reserved := deposit_reservation_active_body state two three in
  let after_reserved :=
    match next with
    | Some next_state => deposit_reservation_active_body next_state two three
    | None => false
    end in
  let authorization_signed := deposit_charge_fee_body state event two five in
  let mint_completed := ((state =? three) || (state =? four)) && (event =? six) in
  let refund_completed := (state =? six) && (event =? eight) in
  let terminal_liability := if net =? amount_zero then gross else net in
  {| ne_reservation_after :=
       if after_reserved then (if was_reserved then reserved else net) else amount_zero;
     ne_reservation_add := if negb was_reserved && after_reserved then net else amount_zero;
     ne_reservation_release :=
       if was_reserved && negb after_reserved && is_some next then reserved else amount_zero;
     ne_fee_credit := if authorization_signed then fee else amount_zero;
     ne_pending_liability_debit :=
       if authorization_signed then fee
       else if mint_completed || refund_completed then terminal_liability
       else amount_zero;
     ne_escrow_debit := if refund_completed then terminal_liability else amount_zero;
     ne_mint_supply_increase := if mint_completed then net else amount_zero |}.

Definition deposit_numeric_effects
    (state event gross_amount net_amount service_fee reserved_amount : Z) : NumericEffects :=
  deposit_numeric_effects_body state event gross_amount net_amount service_fee
    reserved_amount 0 0 1 2 3 4 5 6 7 8 9 10 11.

Definition deposit_transition_effects
    (state event gross_amount net_amount service_fee reserved_amount : Z) : NumericEffects :=
  deposit_numeric_effects_body state event gross_amount net_amount service_fee
    reserved_amount 0 0 1 2 3 4 5 6 7 8 9 10 11.

(** ** The combined decision *)

Record DepositTransitionInput := {
  dti_state : Z;
  dti_event : Z;
  dti_guard : DepositEventGuard;
  dti_same_payload : bool;
  dti_gross_amount : Z;
  dti_net_amount : Z;
  dti_service_fee : Z;
  dti_reserved_amount : Z;
}.

Record DepositEffects := {
  de_next_state : Z;
  de_reservation_active : bool;
  de_release_reservation : bool;
  de_charge_service_fee : bool;
  de_reservation_after : Z;
  de_reservation_add : Z;
  de_reservation_release : Z;
  de_fee_credit : Z;
  de_pending_liability_debit : Z;
  de_escrow_debit : Z;
  de_mint_supply_increase : Z;
}.

Inductive DepositTransitionDecision :=
| DepositDecision_Idempotent
| DepositDecision_Apply (effects : DepositEffects)
| DepositDecision_Reject.

Definition deposit_transition_decision (input : DepositTransitionInput)
    : DepositTransitionDecision :=
  if dti_same_payload input then DepositDecision_Idempotent
  else if negb (DepositEventGuard_matches_event (dti_guard input) (dti_event input))
          || negb (DepositEventGuard_accepts (dti_guard input))
  then DepositDecision_Reject
  else
    match deposit_transition_body (dti_state input) (dti_event input)
            0 1 2 3 4 5 6 7 8 9 10 11 with
    | None => DepositDecision_Reject
    | Some next_state =>
        let after_reserved := deposit_reservation_active_body next_state 2 3 in
        let release_reservation :=
          deposit_reservation_active_body (dti_state input) 2 3 && negb after_reserved in
        let charge_service_fee :=
          deposit_charge_fee_body (dti_state input) (dti_event input) 2 5 in
        let e := deposit_transition_effects (dti_state input) (dti_event input)
                   (dti_gross_amount input) (dti_net_amount input)
                   (dti_service_fee input) (dti_reserved_amount input) in
        DepositDecision_Apply
          {| de_next_state := next_state;
             de_reservation_active := after_reserved;
             de_release_reservation := release_reservation;
             de_charge_service_fee := charge_service_fee;
             de_reservation_after := ne_reservation_after e;
             de_reservation_add := ne_reservation_add e;
             de_reservation_release := ne_reservation_release e;
             de_fee_credit := ne_fee_credit e;
             de_pending_liability_debit := ne_pending_liability_debit e;
             de_escrow_debit := ne_escrow_debit e;
             de_mint_supply_increase := ne_mint_supply_increase e |}
    end.
