(* ===== verification/KernelWithdrawal.v ===== *)
(** * Withdrawal decisions of the kernel

    The compact withdrawal state machine, the release block provenance rule,
    the finalized-checkpoint quorum over three RPC providers and the
    admissibility of withdrawal identifiers, from
    [canister/bridge-core/src/kernel.rs]. *)

From S2P Require Import Prelude KernelArith.

(** ** Release block provenance *)

Definition withdrawal_ledger_block_transition_body
    (release : option Z) (event block preserve released : Z) : option (option Z) :=
  if event =? preserve then Some release
  else if event =? released then
    match release with
    | None => Some (Some block)
    | Some current => if current =? block then Some release else None
    end
  else None.

Definition withdrawal_ledger_block_transition
    (release : option Z) (event block : Z) : option (option Z) :=
  withdrawal_ledger_block_transition_body release event block 0 1.

(** ** Phase table and effects *)

Definition withdrawal_liability_indexed_body
    (state observed release_pending reconciliation_hold : Z) : bool :=
  (state =? observed) || (state =? release_pending) || (state =? reconciliation_hold).

Definition withdrawal_liability_indexed (state : Z) : bool :=
  withdrawal_liability_indexed_body state 0 1 3.

Definition withdrawal_step_body
    (state event zero one two three four five : Z) : Z :=
  if (state =? zero) && (event =? zero) then one
  else if (state =? one) && (event =? one) then one
  else if (state =? one) && (event =? two) then two
  else if (state =? one) && (event =? three) then three
  else if (state =? three) && (event =? four) then two
  else if (state =? three) && (event =? five) then one
  else state.

Definition withdrawal_phase_step (state event : Z) : Z :=
  withdrawal_step_body state event 0 1 2 3 4 5.

Definition withdrawal_phase_allows (state event : Z) : bool :=
  negb (withdrawal_phase_step state event =? state) || ((state =? 1) && (event =? 1)).

Definition withdrawal_transition_effects_body
    (state event amount_out ledger_fee service_fee max
     zero_state release_pending paid hold
     start retry succeeded ambiguous hold_succeeded hold_absent amount_zero : Z)
    : option (Z * Z * Z * Z) :=
  let next := withdrawal_step_body state event zero_state release_pending paid hold
                hold_succeeded hold_absent in
  if (next =? state) && negb ((state =? release_pending) && (event =? retry)) then None
  else if ((state =? release_pending) && (event =? succeeded))
          || ((state =? hold) && (event =? hold_succeeded)) then
    match outbound_settlement_body amount_out ledger_fee service_fee max with
    | None => None
    | Some (escrow_debit, reserve_credit, liability_debit) =>
        Some (next, escrow_debit, reserve_credit, liability_debit)
    end
  else if ((state =? zero_state) && (event =? start))
          || ((state =? release_pending) && (event =? ambiguous))
          || ((state =? hold) && (event =? hold_absent))
          || ((state =? release_pending) && (event =? retry)) then
    Some (next, amount_zero, amount_zero, amount_zero)
  else None.

Definition withdrawal_transition_effects
    (state event amount_out ledger_fee service_fee : Z) : option (Z * Z * Z * Z) :=
  withdrawal_transition_effects_body state event amount_out ledger_fee service_fee u128_max
    0 1 2 3 0 1 2 3 4 5 0.

(** ** Finalized checkpoints *)

Definition canonical_probe_matches_body (receipt_block snapshot_block : Z) : bool :=
  receipt_block =? snapshot_block.

Definition canonical_probe_matches (receipt_block snapshot_block : Z) : bool :=
  canonical_probe_matches_body receipt_block snapshot_block.

Record WithdrawalFinalizedIdentity := {
  wfi_block_number : Z;
  wfi_block_hash : bytes;
}.

#[export] Instance WithdrawalFinalizedIdentity_eq_dec : EqDecision WithdrawalFinalizedIdentity.
Proof. solve_decision. Defined.

Definition withdrawal_finalized_identity_quorum_body
    (first second third : option WithdrawalFinalizedIdentity)
    : option WithdrawalFinalizedIdentity :=
  match first, second, third with
  | Some a, Some b, Some c =>
      if bool_decide (a = b) || bool_decide (a = c) then Some a
      else if bool_decide (b = c) then Some b
      else None
  | Some a, Some b, None | Some a, None, Some b | None, Some a, Some b =>
      if bool_decide (a = b) then Some a else None
  | _, _, _ => None
  end.

Definition withdrawal_finalized_identity_quorum
    (first second third : option WithdrawalFinalizedIdentity)
    : option WithdrawalFinalizedIdentity :=
  withdrawal_finalized_identity_quorum_body first second third.

Definition withdrawal_finalized_checkpoint_attestation_body
    (head observation : option WithdrawalFinalizedIdentity) (checkpoint : Z)
    : option WithdrawalFinalizedIdentity :=
  match head, observation with
  | Some head, Some observation =>
      if (wfi_block_number head >=? checkpoint) && (wfi_block_number observation =? checkpoint)
      then Some observation else None
  | _, _ => None
  end.

(** The two arrays of length three are passed as triples. *)
Definition withdrawal_finalized_checkpoint_quorum
    (finalized_heads checkpoint_observations :
       option WithdrawalFinalizedIdentity * option WithdrawalFinalizedIdentity
       * option WithdrawalFinalizedIdentity)
    (checkpoint : Z) : option WithdrawalFinalizedIdentity :=
  let '(h0, h1, h2) := finalized_heads in
  let '(o0, o1, o2) := checkpoint_observations in
  withdrawal_finalized_identity_quorum
    (withdrawal_finalized_checkpoint_attestation_body h0 o0 checkpoint)
    (withdrawal_finalized_checkpoint_attestation_body h1 o1 checkpoint)
    (withdrawal_finalized_checkpoint_attestation_body h2 o2 checkpoint).

(** [sort_unstable] on at most three heights. *)
Fixpoint insert_height (x : Z) (l : list Z) : list Z :=
  match l with
  | [] => [x]
  | y :: ys => if x <=? y then x :: y :: ys else y :: insert_height x ys
  end.

Definition sort_heights (l : list Z) : list Z := foldr insert_height [] l.

Definition withdrawal_common_checkpoint
    (first second third : option WithdrawalFinalizedIdentity) : option Z :=
  let heights := omap (fun identity => wfi_block_number <$> identity) [first; second; third] in
  let len := length heights in
  if (len <? 2)%nat then None
  else
    let heights := sort_heights heights in
    heights !! (if (len =? 3)%nat then 1%nat else 0%nat).

(** ** Withdrawal identifiers *)

(** [Ord] of byte slices: lexicographic, a proper prefix is smaller. *)
Fixpoint bytes_geb (a b : bytes) : bool :=
  match a, b with
  | _, [] => true
  | [], _ :: _ => false
  | x :: a', y :: b' => if x =? y then bytes_geb a' b' else x >? y
  end.

Definition withdrawal_id_is_admissible_body
    (well_formed_len minimum_nonzero observed_ge_minimum : bool) : bool :=
  well_formed_len && minimum_nonzero && observed_ge_minimum.

Definition withdrawal_id_is_admissible (observed minimum : bytes) : bool :=
  withdrawal_id_is_admissible_body
    (length minimum =? 32)%nat
    (existsb (fun byte => negb (byte =? 0)) minimum)
    (bytes_geb observed minimum).

(** ** Properties *)

Section Quorum.
  Context {A : Type} `{EqDecision A}.

(** How many of the providers answered exactly [x]. *)
Definition attesters (x : A) (l : list (option A)) : nat :=
  length (filter (fun o => o = Some x) l).
End Quorum.

(** How many of the heads have reached height [h]. *)
Definition reached (h : Z) (l : list (option WithdrawalFinalizedIdentity)) : nat :=
  length (List.filter (fun o => is_some_and o (fun i => h <=? wfi_block_number i)) l).

Lemma bytes_geb_value a b :
  Forall is_byte a -> Forall is_byte b -> length a = length b ->
  bytes_geb a b = (be_value b <=? be_value a).
Proof.
  intros Ha. revert b. induction Ha as [|x a Hx Ha IH]; intros [|y b] Hb Hlen; try done.
  apply Forall_cons_iff in Hb as [Hy Hb]. injection Hlen as Hlen. simpl. rewrite Hlen.
  pose proof (be_value_bounds a Ha). pose proof (be_value_bounds b Hb).
  rewrite Hlen in *. unfold is_byte in *.
  destruct (Z.eqb_spec x y) as [->|Hne]; [rewrite IH by done; lia|].
  rewrite Z.gtb_ltb. destruct (Z.ltb_spec y x); symmetry.
  - apply Z.leb_le. nia.
  - apply Z.leb_gt. nia.
Qed.

Lemma existsb_nonzero_value l :
  Forall is_byte l -> existsb (fun byte => negb (byte =? 0)) l = (0 <? be_value l).
Proof.
  induction 1 as [|b l Hb Hl IH]; [done|]. simpl. rewrite IH. unfold is_byte in Hb.
  pose proof (be_value_bounds l Hl). destruct (Z.eqb_spec b 0) as [->|Hne]; simpl.
  - f_equal; lia.
  - symmetry. apply Z.ltb_lt. nia.
Qed.

Lemma identity_quorum_attesters a b c x :
  withdrawal_finalized_identity_quorum a b c = Some x <->
  (2 <= attesters x [a; b; c])%nat.
Proof.
  unfold withdrawal_finalized_identity_quorum, withdrawal_finalized_identity_quorum_body,
    attesters. rewrite !filter_cons, filter_nil.
  destruct a as [a|], b as [b|], c as [c|]; simpl;
    repeat case_bool_decide; repeat case_decide; simpl; naive_solver lia.
Qed.

Lemma attestation_body_Some h o cp x :
  withdrawal_finalized_checkpoint_attestation_body h o cp = Some x <->
  o = Some x /\ wfi_block_number x = cp /\
  exists head, h = Some head /\ cp <= wfi_block_number head.
Proof.
  unfold withdrawal_finalized_checkpoint_attestation_body.
  destruct h as [h|], o as [o|]; [|naive_solver..].
  destruct (Z.geb_spec (wfi_block_number h) cp), (Z.eqb_spec (wfi_block_number o) cp);
    simpl; naive_solver lia.
Qed.

Lemma common_checkpoint_None a b c :
  withdrawal_common_checkpoint a b c = None -> forall h, (reached h [a; b; c] < 2)%nat.
Proof.
  unfold withdrawal_common_checkpoint, reached, sort_heights.
  destruct a as [a|], b as [b|], c as [c|]; simpl; intros H h;
    repeat first [progress simplify_eq/= | case_match; reflect]; lia.
Qed.

Lemma common_checkpoint_Some a b c h :
  withdrawal_common_checkpoint a b c = Some h ->
  (2 <= reached h [a; b; c])%nat /\ forall h', h < h' -> (reached h' [a; b; c] < 2)%nat.
Proof.
  unfold withdrawal_common_checkpoint, reached, sort_heights.
  destruct a as [a|], b as [b|], c as [c|]; simpl; intros H; try done;
    (split; [|intros h' Hh']);
    repeat first [progress simplify_eq/= | case_match; reflect]; lia.
Qed.

(** A provider, given by its finalized head and its answer at the checkpoint,
    vouches for [x]: it has reached the checkpoint and reports exactly [x]. *)
Definition provider_vouches (checkpoint : Z) (x : WithdrawalFinalizedIdentity)
    (p : option WithdrawalFinalizedIdentity * option WithdrawalFinalizedIdentity) : bool :=
  is_some_and p.1 (fun head => checkpoint <=? wfi_block_number head)
  && bool_decide (p.2 = Some x).

Lemma attestation_vouches h o cp x :
  wfi_block_number x = cp ->
  bool_decide (withdrawal_finalized_checkpoint_attestation_body h o cp = Some x)
  = provider_vouches cp x (h, o).
Proof.
  intros Hx. unfold provider_vouches. apply eq_bool_prop_intro.
  rewrite bool_decide_spec, attestation_body_Some, andb_True, bool_decide_spec, Is_true_true,
    is_some_and_true.
  simpl. split.
  - intros (-> & _ & head & -> & Hle). split; [|done]. exists head. split; [done|lia].
  - intros [(head & -> & Hle) ->]. split_and!; [done..|]. exists head. split; [done|lia].
Qed.

(** Quorum of finalized checkpoints.  A checkpoint identity is accepted
    exactly when at least two of the three providers have themselves finalized
    the checkpoint height and report that very identity at that height; the
    accepted block number is the requested checkpoint.  One faulty provider can
    neither forge an identity nor hide one the other two agree on. *)
Theorem finalized_checkpoint_quorum_two_of_three h0 h1 h2 o0 o1 o2 cp x :
  withdrawal_finalized_checkpoint_quorum (h0, h1, h2) (o0, o1, o2) cp = Some x <->
  wfi_block_number x = cp /\
  (2 <= length (List.filter (provider_vouches cp x) [(h0, o0); (h1, o1); (h2, o2)]))%nat.
Proof.
  unfold withdrawal_finalized_checkpoint_quorum. rewrite identity_quorum_attesters.
  unfold attesters. destruct (decide (wfi_block_number x = cp)) as [Hx|Hx].
  - cbn [List.filter]. rewrite <- !attestation_vouches by done.
    rewrite !filter_cons, filter_nil. repeat case_decide; repeat case_bool_decide; naive_solver.
  - rewrite !filter_cons, filter_nil.
    repeat case_decide; rewrite ?attestation_body_Some in *; naive_solver lia.
Qed.

(** Choice of the checkpoint.  The height chosen for the second query is
    the greatest height that at least two providers have finalized; there is
    none exactly when fewer than two providers answered. *)
Theorem common_checkpoint_greatest a b c :
  match withdrawal_common_checkpoint a b c with
  | Some h => (2 <= reached h [a; b; c])%nat /\
              forall h', h < h' -> (reached h' [a; b; c] < 2)%nat
  | None => forall h, (reached h [a; b; c] < 2)%nat
  end.
Proof.
  destruct (withdrawal_common_checkpoint a b c) eqn:E;
    eauto using common_checkpoint_Some, common_checkpoint_None.
Qed.

(** Withdrawal identifiers.  Read as 256-bit big-endian integers, exactly
    the identifiers at or above a positive deployment boundary are admitted; a
    boundary of another length, or zero, admits nothing. *)
Theorem withdrawal_id_admissible_value observed minimum :
  length observed = 32%nat -> Forall is_byte observed -> Forall is_byte minimum ->
  withdrawal_id_is_admissible observed minimum = true <->
  length minimum = 32%nat /\ 0 < be_value minimum <= be_value observed.
Proof.
  intros Hlen Ho Hm. unfold withdrawal_id_is_admissible, withdrawal_id_is_admissible_body.
  rewrite existsb_nonzero_value by done.
  destruct (Nat.eqb_spec (length minimum) 32) as [E|E]; simpl; [|naive_solver].
  rewrite bytes_geb_value by congruence || done. lia.
Qed.

Lemma withdrawal_id_admissible_value_witness :
  withdrawal_id_is_admissible (zeros 31 ++ [7]) (zeros 31 ++ [5]) = true.
Proof.
  apply withdrawal_id_admissible_value;
    [done | repeat constructor; lia | repeat constructor; lia |].
  split; [done|]. vm_compute. split; [done|discriminate].
Defined.
