(* ===== verification/Types.v ===== *)
(** * Shared data of the core

    [canister/bridge-core/src/types.rs]: checked amounts, ledger transfer
    identities, the Base mint snapshot with its quote, settlements and the
    results of applying an event.  The newtypes [Amount], [HoldId] and the byte
    identifiers are their contents ([Z] and [bytes]); a record field carries the
    initials of its type as a prefix. *)

From S2P Require Import Prelude KernelArith.

(** ** Errors *)

Inductive CoreError :=
| InvalidAmount
| InvalidPrincipal
| ArithmeticOverflow
| ArithmeticUnderflow
| ServiceFeeAboveMaximum
| ServiceFeeAboveUserMaximum
| PerDepositLimitExceeded
| MintWindowLimitExceeded
| SettlementMismatch
| StaleFinalizedObservation
| ConflictingFinalizedObservation
| InvalidLedgerOperation
| InvalidTransition (entity event : string)
| ConflictingReplay
| LedgerBlockConflict
| PayloadConflict
| HoldMismatch
| MissingReconciliationEvidence
| AttemptOverflow
| AttemptPayloadChanged
| RefundIneligible.

#[export] Instance CoreError_eq_dec : EqDecision CoreError.
Proof. solve_decision. Defined.

(** ** Amounts *)

Definition Amount_checked_add (self other : Z) : Result CoreError Z :=
  ok_or (checked_add u128_max self other) ArithmeticOverflow.

Definition Amount_checked_sub (self other : Z) : Result CoreError Z :=
  ok_or (checked_sub self other) ArithmeticUnderflow.

(** ** Accounts and transfers *)

Record Account := {
  a_owner : bytes;
  a_subaccount : bytes;
}.

#[export] Instance Account_eq_dec : EqDecision Account.
Proof. solve_decision. Defined.

Definition Account_new (owner subaccount : bytes) : Result CoreError Account :=
  if bool_decide (owner = []) || (29 <? Z.of_nat (length owner)) || bool_decide (owner = [4])
  then Err InvalidPrincipal
  else Ok {| a_owner := owner; a_subaccount := subaccount |}.

Inductive LedgerOperation :=
| PullDeposit
| RefundDeposit
| ReleaseWithdrawal
| FeePayout.

#[export] Instance LedgerOperation_eq_dec : EqDecision LedgerOperation.
Proof. solve_decision. Defined.

Record LedgerTransferIdentity := {
  lti_operation : LedgerOperation;
  lti_created_at_time_ns : Z;
  lti_memo : bytes;
  lti_amount : Z;
  lti_fee : Z;
  lti_from : Account;
  lti_to : Account;
  lti_spender : option Account;
}.

#[export] Instance LedgerTransferIdentity_eq_dec : EqDecision LedgerTransferIdentity.
Proof. solve_decision. Defined.

(** ** The Base mint snapshot *)

Record BaseMintSnapshot := {
  bms_finalized_head_block_number : Z;
  bms_confirmed_block_timestamp : Z;
  bms_service_fee : Z;
  bms_max_service_fee : Z;
  bms_per_deposit_limit : Z;
  bms_mint_window_limit : Z;
  bms_mint_window_started_at : Z;
  bms_mint_window_duration : Z;
  bms_minted_in_window : Z;
}.

#[export] Instance BaseMintSnapshot_eq_dec : EqDecision BaseMintSnapshot.
Proof. solve_decision. Defined.

Definition BaseMintSnapshot_effective_minted_in_window (self : BaseMintSnapshot) : Z :=
  let expires_at := saturating_add u128_max (bms_mint_window_started_at self)
                      (bms_mint_window_duration self) in
  if bms_confirmed_block_timestamp self >=? expires_at then 0
  else bms_minted_in_window self.

Definition BaseMintSnapshot_quote
    (self : BaseMintSnapshot) (gross_amount user_max_fee : Z) : Result CoreError Z :=
  if gross_amount =? 0 then Err InvalidAmount
  else if bms_service_fee self >? bms_max_service_fee self then Err ServiceFeeAboveMaximum
  else if bms_service_fee self >? user_max_fee then Err ServiceFeeAboveUserMaximum
  else
    let? net_amount := Amount_checked_sub gross_amount (bms_service_fee self) in
    if net_amount =? 0 then Err InvalidAmount
    else if net_amount >? bms_per_deposit_limit self then Err PerDepositLimitExceeded
    else
      let? total :=
        Amount_checked_add (BaseMintSnapshot_effective_minted_in_window self) net_amount in
      if total >? bms_mint_window_limit self then Err MintWindowLimitExceeded
      else Ok net_amount.

(** ** Settlements *)

Record Settlement := {
  s_amount_out : Z;
  s_service_fee : Z;
  s_ledger_fee : Z;
}.

#[export] Instance Settlement_eq_dec : EqDecision Settlement.
Proof. solve_decision. Defined.

Definition Settlement_net_service_fee (self : Settlement) : Result CoreError Z :=
  ok_or
    (sd_reserve_credit <$>
       settlement_decision (s_amount_out self) (s_ledger_fee self) (s_service_fee self))
    SettlementMismatch.

Definition Settlement_validate_committed
    (self : Settlement) (amount max_service_fee : Z) : Result CoreError unit :=
  if s_service_fee self >? max_service_fee then Err ServiceFeeAboveMaximum
  else if negb (committed_quote_matches amount (s_amount_out self) (s_service_fee self))
  then Err SettlementMismatch
  else if is_none (settlement_decision (s_amount_out self) (s_ledger_fee self)
                     (s_service_fee self))
  then Err SettlementMismatch
  else Ok tt.

(** ** Results of applying an event *)

Inductive ApplyOutcome := Applied | Idempotent.

#[export] Instance ApplyOutcome_eq_dec : EqDecision ApplyOutcome.
Proof. solve_decision. Defined.

Record DepositAccountingEffects := {
  dae_reservation_after : Z;
  dae_reservation_add : Z;
  dae_reservation_release : Z;
  dae_fee_credit : Z;
  dae_pending_liability_debit : Z;
  dae_escrow_debit : Z;
  dae_mint_supply_increase : Z;
}.

#[export] Instance DepositAccountingEffects_eq_dec : EqDecision DepositAccountingEffects.
Proof. solve_decision. Defined.

Definition DepositAccountingEffects_ZERO : DepositAccountingEffects :=
  {| dae_reservation_after := 0; dae_reservation_add := 0; dae_reservation_release := 0;
     dae_fee_credit := 0; dae_pending_liability_debit := 0; dae_escrow_debit := 0;
     dae_mint_supply_increase := 0 |}.

Record ApplyResult := {
  ar_outcome : ApplyOutcome;
  ar_fee_delta : Z;
  ar_deposit_effects : option DepositAccountingEffects;
}.

#[export] Instance ApplyResult_eq_dec : EqDecision ApplyResult.
Proof. solve_decision. Defined.

Definition ApplyResult_applied (fee_delta : Z) : ApplyResult :=
  {| ar_outcome := Applied; ar_fee_delta := fee_delta; ar_deposit_effects := None |}.

Definition ApplyResult_applied_deposit (effects : DepositAccountingEffects) : ApplyResult :=
  {| ar_outcome := Applied; ar_fee_delta := dae_fee_credit effects;
     ar_deposit_effects := Some effects |}.

Definition ApplyResult_idempotent : ApplyResult :=
  {| ar_outcome := Idempotent; ar_fee_delta := 0; ar_deposit_effects := None |}.

(** ** Lemmas *)

Lemma Amount_checked_add_Ok a b c :
  Amount_checked_add a b = Ok c <-> a + b <= u128_max /\ c = a + b.
Proof. unfold Amount_checked_add. by rewrite ok_or_Ok, checked_add_Some. Qed.

Lemma Amount_checked_sub_Ok a b c :
  Amount_checked_sub a b = Ok c <-> b <= a /\ c = a - b.
Proof. unfold Amount_checked_sub. by rewrite ok_or_Ok, checked_sub_Some. Qed.

#[export] Hint Rewrite Amount_checked_add_Ok Amount_checked_sub_Ok : reflect.

Lemma Settlement_validate_committed_Ok self amount max_fee :
  is_u128 amount -> is_u128 (s_amount_out self) -> is_u128 (s_service_fee self) ->
  is_u128 (s_ledger_fee self) ->
  Settlement_validate_committed self amount max_fee = Ok tt <->
  s_ledger_fee self <= s_service_fee self <= max_fee /\
  0 < s_amount_out self /\ s_amount_out self + s_service_fee self = amount.
Proof.
  intros Ha Ho Hs Hl. unfold Settlement_validate_committed.
  rewrite committed_quote_matches_spec, settlement_decision_spec by done. ranges.
  repeat case_match; reflect; naive_solver lia.
Qed.

(** The fields the contract bounds by their Solidity types. *)
Definition BaseMintSnapshot_ranged (s : BaseMintSnapshot) : Prop :=
  is_u64 (bms_confirmed_block_timestamp s) /\ is_u64 (bms_mint_window_started_at s) /\
  is_u64 (bms_mint_window_duration s) /\ is_u128 (bms_service_fee s) /\
  is_u128 (bms_max_service_fee s) /\ is_u128 (bms_per_deposit_limit s) /\
  is_u128 (bms_mint_window_limit s) /\ is_u128 (bms_minted_in_window s).

Lemma effective_minted_in_window_range s :
  BaseMintSnapshot_ranged s -> is_u128 (BaseMintSnapshot_effective_minted_in_window s).
Proof.
  unfold BaseMintSnapshot_ranged, BaseMintSnapshot_effective_minted_in_window. ranges.
  intros. case_match; lia.
Qed.

(** Quotes.  The quote of a snapshot succeeds exactly when the kernel's
    admission decision accepts the same amounts with no other reservation and
    the fee is within the user's limit, and it then returns the same net
    amount. *)
Theorem quote_agrees_with_admission s gross user_max net :
  BaseMintSnapshot_ranged s -> is_u128 gross ->
  BaseMintSnapshot_quote s gross user_max = Ok net <->
  bms_service_fee s <= user_max /\
  dad_net_amount <$>
    deposit_admission_decision gross (bms_service_fee s) (bms_max_service_fee s)
      (bms_per_deposit_limit s) (BaseMintSnapshot_effective_minted_in_window s) 0
      (bms_mint_window_limit s) = Some net.
Proof.
  intros Hs Hg. pose proof (effective_minted_in_window_range s Hs) as Hm.
  destruct Hs as (_ & _ & _ & Hf & _ & _ & Hw & _).
  rewrite deposit_admission_decision_spec by (done || ranges; lia).
  unfold BaseMintSnapshot_quote, Amount_checked_sub, Amount_checked_add,
    checked_sub, checked_add, ok_or. ranges.
  repeat first [progress simplify_eq/= | case_match; reflect];
    (split; [intros | intros [??]]); simplify_eq; try done; try (split; [lia|]);
    try (exfalso; lia); f_equal; lia.
Qed.

Lemma quote_agrees_with_admission_witness :
  let s := {| bms_finalized_head_block_number := 9; bms_confirmed_block_timestamp := 100;
              bms_service_fee := 50; bms_max_service_fee := 80; bms_per_deposit_limit := 5000;
              bms_mint_window_limit := 9000; bms_mint_window_started_at := 40;
              bms_mint_window_duration := 3600; bms_minted_in_window := 700 |} in
  BaseMintSnapshot_quote s 1000 60 = Ok 950.
Proof.
  intros s. apply (quote_agrees_with_admission s 1000 60 950).
  - unfold BaseMintSnapshot_ranged. ranges. simpl. lia.
  - ranges. lia.
  - split; [simpl; lia|]. vm_compute. reflexivity.
Defined.
