(* ===== verification/Accounting.v ===== *)
(** * Fee accounting and the cycle reserve

    [canister/bridge-core/src/accounting.rs] and
    [canister/bridge-core/src/reserve.rs]. *)

From S2P Require Import Prelude KernelArith Types.

(** ** Fee accounting *)

Inductive FeeKind := FeeKind_Deposit | FeeKind_Withdrawal.

#[export] Instance FeeKind_eq_dec : EqDecision FeeKind.
Proof. solve_decision. Defined.

Record AccountingState := {
  as_fee_reserve : Z;
  as_confirmed_deposit_fees : Z;
  as_confirmed_withdrawal_fees : Z;
}.

Definition AccountingState_default : AccountingState :=
  {| as_fee_reserve := 0; as_confirmed_deposit_fees := 0; as_confirmed_withdrawal_fees := 0 |}.

Definition AccountingState_confirm_fee
    (self : AccountingState) (kind : FeeKind) (amount : Z) : Result CoreError AccountingState :=
  let? next_reserve := Amount_checked_add (as_fee_reserve self) amount in
  let? next_deposit :=
    if bool_decide (kind = FeeKind_Deposit)
    then Amount_checked_add (as_confirmed_deposit_fees self) amount
    else Ok (as_confirmed_deposit_fees self) in
  let? next_withdrawal :=
    if bool_decide (kind = FeeKind_Withdrawal)
    then Amount_checked_add (as_confirmed_withdrawal_fees self) amount
    else Ok (as_confirmed_withdrawal_fees self) in
  Ok {| as_fee_reserve := next_reserve;
        as_confirmed_deposit_fees := next_deposit;
        as_confirmed_withdrawal_fees := next_withdrawal |}.

Definition AccountingState_spend_fee_reserve
    (self : AccountingState) (amount : Z) : Result CoreError AccountingState :=
  let? fee_reserve := Amount_checked_sub (as_fee_reserve self) amount in
  Ok {| as_fee_reserve := fee_reserve;
        as_confirmed_deposit_fees := as_confirmed_deposit_fees self;
        as_confirmed_withdrawal_fees := as_confirmed_withdrawal_fees self |}.

(** ** Cycle reserve *)

Record ReservePolicy := {
  rp_cycles_floor : Z;
  rp_settlement_cycle_ceiling : Z;
}.

Record ReserveSnapshot := {
  rs_nonterminal_withdrawals : Z;
  rs_reserved_deposits : Z;
  rs_candidate_deposits : Z;
  rs_reserved_operation_count : Z;
  rs_cycles_balance : Z;
  rs_required_cycles : Z;
  rs_cycles_surplus : Z;
  rs_sufficient : bool;
}.

Definition ReservePolicy_required_cycles
    (self : ReservePolicy)
    (nonterminal_withdrawals reserved_deposits candidate_deposits : Z) : Result CoreError Z :=
  let? count :=
    ok_or (checked_add u128_max nonterminal_withdrawals reserved_deposits
             ≫= fun value => checked_add u128_max value candidate_deposits)
      ArithmeticOverflow in
  ok_or (checked_requirement (rp_cycles_floor self) (rp_settlement_cycle_ceiling self) count)
    ArithmeticOverflow.

Definition ReservePolicy_snapshot
    (self : ReservePolicy)
    (nonterminal_withdrawals reserved_deposits candidate_deposits cycles_balance : Z)
    : Result CoreError ReserveSnapshot :=
  let? count :=
    ok_or (checked_add u128_max nonterminal_withdrawals reserved_deposits
             ≫= fun value => checked_add u128_max value candidate_deposits)
      ArithmeticOverflow in
  let? required_cycles :=
    ReservePolicy_required_cycles self nonterminal_withdrawals reserved_deposits
      candidate_deposits in
  Ok {| rs_nonterminal_withdrawals := nonterminal_withdrawals;
        rs_reserved_deposits := reserved_deposits;
        rs_candidate_deposits := candidate_deposits;
        rs_reserved_operation_count := count;
        rs_cycles_balance := cycles_balance;
        rs_required_cycles := required_cycles;
        rs_cycles_surplus := saturating_sub cycles_balance required_cycles;
        rs_sufficient := cycles_balance >=? required_cycles |}.

(** ** Lemmas *)

Definition AccountingState_ranged (s : AccountingState) : Prop :=
  is_u128 (as_fee_reserve s) /\ is_u128 (as_confirmed_deposit_fees s) /\
  is_u128 (as_confirmed_withdrawal_fees s).

Lemma confirm_fee_Ok s kind amount s' :
  AccountingState_confirm_fee s kind amount = Ok s' ->
  as_fee_reserve s' = as_fee_reserve s + amount /\
  as_confirmed_deposit_fees s' + as_confirmed_withdrawal_fees s'
    = as_confirmed_deposit_fees s + as_confirmed_withdrawal_fees s + amount /\
  (AccountingState_ranged s -> 0 <= amount -> AccountingState_ranged s').
Proof.
  unfold AccountingState_confirm_fee, AccountingState_ranged. ranges. intros H.
  destruct kind; simpl in H;
  repeat (case_match; reflect; simplify_eq/=); try done; destruct_and?; split_and!; lia || (intros; lia).
Qed.

(** The credit of a fee, where a fee of zero is not confirmed at all. *)
Lemma confirm_fee_credits s kind amount s' :
  (if amount =? 0 then Ok s else AccountingState_confirm_fee s kind amount) = Ok s' ->
  as_fee_reserve s' = as_fee_reserve s + amount /\
  as_confirmed_deposit_fees s' = as_confirmed_deposit_fees s
    + match kind with FeeKind_Deposit => amount | FeeKind_Withdrawal => 0 end /\
  as_confirmed_withdrawal_fees s' = as_confirmed_withdrawal_fees s
    + match kind with FeeKind_Deposit => 0 | FeeKind_Withdrawal => amount end.
Proof.
  destruct (Z.eqb_spec amount 0) as [->|_]; [intros [= <-]; repeat case_match; lia|].
  unfold AccountingState_confirm_fee. intros H. destruct kind; simpl in *;
    repeat (case_match; reflect; simplify_eq/=); destruct_and?; lia.
Qed.

Lemma spend_fee_reserve_Ok s amount s' :
  AccountingState_spend_fee_reserve s amount = Ok s' ->
  amount <= as_fee_reserve s /\ as_fee_reserve s' = as_fee_reserve s - amount /\
  as_confirmed_deposit_fees s' = as_confirmed_deposit_fees s /\
  as_confirmed_withdrawal_fees s' = as_confirmed_withdrawal_fees s.
Proof.
  unfold AccountingState_spend_fee_reserve. intros H.
  repeat (case_match; reflect; simplify_eq/=). destruct_and?. split_and!; lia.
Qed.

(** A history of successful accounting operations. *)
Inductive AccountingOp :=
| Op_confirm (kind : FeeKind) (amount : Z)
| Op_spend (amount : Z).

Definition accounting_step (s : AccountingState) (op : AccountingOp)
    : Result CoreError AccountingState :=
  match op with
  | Op_confirm kind amount => AccountingState_confirm_fee s kind amount
  | Op_spend amount => AccountingState_spend_fee_reserve s amount
  end.

(** An operation that fails leaves the state as it was. *)
Definition accounting_run (s : AccountingState) (ops : list AccountingOp) : AccountingState :=
  foldl (fun s op => match accounting_step s op with Ok s' => s' | Err _ => s end) s ops.

Fixpoint total_spent (s : AccountingState) (ops : list AccountingOp) : Z :=
  match ops with
  | [] => 0
  | op :: ops =>
      match accounting_step s op with
      | Ok s' => (match op with Op_spend amount => amount | _ => 0 end) + total_spent s' ops
      | Err _ => total_spent s ops
      end
  end.

Lemma accounting_run_balance ops s :
  let s' := accounting_run s ops in
  as_fee_reserve s' + total_spent s ops
    - (as_confirmed_deposit_fees s' + as_confirmed_withdrawal_fees s')
  = as_fee_reserve s - (as_confirmed_deposit_fees s + as_confirmed_withdrawal_fees s).
Proof.
  revert s. induction ops as [|op ops IH]; intros s; simpl; [lia|].
  unfold accounting_run in *. cbn [foldl].
  destruct (accounting_step s op) as [s1|e] eqn:E; [|apply IH].
  specialize (IH s1). destruct op; simpl in E.
  - apply confirm_fee_Ok in E. lia.
  - apply spend_fee_reserve_Ok in E. lia.
Qed.

(** Fee accounting.  Whatever operations are attempted, and whichever of
    them fail, the fee reserve is the total of the confirmed deposit and
    withdrawal fees less everything spent. *)
Theorem fee_reserve_is_confirmed_minus_spent ops :
  let s := accounting_run AccountingState_default ops in
  as_fee_reserve s =
    as_confirmed_deposit_fees s + as_confirmed_withdrawal_fees s
    - total_spent AccountingState_default ops.
Proof. pose proof (accounting_run_balance ops AccountingState_default). simpl in *. lia. Qed.

Lemma required_cycles_spec p w r c :
  is_u128 (rp_cycles_floor p) -> is_u128 (rp_settlement_cycle_ceiling p) ->
  is_u64 w -> is_u64 r -> is_u64 c ->
  ReservePolicy_required_cycles p w r c =
    let required := rp_cycles_floor p + rp_settlement_cycle_ceiling p * (w + r + c) in
    if required <=? u128_max then Ok required else Err ArithmeticOverflow.
Proof.
  intros Hf Hu Hw Hr Hc. unfold ReservePolicy_required_cycles, checked_add. ranges.
  rewrite (proj2 (Z.leb_le (w + r) _)) by lia. simpl.
  rewrite (proj2 (Z.leb_le (w + r + c) _)) by lia. simpl.
  rewrite checked_requirement_spec by (ranges; lia). by case_match.
Qed.

(** Cycle reserve.  The snapshot reports a sufficient reserve exactly when
    the balance covers the floor plus one ceiling per open operation, computed
    without overflow, and turning the candidate deposits into reserved ones
    leaves the requirement unchanged. *)
Theorem reserve_snapshot_sufficient p w r c balance snap :
  is_u128 (rp_cycles_floor p) -> is_u128 (rp_settlement_cycle_ceiling p) ->
  is_u64 w -> is_u64 r -> is_u64 c -> is_u64 (r + c) ->
  ReservePolicy_snapshot p w r c balance = Ok snap ->
  (rs_sufficient snap = true <->
     rp_cycles_floor p + rp_settlement_cycle_ceiling p * (w + r + c) <= balance) /\
  rs_reserved_operation_count snap = w + r + c /\
  rs_cycles_surplus snap
    = Z.max 0 (balance - (rp_cycles_floor p + rp_settlement_cycle_ceiling p * (w + r + c))) /\
  ReservePolicy_required_cycles p w (r + c) 0 = Ok (rs_required_cycles snap).
Proof.
  intros Hf Hu Hw Hr Hc Hrc H. unfold ReservePolicy_snapshot in H.
  rewrite required_cycles_spec in H by done.
  rewrite required_cycles_spec by (done || ranges; lia).
  cbv zeta in *. replace (w + (r + c) + 0) with (w + r + c) by lia.
  unfold checked_add, ok_or, saturating_sub in H. ranges.
  repeat (case_match; simplify_eq/=); reflect; naive_solver lia.
Qed.

Lemma reserve_snapshot_sufficient_witness :
  exists snap,
    ReservePolicy_snapshot
      {| rp_cycles_floor := 100; rp_settlement_cycle_ceiling := 10 |} 2 3 1 160 = Ok snap /\
    rs_sufficient snap = true.
Proof.
  eexists. split; [vm_compute; reflexivity|].
  refine (proj2 (proj1 (reserve_snapshot_sufficient
    {| rp_cycles_floor := 100; rp_settlement_cycle_ceiling := 10 |} 2 3 1 160 _
    _ _ _ _ _ _ _)) _); simpl; unfold in_range; try lia. vm_compute. reflexivity.
Defined.
