(* ===== verification/Authorization.v ===== *)
(** * Mint authorizations

    [canister/bridge-core/src/authorization.rs]: the EIP-712 authorization the
    canister signs, the evidence records that close it, and the two operations
    that move its signature. *)

From S2P Require Import Prelude Types.

Definition MINT_AUTHORIZATION_TTL_SECONDS : Z := 15 * 60.
Definition MINT_AUTHORIZATION_DOMAIN_NAME : string := "KINIC Bridge".
Definition MINT_AUTHORIZATION_DOMAIN_VERSION : string := "1".

Record MintAuthorizationDomain := {
  mad_name : string;
  mad_version : string;
  mad_chain_id : Z;
  mad_verifying_contract : bytes;
}.

#[export] Instance MintAuthorizationDomain_eq_dec : EqDecision MintAuthorizationDomain.
Proof. solve_decision. Defined.

Definition MintAuthorizationDomain_bridge (chain_id : Z) (verifying_contract : bytes)
    : MintAuthorizationDomain :=
  {| mad_name := MINT_AUTHORIZATION_DOMAIN_NAME;
     mad_version := MINT_AUTHORIZATION_DOMAIN_VERSION;
     mad_chain_id := chain_id;
     mad_verifying_contract := verifying_contract |}.

Record MintAuthorization := {
  ma_deposit_id : bytes;
  ma_recipient : bytes;
  ma_gross_amount : Z;
  ma_max_service_fee : Z;
  ma_charged_service_fee : Z;
  ma_deadline : Z;
  ma_authorization_epoch : Z;
}.

#[export] Instance MintAuthorization_eq_dec : EqDecision MintAuthorization.
Proof. solve_decision. Defined.

Definition MintAuthorization_deadline_from_issued_at_timestamp (issued_at_timestamp : Z)
    : option Z :=
  checked_add u64_max issued_at_timestamp MINT_AUTHORIZATION_TTL_SECONDS.

Record MintAuthorizationOrigin := {
  mao_finalized_block_number : Z;
  mao_finalized_block_hash : bytes;
  mao_finalized_block_timestamp : Z;
  mao_issued_at_timestamp : Z;
}.

#[export] Instance MintAuthorizationOrigin_eq_dec : EqDecision MintAuthorizationOrigin.
Proof. solve_decision. Defined.

Record MintExpiryEvidence := {
  mee_deposit_id : bytes;
  mee_authorization_digest : bytes;
  mee_chain_id : Z;
  mee_verifying_contract : bytes;
  mee_deposit_processed : bool;
  mee_finalized_block_number : Z;
  mee_finalized_block_hash : bytes;
  mee_finalized_block_timestamp : Z;
  mee_bridge_signer : bytes;
  mee_mint_authorization_epoch : Z;
  mee_runtime_sha256 : bytes;
  mee_rpc_request_digest : bytes;
  mee_rpc_response_digest : bytes;
}.

#[export] Instance MintExpiryEvidence_eq_dec : EqDecision MintExpiryEvidence.
Proof. solve_decision. Defined.

Record MintFinalizationEvidence := {
  mfe_deposit_id : bytes;
  mfe_recipient : bytes;
  mfe_authorization_digest : bytes;
  mfe_chain_id : Z;
  mfe_verifying_contract : bytes;
  mfe_gross_amount : Z;
  mfe_charged_service_fee : Z;
  mfe_minted_amount : Z;
  mfe_transaction_hash : bytes;
  mfe_log_index : Z;
  mfe_receipt_succeeded : bool;
  mfe_receipt_block_number : Z;
  mfe_receipt_block_hash : bytes;
  mfe_finalized_block_number : Z;
  mfe_finalized_block_hash : bytes;
  mfe_rpc_request_digest : bytes;
  mfe_rpc_response_digest : bytes;
}.

#[export] Instance MintFinalizationEvidence_eq_dec : EqDecision MintFinalizationEvidence.
Proof. solve_decision. Defined.

Record MintAuthorizationRecord := {
  mar_authorization : MintAuthorization;
  mar_domain : MintAuthorizationDomain;
  mar_digest : bytes;
  mar_origin : MintAuthorizationOrigin;
  mar_signature_dispatch_attempt : Z;
  mar_signature_dispatched : bool;
  mar_signature : option bytes;
}.

#[export] Instance MintAuthorizationRecord_eq_dec : EqDecision MintAuthorizationRecord.
Proof. solve_decision. Defined.

(** [&mut self] methods return the result and the record as they leave it. *)
Definition MintAuthorizationRecord_dispatch_signature (self : MintAuthorizationRecord)
    : option Z * MintAuthorizationRecord :=
  if is_some (mar_signature self) then (None, self)
  else
    match checked_add u32_max (mar_signature_dispatch_attempt self) 1 with
    | None => (None, self)
    | Some attempt =>
        (Some attempt,
         {| mar_authorization := mar_authorization self;
            mar_domain := mar_domain self;
            mar_digest := mar_digest self;
            mar_origin := mar_origin self;
            mar_signature_dispatch_attempt := attempt;
            mar_signature_dispatched := true;
            mar_signature := mar_signature self |})
    end.

Definition MintAuthorizationRecord_install_signature
    (self : MintAuthorizationRecord) (signature : bytes) : bool * MintAuthorizationRecord :=
  if negb (length signature =? 65)%nat || is_some (mar_signature self)
     || negb (mar_signature_dispatched self)
  then (false, self)
  else
    (true,
     {| mar_authorization := mar_authorization self;
        mar_domain := mar_domain self;
        mar_digest := mar_digest self;
        mar_origin := mar_origin self;
        mar_signature_dispatch_attempt := mar_signature_dispatch_attempt self;
        mar_signature_dispatched := mar_signature_dispatched self;
        mar_signature := Some signature |}).

(** ** Lemmas *)

(** What a signature covers: the payload that must not change once committed. *)
Definition same_payload (a b : MintAuthorizationRecord) : Prop :=
  mar_authorization a = mar_authorization b /\ mar_domain a = mar_domain b /\
  mar_digest a = mar_digest b /\ mar_origin a = mar_origin b.

#[export] Instance same_payload_equivalence : Equivalence same_payload.
Proof. unfold same_payload. split; repeat intro; naive_solver congruence. Qed.

Lemma dispatch_signature_payload a n a' :
  MintAuthorizationRecord_dispatch_signature a = (n, a') ->
  same_payload a a' /\ mar_signature a' = mar_signature a.
Proof.
  unfold MintAuthorizationRecord_dispatch_signature. intros H.
  repeat (case_match; simplify_eq/=); done.
Qed.

Lemma install_signature_true a sig a' :
  MintAuthorizationRecord_install_signature a sig = (true, a') ->
  same_payload a a' /\ mar_signature a = None /\ mar_signature a' = Some sig /\
  length sig = 65%nat /\ mar_signature_dispatched a = true /\
  mar_signature_dispatched a' = true /\
  mar_signature_dispatch_attempt a' = mar_signature_dispatch_attempt a.
Proof.
  unfold MintAuthorizationRecord_install_signature, is_some. intros H.
  destruct (mar_signature a) eqn:Es; simpl in H;
    destruct (mar_signature_dispatched a) eqn:Ed; simpl in H;
    destruct (Nat.eqb_spec (length sig) 65); simpl in H; simplify_eq; done.
Qed.

(** A history of dispatches and signature installations on one record. *)
Inductive SignatureOp :=
| Sig_dispatch
| Sig_install (signature : bytes).

Definition signature_step (a : MintAuthorizationRecord) (op : SignatureOp)
    : MintAuthorizationRecord :=
  match op with
  | Sig_dispatch => (MintAuthorizationRecord_dispatch_signature a).2
  | Sig_install signature => (MintAuthorizationRecord_install_signature a signature).2
  end.

Lemma signature_step_sticky a op sig :
  mar_signature a = Some sig -> signature_step a op = a.
Proof.
  intros H. destruct op; simpl;
    unfold MintAuthorizationRecord_dispatch_signature,
      MintAuthorizationRecord_install_signature; rewrite H; simpl; [done|].
  by rewrite orb_true_r.
Qed.

Lemma signature_step_payload a op : same_payload a (signature_step a op).
Proof.
  destruct op; simpl.
  - destruct (MintAuthorizationRecord_dispatch_signature a) eqn:E.
    by apply dispatch_signature_payload in E as [? _].
  - destruct (MintAuthorizationRecord_install_signature a signature) as [[] a'] eqn:E; simpl.
    + by apply install_signature_true in E as [? _].
    + unfold MintAuthorizationRecord_install_signature in E. case_match; by simplify_eq.
Qed.

(** One signature per authorization.  Along any history of dispatches and
    installations the signed payload (fields, domain, digest, origin) never
    changes, and a signature, once installed, is never replaced. *)
Theorem signature_installed_once ops more a sig :
  let run := foldl signature_step in
  mar_signature (run a ops) = Some sig ->
  same_payload a (run a (ops ++ more)) /\ mar_signature (run a (ops ++ more)) = Some sig.
Proof.
  intros run Hsig. subst run. split.
  - clear Hsig. generalize (ops ++ more). intros l. revert a. induction l as [|op l IH]; intros a;
      simpl; [reflexivity|]. etransitivity; [apply signature_step_payload|apply IH].
  - rewrite foldl_app. revert Hsig. generalize (foldl signature_step a ops). clear ops a.
    induction more as [|op more IH]; intros a Ha; simpl; [done|].
    rewrite (signature_step_sticky a op sig Ha). by apply IH.
Qed.

Lemma signature_installed_once_witness :
  let a := {| mar_authorization :=
                {| ma_deposit_id := [1]; ma_recipient := [2]; ma_gross_amount := 100;
                   ma_max_service_fee := 10; ma_charged_service_fee := 5;
                   ma_deadline := 1800; ma_authorization_epoch := 1 |};
              mar_domain := MintAuthorizationDomain_bridge 8453 [3];
              mar_digest := [4];
              mar_origin :=
                {| mao_finalized_block_number := 7; mao_finalized_block_hash := [5];
                   mao_finalized_block_timestamp := 0; mao_issued_at_timestamp := 900 |};
              mar_signature_dispatch_attempt := 0; mar_signature_dispatched := false;
              mar_signature := None |} in
  let sig := replicate 65 1 in
  mar_signature (foldl signature_step a
    ([Sig_dispatch; Sig_install sig] ++ [Sig_install (replicate 65 2)])) = Some sig.
Proof.
  intros a sig.
  exact (proj2 (signature_installed_once [Sig_dispatch; Sig_install sig]
                  [Sig_install (replicate 65 2)] a sig eq_refl)).
Defined.
