(* ===== verification/Eip712.v ===== *)
(** * The typed data both sides sign

    [canister/bridge-canister/src/mint_authorization.rs] computes the digest the
    canister signs; [contracts/src/Bridge.sol] recomputes it before it recovers the
    signer.  The two are written in different languages with different encoders, and
    the theorems here say that they agree, and that a digest determines what was
    signed.

    Keccak-256 and OpenZeppelin's [EIP712] are not part of the repository: the hash
    is a parameter, the base contract a class with the behaviour its documentation
    states. *)

From Stdlib Require Import Ascii.
From S2P Require Import Prelude Types Authorization.

(** [str::as_bytes], and a Solidity string literal. *)
Definition as_bytes (s : string) : bytes :=
  (fun c => Z.of_N (N_of_ascii c)) <$> String.list_ascii_of_string s.

(** The hash function of the EVM and of [tiny_keccak]'s [Keccak::v256]. *)
Class Keccak := keccak256 : bytes -> bytes.

(** ** The digest of the canister *)

Module MintDigest.

Definition DOMAIN_TYPE : bytes :=
  as_bytes "EIP712Domain(string name,string version,uint256 chainId,address verifyingContract)".
Definition AUTHORIZATION_TYPE : bytes :=
  as_bytes "MintAuthorization(bytes32 depositId,address recipient,uint256 grossAmount,uint256 maxServiceFee,uint256 chargedServiceFee,uint256 deadline,uint256 authorizationEpoch)".

Definition concat_words (words : list bytes) : bytes := concat words.

Definition uint_word (value : Z) : bytes := zeros 16 ++ to_be_bytes 16 value.

Definition address_word (address : bytes) : bytes := zeros 12 ++ address.

Section digest.
Context `{Keccak}.

Definition keccak (b : bytes) : bytes := keccak256 b.

Definition domain_preimage (domain : MintAuthorizationDomain) : bytes :=
  concat_words
    [keccak DOMAIN_TYPE;
     keccak (as_bytes (mad_name domain));
     keccak (as_bytes (mad_version domain));
     uint_word (mad_chain_id domain);
     address_word (mad_verifying_contract domain)].

Definition struct_preimage (authorization : MintAuthorization) : bytes :=
  concat_words
    [keccak AUTHORIZATION_TYPE;
     ma_deposit_id authorization;
     address_word (ma_recipient authorization);
     uint_word (ma_gross_amount authorization);
     uint_word (ma_max_service_fee authorization);
     uint_word (ma_charged_service_fee authorization);
     uint_word (ma_deadline authorization);
     uint_word (ma_authorization_epoch authorization)].

Definition digest_input (domain : MintAuthorizationDomain) (authorization : MintAuthorization)
    : bytes :=
  let domain_separator := keccak (domain_preimage domain) in
  let struct_hash := keccak (struct_preimage authorization) in
  [0x19; 0x01] ++ domain_separator ++ struct_hash.

Definition digest (domain : MintAuthorizationDomain) (authorization : MintAuthorization) : bytes :=
  keccak (digest_input domain authorization).
End digest.
End MintDigest.

(** ** The digest of the contract *)

(** [abi.encode] of values of static types: one 32-byte word each. *)
Definition abi_uint256 (value : Z) : bytes := to_be_bytes 32 value.
Definition abi_address (address : bytes) : bytes := zeros 12 ++ address.
Definition abi_bytes32 (value : bytes) : bytes := value.

(** OpenZeppelin's [EIP712]: the domain is fixed by the constructor's name and
    version, the chain and the contract's address, and [_hashTypedDataV4] is the
    final hash of EIP-712. *)
Class EIP712 `{Keccak} := {
  EIP712_hashTypedDataV4 (name version : string) (chainid : Z) (this structHash : bytes) : bytes;
  EIP712_hashTypedDataV4_spec name version chainid this structHash :
    EIP712_hashTypedDataV4 name version chainid this structHash =
    keccak256
      ([0x19; 0x01] ++
       keccak256
         (keccak256 (as_bytes
            "EIP712Domain(string name,string version,uint256 chainId,address verifyingContract)")
          ++ keccak256 (as_bytes name) ++ keccak256 (as_bytes version)
          ++ abi_uint256 chainid ++ abi_address this)
       ++ structHash);
}.

Module IBridge.
(** The struct of the interface: every integer is a [uint256]. *)
Record MintAuthorization := {
  depositId : bytes;
  recipient : bytes;
  grossAmount : Z;
  maxServiceFee : Z;
  chargedServiceFee : Z;
  deadline : Z;
  authorizationEpoch : Z;
}.
End IBridge.

#[export] Instance IBridge_MintAuthorization_eq_dec : EqDecision IBridge.MintAuthorization.
Proof. solve_decision. Defined.

Section contract_digest.
Context `{EIP712}.

Definition MINT_AUTHORIZATION_TYPEHASH : bytes :=
  keccak256 (as_bytes "MintAuthorization(bytes32 depositId,address recipient,uint256 grossAmount,uint256 maxServiceFee,uint256 chargedServiceFee,uint256 deadline,uint256 authorizationEpoch)").

(** The contract is deployed as [EIP712("KINIC Bridge", "1")]. *)
Definition mintAuthorizationDigest (chainid : Z) (this : bytes)
    (authorization : IBridge.MintAuthorization) : bytes :=
  EIP712_hashTypedDataV4 "KINIC Bridge" "1" chainid this
    (keccak256
       (abi_bytes32 MINT_AUTHORIZATION_TYPEHASH
        ++ abi_bytes32 (IBridge.depositId authorization)
        ++ abi_address (IBridge.recipient authorization)
        ++ abi_uint256 (IBridge.grossAmount authorization)
        ++ abi_uint256 (IBridge.maxServiceFee authorization)
        ++ abi_uint256 (IBridge.chargedServiceFee authorization)
        ++ abi_uint256 (IBridge.deadline authorization)
        ++ abi_uint256 (IBridge.authorizationEpoch authorization))).
End contract_digest.

(** The calldata a user builds from the authorization the canister publishes. *)
Definition calldata_of (a : MintAuthorization) : IBridge.MintAuthorization :=
  {| IBridge.depositId := ma_deposit_id a;
     IBridge.recipient := ma_recipient a;
     IBridge.grossAmount := ma_gross_amount a;
     IBridge.maxServiceFee := ma_max_service_fee a;
     IBridge.chargedServiceFee := ma_charged_service_fee a;
     IBridge.deadline := ma_deadline a;
     IBridge.authorizationEpoch := ma_authorization_epoch a |}.

(** The Rust types of the fields. *)
Record MintAuthorization_typed (a : MintAuthorization) : Prop := {
  mat_id : length (ma_deposit_id a) = 32%nat;
  mat_recipient : length (ma_recipient a) = 20%nat;
  mat_gross : is_u128 (ma_gross_amount a);
  mat_max_fee : is_u128 (ma_max_service_fee a);
  mat_fee : is_u128 (ma_charged_service_fee a);
  mat_deadline : is_u64 (ma_deadline a);
  mat_epoch : is_u64 (ma_authorization_epoch a);
}.

Record MintAuthorizationDomain_typed (d : MintAuthorizationDomain) : Prop := {
  madt_chain : is_u64 (mad_chain_id d);
  madt_contract : length (mad_verifying_contract d) = 20%nat;
}.

(** The Solidity types of the calldata. *)
Definition is_u256 (x : Z) : Prop := 0 <= x < 2 ^ 256.

Record calldata_typed (c : IBridge.MintAuthorization) : Prop := {
  cdt_id : length (IBridge.depositId c) = 32%nat;
  cdt_recipient : length (IBridge.recipient c) = 20%nat;
  cdt_gross : is_u256 (IBridge.grossAmount c);
  cdt_max_fee : is_u256 (IBridge.maxServiceFee c);
  cdt_fee : is_u256 (IBridge.chargedServiceFee c);
  cdt_deadline : is_u256 (IBridge.deadline c);
  cdt_epoch : is_u256 (IBridge.authorizationEpoch c);
}.

(** ** Words *)

Lemma zeros_length n : length (zeros n) = n.
Proof. apply length_replicate. Qed.

Lemma zeros_byte n : Forall is_byte (zeros n).
Proof. apply Forall_replicate. unfold is_byte. lia. Qed.

Lemma to_be_bytes_zeros n x : to_be_bytes n x = zeros n <-> x mod 256 ^ Z.of_nat n = 0.
Proof.
  split; intros H.
  - rewrite <- be_value_to_be_bytes_mod, H. apply be_value_zeros.
  - apply be_value_inj; [apply to_be_bytes_byte|apply zeros_byte| |].
    + by rewrite to_be_bytes_length, zeros_length.
    + by rewrite be_value_to_be_bytes_mod, be_value_zeros.
Qed.

Lemma to_be_bytes_app n m x :
  0 <= x < 256 ^ Z.of_nat m -> to_be_bytes (n + m) x = zeros n ++ to_be_bytes m x.
Proof.
  intros Hx. apply be_value_inj.
  - apply to_be_bytes_byte.
  - apply Forall_app. split; [apply zeros_byte|apply to_be_bytes_byte].
  - by rewrite length_app, !to_be_bytes_length, zeros_length.
  - rewrite be_value_app, be_value_zeros, Z.mul_0_l, Z.add_0_l.
    rewrite (be_value_to_be_bytes m) by done. apply be_value_to_be_bytes.
    rewrite Nat2Z.inj_add, Z.pow_add_r by lia. nia.
Qed.

Lemma uint_word_abi x : is_u128 x -> MintDigest.uint_word x = abi_uint256 x.
Proof.
  intros Hx. symmetry. apply (to_be_bytes_app 16 16). ranges.
  change (256 ^ Z.of_nat 16) with (u128_max + 1). lia.
Qed.

Lemma abi_uint256_inj x y : is_u256 x -> is_u256 y -> abi_uint256 x = abi_uint256 y -> x = y.
Proof.
  unfold is_u256, abi_uint256. intros Hx Hy H.
  rewrite <- (be_value_to_be_bytes 32 x), <- (be_value_to_be_bytes 32 y), H by done. done.
Qed.

Lemma abi_uint256_length x : length (abi_uint256 x) = 32%nat.
Proof. apply to_be_bytes_length. Qed.

Lemma abi_uint256_app_inj x y l l' :
  is_u256 x -> is_u256 y -> abi_uint256 x ++ l = abi_uint256 y ++ l' -> x = y /\ l = l'.
Proof.
  intros Hx Hy H. apply app_inj_1 in H as [H ->]; [|by rewrite !abi_uint256_length].
  by apply abi_uint256_inj in H.
Qed.

Lemma abi_address_length a : length a = 20%nat -> length (abi_address a) = 32%nat.
Proof. intros H. unfold abi_address. by rewrite length_app, H. Qed.

Lemma u128_u256 x : is_u128 x -> is_u256 x.
Proof. unfold is_u256. ranges. lia. Qed.

Lemma u64_u128 x : is_u64 x -> is_u128 x.
Proof. ranges. lia. Qed.

Lemma calldata_of_typed a : MintAuthorization_typed a -> calldata_typed (calldata_of a).
Proof. intros []. split; simpl; eauto using u128_u256, u64_u128. Qed.

Lemma calldata_of_inj a b : calldata_of a = calldata_of b -> a = b.
Proof. destruct a, b. unfold calldata_of. simpl. intros [= -> -> -> -> -> -> ->]. done. Qed.

(** ** The two digests *)

Section digests.
Context `{EIP712}.

(** What the contract hashes, step by step. *)
Definition contract_domain (chainid : Z) (this : bytes) : bytes :=
  keccak256 MintDigest.DOMAIN_TYPE ++ keccak256 (as_bytes "KINIC Bridge")
  ++ keccak256 (as_bytes "1") ++ abi_uint256 chainid ++ abi_address this.

Definition contract_struct (c : IBridge.MintAuthorization) : bytes :=
  keccak256 MintDigest.AUTHORIZATION_TYPE ++ IBridge.depositId c
  ++ abi_address (IBridge.recipient c) ++ abi_uint256 (IBridge.grossAmount c)
  ++ abi_uint256 (IBridge.maxServiceFee c) ++ abi_uint256 (IBridge.chargedServiceFee c)
  ++ abi_uint256 (IBridge.deadline c) ++ abi_uint256 (IBridge.authorizationEpoch c).

Definition contract_input (chainid : Z) (this : bytes) (c : IBridge.MintAuthorization) : bytes :=
  [0x19; 0x01] ++ keccak256 (contract_domain chainid this) ++ keccak256 (contract_struct c).

Lemma mintAuthorizationDigest_input chainid this c :
  mintAuthorizationDigest chainid this c = keccak256 (contract_input chainid this c).
Proof. unfold mintAuthorizationDigest. by rewrite EIP712_hashTypedDataV4_spec. Qed.

Lemma domain_preimage_contract chainid this :
  is_u64 chainid ->
  MintDigest.domain_preimage (MintAuthorizationDomain_bridge chainid this)
  = contract_domain chainid this.
Proof.
  intros Hc. unfold MintDigest.domain_preimage, MintDigest.concat_words.
  rewrite uint_word_abi by (by apply u64_u128). cbn [concat]. by rewrite app_nil_r.
Qed.

Lemma struct_preimage_contract a :
  MintAuthorization_typed a ->
  MintDigest.struct_preimage a = contract_struct (calldata_of a).
Proof.
  intros []. unfold MintDigest.struct_preimage, MintDigest.concat_words.
  rewrite !uint_word_abi by eauto using u64_u128. cbn [concat]. by rewrite app_nil_r.
Qed.

Lemma digest_contract chainid this a :
  is_u64 chainid -> MintAuthorization_typed a ->
  MintDigest.digest (MintAuthorizationDomain_bridge chainid this) a
  = keccak256 (contract_input chainid this (calldata_of a)).
Proof.
  intros Hc Ha.
  unfold MintDigest.digest, MintDigest.digest_input, contract_input, MintDigest.keccak.
  by rewrite domain_preimage_contract, struct_preimage_contract by done.
Qed.

(** C13 (one digest).  For every authorization and every chain the canister can
    name, the digest the canister hands to the threshold signer is the digest the
    contract recomputes from the calldata of the mint. *)
Theorem mint_digest_agrees chainid this a :
  is_u64 chainid -> MintAuthorization_typed a ->
  MintDigest.digest (MintAuthorizationDomain_bridge chainid this) a
  = mintAuthorizationDigest chainid this (calldata_of a).
Proof.
  intros Hc Ha. by rewrite mintAuthorizationDigest_input, digest_contract.
Qed.

(** Two different inputs with the same hash. *)
Definition collision (x y : bytes) : Prop := x <> y /\ keccak256 x = keccak256 y.

Lemma collision_or_eq x y : keccak256 x = keccak256 y -> x = y \/ collision x y.
Proof. intros Hk. destruct (decide (x = y)); [by left|by right]. Qed.

Lemma contract_struct_inj c c' :
  calldata_typed c -> calldata_typed c' -> contract_struct c = contract_struct c' -> c = c'.
Proof.
  intros [] []. unfold contract_struct, abi_address. intros Heq.
  apply app_inv_head in Heq.
  apply app_inj_1 in Heq as [? Heq]; [|congruence].
  rewrite <- !app_assoc in Heq. apply app_inv_head in Heq.
  apply app_inj_1 in Heq as [? Heq]; [|congruence].
  do 4 (apply abi_uint256_app_inj in Heq as [? Heq]; [|done..]).
  apply abi_uint256_inj in Heq; [|done..]. destruct c, c'. simpl in *. congruence.
Qed.

Lemma contract_domain_inj chainid this chainid' this' :
  is_u256 chainid -> is_u256 chainid' ->
  contract_domain chainid this = contract_domain chainid' this' -> chainid = chainid' /\ this = this'.
Proof.
  intros Hc Hc'. unfold contract_domain, abi_address. intros Heq.
  do 3 apply app_inv_head in Heq.
  apply abi_uint256_app_inj in Heq as [? Heq]; [|done..]. by apply app_inv_head in Heq.
Qed.

Hypothesis keccak256_length : forall b, length (keccak256 b) = 32%nat.

Lemma contract_digest_binds chainid this c chainid' this' c' :
  is_u256 chainid -> is_u256 chainid' -> calldata_typed c -> calldata_typed c' ->
  mintAuthorizationDigest chainid this c = mintAuthorizationDigest chainid' this' c' ->
  (chainid = chainid' /\ this = this' /\ c = c') \/
  collision (contract_input chainid this c) (contract_input chainid' this' c') \/
  collision (contract_domain chainid this) (contract_domain chainid' this') \/
  collision (contract_struct c) (contract_struct c').
Proof.
  intros Hn Hn' Hc Hc'. rewrite !mintAuthorizationDigest_input. intros Hk.
  apply collision_or_eq in Hk as [Heq|Hk]; [|by right; left].
  unfold contract_input in Heq. apply app_inv_head in Heq.
  apply app_inj_1 in Heq as [Hd Hs]; [|by rewrite !keccak256_length].
  apply collision_or_eq in Hd as [Hd|Hd]; [|by right; right; left].
  apply collision_or_eq in Hs as [Hs|Hs]; [|by right; right; right].
  apply contract_domain_inj in Hd as [-> ->]; [|done..].
  apply contract_struct_inj in Hs as ->; [|done..]. by left.
Qed.

(** C14 (the digest determines the mint).  When the digest of a canister
    authorization equals the digest the contract computes from some calldata, the
    calldata is that authorization, field by field, for the same chain and the same
    contract; otherwise one of three named pairs of inputs is a Keccak collision. *)
Theorem mint_digest_binds chainid this a chainid' this' c :
  is_u64 chainid -> is_u256 chainid' -> MintAuthorization_typed a -> calldata_typed c ->
  MintDigest.digest (MintAuthorizationDomain_bridge chainid this) a
    = mintAuthorizationDigest chainid' this' c ->
  (chainid = chainid' /\ this = this' /\ calldata_of a = c) \/
  collision (contract_input chainid this (calldata_of a)) (contract_input chainid' this' c) \/
  collision (contract_domain chainid this) (contract_domain chainid' this') \/
  collision (contract_struct (calldata_of a)) (contract_struct c).
Proof.
  intros Hn Hn' Ha Hc Hk. apply contract_digest_binds; try done.
  - by apply u128_u256, u64_u128.
  - by apply calldata_of_typed.
  - by rewrite <- Hk, mintAuthorizationDigest_input, digest_contract.
Qed.
End digests.

(** ** On concrete data *)

(** A 32-byte function of its input in the place of the hash. *)
Definition sample_round (lanes : bytes) (b : Z) : bytes :=
  match lanes with
  | [] => []
  | lane :: lanes => lanes ++ [(lane * 3 + b + 1) mod 256]
  end.

Definition sample_keccak (b : bytes) : bytes := rev (foldl sample_round (zeros 32) b).

Lemma sample_keccak_length b : length (sample_keccak b) = 32%nat.
Proof.
  unfold sample_keccak. rewrite length_rev. assert (length (zeros 32) = 32%nat) as Hz by done. revert Hz.
  generalize (zeros 32). induction b as [|x b IH]; intros l Hl; [done|]. simpl. apply IH.
  destruct l; [done|]. simpl in *. rewrite length_app. simpl. lia.
Qed.

Definition sample_Keccak : Keccak := sample_keccak.

Definition sample_EIP712 : @EIP712 sample_Keccak :=
  {| EIP712_hashTypedDataV4 := fun name version chainid this structHash =>
       sample_keccak
         ([0x19; 0x01] ++
          sample_keccak
            (sample_keccak MintDigest.DOMAIN_TYPE
             ++ sample_keccak (as_bytes name) ++ sample_keccak (as_bytes version)
             ++ abi_uint256 chainid ++ abi_address this)
          ++ structHash);
     EIP712_hashTypedDataV4_spec := fun _ _ _ _ _ => eq_refl |}.

Definition sample_authorization : MintAuthorization :=
  {| ma_deposit_id := replicate 32 7; ma_recipient := replicate 20 2;
     ma_gross_amount := 1100; ma_max_service_fee := 100; ma_charged_service_fee := 10;
     ma_deadline := 1800000000; ma_authorization_epoch := 7 |}.

Lemma sample_authorization_typed : MintAuthorization_typed sample_authorization.
Proof. split; simpl; ranges; done || lia. Qed.

Lemma mint_digest_agrees_witness :
  @MintDigest.digest sample_keccak (MintAuthorizationDomain_bridge 8453 (replicate 20 3))
    sample_authorization
  = @mintAuthorizationDigest _ sample_EIP712 8453 (replicate 20 3) (calldata_of sample_authorization).
Proof.
  apply (@mint_digest_agrees _ sample_EIP712); [ranges; lia|apply sample_authorization_typed].
Defined.

Lemma mint_digest_binds_witness :
  8453 = 8453 /\ replicate 20 3 = replicate 20 3 /\
  calldata_of sample_authorization = calldata_of sample_authorization.
Proof.
  destruct (@mint_digest_binds _ sample_EIP712 sample_keccak_length 8453 (replicate 20 3)
    sample_authorization 8453 (replicate 20 3) (calldata_of sample_authorization))
    as [H|[[H _]|[[H _]|[H _]]]]; [..|exact H|destruct (H eq_refl)|destruct (H eq_refl)|destruct (H eq_refl)].
  - ranges. lia.
  - unfold is_u256. lia.
  - apply sample_authorization_typed.
  - apply calldata_of_typed, sample_authorization_typed.
  - rewrite (@mintAuthorizationDigest_input _ sample_EIP712).
    apply digest_contract; [ranges; lia|apply sample_authorization_typed].
Defined.
