(* ===== verification/BaseToken.v ===== *)
(** * The token on Base

    [contracts/src/BSNS.sol]: the bridged token, an ERC-20 whose supply only the
    bridge contract changes, with the signed transfers of EIP-3009.

    OpenZeppelin's [ERC20], [EIP712] and [ECDSA] are not part of the repository.
    [ERC20] and [ECDSA] are classes of the functions the contract inherits or
    calls; [ERC20Laws] states what the ERC-20 standard and OpenZeppelin's
    documentation promise of them.  A transaction that reverts returns no state. *)

From S2P Require Import Prelude Types Eip712.

Abbreviation address := bytes.

(** What the EVM tells a contract about the call it runs. *)
Record CallContext := {
  msg_sender : address;
  block_timestamp : Z;
  block_number : Z;
  block_chainid : Z;
}.

Definition address_zero : address := zeros 20.

(** ** What the contracts inherit *)

(** The state [T] of an OpenZeppelin [ERC20]; a failure carries its revert data. *)
Class ERC20 (T : Type) := {
  ERC20_new : string -> string -> T;
  ERC20_balanceOf : T -> address -> Z;
  ERC20_totalSupply : T -> Z;
  ERC20_allowance : T -> address -> address -> Z;
  ERC20_mint : T -> address -> Z -> Result bytes T;
  ERC20_burn : T -> address -> Z -> Result bytes T;
  ERC20_transfer : T -> address -> address -> Z -> Result bytes T;
  ERC20_transferFrom : T -> address -> address -> address -> Z -> Result bytes (bool * T);
  ERC20_approve : T -> address -> address -> Z -> Result bytes (bool * T);
}.

Section balances.
Context {T : Type} `{ERC20 T}.

(** [v] tokens left [from] and arrived at [to]. *)
Definition moves (t t' : T) (from to : address) (v : Z) : Prop :=
  v <= ERC20_balanceOf t from /\
  ERC20_totalSupply t' = ERC20_totalSupply t /\
  forall a, ERC20_balanceOf t' a =
    ERC20_balanceOf t a - (if decide (a = from) then v else 0) + (if decide (a = to) then v else 0).
End balances.

Class ERC20Laws (T : Type) `{ERC20 T} := {
  ERC20_new_empty name symbol :
    ERC20_totalSupply (ERC20_new name symbol) = 0 /\
    forall a, ERC20_balanceOf (ERC20_new name symbol) a = 0;
  ERC20_mint_spec t account value t' :
    ERC20_mint t account value = Ok t' ->
    ERC20_totalSupply t' = ERC20_totalSupply t + value /\
    forall a, ERC20_balanceOf t' a =
      ERC20_balanceOf t a + (if decide (a = account) then value else 0);
  ERC20_burn_spec t account value t' :
    ERC20_burn t account value = Ok t' ->
    value <= ERC20_balanceOf t account /\
    ERC20_totalSupply t' = ERC20_totalSupply t - value /\
    forall a, ERC20_balanceOf t' a =
      ERC20_balanceOf t a - (if decide (a = account) then value else 0);
  ERC20_transfer_spec t from to value t' :
    ERC20_transfer t from to value = Ok t' -> moves t t' from to value;
  ERC20_transferFrom_spec t spender from to value success t' :
    ERC20_transferFrom t spender from to value = Ok (success, t') ->
    value <= ERC20_allowance t from spender /\ moves t t' from to value;
  ERC20_approve_spec t owner spender value success t' :
    ERC20_approve t owner spender value = Ok (success, t') ->
    ERC20_totalSupply t' = ERC20_totalSupply t /\
    forall a, ERC20_balanceOf t' a = ERC20_balanceOf t a;
}.

Inductive RecoverError :=
| RecoverError_NoError
| RecoverError_InvalidSignature
| RecoverError_InvalidSignatureLength
| RecoverError_InvalidSignatureS.

#[export] Instance RecoverError_eq_dec : EqDecision RecoverError.
Proof. solve_decision. Defined.

Class ECDSA := {
  ECDSA_tryRecoverCalldata : bytes -> bytes -> address * RecoverError;
  ECDSA_recover : bytes -> Z -> bytes -> bytes -> Result bytes address;
}.

(** ** The contract *)

Inductive BsnsError :=
| OnlyBridge (caller : address)
| AuthorizationNotYetValid (currentTime validAfter : Z)
| AuthorizationExpired (currentTime validBefore : Z)
| AuthorizationAlreadyUsed (authorizer : address) (nonce : bytes)
| InvalidAuthorizationSigner (recoveredSigner authorizer : address)
| CallerMustBeRecipient (caller recipient : address)
| Inherited (data : bytes).

Inductive BsnsEvent :=
| AuthorizationUsed (authorizer : address) (nonce : bytes)
| AuthorizationCanceled (authorizer : address) (nonce : bytes).

#[export] Instance BsnsEvent_eq_dec : EqDecision BsnsEvent.
Proof. solve_decision. Defined.

Definition TRANSFER_WITH_AUTHORIZATION_TYPEHASH : bytes :=
  to_be_bytes 32 0x7c7c6cdb67a18743f49ec6fa9b35f50d52ed05cbed4cc592e13b44501c1a2267.
Definition RECEIVE_WITH_AUTHORIZATION_TYPEHASH : bytes :=
  to_be_bytes 32 0xd099cc98ef71107a616c4f0f941f04c322d8e254fe26b3c6668db87aae413de8.
Definition CANCEL_AUTHORIZATION_TYPEHASH : bytes :=
  to_be_bytes 32 0x158b0a9edf7a828aad02f63cd515c68ef2f50ba807396f6d12842833a1597429.

Record BSNS (T : Type) := {
  bsns_address : address;
  bsns_name : string;
  bsns_bridge : address;
  bsns_tokenDecimals : Z;
  bsns_erc20 : T;
  bsns_authorizationStates : gmap (address * bytes) bool;
}.
Arguments bsns_address {T} _.
Arguments bsns_name {T} _.
Arguments bsns_bridge {T} _.
Arguments bsns_tokenDecimals {T} _.
Arguments bsns_erc20 {T} _.
Arguments bsns_authorizationStates {T} _.

(** The signed part of a transfer: what EIP-3009 signs, and the signature. *)
Record SignedTransfer := {
  str_from : address;
  str_to : address;
  str_value : Z;
  str_validAfter : Z;
  str_validBefore : Z;
  str_nonce : bytes;
  str_v : Z;
  str_r : bytes;
  str_s : bytes;
}.

(** The calls the token accepts. *)
Inductive BsnsCall :=
| Call_transfer (to : address) (value : Z)
| Call_approve (spender : address) (value : Z)
| Call_transferFrom (from to : address) (value : Z)
| Call_bridgeMint (recipient : address) (amount : Z)
| Call_bridgeBurn (amount : Z)
| Call_transferWithAuthorization (transfer : SignedTransfer)
| Call_receiveWithAuthorization (transfer : SignedTransfer)
| Call_cancelAuthorization (authorizer : address) (nonce : bytes) (v : Z) (r s : bytes).

Section token.
Context {T : Type} `{!ERC20 T} `{EIP712} `{!ECDSA}.
Implicit Types (t : BSNS T) (ctx : CallContext).

Definition bsns_new (this : address) (tokenName tokenSymbol : string) (tokenDecimals : Z)
    (bridgeAddress : address) : BSNS T :=
  {| bsns_address := this; bsns_name := tokenName; bsns_bridge := bridgeAddress;
     bsns_tokenDecimals := tokenDecimals; bsns_erc20 := ERC20_new tokenName tokenSymbol;
     bsns_authorizationStates := ∅ |}.

Definition with_erc20 t (e : T) : BSNS T :=
  {| bsns_address := bsns_address t; bsns_name := bsns_name t; bsns_bridge := bsns_bridge t;
     bsns_tokenDecimals := bsns_tokenDecimals t; bsns_erc20 := e;
     bsns_authorizationStates := bsns_authorizationStates t |}.

Definition with_authorization_used t (authorizer : address) (nonce : bytes) : BSNS T :=
  {| bsns_address := bsns_address t; bsns_name := bsns_name t; bsns_bridge := bsns_bridge t;
     bsns_tokenDecimals := bsns_tokenDecimals t; bsns_erc20 := bsns_erc20 t;
     bsns_authorizationStates := <[(authorizer, nonce) := true]> (bsns_authorizationStates t) |}.

Definition inherited {A} (r : Result bytes A) : Result BsnsError A := map_err Inherited r.

Definition onlyBridge ctx t : Result BsnsError unit :=
  if decide (msg_sender ctx = bsns_bridge t) then Ok tt else Err (OnlyBridge (msg_sender ctx)).

Definition bridgeMint ctx t (recipient : address) (amount : Z) : Result BsnsError (BSNS T) :=
  let? _ := onlyBridge ctx t in
  let? e := inherited (ERC20_mint (bsns_erc20 t) recipient amount) in
  Ok (with_erc20 t e).

Definition bridgeBurn ctx t (amount : Z) : Result BsnsError (BSNS T) :=
  let? _ := onlyBridge ctx t in
  let? e := inherited (ERC20_burn (bsns_erc20 t) (msg_sender ctx) amount) in
  Ok (with_erc20 t e).

(** A mapping that was never written reads [false]. *)
Definition authorizationState t (authorizer : address) (nonce : bytes) : bool :=
  default false (bsns_authorizationStates t !! (authorizer, nonce)).

Definition requireUnusedAuthorization t (authorizer : address) (nonce : bytes)
    : Result BsnsError unit :=
  if authorizationState t authorizer nonce then Err (AuthorizationAlreadyUsed authorizer nonce)
  else Ok tt.

Definition bsns_hashTypedDataV4 ctx t (structHash : bytes) : bytes :=
  EIP712_hashTypedDataV4 (bsns_name t) "1" (block_chainid ctx) (bsns_address t) structHash.

Definition signed_transfer_hash (typeHash : bytes) (a : SignedTransfer) : bytes :=
  keccak256
    (abi_bytes32 typeHash ++ abi_address (str_from a) ++ abi_address (str_to a)
     ++ abi_uint256 (str_value a) ++ abi_uint256 (str_validAfter a)
     ++ abi_uint256 (str_validBefore a) ++ abi_bytes32 (str_nonce a)).

Definition transferWithAuthorization_ ctx t (typeHash : bytes) (a : SignedTransfer)
    : Result BsnsError (BSNS T * list BsnsEvent) :=
  if block_timestamp ctx <=? str_validAfter a
  then Err (AuthorizationNotYetValid (block_timestamp ctx) (str_validAfter a))
  else if block_timestamp ctx >=? str_validBefore a
  then Err (AuthorizationExpired (block_timestamp ctx) (str_validBefore a))
  else
    let? _ := requireUnusedAuthorization t (str_from a) (str_nonce a) in
    let structHash := signed_transfer_hash typeHash a in
    let? recoveredSigner :=
      inherited (ECDSA_recover (bsns_hashTypedDataV4 ctx t structHash) (str_v a) (str_r a) (str_s a)) in
    if decide (recoveredSigner <> str_from a)
    then Err (InvalidAuthorizationSigner recoveredSigner (str_from a))
    else
      let t := with_authorization_used t (str_from a) (str_nonce a) in
      let? e := inherited (ERC20_transfer (bsns_erc20 t) (str_from a) (str_to a) (str_value a)) in
      Ok (with_erc20 t e, [AuthorizationUsed (str_from a) (str_nonce a)]).

Definition transferWithAuthorization ctx t (a : SignedTransfer)
    : Result BsnsError (BSNS T * list BsnsEvent) :=
  transferWithAuthorization_ ctx t TRANSFER_WITH_AUTHORIZATION_TYPEHASH a.

Definition receiveWithAuthorization ctx t (a : SignedTransfer)
    : Result BsnsError (BSNS T * list BsnsEvent) :=
  if decide (msg_sender ctx <> str_to a)
  then Err (CallerMustBeRecipient (msg_sender ctx) (str_to a))
  else transferWithAuthorization_ ctx t RECEIVE_WITH_AUTHORIZATION_TYPEHASH a.

Definition cancel_authorization_hash (authorizer : address) (nonce : bytes) : bytes :=
  keccak256 (abi_bytes32 CANCEL_AUTHORIZATION_TYPEHASH ++ abi_address authorizer ++ abi_bytes32 nonce).

Definition cancelAuthorization ctx t (authorizer : address) (nonce : bytes) (v : Z) (r s : bytes)
    : Result BsnsError (BSNS T * list BsnsEvent) :=
  let? _ := requireUnusedAuthorization t authorizer nonce in
  let structHash := cancel_authorization_hash authorizer nonce in
  let? recoveredSigner :=
    inherited (ECDSA_recover (bsns_hashTypedDataV4 ctx t structHash) v r s) in
  if decide (recoveredSigner <> authorizer)
  then Err (InvalidAuthorizationSigner recoveredSigner authorizer)
  else Ok (with_authorization_used t authorizer nonce, [AuthorizationCanceled authorizer nonce]).

(** One external call; the inherited functions act for [msg.sender]. *)
Definition bsns_call ctx t (call : BsnsCall) : Result BsnsError (BSNS T * list BsnsEvent) :=
  match call with
  | Call_transfer to value =>
      let? e := inherited (ERC20_transfer (bsns_erc20 t) (msg_sender ctx) to value) in
      Ok (with_erc20 t e, [])
  | Call_approve spender value =>
      let? (_, e) := inherited (ERC20_approve (bsns_erc20 t) (msg_sender ctx) spender value) in
      Ok (with_erc20 t e, [])
  | Call_transferFrom from to value =>
      let? (_, e) :=
        inherited (ERC20_transferFrom (bsns_erc20 t) (msg_sender ctx) from to value) in
      Ok (with_erc20 t e, [])
  | Call_bridgeMint recipient amount =>
      let? next := bridgeMint ctx t recipient amount in Ok (next, [])
  | Call_bridgeBurn amount => let? next := bridgeBurn ctx t amount in Ok (next, [])
  | Call_transferWithAuthorization a => transferWithAuthorization ctx t a
  | Call_receiveWithAuthorization a => receiveWithAuthorization ctx t a
  | Call_cancelAuthorization authorizer nonce v r s =>
      cancelAuthorization ctx t authorizer nonce v r s
  end.
End token.

(** ** What a call does *)

Section token_calls.
Context {T : Type} `{!ERC20 T} `{!ERC20Laws T} `{EIP712} `{!ECDSA}.
Implicit Types (t : BSNS T) (ctx : CallContext).

Definition supply t : Z := ERC20_totalSupply (bsns_erc20 t).
Definition balance t (a : address) : Z := ERC20_balanceOf (bsns_erc20 t) a.

Lemma inherited_Ok {A} (r : Result bytes A) a : inherited r = Ok a -> r = Ok a.
Proof. destruct r; simpl; [|done]. by intros [= ->]. Qed.

Lemma onlyBridge_Ok ctx t u : onlyBridge ctx t = Ok u -> msg_sender ctx = bsns_bridge t.
Proof. unfold onlyBridge. by case_decide. Qed.

Lemma bridgeMint_Ok ctx t recipient amount t' :
  bridgeMint ctx t recipient amount = Ok t' ->
  msg_sender ctx = bsns_bridge t /\
  exists e, ERC20_mint (bsns_erc20 t) recipient amount = Ok e /\ t' = with_erc20 t e.
Proof.
  unfold bridgeMint. intros Hc. bind Hc as [] Eo. apply onlyBridge_Ok in Eo.
  bind Hc as e Ee. apply inherited_Ok in Ee. simplify_eq. eauto.
Qed.

Lemma bridgeBurn_Ok ctx t amount t' :
  bridgeBurn ctx t amount = Ok t' ->
  msg_sender ctx = bsns_bridge t /\
  exists e, ERC20_burn (bsns_erc20 t) (msg_sender ctx) amount = Ok e /\ t' = with_erc20 t e.
Proof.
  unfold bridgeBurn. intros Hc. bind Hc as [] Eo. apply onlyBridge_Ok in Eo.
  bind Hc as e Ee. apply inherited_Ok in Ee. simplify_eq. eauto.
Qed.

(** A transfer signed by its source, inside its validity window, with a fresh nonce. *)
Record signed_by_source ctx t (typeHash : bytes) (a : SignedTransfer) : Prop := {
  sbs_after : str_validAfter a < block_timestamp ctx;
  sbs_before : block_timestamp ctx < str_validBefore a;
  sbs_unused : authorizationState t (str_from a) (str_nonce a) = false;
  sbs_signer : ECDSA_recover (bsns_hashTypedDataV4 ctx t (signed_transfer_hash typeHash a))
      (str_v a) (str_r a) (str_s a) = Ok (str_from a);
}.

Lemma requireUnused_Ok t authorizer nonce u :
  requireUnusedAuthorization t authorizer nonce = Ok u ->
  authorizationState t authorizer nonce = false.
Proof. unfold requireUnusedAuthorization. by destruct (authorizationState t authorizer nonce). Qed.

Lemma transferWithAuthorization_Ok ctx t typeHash a t' ev :
  transferWithAuthorization_ ctx t typeHash a = Ok (t', ev) ->
  signed_by_source ctx t typeHash a /\ ev = [AuthorizationUsed (str_from a) (str_nonce a)] /\
  exists e, ERC20_transfer (bsns_erc20 t) (str_from a) (str_to a) (str_value a) = Ok e /\
    t' = with_erc20 (with_authorization_used t (str_from a) (str_nonce a)) e.
Proof.
  unfold transferWithAuthorization_. intros Hc.
  destruct (Z.leb_spec (block_timestamp ctx) (str_validAfter a)); [done|].
  rewrite Z.geb_leb in Hc. destruct (Z.leb_spec (str_validBefore a) (block_timestamp ctx)); [done|].
  bind Hc as [] Eu. apply requireUnused_Ok in Eu. bind Hc as signer Es. apply inherited_Ok in Es.
  case_decide as Hs; [done|]. subst.
  bind Hc as e Ee. apply inherited_Ok in Ee. simplify_eq. split; [done|eauto].
Qed.

Lemma cancelAuthorization_Ok ctx t authorizer nonce v r s t' ev :
  cancelAuthorization ctx t authorizer nonce v r s = Ok (t', ev) ->
  authorizationState t authorizer nonce = false /\
  ECDSA_recover (bsns_hashTypedDataV4 ctx t (cancel_authorization_hash authorizer nonce)) v r s
    = Ok authorizer /\
  t' = with_authorization_used t authorizer nonce /\ ev = [AuthorizationCanceled authorizer nonce].
Proof.
  unfold cancelAuthorization. intros Hc. bind Hc as [] Eu. apply requireUnused_Ok in Eu.
  bind Hc as signer Es. apply inherited_Ok in Es.
  case_decide as Hs; [done|]. subst. by simplify_eq.
Qed.

(** How the supply may move in one call: by a mint or a burn of the bridge. *)
Definition supply_delta (call : BsnsCall) : Z :=
  match call with
  | Call_bridgeMint _ amount => amount
  | Call_bridgeBurn amount => - amount
  | _ => 0
  end.

Definition changes_supply (call : BsnsCall) : bool :=
  match call with Call_bridgeMint _ _ | Call_bridgeBurn _ => true | _ => false end.

(** What no call changes. *)
Definition same_token t t' : Prop :=
  bsns_address t' = bsns_address t /\ bsns_name t' = bsns_name t /\
  bsns_bridge t' = bsns_bridge t /\ bsns_tokenDecimals t' = bsns_tokenDecimals t.

#[export] Instance same_token_preorder : PreOrder same_token.
Proof. unfold same_token. split; repeat intro; naive_solver congruence. Qed.

(** Inversion of a successful call, one case per entry point. *)
Ltac invert_call Hc :=
  unfold transferWithAuthorization, receiveWithAuthorization in Hc;
  repeat match type of Hc with
  | context [decide ?P] => destruct (decide P); [discriminate Hc|]
  | match ?c with Ok _ => _ | Err _ => _ end = Ok _ =>
      let E := fresh "E" in let r := fresh "r" in
      destruct c as [r|] eqn:E; [|discriminate Hc];
      try match type of r with (_ * _)%type => destruct r end
  end;
  first [apply transferWithAuthorization_Ok in Hc as (Hsig & -> & e & Ee & ->)
        |apply cancelAuthorization_Ok in Hc as (Hun & Hsig & -> & ->)
        |simplify_eq];
  repeat match goal with
  | E : inherited _ = Ok _ |- _ => apply inherited_Ok in E
  | E : bridgeMint _ _ _ _ = Ok _ |- _ => destruct (bridgeMint_Ok _ _ _ _ _ E) as (Hsender & ? & Ee & ->); clear E
  | E : bridgeBurn _ _ _ = Ok _ |- _ => destruct (bridgeBurn_Ok _ _ _ _ E) as (Hsender & ? & Ee & ->); clear E
  end.

Lemma bsns_call_supply ctx t call t' ev :
  bsns_call ctx t call = Ok (t', ev) ->
  same_token t t' /\ supply t' = supply t + supply_delta call /\
  (changes_supply call = true -> msg_sender ctx = bsns_bridge t).
Proof.
  intros Hc. unfold supply.
  destruct call; simpl in Hc; invert_call Hc; simpl; (split; [done|]); (split; [|done]);
    first [match goal with
           | E : ERC20_transfer _ _ _ _ = Ok _ |- _ => apply ERC20_transfer_spec in E as (_ & E & _)
           | E : ERC20_transferFrom _ _ _ _ _ = Ok _ |- _ =>
               apply ERC20_transferFrom_spec in E as (_ & _ & E & _)
           | E : ERC20_approve _ _ _ _ = Ok _ |- _ => apply ERC20_approve_spec in E as (E & _)
           | E : ERC20_mint _ _ _ = Ok _ |- _ => apply ERC20_mint_spec in E as (E & _)
           | E : ERC20_burn _ _ _ = Ok _ |- _ => apply ERC20_burn_spec in E as (_ & E & _)
           end; lia
          |lia].
Qed.

(** ** Who can spend *)

Definition call_typed (call : BsnsCall) : Prop :=
  match call with
  | Call_transfer _ v | Call_approve _ v | Call_transferFrom _ _ v | Call_bridgeMint _ v
  | Call_bridgeBurn v => is_u256 v
  | Call_transferWithAuthorization a | Call_receiveWithAuthorization a => is_u256 (str_value a)
  | Call_cancelAuthorization _ _ _ _ _ => True
  end.

(** The holder [a] let this call spend its tokens: it is the caller, it granted the
    caller an allowance that covers the amount, or it signed the transfer. *)
Definition spends_with_consent ctx t (call : BsnsCall) (a : address) : Prop :=
  match call with
  | Call_transfer _ _ => msg_sender ctx = a
  | Call_transferFrom from _ v =>
      from = a /\ v <= ERC20_allowance (bsns_erc20 t) a (msg_sender ctx)
  | Call_bridgeBurn _ => msg_sender ctx = a /\ a = bsns_bridge t
  | Call_transferWithAuthorization s =>
      str_from s = a /\ signed_by_source ctx t TRANSFER_WITH_AUTHORIZATION_TYPEHASH s
  | Call_receiveWithAuthorization s =>
      str_from s = a /\ msg_sender ctx = str_to s /\
      signed_by_source ctx t RECEIVE_WITH_AUTHORIZATION_TYPEHASH s
  | Call_approve _ _ | Call_bridgeMint _ _ | Call_cancelAuthorization _ _ _ _ _ => False
  end.

Lemma moves_debit (e e' : T) from to v a :
  moves e e' from to v -> 0 <= v -> ERC20_balanceOf e' a < ERC20_balanceOf e a -> from = a.
Proof. intros (_ & _ & Hb) Hv Hlt. rewrite Hb in Hlt. repeat case_decide; done || lia. Qed.

(** C33 (no token moves without its holder).  A call, by anyone and with any
    arguments, takes tokens out of an account only when the account's holder made the
    call, approved the caller for at least that amount, or signed this very transfer
    with a nonce never used before, inside its validity window; the bridge burns only
    its own tokens. *)
Theorem balance_spent_with_consent ctx t call t' ev a :
  call_typed call -> bsns_call ctx t call = Ok (t', ev) -> balance t' a < balance t a ->
  spends_with_consent ctx t call a.
Proof.
  unfold balance, is_u256. intros Ht Hc Hlt.
  destruct call; simpl in Hc, Ht; unfold is_u256 in Ht; invert_call Hc; simpl in Hlt |- *.
  - apply ERC20_transfer_spec, moves_debit with (a := a) in E; (done || lia).
  - apply ERC20_approve_spec in E as [_ E]. rewrite E in Hlt. lia.
  - apply ERC20_transferFrom_spec in E as [Hal E].
    apply moves_debit with (a := a) in E as ->; (done || lia).
  - apply ERC20_mint_spec in Ee as [_ E]. rewrite E in Hlt. case_decide; lia.
  - apply ERC20_burn_spec in Ee as (_ & _ & E). rewrite E in Hlt. case_decide; [subst; done|lia].
  - apply ERC20_transfer_spec, moves_debit with (a := a) in Ee; (done || lia).
  - apply ERC20_transfer_spec, moves_debit with (a := a) in Ee as <-; [|lia|done].
    split_and!; [done| |done]. by apply dec_stable.
  - lia.
Qed.

(** ** Signed transfers are used once *)

Definition event_authorization (e : BsnsEvent) : address * bytes :=
  match e with
  | AuthorizationUsed authorizer nonce | AuthorizationCanceled authorizer nonce => (authorizer, nonce)
  end.

(** A reverted call leaves the state as it was and emits nothing. *)
Definition bsns_step t (c : CallContext * BsnsCall) : BSNS T * list BsnsEvent :=
  match bsns_call c.1 t c.2 with Ok r => r | Err _ => (t, []) end.

Fixpoint bsns_run t (calls : list (CallContext * BsnsCall)) : BSNS T * list BsnsEvent :=
  match calls with
  | [] => (t, [])
  | c :: calls =>
      let (t, ev) := bsns_step t c in
      let (t, evs) := bsns_run t calls in (t, ev ++ evs)
  end.

Lemma with_authorization_used_state t authorizer nonce a n :
  authorizationState (with_authorization_used t authorizer nonce) a n = true <->
  (a, n) = (authorizer, nonce) \/ authorizationState t a n = true.
Proof.
  unfold authorizationState. simpl. destruct (decide ((a, n) = (authorizer, nonce))) as [[= -> ->]|Hne].
  - rewrite lookup_insert_eq. naive_solver.
  - rewrite lookup_insert_ne by congruence. naive_solver.
Qed.

(** The nonces an event consumed were fresh, and are used afterwards. *)
Definition consumes t (ev : list BsnsEvent) t' : Prop :=
  NoDup (event_authorization <$> ev) /\
  (forall a n, (a, n) ∈ (event_authorization <$> ev) -> authorizationState t a n = false) /\
  (forall a n, authorizationState t' a n = true <->
     (a, n) ∈ (event_authorization <$> ev) \/ authorizationState t a n = true).

Lemma consumes_nil t t' :
  bsns_authorizationStates t' = bsns_authorizationStates t -> consumes t [] t'.
Proof.
  intros Heq. unfold consumes, authorizationState. rewrite Heq. simpl.
  split_and!; [constructor|by intros a n ?%elem_of_nil|]. intros a n. rewrite elem_of_nil. naive_solver.
Qed.

Lemma consumes_one t t' e a n :
  event_authorization e = (a, n) -> authorizationState t a n = false ->
  bsns_authorizationStates t' = bsns_authorizationStates (with_authorization_used t a n) ->
  consumes t [e] t'.
Proof.
  intros He Hf Heq. unfold consumes. simpl. rewrite He. split_and!.
  - apply NoDup_singleton.
  - by intros a' n' [= -> ->]%list_elem_of_singleton.
  - intros a' n'. rewrite list_elem_of_singleton, <- with_authorization_used_state.
    unfold authorizationState. by rewrite Heq.
Qed.

Lemma bsns_step_consumes t c t' ev : bsns_step t c = (t', ev) -> consumes t ev t'.
Proof.
  unfold bsns_step. destruct (bsns_call c.1 t c.2) as [[t1 ev1]|] eqn:Hc; intros [= <- <-];
    [|by apply consumes_nil].
  destruct c as [ctx []]; simpl in Hc; invert_call Hc; try (by apply consumes_nil);
    eapply consumes_one; first [done|apply Hsig|exact Hun].
Qed.

Lemma consumes_app t ev t1 ev' t2 :
  consumes t ev t1 -> consumes t1 ev' t2 -> consumes t (ev ++ ev') t2.
Proof.
  intros (Hn & Hf & Hs) (Hn' & Hf' & Hs'). unfold consumes. rewrite fmap_app. split_and!.
  - apply NoDup_app. split_and!; [done| |done]. intros [a n] Hin Hin'.
    specialize (Hf' a n Hin'). rewrite (proj2 (Hs a n) (or_introl Hin)) in Hf'. done.
  - intros a n [Hin|Hin]%elem_of_app; [by apply Hf|]. specialize (Hf' a n Hin).
    destruct (authorizationState t a n) eqn:E; [|done].
    by rewrite (proj2 (Hs a n) (or_intror E)) in Hf'.
  - intros a n. rewrite Hs', Hs, elem_of_app. tauto.
Qed.

Lemma bsns_run_consumes t calls t' ev : bsns_run t calls = (t', ev) -> consumes t ev t'.
Proof.
  revert t ev. induction calls as [|c calls IH]; simpl; intros t ev.
  - intros [= -> <-]. by apply consumes_nil.
  - destruct (bsns_step t c) as [t1 ev1] eqn:E1, (bsns_run t1 calls) as [t2 ev2] eqn:E2.
    intros [= <- <-]. eapply consumes_app; [by eapply bsns_step_consumes|by apply IH].
Qed.

(** A signed transfer runs once.  Over the life of the token, whatever calls
    arrive, no authorization is used or cancelled twice, and an authorization is
    marked as spent exactly when one of the two happened. *)
Theorem authorization_used_once this name symbol decimals_ bridge calls t ev :
  bsns_run (bsns_new this name symbol decimals_ bridge) calls = (t, ev) ->
  NoDup (event_authorization <$> ev) /\
  forall authorizer nonce, authorizationState t authorizer nonce = true <->
    (authorizer, nonce) ∈ (event_authorization <$> ev).
Proof.
  intros Hr. apply bsns_run_consumes in Hr as (Hn & _ & Hs). split; [done|].
  intros a n. rewrite Hs. split; [|by left]. intros [?|Hu]; [done|].
  unfold authorizationState in Hu. simpl in Hu. by rewrite lookup_empty in Hu.
Qed.
End token_calls.

(** ** A token that keeps the laws

    A plain ERC-20 over finite maps: the laws can hold, and the theorems run on it. *)

Module PlainToken.

Record State := {
  balances : gmap address Z;
  allowances : gmap (address * address) Z;
  total : Z;
}.

Definition balance_of (s : State) (a : address) : Z := default 0 (balances s !! a).
Definition allowance_of (s : State) (a b : address) : Z := default 0 (allowances s !! (a, b)).

Definition credit (s : State) (a : address) (v dsupply : Z) : State :=
  {| balances := <[a := balance_of s a + v]> (balances s); allowances := allowances s;
     total := total s + dsupply |}.

Definition mint (s : State) (a : address) (v : Z) : Result bytes State :=
  if decide (a = address_zero) then Err [] else Ok (credit s a v v).

Definition burn (s : State) (a : address) (v : Z) : Result bytes State :=
  if v <=? balance_of s a then Ok (credit s a (- v) (- v)) else Err [].

Definition transfer (s : State) (from to : address) (v : Z) : Result bytes State :=
  if decide (to = address_zero) then Err []
  else if v <=? balance_of s from then Ok (credit (credit s from (- v) 0) to v 0) else Err [].

Definition approve (s : State) (owner spender : address) (v : Z) : Result bytes (bool * State) :=
  Ok (true, {| balances := balances s; allowances := <[(owner, spender) := v]> (allowances s);
               total := total s |}).

Definition transferFrom (s : State) (spender from to : address) (v : Z)
    : Result bytes (bool * State) :=
  if v <=? allowance_of s from spender
  then
    let? (_, s1) := approve s from spender (allowance_of s from spender - v) in
    let? s2 := transfer s1 from to v in Ok (true, s2)
  else Err [].

#[global] Instance erc20 : ERC20 State := {|
  ERC20_new _ _ := {| balances := ∅; allowances := ∅; total := 0 |};
  ERC20_balanceOf := balance_of; ERC20_totalSupply := total; ERC20_allowance := allowance_of;
  ERC20_mint := mint; ERC20_burn := burn; ERC20_transfer := transfer;
  ERC20_transferFrom := transferFrom; ERC20_approve := approve |}.

Lemma credit_balance s a v d b :
  balance_of (credit s a v d) b = balance_of s b + (if decide (b = a) then v else 0).
Proof.
  unfold balance_of at 1. simpl. case_decide as Hd.
  - subst. by rewrite lookup_insert_eq.
  - rewrite lookup_insert_ne by done. unfold balance_of. lia.
Qed.

Lemma transfer_moves s s0 from to v s' :
  balances s0 = balances s -> total s0 = total s ->
  transfer s0 from to v = Ok s' -> moves s s' from to v.
Proof.
  intros Hb Ht. assert (forall a, balance_of s0 a = balance_of s a) as Ha.
  { intros a. unfold balance_of. by rewrite Hb. }
  unfold transfer. repeat case_match; try done. intros [= <-]. reflect. rewrite Ha in *.
  split_and!; simpl; [done|lia|]. intros a. rewrite !credit_balance, Ha.
  repeat case_decide; lia.
Qed.

#[global] Instance erc20_laws : ERC20Laws State.
Proof.
  split; simpl.
  - intros _ _. split; [done|]. intros a. unfold balance_of. simpl. by rewrite lookup_empty.
  - intros s a v s'. unfold mint. case_decide; [done|]. intros [= <-].
    split; [done|]. intros b. apply credit_balance.
  - intros s a v s'. unfold burn. case_match; [|done]. intros [= <-]. reflect.
    split_and!; [done|simpl; lia|]. intros b. rewrite credit_balance. case_decide; lia.
  - intros s from to v s'. by apply transfer_moves.
  - intros s spender from to v ok s'. unfold transferFrom. case_match; [|done]. reflect. simpl.
    intros Hc. bind Hc as s2 E. simplify_eq. split; [done|]. by eapply transfer_moves; [..|exact E].
  - intros s owner spender v ok s' [= <- <-]. done.
Qed.
End PlainToken.

(** A signature scheme whose signatures name their signer. *)
Definition sample_ECDSA : ECDSA :=
  {| ECDSA_tryRecoverCalldata hash signature :=
       if (length signature =? 65)%nat then (take 20 signature, RecoverError_NoError)
       else (address_zero, RecoverError_InvalidSignatureLength);
     ECDSA_recover hash v r s := Ok (take 20 r) |}.

Definition sample_context (sender : address) (now : Z) : CallContext :=
  {| msg_sender := sender; block_timestamp := now; block_number := 1; block_chainid := 8453 |}.

Definition sample_signed_transfer : SignedTransfer :=
  {| str_from := replicate 20 5; str_to := replicate 20 6; str_value := 30; str_validAfter := 10;
     str_validBefore := 20; str_nonce := replicate 32 9; str_v := 27; str_r := replicate 32 5;
     str_s := replicate 32 0 |}.

(** A mint, a signed transfer, and its replay. *)
Definition sample_token_calls : list (CallContext * BsnsCall) :=
  [(sample_context (replicate 20 1) 11, Call_bridgeMint (replicate 20 5) 100);
   (sample_context (replicate 20 8) 12, Call_transferWithAuthorization sample_signed_transfer);
   (sample_context (replicate 20 8) 13, Call_transferWithAuthorization sample_signed_transfer)].

Definition sample_token : BSNS PlainToken.State :=
  bsns_new (replicate 20 4) "KINIC" "KINIC" 8 (replicate 20 1).

Definition sample_token_after (n : nat) : BSNS PlainToken.State :=
  (@bsns_run _ _ _ sample_EIP712 sample_ECDSA sample_token (take n sample_token_calls)).1.

Lemma balance_spent_with_consent_witness :
  let t := sample_token_after 1 in
  @spends_with_consent _ _ _ sample_EIP712 sample_ECDSA (sample_context (replicate 20 8) 12) t
    (Call_transferWithAuthorization sample_signed_transfer) (replicate 20 5) /\
  balance (sample_token_after 2) (replicate 20 5) = 70.
Proof.
  split; [|vm_compute; reflexivity].
  apply (@balance_spent_with_consent _ _ _ _ sample_EIP712 sample_ECDSA) with
    (t' := sample_token_after 2) (ev := [AuthorizationUsed (replicate 20 5) (replicate 32 9)]).
  - simpl. unfold is_u256. lia.
  - vm_compute. reflexivity.
  - vm_compute. reflexivity.
Defined.

Lemma authorization_used_once_witness :
  let t := sample_token_after 3 in
  balance t (replicate 20 5) = 70 /\ balance t (replicate 20 6) = 30 /\
  NoDup (event_authorization <$>
    (@bsns_run _ _ _ sample_EIP712 sample_ECDSA sample_token sample_token_calls).2).
Proof.
  split; [vm_compute; reflexivity|]. split; [vm_compute; reflexivity|].
  destruct (@bsns_run _ _ _ sample_EIP712 sample_ECDSA sample_token sample_token_calls)
    as [t ev] eqn:E.
  apply (proj1 (@authorization_used_once _ _ _ sample_EIP712 sample_ECDSA _ _ _ _ _ _ _ _ E)).
Defined.
