(* ===== verification/BaseBridge.v ===== *)
(** * The bridge contract on Base

    [contracts/src/Bridge.sol] with its libraries [MintAuthorizationPolicy],
    [MintAccounting] and [BridgeAdministration]: minting against a signed
    authorization, committing withdrawals, and the administration that splits
    immediate pauses from timelocked changes.

    Solidity 0.8 arithmetic is checked: an operation that leaves [uint256] reverts
    with a panic.  A call that reverts returns no state.  The timelock the
    constructor inspects is a contract at another address; [TimelockCandidate] is
    what the constructor learns from it. *)

From S2P Require Import Prelude Types Eip712 BaseToken.

Definition u256_max : Z := 2 ^ 256 - 1.

(** ** Errors and events *)

Inductive BridgeError :=
| ZeroAddress
| RoleAddressesMustDiffer
| InvalidAmount (amount : Z)
| InvalidPrincipal (owner : bytes)
| InvalidServiceFee (serviceFee maximumServiceFee : Z)
| ValueExceedsU128 (value : Z)
| BlockTimestampExceedsU64 (timestamp : Z)
| InvalidMintWindowDuration (suppliedDuration minimumDuration maximumDuration : Z)
| ServiceFeeExceedsUserMaximum (serviceFee userMaximum : Z)
| BridgeSignerRotationRequired
| BridgeSignerAlreadyRetired (signer : address)
| MintAuthorizationDeadlineTooFar (deadline maximumDeadline : Z)
| DepositAlreadyProcessed (depositId : bytes)
| DepositMintLimitExceeded (mintAmount limit : Z)
| MintWindowLimitExceeded (requestedAmount availableAmount : Z)
| DepositMintsArePaused
| MintAuthorizationExpired (currentTimestamp deadline : Z)
| MintAuthorizationEpochMismatch (suppliedEpoch currentEpoch : Z)
| InvalidMintAuthorizationSignature
| WithdrawalsArePaused
| MultipleWithdrawalsInTransaction
| InvalidMintRecipient (recipient : address)
| TokenTransferFailed
| UnauthorizedRuntimeAdministrator (caller : address)
| UnauthorizedBaseAdmin (caller : address)
| TimelockCandidateHasNoCode (candidate : address)
| TimelockCandidateCodeHashMismatch (candidate : address) (actualCodeHash expectedCodeHash : bytes)
| TimelockCandidateIntrospectionFailed (candidate : address)
| TimelockCandidateDelayTooShort (candidate : address) (suppliedDelay minimumDelay : Z)
| TimelockCandidateDelayTooLong (candidate : address) (suppliedDelay maximumDelay : Z)
| TimelockCandidateMissingSelfAdmin (candidate : address)
| TimelockCandidateInvalidRoleMember (candidate : address) (role : bytes) (member : address)
| TimelockCandidateHasPendingOperations (candidate : address) (pendingOperationCount : Z)
| Panic
| TokenReverted (error : BsnsError)
| CandidateReverted.

Inductive BridgeEvent :=
| DepositMinted (depositId : bytes) (recipient : address) (authorizationDigest : bytes)
    (grossAmount serviceFee mintedAmount : Z)
| WithdrawalCommitted (withdrawalId : Z) (requester : address)
    (amount maxServiceFee chargedServiceFee amountOut : Z) (owner subaccount : bytes)
| ServiceFeeChanged (caller : address) (previousFee newFee : Z)
| DepositMintsPaused (caller : address)
| DepositMintsUnpaused (caller : address)
| WithdrawalsPaused (caller : address)
| WithdrawalsUnpaused (caller : address)
| BridgeSignerChanged (previousSigner newSigner : address)
| MintAuthorizationEpochChanged (caller : address) (previousEpoch newEpoch : Z)
| RuntimeAdministratorChanged (previousAdministrator newAdministrator : address).

#[export] Instance BridgeEvent_eq_dec : EqDecision BridgeEvent.
Proof. solve_decision. Defined.

Definition sol_add (x y : Z) : Result BridgeError Z := ok_or (checked_add u256_max x y) Panic.
Definition sol_sub (x y : Z) : Result BridgeError Z := ok_or (checked_sub x y) Panic.

Definition require (ok : bool) (error : BridgeError) : Result BridgeError unit :=
  if ok then Ok tt else Err error.

(** ** Libraries *)

Module BridgeAdministration.
Definition rolesAreNonzero (bridgeSigner runtimeAdministrator baseAdminTimelock : address) : bool :=
  bool_decide (bridgeSigner <> address_zero) && bool_decide (runtimeAdministrator <> address_zero)
  && bool_decide (baseAdminTimelock <> address_zero).

Definition rolesAreDistinct (bridgeSigner runtimeAdministrator baseAdminTimelock : address) : bool :=
  bool_decide (bridgeSigner <> runtimeAdministrator) && bool_decide (bridgeSigner <> baseAdminTimelock)
  && bool_decide (runtimeAdministrator <> baseAdminTimelock).

Definition limitsAreNonzero (perDepositLimit mintWindowLimit mintWindowDuration : Z) : bool :=
  negb (perDepositLimit =? 0) && negb (mintWindowLimit =? 0) && negb (mintWindowDuration =? 0).

Definition serviceFeeIsValid (serviceFee minimumServiceFee maximumServiceFee : Z) : bool :=
  (minimumServiceFee <=? serviceFee) && (serviceFee <=? maximumServiceFee).

Definition valueFitsU128 (value : Z) : bool := value <=? u128_max.

Definition valuesFitU128 (first second third : Z) : bool :=
  valueFitsU128 first && valueFitsU128 second && valueFitsU128 third.

Definition timelockDelayIsValid (delay minimumDelay maximumDelay : Z) : bool :=
  (minimumDelay <=? delay) && (delay <=? maximumDelay).

Definition timelockRoleIsClosed (member requiredMember : address) (memberHasRole roleIsOpen : bool)
    : bool :=
  bool_decide (member <> address_zero)
  && (bool_decide (requiredMember = address_zero) || bool_decide (member = requiredMember))
  && memberHasRole && negb roleIsOpen.

Definition timelockHasNoPendingOperations (pendingOperationCount : Z) : bool :=
  pendingOperationCount =? 0.

Definition withdrawalClaimAllowed (alreadyClaimed : bool) : bool := negb alreadyClaimed.
End BridgeAdministration.

Module MintAccounting.
Definition netAmount (grossAmount serviceFee : Z) : Result BridgeError Z :=
  sol_sub grossAmount serviceFee.

(** The result: accepted, the consumption afterwards, what was available. *)
Definition tryConsumeWindow (consumed requested limit : Z) : Result BridgeError (bool * Z * Z) :=
  let? available := if consumed >=? limit then Ok 0 else sol_sub limit consumed in
  if requested >? available then Ok (false, consumed, available)
  else let? next := sol_add consumed requested in Ok (true, next, available).
End MintAccounting.

Module MintAuthorizationPolicy.
Inductive RejectReason :=
| None_ | Paused | Expired | DeadlineTooFar | EpochMismatch | ZeroRecipient | InvalidRecipient
| GrossExceedsU128 | MaximumFeeExceedsU128 | ChargedFeeExceedsU128 | Processed
| ProtocolFeeExceeded | UserFeeExceeded | InvalidAmount | PerDepositLimitExceeded
| WindowLimitExceeded | TimestampExceedsU64.

Record MintTransitionInput := {
  timestamp : Z;
  deadline : Z;
  authorizationEpoch : Z;
  currentEpoch : Z;
  recipient : address;
  bridge : address;
  token : address;
  grossAmount : Z;
  maximumFee : Z;
  chargedFee : Z;
  protocolMaximumFee : Z;
  perDepositLimit : Z;
  consumedInWindow : Z;
  windowLimit : Z;
  windowStartedAt : Z;
  windowDuration : Z;
  paused : bool;
  processed : bool;
}.

Record MintEffects := {
  processedAfter : bool;
  windowReset : bool;
  windowStartedAtAfter : Z;
  windowConsumedAfter : Z;
  mintAmount : Z;
  supplyIncrease : Z;
  eventGrossAmount : Z;
  eventServiceFee : Z;
  eventMintedAmount : Z;
}.

(** An uninitialised memory struct is zero. *)
Definition no_effects : MintEffects :=
  {| processedAfter := false; windowReset := false; windowStartedAtAfter := 0;
     windowConsumedAfter := 0; mintAmount := 0; supplyIncrease := 0; eventGrossAmount := 0;
     eventServiceFee := 0; eventMintedAmount := 0 |}.

Definition feeWithinBounds (chargedFee userMaximum protocolMaximum : Z) : bool :=
  (chargedFee <=? userMaximum) && (chargedFee <=? protocolMaximum).

Definition mintAmountWithinLimit (grossAmount chargedFee perDepositLimit : Z)
    : Result BridgeError (bool * Z) :=
  if grossAmount <=? chargedFee then Ok (false, 0)
  else
    let? mintAmount := sol_sub grossAmount chargedFee in
    Ok (mintAmount <=? perDepositLimit, mintAmount).

Definition deadlineAccepts (timestamp deadline : Z) : bool := timestamp <=? deadline.

Definition epochMatches (authorizationEpoch currentEpoch : Z) : bool :=
  authorizationEpoch =? currentEpoch.

Definition depositAvailable (processed : bool) : bool := negb processed.

Definition mintEffectAmounts (grossAmount chargedFee : Z)
    : Result BridgeError (Z * Z * Z * Z * Z) :=
  let? mintAmount := sol_sub grossAmount chargedFee in
  Ok (mintAmount, mintAmount, grossAmount, chargedFee, mintAmount).

Definition nextEpoch (currentEpoch : Z) : Result BridgeError Z := sol_add currentEpoch 1.

Definition adminEpochTransition (currentEpoch : Z) (changed : bool) : Result BridgeError (bool * Z) :=
  if negb changed then Ok (false, currentEpoch)
  else let? next := nextEpoch currentEpoch in Ok (true, next).

Definition signerRotationEpoch (currentEpoch : Z) (currentSigner nextSigner : address)
    : Result BridgeError (bool * Z) :=
  adminEpochTransition currentEpoch (bool_decide (currentSigner <> nextSigner)).

Definition windowExpired (timestamp startedAt duration : Z) : Result BridgeError bool :=
  let? ends := sol_add startedAt duration in Ok (timestamp >=? ends).

Definition evaluateMint (input : MintTransitionInput)
    : Result BridgeError (RejectReason * MintEffects * Z) :=
  let reject reason available := Ok (reason, no_effects, available) in
  if paused input then reject Paused 0
  else if negb (deadlineAccepts (timestamp input) (deadline input)) then reject Expired 0
  else
    let? latest := sol_add (timestamp input) (15 * 60) in
    if deadline input >? latest then reject DeadlineTooFar 0
    else if negb (epochMatches (authorizationEpoch input) (currentEpoch input))
    then reject EpochMismatch 0
    else if bool_decide (recipient input = address_zero) then reject ZeroRecipient 0
    else if bool_decide (recipient input = bridge input) || bool_decide (recipient input = token input)
    then reject InvalidRecipient 0
    else if grossAmount input >? u128_max then reject GrossExceedsU128 0
    else if maximumFee input >? u128_max then reject MaximumFeeExceedsU128 0
    else if chargedFee input >? u128_max then reject ChargedFeeExceedsU128 0
    else if negb (depositAvailable (processed input)) then reject Processed 0
    else if negb (feeWithinBounds (chargedFee input) (maximumFee input) (protocolMaximumFee input))
    then
      if chargedFee input >? protocolMaximumFee input then reject ProtocolFeeExceeded 0
      else reject UserFeeExceeded 0
    else
      let? (amountAccepted, mintAmount) :=
        mintAmountWithinLimit (grossAmount input) (chargedFee input) (perDepositLimit input) in
      if grossAmount input <=? chargedFee input then reject InvalidAmount 0
      else if negb amountAccepted then reject PerDepositLimitExceeded 0
      else
        let? reset := windowExpired (timestamp input) (windowStartedAt input) (windowDuration input) in
        if reset && (timestamp input >? u64_max) then reject TimestampExceedsU64 0
        else
          let consumed := if reset then 0 else consumedInWindow input in
          let? (accepted, nextConsumed, available) :=
            MintAccounting.tryConsumeWindow consumed mintAmount (windowLimit input) in
          if negb accepted then reject WindowLimitExceeded available
          else
            let? (minted, increase, gross, fee, event) :=
              mintEffectAmounts (grossAmount input) (chargedFee input) in
            Ok (None_,
                {| processedAfter := true;
                   windowReset := reset;
                   windowStartedAtAfter :=
                     if reset then wrap u64_max (timestamp input) else windowStartedAt input;
                   windowConsumedAfter := nextConsumed;
                   mintAmount := minted;
                   supplyIncrease := increase;
                   eventGrossAmount := gross;
                   eventServiceFee := fee;
                   eventMintedAmount := event |},
                available).
End MintAuthorizationPolicy.

(** ** The state of the contract *)

Module Bridge.
Record StoredWithdrawal := {
  requester : address;
  exists_ : bool;
  amount : Z;
  maxServiceFee : Z;
  chargedServiceFee : Z;
  owner : bytes;
  subaccount : bytes;
}.

Inductive WithdrawalStatus := Status_None | Status_Committed.

(** [IBridge.Withdrawal]. *)
Record Withdrawal := {
  wd_requester : address;
  wd_amount : Z;
  wd_maxServiceFee : Z;
  wd_chargedServiceFee : Z;
  wd_amountOut : Z;
  wd_owner : bytes;
  wd_subaccount : bytes;
  wd_status : WithdrawalStatus;
}.

(** Set by the constructor and never again. *)
Record Immutables := {
  this : address;
  approvedTimelockRuntimeCodeHash : bytes;
  bsns : address;
  MIN_SERVICE_FEE : Z;
  MAX_SERVICE_FEE : Z;
  baseAdminTimelock : address;
  perDepositLimit : Z;
  mintWindowLimit : Z;
  mintWindowDuration : Z;
}.

Record Minting := {
  mintWindowStartedAt : Z;
  mintedInWindow : Z;
  processedDeposits : gmap bytes bool;
}.

Record Withdrawals := {
  nextWithdrawalId : Z;
  withdrawals : gmap Z StoredWithdrawal;
}.

Record Control := {
  bridgeSigner : address;
  mintAuthorizationEpoch : Z;
  runtimeAdministrator : address;
  serviceFee : Z;
  depositMintsPaused : bool;
  withdrawalsPaused : bool;
  retiredBridgeSigners : gmap address bool;
  bridgeSignerAtLastPause : address;
}.

Record State := {
  immutables : Immutables;
  minting : Minting;
  requests : Withdrawals;
  control : Control;
}.

(** [IBridge.BridgeSnapshot]. *)
Record BridgeSnapshot := {
  bs_blockNumber : Z;
  bs_blockTimestamp : Z;
  bs_bridgeSigner : address;
  bs_mintAuthorizationEpoch : Z;
  bs_serviceFee : Z;
  bs_maxServiceFee : Z;
  bs_perDepositLimit : Z;
  bs_mintWindowLimit : Z;
  bs_mintWindowDuration : Z;
  bs_mintWindowStartedAt : Z;
  bs_mintedInWindow : Z;
  bs_depositMintsPaused : bool;
  bs_withdrawalsPaused : bool;
}.

Definition set_minting (s : State) (m : Minting) : State :=
  {| immutables := immutables s; minting := m; requests := requests s; control := control s |}.
Definition set_requests (s : State) (r : Withdrawals) : State :=
  {| immutables := immutables s; minting := minting s; requests := r; control := control s |}.
Definition set_control (s : State) (c : Control) : State :=
  {| immutables := immutables s; minting := minting s; requests := requests s; control := c |}.

(** ** Views *)

(** A mapping that was never written reads as zero. *)
Definition isDepositProcessed (s : State) (depositId : bytes) : bool :=
  default false (processedDeposits (minting s) !! depositId).

Definition isRetired (s : State) (signer : address) : bool :=
  default false (retiredBridgeSigners (control s) !! signer).

Definition getWithdrawal (s : State) (withdrawalId : Z) : Result BridgeError Withdrawal :=
  let none :=
    {| wd_requester := address_zero; wd_amount := 0; wd_maxServiceFee := 0;
       wd_chargedServiceFee := 0; wd_amountOut := 0; wd_owner := []; wd_subaccount := zeros 32;
       wd_status := Status_None |} in
  match withdrawals (requests s) !! withdrawalId with
  | None => Ok none
  | Some stored =>
      if negb (exists_ stored) then Ok none
      else
        let? amountOut := sol_sub (amount stored) (chargedServiceFee stored) in
        Ok {| wd_requester := requester stored;
              wd_amount := amount stored;
              wd_maxServiceFee := maxServiceFee stored;
              wd_chargedServiceFee := chargedServiceFee stored;
              wd_amountOut := amountOut;
              wd_owner := owner stored;
              wd_subaccount := subaccount stored;
              wd_status := Status_Committed |}
  end.

Definition bridgeSnapshot (ctx : CallContext) (s : State) : BridgeSnapshot :=
  {| bs_blockNumber := block_number ctx;
     bs_blockTimestamp := block_timestamp ctx;
     bs_bridgeSigner := bridgeSigner (control s);
     bs_mintAuthorizationEpoch := mintAuthorizationEpoch (control s);
     bs_serviceFee := serviceFee (control s);
     bs_maxServiceFee := MAX_SERVICE_FEE (immutables s);
     bs_perDepositLimit := perDepositLimit (immutables s);
     bs_mintWindowLimit := mintWindowLimit (immutables s);
     bs_mintWindowDuration := mintWindowDuration (immutables s);
     bs_mintWindowStartedAt := mintWindowStartedAt (minting s);
     bs_mintedInWindow := mintedInWindow (minting s);
     bs_depositMintsPaused := depositMintsPaused (control s);
     bs_withdrawalsPaused := withdrawalsPaused (control s) |}.
End Bridge.

(** An event in the block that includes it. *)
Record Log := {
  log_block : Z;
  log_timestamp : Z;
  log_event : BridgeEvent;
}.

#[export] Instance Log_eq_dec : EqDecision Log.
Proof. solve_decision. Defined.

(** ** The contracts of one deployment

    The bridge, its token, the transient slot that marks a transaction that already
    committed a withdrawal, and the events the bridge has emitted, oldest first. *)

Record World (T : Type) := {
  w_bridge : Bridge.State;
  w_token : BSNS T;
  w_claimed : bool;
  w_logs : list Log;
}.
Arguments w_bridge {T} _.
Arguments w_token {T} _.
Arguments w_claimed {T} _.
Arguments w_logs {T} _.

(** What the constructor reads of the timelock: [None] is a call that fails. *)
Record TimelockCandidate := {
  tc_code_length : Z;
  tc_codehash : bytes;
  tc_getMinDelay : option Z;
  tc_hasRole : bytes -> address -> option bool;
  tc_roleMember : bytes -> option address;
  tc_pendingOperationCount : option Z;
}.

Inductive BridgeCall :=
| Call_mintDepositWithAuthorization (authorization : IBridge.MintAuthorization) (signature : bytes)
| Call_createWithdrawal (amount maxServiceFee : Z) (owner subaccount : bytes)
| Call_pauseDepositMints
| Call_pauseWithdrawals
| Call_unpauseDepositMints
| Call_unpauseWithdrawals
| Call_setServiceFee (newServiceFee : Z)
| Call_rotateBridgeSigner (newSigner : address)
| Call_rotateRuntimeAdministrator (newAdministrator : address).

Section bridge.
Context {T : Type} `{!ERC20 T} `{EIP712} `{!ECDSA}.
Implicit Types (w : World T) (ctx : CallContext).

Definition set_bridge w (b : Bridge.State) : World T :=
  {| w_bridge := b; w_token := w_token w; w_claimed := w_claimed w; w_logs := w_logs w |}.
Definition set_token w (t : BSNS T) : World T :=
  {| w_bridge := w_bridge w; w_token := t; w_claimed := w_claimed w; w_logs := w_logs w |}.
Definition set_claimed w (claimed : bool) : World T :=
  {| w_bridge := w_bridge w; w_token := w_token w; w_claimed := claimed; w_logs := w_logs w |}.
Definition emit ctx w (event : BridgeEvent) : World T :=
  {| w_bridge := w_bridge w; w_token := w_token w; w_claimed := w_claimed w;
     w_logs := w_logs w ++
       [{| log_block := block_number ctx; log_timestamp := block_timestamp ctx;
           log_event := event |}] |}.

(** The bridge calls its token as itself. *)
Definition as_bridge ctx w : CallContext :=
  {| msg_sender := Bridge.this (Bridge.immutables (w_bridge w));
     block_timestamp := block_timestamp ctx; block_number := block_number ctx;
     block_chainid := block_chainid ctx |}.

Definition token_call {A} (r : Result BsnsError A) : Result BridgeError A := map_err TokenReverted r.

(** *** Modifiers *)

Definition onlyRuntimeAdministrator ctx w : Result BridgeError unit :=
  require (bool_decide (msg_sender ctx = Bridge.runtimeAdministrator (Bridge.control (w_bridge w))))
    (UnauthorizedRuntimeAdministrator (msg_sender ctx)).

Definition onlyBaseAdminTimelock ctx w : Result BridgeError unit :=
  require (bool_decide (msg_sender ctx = Bridge.baseAdminTimelock (Bridge.immutables (w_bridge w))))
    (UnauthorizedBaseAdmin (msg_sender ctx)).

Definition whenWithdrawalsActive w : Result BridgeError unit :=
  require (negb (Bridge.withdrawalsPaused (Bridge.control (w_bridge w)))) WithdrawalsArePaused.

(** *** Minting *)

Definition revertRejectedMint ctx w (reason : MintAuthorizationPolicy.RejectReason)
    (authorization : IBridge.MintAuthorization) (windowAvailable : Z) : Result BridgeError unit :=
  match reason with
  | MintAuthorizationPolicy.None_ => Ok tt
  | MintAuthorizationPolicy.Paused => Err DepositMintsArePaused
  | MintAuthorizationPolicy.DeadlineTooFar =>
      let? latest := sol_add (block_timestamp ctx) (15 * 60) in
      Err (MintAuthorizationDeadlineTooFar (IBridge.deadline authorization) latest)
  | MintAuthorizationPolicy.Expired =>
      Err (MintAuthorizationExpired (block_timestamp ctx) (IBridge.deadline authorization))
  | MintAuthorizationPolicy.EpochMismatch =>
      Err (MintAuthorizationEpochMismatch (IBridge.authorizationEpoch authorization)
             (Bridge.mintAuthorizationEpoch (Bridge.control (w_bridge w))))
  | MintAuthorizationPolicy.ZeroRecipient => Err ZeroAddress
  | MintAuthorizationPolicy.InvalidRecipient =>
      Err (InvalidMintRecipient (IBridge.recipient authorization))
  | MintAuthorizationPolicy.GrossExceedsU128 =>
      Err (ValueExceedsU128 (IBridge.grossAmount authorization))
  | MintAuthorizationPolicy.MaximumFeeExceedsU128 =>
      Err (ValueExceedsU128 (IBridge.maxServiceFee authorization))
  | MintAuthorizationPolicy.ChargedFeeExceedsU128 =>
      Err (ValueExceedsU128 (IBridge.chargedServiceFee authorization))
  | MintAuthorizationPolicy.Processed =>
      Err (DepositAlreadyProcessed (IBridge.depositId authorization))
  | MintAuthorizationPolicy.ProtocolFeeExceeded =>
      Err (InvalidServiceFee (IBridge.chargedServiceFee authorization)
             (Bridge.MAX_SERVICE_FEE (Bridge.immutables (w_bridge w))))
  | MintAuthorizationPolicy.UserFeeExceeded =>
      Err (ServiceFeeExceedsUserMaximum (IBridge.chargedServiceFee authorization)
             (IBridge.maxServiceFee authorization))
  | MintAuthorizationPolicy.InvalidAmount => Err (InvalidAmount (IBridge.grossAmount authorization))
  | MintAuthorizationPolicy.PerDepositLimitExceeded =>
      let? net := sol_sub (IBridge.grossAmount authorization)
                    (IBridge.chargedServiceFee authorization) in
      Err (DepositMintLimitExceeded net (Bridge.perDepositLimit (Bridge.immutables (w_bridge w))))
  | MintAuthorizationPolicy.WindowLimitExceeded =>
      let? net := sol_sub (IBridge.grossAmount authorization)
                    (IBridge.chargedServiceFee authorization) in
      Err (MintWindowLimitExceeded net windowAvailable)
  | MintAuthorizationPolicy.TimestampExceedsU64 =>
      Err (BlockTimestampExceedsU64 (block_timestamp ctx))
  end.

Definition commitAuthorizedMint ctx w (authorization : IBridge.MintAuthorization) (digest : bytes)
    (effects : MintAuthorizationPolicy.MintEffects) : Result BridgeError (World T) :=
  let w :=
    set_bridge w (Bridge.set_minting (w_bridge w)
      {| Bridge.mintWindowStartedAt := MintAuthorizationPolicy.windowStartedAtAfter effects;
         Bridge.mintedInWindow := MintAuthorizationPolicy.windowConsumedAfter effects;
         Bridge.processedDeposits :=
           <[IBridge.depositId authorization := MintAuthorizationPolicy.processedAfter effects]>
             (Bridge.processedDeposits (Bridge.minting (w_bridge w))) |}) in
  let? t := token_call (bridgeMint (as_bridge ctx w) (w_token w) (IBridge.recipient authorization)
              (MintAuthorizationPolicy.supplyIncrease effects)) in
  Ok (emit ctx (set_token w t)
        (DepositMinted (IBridge.depositId authorization) (IBridge.recipient authorization) digest
           (MintAuthorizationPolicy.eventGrossAmount effects)
           (MintAuthorizationPolicy.eventServiceFee effects)
           (MintAuthorizationPolicy.eventMintedAmount effects))).

(** The input of the policy: the block, the calldata and the state. *)
Definition mint_input ctx w (authorization : IBridge.MintAuthorization)
    : MintAuthorizationPolicy.MintTransitionInput :=
  let b := w_bridge w in
  {| MintAuthorizationPolicy.timestamp := block_timestamp ctx;
     MintAuthorizationPolicy.deadline := IBridge.deadline authorization;
     MintAuthorizationPolicy.authorizationEpoch := IBridge.authorizationEpoch authorization;
     MintAuthorizationPolicy.currentEpoch := Bridge.mintAuthorizationEpoch (Bridge.control b);
     MintAuthorizationPolicy.recipient := IBridge.recipient authorization;
     MintAuthorizationPolicy.bridge := Bridge.this (Bridge.immutables b);
     MintAuthorizationPolicy.token := Bridge.bsns (Bridge.immutables b);
     MintAuthorizationPolicy.grossAmount := IBridge.grossAmount authorization;
     MintAuthorizationPolicy.maximumFee := IBridge.maxServiceFee authorization;
     MintAuthorizationPolicy.chargedFee := IBridge.chargedServiceFee authorization;
     MintAuthorizationPolicy.protocolMaximumFee := Bridge.MAX_SERVICE_FEE (Bridge.immutables b);
     MintAuthorizationPolicy.perDepositLimit := Bridge.perDepositLimit (Bridge.immutables b);
     MintAuthorizationPolicy.consumedInWindow := Bridge.mintedInWindow (Bridge.minting b);
     MintAuthorizationPolicy.windowLimit := Bridge.mintWindowLimit (Bridge.immutables b);
     MintAuthorizationPolicy.windowStartedAt := Bridge.mintWindowStartedAt (Bridge.minting b);
     MintAuthorizationPolicy.windowDuration := Bridge.mintWindowDuration (Bridge.immutables b);
     MintAuthorizationPolicy.paused := Bridge.depositMintsPaused (Bridge.control b);
     MintAuthorizationPolicy.processed := Bridge.isDepositProcessed b (IBridge.depositId authorization) |}.

Definition mintDepositWithAuthorization ctx w (authorization : IBridge.MintAuthorization)
    (signature : bytes) : Result BridgeError (World T) :=
  let digest :=
    mintAuthorizationDigest (block_chainid ctx) (Bridge.this (Bridge.immutables (w_bridge w)))
      authorization in
  let (recovered, error) := ECDSA_tryRecoverCalldata digest signature in
  if bool_decide (error <> RecoverError_NoError)
     || bool_decide (recovered <> Bridge.bridgeSigner (Bridge.control (w_bridge w)))
  then Err InvalidMintAuthorizationSignature
  else
    let? (reason, effects, windowAvailable) :=
      MintAuthorizationPolicy.evaluateMint (mint_input ctx w authorization) in
    let? _ := revertRejectedMint ctx w reason authorization windowAvailable in
    commitAuthorizedMint ctx w authorization digest effects.

(** *** Withdrawals *)

Definition claimWithdrawalTransaction w : Result BridgeError (World T) :=
  if negb (BridgeAdministration.withdrawalClaimAllowed (w_claimed w))
  then Err MultipleWithdrawalsInTransaction
  else Ok (set_claimed w true).

Definition is_principal (owner : bytes) : bool :=
  negb ((length owner =? 0)%nat || negb (length owner <=? 29)%nat || bool_decide (owner = [4])).

Definition createWithdrawal ctx w (amount maxServiceFee : Z) (owner subaccount : bytes)
    : Result BridgeError (Z * World T) :=
  let? _ := whenWithdrawalsActive w in
  let? _ := require (BridgeAdministration.valueFitsU128 amount) (ValueExceedsU128 amount) in
  let? _ := require (BridgeAdministration.valueFitsU128 maxServiceFee)
              (ValueExceedsU128 maxServiceFee) in
  let? _ := require (negb (amount =? 0)) (InvalidAmount amount) in
  let chargedServiceFee := Bridge.serviceFee (Bridge.control (w_bridge w)) in
  let? _ := require (chargedServiceFee <=? maxServiceFee)
              (ServiceFeeExceedsUserMaximum chargedServiceFee maxServiceFee) in
  let? _ := require (negb (amount <=? chargedServiceFee)) (InvalidAmount amount) in
  let? _ := require (is_principal owner) (InvalidPrincipal owner) in
  let? claimed := claimWithdrawalTransaction w in
  let w := claimed in
  let withdrawalId := Bridge.nextWithdrawalId (Bridge.requests (w_bridge w)) in
  let? next := sol_add withdrawalId 1 in
  let withdrawal :=
    {| Bridge.requester := msg_sender ctx;
       Bridge.exists_ := true;
       Bridge.amount := wrap u128_max amount;
       Bridge.maxServiceFee := wrap u128_max maxServiceFee;
       Bridge.chargedServiceFee := wrap u128_max chargedServiceFee;
       Bridge.owner := owner;
       Bridge.subaccount := subaccount |} in
  let w :=
    set_bridge w (Bridge.set_requests (w_bridge w)
      {| Bridge.nextWithdrawalId := next;
         Bridge.withdrawals :=
           <[withdrawalId := withdrawal]> (Bridge.withdrawals (Bridge.requests (w_bridge w))) |}) in
  let this := Bridge.this (Bridge.immutables (w_bridge w)) in
  let? (success, e) :=
    token_call (inherited
      (ERC20_transferFrom (bsns_erc20 (w_token w)) this (msg_sender ctx) this amount)) in
  let? _ := require success TokenTransferFailed in
  let w := set_token w (with_erc20 (w_token w) e) in
  let? t := token_call (bridgeBurn (as_bridge ctx w) (w_token w) amount) in
  let? amountOut := sol_sub amount chargedServiceFee in
  Ok (withdrawalId,
      emit ctx (set_token w t)
        (WithdrawalCommitted withdrawalId (msg_sender ctx) amount maxServiceFee chargedServiceFee
           amountOut owner subaccount)).

(** *** Administration *)

Definition set_epoch (c : Bridge.Control) (epoch : Z) : Bridge.Control :=
  {| Bridge.bridgeSigner := Bridge.bridgeSigner c;
     Bridge.mintAuthorizationEpoch := epoch;
     Bridge.runtimeAdministrator := Bridge.runtimeAdministrator c;
     Bridge.serviceFee := Bridge.serviceFee c;
     Bridge.depositMintsPaused := Bridge.depositMintsPaused c;
     Bridge.withdrawalsPaused := Bridge.withdrawalsPaused c;
     Bridge.retiredBridgeSigners := Bridge.retiredBridgeSigners c;
     Bridge.bridgeSignerAtLastPause := Bridge.bridgeSignerAtLastPause c |}.

Definition set_mints_paused (c : Bridge.Control) (paused : bool) (signerAtPause : address)
    : Bridge.Control :=
  {| Bridge.bridgeSigner := Bridge.bridgeSigner c;
     Bridge.mintAuthorizationEpoch := Bridge.mintAuthorizationEpoch c;
     Bridge.runtimeAdministrator := Bridge.runtimeAdministrator c;
     Bridge.serviceFee := Bridge.serviceFee c;
     Bridge.depositMintsPaused := paused;
     Bridge.withdrawalsPaused := Bridge.withdrawalsPaused c;
     Bridge.retiredBridgeSigners := Bridge.retiredBridgeSigners c;
     Bridge.bridgeSignerAtLastPause := signerAtPause |}.

Definition set_withdrawals_paused (c : Bridge.Control) (paused : bool) : Bridge.Control :=
  {| Bridge.bridgeSigner := Bridge.bridgeSigner c;
     Bridge.mintAuthorizationEpoch := Bridge.mintAuthorizationEpoch c;
     Bridge.runtimeAdministrator := Bridge.runtimeAdministrator c;
     Bridge.serviceFee := Bridge.serviceFee c;
     Bridge.depositMintsPaused := Bridge.depositMintsPaused c;
     Bridge.withdrawalsPaused := paused;
     Bridge.retiredBridgeSigners := Bridge.retiredBridgeSigners c;
     Bridge.bridgeSignerAtLastPause := Bridge.bridgeSignerAtLastPause c |}.

Definition set_fee (c : Bridge.Control) (fee : Z) : Bridge.Control :=
  {| Bridge.bridgeSigner := Bridge.bridgeSigner c;
     Bridge.mintAuthorizationEpoch := Bridge.mintAuthorizationEpoch c;
     Bridge.runtimeAdministrator := Bridge.runtimeAdministrator c;
     Bridge.serviceFee := fee;
     Bridge.depositMintsPaused := Bridge.depositMintsPaused c;
     Bridge.withdrawalsPaused := Bridge.withdrawalsPaused c;
     Bridge.retiredBridgeSigners := Bridge.retiredBridgeSigners c;
     Bridge.bridgeSignerAtLastPause := Bridge.bridgeSignerAtLastPause c |}.

Definition set_signer (c : Bridge.Control) (signer : address) (retired : address) : Bridge.Control :=
  {| Bridge.bridgeSigner := signer;
     Bridge.mintAuthorizationEpoch := Bridge.mintAuthorizationEpoch c;
     Bridge.runtimeAdministrator := Bridge.runtimeAdministrator c;
     Bridge.serviceFee := Bridge.serviceFee c;
     Bridge.depositMintsPaused := Bridge.depositMintsPaused c;
     Bridge.withdrawalsPaused := Bridge.withdrawalsPaused c;
     Bridge.retiredBridgeSigners := <[retired := true]> (Bridge.retiredBridgeSigners c);
     Bridge.bridgeSignerAtLastPause := Bridge.bridgeSignerAtLastPause c |}.

Definition set_administrator (c : Bridge.Control) (administrator : address) : Bridge.Control :=
  {| Bridge.bridgeSigner := Bridge.bridgeSigner c;
     Bridge.mintAuthorizationEpoch := Bridge.mintAuthorizationEpoch c;
     Bridge.runtimeAdministrator := administrator;
     Bridge.serviceFee := Bridge.serviceFee c;
     Bridge.depositMintsPaused := Bridge.depositMintsPaused c;
     Bridge.withdrawalsPaused := Bridge.withdrawalsPaused c;
     Bridge.retiredBridgeSigners := Bridge.retiredBridgeSigners c;
     Bridge.bridgeSignerAtLastPause := Bridge.bridgeSignerAtLastPause c |}.

Definition set_world_control w (c : Bridge.Control) : World T :=
  set_bridge w (Bridge.set_control (w_bridge w) c).

Definition setMintAuthorizationEpoch ctx w (nextEpoch : Z) : World T :=
  let c := Bridge.control (w_bridge w) in
  let previousEpoch := Bridge.mintAuthorizationEpoch c in
  emit ctx (set_world_control w (set_epoch c nextEpoch))
    (MintAuthorizationEpochChanged (msg_sender ctx) previousEpoch nextEpoch).

Definition pauseDepositMints ctx w : Result BridgeError (World T) :=
  let? _ := onlyRuntimeAdministrator ctx w in
  let c := Bridge.control (w_bridge w) in
  if Bridge.depositMintsPaused c then Ok w
  else
    let? (_, nextEpoch) :=
      MintAuthorizationPolicy.adminEpochTransition (Bridge.mintAuthorizationEpoch c) true in
    let w := set_world_control w (set_mints_paused c true (Bridge.bridgeSigner c)) in
    let w := setMintAuthorizationEpoch ctx w nextEpoch in
    Ok (emit ctx w (DepositMintsPaused (msg_sender ctx))).

Definition pauseWithdrawals ctx w : Result BridgeError (World T) :=
  let? _ := onlyRuntimeAdministrator ctx w in
  let c := Bridge.control (w_bridge w) in
  if Bridge.withdrawalsPaused c then Ok w
  else
    Ok (emit ctx (set_world_control w (set_withdrawals_paused c true))
          (WithdrawalsPaused (msg_sender ctx))).

Definition unpauseDepositMints ctx w : Result BridgeError (World T) :=
  let? _ := onlyBaseAdminTimelock ctx w in
  let c := Bridge.control (w_bridge w) in
  if negb (Bridge.depositMintsPaused c) then Ok w
  else if bool_decide (Bridge.bridgeSignerAtLastPause c <> address_zero)
          && bool_decide (Bridge.bridgeSigner c = Bridge.bridgeSignerAtLastPause c)
  then Err BridgeSignerRotationRequired
  else
    let? (_, nextEpoch) :=
      MintAuthorizationPolicy.adminEpochTransition (Bridge.mintAuthorizationEpoch c) true in
    let w := set_world_control w (set_mints_paused c false (Bridge.bridgeSignerAtLastPause c)) in
    let w := setMintAuthorizationEpoch ctx w nextEpoch in
    Ok (emit ctx w (DepositMintsUnpaused (msg_sender ctx))).

Definition unpauseWithdrawals ctx w : Result BridgeError (World T) :=
  let? _ := onlyBaseAdminTimelock ctx w in
  let c := Bridge.control (w_bridge w) in
  if negb (Bridge.withdrawalsPaused c) then Ok w
  else
    Ok (emit ctx (set_world_control w (set_withdrawals_paused c false))
          (WithdrawalsUnpaused (msg_sender ctx))).

Definition setServiceFee ctx w (newServiceFee : Z) : Result BridgeError (World T) :=
  let? _ := onlyRuntimeAdministrator ctx w in
  let i := Bridge.immutables (w_bridge w) in
  let c := Bridge.control (w_bridge w) in
  let? _ :=
    require (BridgeAdministration.serviceFeeIsValid newServiceFee (Bridge.MIN_SERVICE_FEE i)
               (Bridge.MAX_SERVICE_FEE i))
      (InvalidServiceFee newServiceFee (Bridge.MAX_SERVICE_FEE i)) in
  let previousFee := Bridge.serviceFee c in
  if newServiceFee =? previousFee then Ok w
  else
    Ok (emit ctx (set_world_control w (set_fee c newServiceFee))
          (ServiceFeeChanged (msg_sender ctx) previousFee newServiceFee)).

Definition validateRoleSet (bridgeSigner runtimeAdministrator timelock : address)
    : Result BridgeError unit :=
  let? _ :=
    require (BridgeAdministration.rolesAreNonzero bridgeSigner runtimeAdministrator timelock)
      ZeroAddress in
  require (BridgeAdministration.rolesAreDistinct bridgeSigner runtimeAdministrator timelock)
    RoleAddressesMustDiffer.

Definition rotateBridgeSigner ctx w (newSigner : address) : Result BridgeError (World T) :=
  let? _ := onlyBaseAdminTimelock ctx w in
  let c := Bridge.control (w_bridge w) in
  let previousSigner := Bridge.bridgeSigner c in
  let? (changed, nextEpoch) :=
    MintAuthorizationPolicy.signerRotationEpoch (Bridge.mintAuthorizationEpoch c) previousSigner
      newSigner in
  if negb changed then Ok w
  else
    let? _ := require (negb (Bridge.isRetired (w_bridge w) newSigner))
                (BridgeSignerAlreadyRetired newSigner) in
    let? _ := validateRoleSet newSigner (Bridge.runtimeAdministrator c)
                (Bridge.baseAdminTimelock (Bridge.immutables (w_bridge w))) in
    let w := set_world_control w (set_signer c newSigner previousSigner) in
    let w := setMintAuthorizationEpoch ctx w nextEpoch in
    Ok (emit ctx w (BridgeSignerChanged previousSigner newSigner)).

Definition rotateRuntimeAdministrator ctx w (newAdministrator : address)
    : Result BridgeError (World T) :=
  let? _ := onlyBaseAdminTimelock ctx w in
  let c := Bridge.control (w_bridge w) in
  let previousAdministrator := Bridge.runtimeAdministrator c in
  if bool_decide (newAdministrator = previousAdministrator) then Ok w
  else
    let? _ := validateRoleSet (Bridge.bridgeSigner c) newAdministrator
                (Bridge.baseAdminTimelock (Bridge.immutables (w_bridge w))) in
    Ok (emit ctx (set_world_control w (set_administrator c newAdministrator))
          (RuntimeAdministratorChanged previousAdministrator newAdministrator)).

Definition bridge_call ctx w (call : BridgeCall) : Result BridgeError (World T) :=
  match call with
  | Call_mintDepositWithAuthorization authorization signature =>
      mintDepositWithAuthorization ctx w authorization signature
  | Call_createWithdrawal amount maxServiceFee owner subaccount =>
      result_map snd (createWithdrawal ctx w amount maxServiceFee owner subaccount)
  | Call_pauseDepositMints => pauseDepositMints ctx w
  | Call_pauseWithdrawals => pauseWithdrawals ctx w
  | Call_unpauseDepositMints => unpauseDepositMints ctx w
  | Call_unpauseWithdrawals => unpauseWithdrawals ctx w
  | Call_setServiceFee newServiceFee => setServiceFee ctx w newServiceFee
  | Call_rotateBridgeSigner newSigner => rotateBridgeSigner ctx w newSigner
  | Call_rotateRuntimeAdministrator newAdministrator =>
      rotateRuntimeAdministrator ctx w newAdministrator
  end.

(** *** Deployment *)

Definition MAXIMUM_TIMELOCK_DELAY : Z := 30 * 86400.
Definition MINIMUM_MINT_WINDOW_DURATION : Z := 3600.
Definition MAXIMUM_MINT_WINDOW_DURATION : Z := 30 * 86400.
Definition PROPOSER_ROLE : bytes := keccak256 (as_bytes "PROPOSER_ROLE").
Definition CANCELLER_ROLE : bytes := keccak256 (as_bytes "CANCELLER_ROLE").
Definition EXECUTOR_ROLE : bytes := keccak256 (as_bytes "EXECUTOR_ROLE").
Definition DEFAULT_ADMIN_ROLE : bytes := zeros 32.

(** [DeploymentPolicy.MINIMUM_TIMELOCK_DELAY] of the two build profiles. *)
Definition MINIMUM_TIMELOCK_DELAY (staging : bool) : Z := if staging then 300 else 86400.

Definition validateTimelockRole (candidate : address) (c : TimelockCandidate) (role : bytes)
    (requiredMember : address) : Result BridgeError unit :=
  let? member := ok_or (tc_roleMember c role) (TimelockCandidateIntrospectionFailed candidate) in
  let? memberHasRole := ok_or (tc_hasRole c role member) CandidateReverted in
  let? roleIsOpen :=
    if bool_decide (role <> zeros 32) then ok_or (tc_hasRole c role address_zero) CandidateReverted
    else Ok false in
  require (BridgeAdministration.timelockRoleIsClosed member requiredMember memberHasRole roleIsOpen)
    (TimelockCandidateInvalidRoleMember candidate role member).

Definition validateTimelockCandidate (staging : bool) (approvedCodeHash : bytes)
    (candidate : address) (c : TimelockCandidate) : Result BridgeError unit :=
  let? _ := require (negb (tc_code_length c =? 0)) (TimelockCandidateHasNoCode candidate) in
  let? _ := require (bool_decide (tc_codehash c = approvedCodeHash))
              (TimelockCandidateCodeHashMismatch candidate (tc_codehash c) approvedCodeHash) in
  let? delay := ok_or (tc_getMinDelay c) (TimelockCandidateIntrospectionFailed candidate) in
  let? selfAdmin :=
    ok_or (tc_hasRole c (zeros 32) candidate) (TimelockCandidateIntrospectionFailed candidate) in
  let? _ := require (negb (delay <? MINIMUM_TIMELOCK_DELAY staging))
              (TimelockCandidateDelayTooShort candidate delay (MINIMUM_TIMELOCK_DELAY staging)) in
  let? _ :=
    require (BridgeAdministration.timelockDelayIsValid delay (MINIMUM_TIMELOCK_DELAY staging)
               MAXIMUM_TIMELOCK_DELAY)
      (TimelockCandidateDelayTooLong candidate delay MAXIMUM_TIMELOCK_DELAY) in
  let? _ := require selfAdmin (TimelockCandidateMissingSelfAdmin candidate) in
  let? _ := validateTimelockRole candidate c (zeros 32) candidate in
  let? _ := validateTimelockRole candidate c PROPOSER_ROLE address_zero in
  let? _ := validateTimelockRole candidate c CANCELLER_ROLE address_zero in
  let? _ := validateTimelockRole candidate c EXECUTOR_ROLE address_zero in
  let? pending :=
    ok_or (tc_pendingOperationCount c) (TimelockCandidateIntrospectionFailed candidate) in
  require (BridgeAdministration.timelockHasNoPendingOperations pending)
    (TimelockCandidateHasPendingOperations candidate pending).

Record ConstructorArgs := {
  ca_bridgeSigner : address;
  ca_runtimeAdministrator : address;
  ca_baseAdminTimelock : address;
  ca_approvedTimelockRuntimeCodeHash : bytes;
  ca_perDepositLimit : Z;
  ca_mintWindowLimit : Z;
  ca_mintWindowDuration : Z;
  ca_minServiceFee : Z;
  ca_maxServiceFee : Z;
  ca_serviceFee : Z;
}.

(** [this] and [token] are the addresses the EVM gives the two new contracts. *)
Definition bridge_new ctx (staging : bool) (this token : address) (c : TimelockCandidate)
    (a : ConstructorArgs) : Result BridgeError (World T) :=
  let? _ := validateRoleSet (ca_bridgeSigner a) (ca_runtimeAdministrator a) (ca_baseAdminTimelock a) in
  let? _ :=
    require (negb (negb (BridgeAdministration.limitsAreNonzero (ca_perDepositLimit a)
                           (ca_mintWindowLimit a) (ca_mintWindowDuration a))
                   || (ca_minServiceFee a =? 0) || (ca_maxServiceFee a <? ca_minServiceFee a)))
      (InvalidAmount 0) in
  let? _ :=
    require (BridgeAdministration.valuesFitU128 (ca_perDepositLimit a) (ca_mintWindowLimit a)
               (ca_maxServiceFee a))
      (ValueExceedsU128
         (if ca_perDepositLimit a >? u128_max then ca_perDepositLimit a
          else if ca_mintWindowLimit a >? u128_max then ca_mintWindowLimit a
          else ca_maxServiceFee a)) in
  let? _ :=
    require (negb ((ca_mintWindowDuration a <? MINIMUM_MINT_WINDOW_DURATION)
                   || (ca_mintWindowDuration a >? MAXIMUM_MINT_WINDOW_DURATION)))
      (InvalidMintWindowDuration (ca_mintWindowDuration a) MINIMUM_MINT_WINDOW_DURATION
         MAXIMUM_MINT_WINDOW_DURATION) in
  let? _ :=
    require (BridgeAdministration.serviceFeeIsValid (ca_serviceFee a) (ca_minServiceFee a)
               (ca_maxServiceFee a))
      (InvalidServiceFee (ca_serviceFee a) (ca_maxServiceFee a)) in
  let? _ := validateTimelockCandidate staging (ca_approvedTimelockRuntimeCodeHash a)
              (ca_baseAdminTimelock a) c in
  Ok {| w_bridge :=
          {| Bridge.immutables :=
               {| Bridge.this := this;
                  Bridge.approvedTimelockRuntimeCodeHash := ca_approvedTimelockRuntimeCodeHash a;
                  Bridge.bsns := token;
                  Bridge.MIN_SERVICE_FEE := ca_minServiceFee a;
                  Bridge.MAX_SERVICE_FEE := ca_maxServiceFee a;
                  Bridge.baseAdminTimelock := ca_baseAdminTimelock a;
                  Bridge.perDepositLimit := ca_perDepositLimit a;
                  Bridge.mintWindowLimit := ca_mintWindowLimit a;
                  Bridge.mintWindowDuration := ca_mintWindowDuration a |};
             Bridge.minting :=
               {| Bridge.mintWindowStartedAt := wrap u64_max (block_timestamp ctx);
                  Bridge.mintedInWindow := 0; Bridge.processedDeposits := ∅ |};
             Bridge.requests := {| Bridge.nextWithdrawalId := 1; Bridge.withdrawals := ∅ |};
             Bridge.control :=
               {| Bridge.bridgeSigner := ca_bridgeSigner a;
                  Bridge.mintAuthorizationEpoch := 1;
                  Bridge.runtimeAdministrator := ca_runtimeAdministrator a;
                  Bridge.serviceFee := ca_serviceFee a;
                  Bridge.depositMintsPaused := true;
                  Bridge.withdrawalsPaused := true;
                  Bridge.retiredBridgeSigners := ∅;
                  Bridge.bridgeSignerAtLastPause := address_zero |} |};
        w_token := bsns_new token "KINIC" "KINIC" 8 this;
        w_claimed := false;
        w_logs := [] |}.
End bridge.
