(* ===== verification/BasePolicy.v ===== *)
(** * The mint policy decides exactly

    What [MintAuthorizationPolicy.evaluateMint] accepts, and what it does to the
    window and the supply, as one equivalence; and the rejections in the order the
    contract reports them. *)

From S2P Require Import Prelude Types Eip712 BaseToken BaseBridge.
Import MintAuthorizationPolicy.

(** The Solidity types of the policy's input. *)
Record input_typed (i : MintTransitionInput) : Prop := {
  it_timestamp : 0 <= timestamp i <= u256_max;
  it_deadline : 0 <= deadline i <= u256_max;
  it_gross : 0 <= grossAmount i <= u256_max;
  it_maximum : 0 <= maximumFee i <= u256_max;
  it_fee : 0 <= chargedFee i <= u256_max;
  it_consumed : 0 <= consumedInWindow i <= u256_max;
  it_limit : 0 <= windowLimit i <= u256_max;
  it_started : is_u64 (windowStartedAt i);
  it_duration : is_u64 (windowDuration i);
}.

(** The window the mint falls into: a new one once the old one is over. *)
Definition window_over (i : MintTransitionInput) : bool :=
  windowStartedAt i + windowDuration i <=? timestamp i.

Definition window_base (i : MintTransitionInput) : Z :=
  if window_over i then 0 else consumedInWindow i.

Definition mint_net (i : MintTransitionInput) : Z := grossAmount i - chargedFee i.

Record acceptable (i : MintTransitionInput) : Prop := {
  acc_active : paused i = false;
  acc_deadline : timestamp i <= deadline i <= timestamp i + 900;
  acc_representable : timestamp i + 900 <= u256_max;
  acc_epoch : authorizationEpoch i = currentEpoch i;
  acc_recipient : recipient i <> address_zero;
  acc_not_contract : recipient i <> bridge i /\ recipient i <> token i;
  acc_gross : grossAmount i <= u128_max;
  acc_maximum : maximumFee i <= u128_max;
  acc_new : processed i = false;
  acc_fee : chargedFee i <= maximumFee i /\ chargedFee i <= protocolMaximumFee i;
  acc_positive : chargedFee i < grossAmount i;
  acc_limit : mint_net i <= perDepositLimit i;
  acc_reset : window_over i = true -> timestamp i <= u64_max;
  acc_window : mint_net i <= windowLimit i - window_base i;
}.

Definition accepted_effects (i : MintTransitionInput) : MintEffects :=
  {| processedAfter := true;
     windowReset := window_over i;
     windowStartedAtAfter := if window_over i then timestamp i else windowStartedAt i;
     windowConsumedAfter := window_base i + mint_net i;
     mintAmount := mint_net i;
     supplyIncrease := mint_net i;
     eventGrossAmount := grossAmount i;
     eventServiceFee := chargedFee i;
     eventMintedAmount := mint_net i |}.

Lemma sol_add_Ok x y z : sol_add x y = Ok z <-> x + y <= u256_max /\ z = x + y.
Proof. unfold sol_add. by rewrite ok_or_Ok, checked_add_Some. Qed.

Lemma sol_sub_Ok x y z : sol_sub x y = Ok z <-> y <= x /\ z = x - y.
Proof. unfold sol_sub. by rewrite ok_or_Ok, checked_sub_Some. Qed.

Lemma sol_add_exact x y : x + y <= u256_max -> sol_add x y = Ok (x + y).
Proof. by rewrite sol_add_Ok. Qed.

Lemma sol_sub_exact x y : y <= x -> sol_sub x y = Ok (x - y).
Proof. by rewrite sol_sub_Ok. Qed.

Lemma require_Ok b e u : require b e = Ok u <-> b = true.
Proof. unfold require. destruct b, u; naive_solver. Qed.

Lemma windowExpired_exact i :
  input_typed i ->
  windowExpired (timestamp i) (windowStartedAt i) (windowDuration i) = Ok (window_over i).
Proof.
  intros [_ _ _ _ _ _ _ Hs Hd]. unfold windowExpired. ranges.
  rewrite sol_add_exact by (unfold u256_max; lia). by rewrite Z.geb_leb.
Qed.

Lemma tryConsumeWindow_exact consumed requested limit :
  0 <= consumed <= u256_max -> 0 <= requested -> limit <= u256_max ->
  let available := Z.max 0 (limit - consumed) in
  MintAccounting.tryConsumeWindow consumed requested limit =
  Ok (if requested <=? available then (true, consumed + requested, available)
      else (false, consumed, available)).
Proof.
  intros Hc Hr Hl available. unfold MintAccounting.tryConsumeWindow.
  assert ((if consumed >=? limit then Ok 0 else sol_sub limit consumed) = Ok available) as ->.
  { rewrite Z.geb_leb. destruct (Z.leb_spec limit consumed); [|rewrite sol_sub_exact by lia];
      f_equal; lia. }
  rewrite Z.gtb_ltb. destruct (Z.ltb_spec available requested), (Z.leb_spec requested available);
    try lia; [done|]. by rewrite sol_add_exact by lia.
Qed.

(** Follow one guard of [evaluateMint]: its condition fails on both sides, or the
    rest is compared under it. *)
Ltac policy_guard :=
  match goal with
  | |- context [if ?b then _ else _] =>
      let E := fresh "E" in destruct b eqn:E; reflect;
      [split; [by repeat case_match|intros ([] & _ & _); destruct_and?; destruct_or?;
         first [congruence|lia|intuition lia]]|]
  end.

Lemma evaluateMint_exact i e available :
  input_typed i ->
  evaluateMint i = Ok (None_, e, available) <->
  acceptable i /\ e = accepted_effects i /\ available = windowLimit i - window_base i.
Proof.
  intros Ht. pose proof (windowExpired_exact i Ht) as Hw. destruct Ht.
  unfold evaluateMint, deadlineAccepts, epochMatches, depositAvailable, feeWithinBounds.
  do 2 policy_guard.
  destruct (sol_add (timestamp i) (15 * 60)) as [latest|] eqn:El; last first.
  { split; [done|]. intros ([] & _ & _). rewrite sol_add_exact in El by lia. done. }
  apply sol_add_Ok in El as [El ->].
  do 9 policy_guard.
  unfold mintAmountWithinLimit. destruct (Z.leb_spec (grossAmount i) (chargedFee i)).
  { split; [done|intros ([] & _ & _); lia]. }
  rewrite (sol_sub_exact (grossAmount i)) by lia. fold (mint_net i).
  policy_guard. rewrite Hw. policy_guard. fold (window_base i).
  assert (0 <= window_base i <= u256_max) by (unfold window_base; destruct (window_over i); lia).
  rewrite tryConsumeWindow_exact by (unfold mint_net; lia).
  destruct (Z.leb_spec (mint_net i) (Z.max 0 (windowLimit i - window_base i))); last first.
  { split; [done|intros ([] & _ & _); lia]. }
  unfold mintEffectAmounts. cbn [negb].
  rewrite (sol_sub_exact (grossAmount i)) by lia. fold (mint_net i).
  assert (0 < mint_net i) by (unfold mint_net; lia).
  replace (Z.max 0 (windowLimit i - window_base i)) with (windowLimit i - window_base i) by lia.
  assert ((if window_over i then wrap u64_max (timestamp i) else windowStartedAt i)
    = (if window_over i then timestamp i else windowStartedAt i)) as ->.
  { destruct (window_over i); [apply wrap_small|done]. destruct E11; [done|lia]. }
  split.
  - intros [= <- <-]. split_and!; [|done..]. split; try done; try lia.
    intros Ho. destruct E11; [congruence|done].
  - by intros (_ & -> & ->).
Qed.
