(* ===== verification/BaseCalls.v ===== *)
(** * What the calls of the bridge contract do

    One lemma per entry point of [contracts/src/Bridge.sol]: the conditions under
    which the call succeeds and the state it leaves.  The calls of the
    administration share one lemma, [administers]: they touch the control state and
    the log, and nothing else. *)

From S2P Require Import Prelude Types Eip712 BaseToken BaseBridge BasePolicy.

Section calls.
Context {T : Type} `{!ERC20 T} `{!ERC20Laws T} `{EIP712} `{!ECDSA}.
Implicit Types (w : World T) (ctx : CallContext).

Abbreviation bridge_of w := (w_bridge w).
Abbreviation immutables_of w := (Bridge.immutables (w_bridge w)).
Abbreviation control_of w := (Bridge.control (w_bridge w)).

Lemma token_call_Ok {A} (r : Result BsnsError A) a : token_call r = Ok a -> r = Ok a.
Proof. destruct r; simpl; [|done]. by intros [= ->]. Qed.

Lemma as_bridge_sender ctx w : msg_sender (as_bridge ctx w) = Bridge.this (immutables_of w).
Proof. done. Qed.

(** ** Minting *)

Lemma revertRejectedMint_Ok ctx w reason a available u :
  revertRejectedMint ctx w reason a available = Ok u -> reason = MintAuthorizationPolicy.None_.
Proof.
  destruct reason; simpl; try done; intros Hr;
    repeat match type of Hr with
    | match ?c with Ok _ => _ | Err _ => _ end = Ok _ => destruct c; discriminate Hr
    end.
Qed.

(** The call was signed by the current signer. *)
Definition signed_mint ctx w (a : IBridge.MintAuthorization) (signature : bytes) : Prop :=
  ECDSA_tryRecoverCalldata
    (mintAuthorizationDigest (block_chainid ctx) (Bridge.this (immutables_of w)) a) signature
  = (Bridge.bridgeSigner (control_of w), RecoverError_NoError).

(** The state a mint leaves. *)
Definition minted_world ctx w (a : IBridge.MintAuthorization) (e : T) : World T :=
  let i := mint_input ctx w a in
  let effects := accepted_effects i in
  emit ctx
    (set_token
       (set_bridge w (Bridge.set_minting (w_bridge w)
          {| Bridge.mintWindowStartedAt := MintAuthorizationPolicy.windowStartedAtAfter effects;
             Bridge.mintedInWindow := MintAuthorizationPolicy.windowConsumedAfter effects;
             Bridge.processedDeposits :=
               <[IBridge.depositId a := true]> (Bridge.processedDeposits (Bridge.minting (w_bridge w))) |}))
       (with_erc20 (w_token w) e))
    (DepositMinted (IBridge.depositId a) (IBridge.recipient a)
       (mintAuthorizationDigest (block_chainid ctx) (Bridge.this (immutables_of w)) a)
       (IBridge.grossAmount a) (IBridge.chargedServiceFee a) (mint_net i)).

Lemma mint_Ok ctx w a signature w' :
  input_typed (mint_input ctx w a) ->
  mintDepositWithAuthorization ctx w a signature = Ok w' ->
  signed_mint ctx w a signature /\ acceptable (mint_input ctx w a) /\
  Bridge.this (immutables_of w) = bsns_bridge (w_token w) /\
  exists e, ERC20_mint (bsns_erc20 (w_token w)) (IBridge.recipient a) (mint_net (mint_input ctx w a)) = Ok e /\
    w' = minted_world ctx w a e.
Proof.
  intros Ht. unfold mintDepositWithAuthorization, signed_mint. intros Hc.
  destruct (ECDSA_tryRecoverCalldata _ _) as [recovered error] eqn:Er.
  destruct (bool_decide (error <> _) || _) eqn:Eb; [done|]. reflect. destruct Eb as [He Hs].
  apply dec_stable in He as ->. apply dec_stable in Hs as ->.
  bind Hc as [[reason effects] available] Ee. bind Hc as [] Ev.
  apply revertRejectedMint_Ok in Ev as ->.
  apply (evaluateMint_exact _ _ _ Ht) in Ee as (Hacc & -> & ->).
  unfold commitAuthorizedMint in Hc. cbn zeta in Hc. bind Hc as t Et.
  apply token_call_Ok, bridgeMint_Ok in Et as (Hsender & e & Ee & ->). simplify_eq.
  split_and!; [done|done|exact Hsender|]. exists e. split; [exact Ee|done].
Qed.

(** ** Withdrawals *)

Record withdrawal_admitted ctx w (amount maxServiceFee : Z) (owner : bytes) : Prop := {
  wa_active : Bridge.withdrawalsPaused (control_of w) = false;
  wa_amount : amount <= u128_max;
  wa_max_fee : Bridge.serviceFee (control_of w) <= maxServiceFee <= u128_max;
  wa_positive : Bridge.serviceFee (control_of w) < amount;
  wa_owner : is_principal owner = true;
  wa_first : w_claimed w = false;
  wa_id : Bridge.nextWithdrawalId (Bridge.requests (w_bridge w)) + 1 <= u256_max;
}.

Definition withdrawn_world ctx w (amount maxServiceFee : Z) (owner subaccount : bytes) (e : T)
    : World T :=
  let id := Bridge.nextWithdrawalId (Bridge.requests (w_bridge w)) in
  let fee := Bridge.serviceFee (control_of w) in
  emit ctx
    (set_token
       (set_bridge (set_claimed w true) (Bridge.set_requests (w_bridge w)
          {| Bridge.nextWithdrawalId := id + 1;
             Bridge.withdrawals :=
               <[id := {| Bridge.requester := msg_sender ctx; Bridge.exists_ := true;
                          Bridge.amount := amount; Bridge.maxServiceFee := maxServiceFee;
                          Bridge.chargedServiceFee := fee; Bridge.owner := owner;
                          Bridge.subaccount := subaccount |}]>
                 (Bridge.withdrawals (Bridge.requests (w_bridge w))) |}))
       (with_erc20 (w_token w) e))
    (WithdrawalCommitted id (msg_sender ctx) amount maxServiceFee fee (amount - fee) owner subaccount).

(** The tokens of the caller go to the bridge and are burnt there. *)
Definition burns (t : BSNS T) (from this : address) (amount : Z) (e : T) : Prop :=
  exists e1, moves (bsns_erc20 t) e1 from this amount /\ ERC20_burn e1 this amount = Ok e.

Lemma withdraw_Ok ctx w amount maxServiceFee owner subaccount id w' :
  0 <= amount -> 0 <= Bridge.serviceFee (control_of w) ->
  createWithdrawal ctx w amount maxServiceFee owner subaccount = Ok (id, w') ->
  withdrawal_admitted ctx w amount maxServiceFee owner /\
  id = Bridge.nextWithdrawalId (Bridge.requests (w_bridge w)) /\
  Bridge.this (immutables_of w) = bsns_bridge (w_token w) /\
  exists e, burns (w_token w) (msg_sender ctx) (Bridge.this (immutables_of w)) amount e /\
    w' = withdrawn_world ctx w amount maxServiceFee owner subaccount e.
Proof.
  intros Ha Hf. unfold createWithdrawal, whenWithdrawalsActive. intros Hc.
  do 7 (let E := fresh "E" in bind Hc as [] E; apply require_Ok in E).
  bind Hc as claimed Ec. unfold claimWithdrawalTransaction in Ec.
  destruct (w_claimed w) eqn:Ew; [done|]. apply Ok_inj in Ec as <-.
  cbn zeta in Hc. bind Hc as next En. apply sol_add_Ok in En as [En ->].
  bind Hc as [success e1] Et. apply token_call_Ok, inherited_Ok, ERC20_transferFrom_spec in Et as [_ Et].
  bind Hc as [] Es. bind Hc as t Eb. apply token_call_Ok, bridgeBurn_Ok in Eb as (Hb & e & Eb & ->).
  bind Hc as out Eo. apply sol_sub_Ok in Eo as [_ ->]. simplify_eq/=. cbn [w_token w_bridge] in *.
  unfold BridgeAdministration.valueFitsU128 in *. reflect.
  split_and!; [split; done || lia|done|exact Hb|].
  exists e. split; [by exists e1|]. unfold withdrawn_world.
  rewrite !wrap_small by lia. done.
Qed.

(** ** Administration *)

(** What every administration keeps: the fee stays in its bounds, the three roles
    are three addresses, and a retired signer is never the signer. *)
Record control_wf (i : Bridge.Immutables) (c : Bridge.Control) : Prop := {
  cw_fee : Bridge.MIN_SERVICE_FEE i <= Bridge.serviceFee c <= Bridge.MAX_SERVICE_FEE i;
  cw_nonzero : BridgeAdministration.rolesAreNonzero (Bridge.bridgeSigner c)
      (Bridge.runtimeAdministrator c) (Bridge.baseAdminTimelock i) = true;
  cw_distinct : BridgeAdministration.rolesAreDistinct (Bridge.bridgeSigner c)
      (Bridge.runtimeAdministrator c) (Bridge.baseAdminTimelock i) = true;
  cw_epoch : 1 <= Bridge.mintAuthorizationEpoch c;
  cw_signer : default false (Bridge.retiredBridgeSigners c !! Bridge.bridgeSigner c) = false;
}.

Definition retired (c : Bridge.Control) (signer : address) : Prop :=
  default false (Bridge.retiredBridgeSigners c !! signer) = true.

(** The authorizations of [signer] and of every epoch up to [epoch] are void: either
    minting is paused, and the pause can only end by another signer, or the signer is
    retired and the epoch is over. *)
Definition revoked (signer : address) (epoch : Z) (c : Bridge.Control) : Prop :=
  epoch <= Bridge.mintAuthorizationEpoch c /\
  ((Bridge.depositMintsPaused c = true /\ Bridge.bridgeSignerAtLastPause c = signer /\
    signer <> address_zero /\ (Bridge.bridgeSigner c = signer \/ retired c signer)) \/
   (retired c signer /\ epoch < Bridge.mintAuthorizationEpoch c)).

Definition control_event (e : BridgeEvent) : bool :=
  match e with DepositMinted _ _ _ _ _ _ | WithdrawalCommitted _ _ _ _ _ _ _ _ => false | _ => true end.

Definition is_administration (call : BridgeCall) : bool :=
  match call with
  | Call_mintDepositWithAuthorization _ _ | Call_createWithdrawal _ _ _ _ => false
  | _ => true
  end.

(** How the control state moves in one call. *)
Record control_moves (i : Bridge.Immutables) (c c' : Bridge.Control) : Prop := {
  cm_wf : control_wf i c -> control_wf i c';
  cm_epoch : Bridge.mintAuthorizationEpoch c <= Bridge.mintAuthorizationEpoch c';
  cm_retired signer : retired c signer -> retired c' signer;
  cm_revoked signer epoch : revoked signer epoch c -> revoked signer epoch c';
}.

#[export] Instance control_moves_preorder i : PreOrder (control_moves i).
Proof.
  split.
  - intros c. by split.
  - intros c1 c2 c3 [] []. split; [tauto|lia|eauto..].
Qed.

Record administers ctx w w' : Prop := {
  ad_immutables : immutables_of w' = immutables_of w;
  ad_minting : Bridge.minting (w_bridge w') = Bridge.minting (w_bridge w);
  ad_requests : Bridge.requests (w_bridge w') = Bridge.requests (w_bridge w);
  ad_token : w_token w' = w_token w;
  ad_claimed : w_claimed w' = w_claimed w;
  ad_logs : exists ls, w_logs w' = w_logs w ++ ls /\
      Forall (fun l => control_event (log_event l) = true /\ log_block l = block_number ctx /\
                log_timestamp l = block_timestamp ctx) ls;
  ad_control : control_moves (immutables_of w) (control_of w) (control_of w');
}.

Lemma administers_same ctx w : administers ctx w w.
Proof. split; try done. exists []. split; [by rewrite app_nil_r|constructor]. Qed.

(** The call emits [events], all of the control state, and sets the control to [c]. *)
Lemma administers_control ctx w c w' events :
  w_bridge w' = Bridge.set_control (w_bridge w) c -> w_token w' = w_token w ->
  w_claimed w' = w_claimed w ->
  w_logs w' = w_logs w ++ ((fun e => {| log_block := block_number ctx;
    log_timestamp := block_timestamp ctx; log_event := e |}) <$> events) ->
  forallb control_event events = true ->
  control_moves (immutables_of w) (control_of w) c ->
  administers ctx w w'.
Proof.
  intros Hb Ht Hcl Hl He Hc. split; rewrite ?Hb; try done.
  eexists. split; [exact Hl|]. clear Hl. induction events as [|e es IH]; [constructor|].
  simpl in He. apply andb_true_iff in He as [He Hes]. constructor; [done|]. by apply IH.
Qed.

Lemma roles_set_Ok signer administrator timelock u :
  validateRoleSet signer administrator timelock = Ok u ->
  BridgeAdministration.rolesAreNonzero signer administrator timelock = true /\
  BridgeAdministration.rolesAreDistinct signer administrator timelock = true.
Proof.
  unfold validateRoleSet. intros Hr. bind Hr as [] E. by apply require_Ok in E, Hr.
Qed.

Lemma adminEpochTransition_Ok epoch b next :
  MintAuthorizationPolicy.adminEpochTransition epoch true = Ok (b, next) -> next = epoch + 1.
Proof.
  unfold MintAuthorizationPolicy.adminEpochTransition, MintAuthorizationPolicy.nextEpoch. simpl.
  intros Hn. bind Hn as n E. apply sol_add_Ok in E as [_ ->]. by simplify_eq.
Qed.

(** A move that keeps the roles, the signer's history and the pause. *)
Lemma control_moves_keep i c c' :
  (control_wf i c -> control_wf i c') ->
  Bridge.mintAuthorizationEpoch c' = Bridge.mintAuthorizationEpoch c ->
  Bridge.bridgeSigner c' = Bridge.bridgeSigner c ->
  Bridge.retiredBridgeSigners c' = Bridge.retiredBridgeSigners c ->
  Bridge.depositMintsPaused c' = Bridge.depositMintsPaused c ->
  Bridge.bridgeSignerAtLastPause c' = Bridge.bridgeSignerAtLastPause c ->
  control_moves i c c'.
Proof.
  intros Hwf He Hs Hr Hp Hl. split; [done|lia|..]; unfold revoked, retired; rewrite ?He, ?Hs, ?Hr, ?Hp, ?Hl;
    tauto.
Qed.

Lemma pause_moves i c :
  Bridge.depositMintsPaused c = false ->
  control_moves i c (set_epoch (set_mints_paused c true (Bridge.bridgeSigner c))
    (Bridge.mintAuthorizationEpoch c + 1)).
Proof.
  intros Hp. split; simpl; [|lia|done|].
  - intros []. split; simpl; done || lia.
  - intros signer epoch (He & [(Hpp & _)|(Hr & Hlt)]); [congruence|].
    split; simpl; [lia|]. right. split; [done|]. simpl. lia.
Qed.

Lemma unpause_moves i c :
  ~ (Bridge.bridgeSignerAtLastPause c <> address_zero /\
     Bridge.bridgeSigner c = Bridge.bridgeSignerAtLastPause c) ->
  control_moves i c (set_epoch (set_mints_paused c false (Bridge.bridgeSignerAtLastPause c))
    (Bridge.mintAuthorizationEpoch c + 1)).
Proof.
  intros Hrot. split; simpl; [|lia|done|].
  - intros []. split; simpl; done || lia.
  - intros signer epoch (He & Hcase). split; simpl; [lia|]. right. unfold retired in *. simpl.
    split; [|lia]. destruct Hcase as [(_ & <- & Hz & [Hs|Hr])|[Hr _]]; [|done..].
    by destruct Hrot.
Qed.

Lemma rotate_moves i c signer :
  Bridge.bridgeSigner c <> signer -> ~ retired c signer ->
  BridgeAdministration.rolesAreNonzero signer (Bridge.runtimeAdministrator c)
    (Bridge.baseAdminTimelock i) = true ->
  BridgeAdministration.rolesAreDistinct signer (Bridge.runtimeAdministrator c)
    (Bridge.baseAdminTimelock i) = true ->
  control_moves i c (set_epoch (set_signer c signer (Bridge.bridgeSigner c))
    (Bridge.mintAuthorizationEpoch c + 1)).
Proof.
  intros Hne Hnr Hz Hd.
  assert (forall s, retired c s \/ s = Bridge.bridgeSigner c ->
    retired (set_epoch (set_signer c signer (Bridge.bridgeSigner c))
      (Bridge.mintAuthorizationEpoch c + 1)) s) as Hret.
  { intros s Hs. unfold retired. simpl. destruct (decide (s = Bridge.bridgeSigner c)) as [->|].
    - by rewrite lookup_insert_eq.
    - rewrite lookup_insert_ne by done. by destruct Hs. }
  split; [| simpl; lia|auto|].
  - intros []. split; simpl; try done; [lia|]. rewrite lookup_insert_ne by done.
    unfold retired in Hnr. by destruct (default false _).
  - intros s epoch (He & Hcase). split; [simpl; lia|].
    destruct Hcase as [(Hp & Hl & Hs0 & Hs)|[Hr Hlt]].
    + left. split_and!; [done..|]. right. apply Hret. naive_solver.
    + right. split; [auto|simpl; lia].
Qed.

Lemma pauseDepositMints_Ok ctx w w' :
  pauseDepositMints ctx w = Ok w' ->
  msg_sender ctx = Bridge.runtimeAdministrator (control_of w) /\ administers ctx w w' /\
  (Bridge.depositMintsPaused (control_of w) = false ->
   control_of w' = set_epoch (set_mints_paused (control_of w) true (Bridge.bridgeSigner (control_of w)))
     (Bridge.mintAuthorizationEpoch (control_of w) + 1)).
Proof.
  unfold pauseDepositMints, onlyRuntimeAdministrator. intros Hc. bind Hc as [] E.
  apply require_Ok in E. reflect. split; [done|]. cbv zeta in Hc.
  destruct (Bridge.depositMintsPaused _) eqn:Ep.
  { simplify_eq. split; [apply administers_same|done]. }
  bind Hc as [b next] En. apply adminEpochTransition_Ok in En as ->. apply Ok_inj in Hc as <-.
  split; [|done]. eapply administers_control with (events := [_; _]);
    [done..|simpl; by rewrite <- app_assoc|done|by apply pause_moves].
Qed.

Lemma unpauseDepositMints_Ok ctx w w' :
  unpauseDepositMints ctx w = Ok w' ->
  msg_sender ctx = Bridge.baseAdminTimelock (immutables_of w) /\ administers ctx w w'.
Proof.
  unfold unpauseDepositMints, onlyBaseAdminTimelock. intros Hc. bind Hc as [] E.
  apply require_Ok in E. reflect. split; [done|]. cbv zeta in Hc.
  destruct (negb _) eqn:Ep; [simplify_eq; apply administers_same|].
  destruct (_ && _) eqn:Er; [done|]. bind Hc as [b next] En.
  apply adminEpochTransition_Ok in En as ->. apply Ok_inj in Hc as <-.
  eapply administers_control with (events := [_; _]);
    [done..|simpl; by rewrite <- app_assoc|done|apply unpause_moves].
  intros [Hz Hs]. apply andb_false_iff in Er as [Er|Er]; apply bool_decide_eq_false in Er; done.
Qed.

Lemma withdrawals_pause_moves i c paused :
  control_moves i c (set_withdrawals_paused c paused).
Proof. apply control_moves_keep; try done. by intros []. Qed.

Lemma pauseWithdrawals_Ok ctx w w' :
  pauseWithdrawals ctx w = Ok w' ->
  msg_sender ctx = Bridge.runtimeAdministrator (control_of w) /\ administers ctx w w'.
Proof.
  unfold pauseWithdrawals, onlyRuntimeAdministrator. intros Hc. bind Hc as [] E.
  apply require_Ok in E. reflect. split; [done|]. cbv zeta in Hc.
  destruct (Bridge.withdrawalsPaused _); simplify_eq; [apply administers_same|].
  eapply administers_control with (events := [_]); [done..|apply withdrawals_pause_moves].
Qed.

Lemma unpauseWithdrawals_Ok ctx w w' :
  unpauseWithdrawals ctx w = Ok w' ->
  msg_sender ctx = Bridge.baseAdminTimelock (immutables_of w) /\ administers ctx w w'.
Proof.
  unfold unpauseWithdrawals, onlyBaseAdminTimelock. intros Hc. bind Hc as [] E.
  apply require_Ok in E. reflect. split; [done|]. cbv zeta in Hc.
  destruct (negb _); simplify_eq; [apply administers_same|].
  eapply administers_control with (events := [_]); [done..|apply withdrawals_pause_moves].
Qed.

Lemma setServiceFee_Ok ctx w fee w' :
  setServiceFee ctx w fee = Ok w' ->
  msg_sender ctx = Bridge.runtimeAdministrator (control_of w) /\ administers ctx w w'.
Proof.
  unfold setServiceFee, onlyRuntimeAdministrator. intros Hc. bind Hc as [] E.
  apply require_Ok in E. reflect. split; [done|]. cbv zeta in Hc. bind Hc as [] Ef.
  apply require_Ok in Ef. unfold BridgeAdministration.serviceFeeIsValid in Ef.
  destruct (fee =? _); simplify_eq; [apply administers_same|]. reflect.
  eapply administers_control with (events := [_]); [done..|].
  apply control_moves_keep; try done. intros []. split; simpl; done || lia.
Qed.

Lemma rotateBridgeSigner_Ok ctx w signer w' :
  rotateBridgeSigner ctx w signer = Ok w' ->
  msg_sender ctx = Bridge.baseAdminTimelock (immutables_of w) /\ administers ctx w w' /\
  (w' = w \/ Bridge.bridgeSigner (control_of w') = signer).
Proof.
  unfold rotateBridgeSigner, onlyBaseAdminTimelock. intros Hc. bind Hc as [] E.
  apply require_Ok in E. reflect. split; [done|]. cbv zeta in Hc.
  unfold MintAuthorizationPolicy.signerRotationEpoch in Hc.
  destruct (decide (Bridge.bridgeSigner (control_of w) = signer)) as [Heq|Hne].
  { rewrite bool_decide_eq_false_2 in Hc by tauto. simpl in Hc. apply Ok_inj in Hc as ->.
    split; [apply administers_same|by left]. }
  rewrite bool_decide_eq_true_2 in Hc by done. bind Hc as [b next] En.
  assert (b = true) as ->.
  { unfold MintAuthorizationPolicy.adminEpochTransition in En. simpl in En. bind En as n En'.
    by simplify_eq. }
  apply adminEpochTransition_Ok in En as ->. simpl in Hc. bind Hc as [] Er. apply require_Ok in Er.
  bind Hc as [] Ev. apply roles_set_Ok in Ev as [Hz Hd]. apply Ok_inj in Hc as <-.
  split; [|by right].
  eapply administers_control with (events := [_; _]);
    [done..|simpl; by rewrite <- app_assoc|done|apply rotate_moves; try done].
  unfold Bridge.isRetired in Er. unfold retired. by destruct (default false _).
Qed.

Lemma rotateRuntimeAdministrator_Ok ctx w administrator w' :
  rotateRuntimeAdministrator ctx w administrator = Ok w' ->
  msg_sender ctx = Bridge.baseAdminTimelock (immutables_of w) /\ administers ctx w w'.
Proof.
  unfold rotateRuntimeAdministrator, onlyBaseAdminTimelock. intros Hc. bind Hc as [] E.
  apply require_Ok in E. reflect. split; [done|]. cbv zeta in Hc.
  destruct (bool_decide _); simplify_eq; [apply administers_same|].
  bind Hc as [] Ev. apply roles_set_Ok in Ev as [Hz Hd]. simplify_eq.
  eapply administers_control with (events := [_]); [done..|].
  apply control_moves_keep; try done. intros []. by split.
Qed.

Lemma administration_Ok ctx w call w' :
  is_administration call = true -> bridge_call ctx w call = Ok w' ->
  (msg_sender ctx = Bridge.runtimeAdministrator (control_of w) \/
   msg_sender ctx = Bridge.baseAdminTimelock (immutables_of w)) /\ administers ctx w w'.
Proof.
  intros Ha Hc. destruct call; try done; simpl in Hc.
  - apply pauseDepositMints_Ok in Hc as (? & ? & _). auto.
  - apply pauseWithdrawals_Ok in Hc as []. auto.
  - apply unpauseDepositMints_Ok in Hc as []. auto.
  - apply unpauseWithdrawals_Ok in Hc as []. auto.
  - apply setServiceFee_Ok in Hc as []. auto.
  - apply rotateBridgeSigner_Ok in Hc as (? & ? & _). auto.
  - apply rotateRuntimeAdministrator_Ok in Hc as []. auto.
Qed.
End calls.
