(* ===== verification/BaseHistory.v ===== *)
(** * Histories of the contracts on Base

    Transactions call the bridge and the token in any order; a call that reverts
    changes nothing, and the transient slot of the bridge is cleared before each
    transaction.  [world_wf] holds of every reachable state; the theorems are about
    whole histories: a deposit mints once, the supply is what was minted less what was
    burnt, the mint rate is bounded, a pause revokes what was signed before it. *)

From S2P Require Import Prelude Types Eip712 BaseToken BaseBridge BasePolicy BaseCalls.

(** ** Sums over the log *)

Definition total {A} (f : A -> Z) (l : list A) : Z := foldr (fun x acc => f x + acc) 0 l.

Section totals.
Context {A : Type}.
Implicit Types (f g : A -> Z) (l : list A).

Lemma total_app f l l' : total f (l ++ l') = total f l + total f l'.
Proof. induction l as [|x l IH]; simpl; lia. Qed.

Lemma total_le f g l : (forall x, x ∈ l -> f x <= g x) -> total f l <= total g l.
Proof.
  induction l as [|x l IH]; intros Hle; simpl; [done|].
  pose proof (Hle x (list_elem_of_here _ _)).
  enough (total f l <= total g l) by lia. apply IH. intros y Hy. apply Hle. by constructor.
Qed.

Lemma total_add f g l : total (fun x => f x + g x) l = total f l + total g l.
Proof. induction l; simpl; lia. Qed.

Lemma total_nonneg f l : (forall x, x ∈ l -> 0 <= f x) -> 0 <= total f l.
Proof.
  intros Hf. transitivity (total (fun _ : A => 0) l); [|by apply total_le].
  clear. induction l; simpl; lia.
Qed.

Lemma total_ext f g l : (forall x, x ∈ l -> f x = g x) -> total f l = total g l.
Proof. intros He. apply Z.le_antisymm; apply total_le; intros x Hx; rewrite (He x Hx); lia. Qed.
End totals.

(** What one log minted, or burnt. *)
Definition log_minted (l : Log) : Z :=
  match log_event l with DepositMinted _ _ _ _ _ minted => minted | _ => 0 end.

Definition log_burnt (l : Log) : Z :=
  match log_event l with WithdrawalCommitted _ _ amount _ _ _ _ _ => amount | _ => 0 end.

Definition minted_id (l : Log) : option bytes :=
  match log_event l with DepositMinted id _ _ _ _ _ => Some id | _ => None end.

Definition withdrawal_id (l : Log) : option Z :=
  match log_event l with WithdrawalCommitted id _ _ _ _ _ _ _ => Some id | _ => None end.

Definition minted_ids (logs : list Log) : list bytes := omap minted_id logs.
Definition withdrawal_ids (logs : list Log) : list Z := omap withdrawal_id logs.

(** What was minted in the blocks with a timestamp in [[from, until)]. *)
Definition minted_between (logs : list Log) (from until : Z) : Z :=
  total (fun l => if (from <=? log_timestamp l) && (log_timestamp l <? until)
                  then log_minted l else 0) logs.

(** ** Transactions *)

Inductive BaseCall :=
| To_bridge (call : BridgeCall)
| To_token (call : BsnsCall).

(** A transaction in a block: the calls it makes, each with its sender. *)
Record Transaction := {
  tx_block : Z;
  tx_timestamp : Z;
  tx_calls : list (address * BaseCall);
}.

Section history.
Context {T : Type} `{!ERC20 T} `{EIP712} `{!ECDSA}.
Context (chainid : Z).
Implicit Types (w : World T).

Definition tx_context (tx : Transaction) (sender : address) : CallContext :=
  {| msg_sender := sender; block_timestamp := tx_timestamp tx; block_number := tx_block tx;
     block_chainid := chainid |}.

Definition base_call (ctx : CallContext) w (call : BaseCall) : World T :=
  match call with
  | To_bridge call => match bridge_call ctx w call with Ok w' => w' | Err _ => w end
  | To_token call =>
      match bsns_call ctx (w_token w) call with Ok (t, _) => set_token w t | Err _ => w end
  end.

Definition base_tx w (tx : Transaction) : World T :=
  foldl (fun w c => base_call (tx_context tx c.1) w c.2) (set_claimed w false) (tx_calls tx).

Definition base_run w (txs : list Transaction) : World T := foldl base_tx w txs.

(** The ABI types of the arguments. *)
Definition call_ranged (call : BaseCall) : Prop :=
  match call with
  | To_bridge (Call_mintDepositWithAuthorization a _) => calldata_typed a
  | To_bridge (Call_createWithdrawal amount maxServiceFee _ _) => is_u256 amount /\ is_u256 maxServiceFee
  | To_bridge _ => True
  | To_token call => call_typed call
  end.

(** Only the bridge's own code runs as the bridge, and blocks are ordered in time. *)
Definition tx_admissible (this : address) (tx : Transaction) : Prop :=
  0 <= tx_timestamp tx <= u256_max /\
  Forall (fun c => c.1 <> this /\ call_ranged c.2) (tx_calls tx).

Fixpoint in_order (now : Z) (txs : list Transaction) : Prop :=
  match txs with
  | [] => True
  | tx :: txs => now <= tx_timestamp tx /\ in_order (tx_timestamp tx) txs
  end.

(** The time of the last block. *)
Definition chain_time (now : Z) (txs : list Transaction) : Z :=
  foldl (fun _ tx => tx_timestamp tx) now txs.
End history.

(** ** The invariant *)

Section invariant.
Context {T : Type} `{!ERC20 T} `{!ERC20Laws T} `{EIP712} `{!ECDSA}.
Context (chainid : Z).
Implicit Types (w : World T) (logs : list Log).

(** The windows: what was minted since the current one began is its consumption, the
    stretch of one duration before it holds at most one limit, and no stretch of one
    duration before that holds more than two. *)
Record window_wf (i : Bridge.Immutables) (m : Bridge.Minting) (now : Z) logs : Prop := {
  wf_started : 0 <= Bridge.mintWindowStartedAt m <= now /\ Bridge.mintWindowStartedAt m <= u64_max;
  wf_consumed : 0 <= Bridge.mintedInWindow m <= Bridge.mintWindowLimit i;
  wf_current : forall until, now < until ->
      minted_between logs (Bridge.mintWindowStartedAt m) until = Bridge.mintedInWindow m;
  wf_before_end l : l ∈ logs -> log_minted l <> 0 ->
      log_timestamp l < Bridge.mintWindowStartedAt m + Bridge.mintWindowDuration i;
  wf_previous :
      minted_between logs (Bridge.mintWindowStartedAt m - Bridge.mintWindowDuration i)
        (Bridge.mintWindowStartedAt m) <= Bridge.mintWindowLimit i;
  wf_earlier t : t + Bridge.mintWindowDuration i <= Bridge.mintWindowStartedAt m ->
      minted_between logs t (t + Bridge.mintWindowDuration i) <= 2 * Bridge.mintWindowLimit i;
}.

Record immutables_wf (i : Bridge.Immutables) : Prop := {
  iw_fees : 0 < Bridge.MIN_SERVICE_FEE i /\ Bridge.MAX_SERVICE_FEE i <= u128_max;
  iw_limit : 0 < Bridge.perDepositLimit i <= u128_max;
  iw_window : 0 < Bridge.mintWindowLimit i <= u128_max;
  iw_duration : 3600 <= Bridge.mintWindowDuration i <= 2592000;
}.

(** A withdrawal as the contract keeps it, and the event that announced it. *)
Definition committed_as (id : Z) (r : Bridge.StoredWithdrawal) (e : BridgeEvent) : Prop :=
  e = WithdrawalCommitted id (Bridge.requester r) (Bridge.amount r) (Bridge.maxServiceFee r)
        (Bridge.chargedServiceFee r) (Bridge.amount r - Bridge.chargedServiceFee r)
        (Bridge.owner r) (Bridge.subaccount r) /\
  Bridge.exists_ r = true /\ 0 <= Bridge.chargedServiceFee r < Bridge.amount r /\
  Bridge.amount r <= u128_max /\ Bridge.chargedServiceFee r <= Bridge.maxServiceFee r <= u128_max /\
  is_principal (Bridge.owner r) = true.

Record requests_wf (r : Bridge.Withdrawals) logs : Prop := {
  rw_next : 1 <= Bridge.nextWithdrawalId r;
  rw_ids : withdrawal_ids logs = seqZ 1 (Bridge.nextWithdrawalId r - 1);
  rw_stored id s : Bridge.withdrawals r !! id = Some s ->
      exists l, l ∈ logs /\ committed_as id s (log_event l);
  rw_logged l id : l ∈ logs -> withdrawal_id l = Some id ->
      exists s, Bridge.withdrawals r !! id = Some s /\ committed_as id s (log_event l);
}.

(** Every mint event is exact and inside the limit of one deposit. *)
Definition mint_log_wf (i : Bridge.Immutables) (l : Log) : Prop :=
  match log_event l with
  | DepositMinted _ recipient _ gross fee minted =>
      minted = gross - fee /\ 0 < minted <= Bridge.perDepositLimit i /\
      0 <= fee <= Bridge.MAX_SERVICE_FEE i /\ recipient <> address_zero /\
      recipient <> Bridge.this i /\ recipient <> Bridge.bsns i
  | _ => True
  end.

Record world_wf (now : Z) w : Prop := {
  ww_immutables : immutables_wf (Bridge.immutables (w_bridge w));
  ww_control : control_wf (Bridge.immutables (w_bridge w)) (Bridge.control (w_bridge w));
  ww_token : bsns_bridge (w_token w) = Bridge.this (Bridge.immutables (w_bridge w)) /\
             bsns_address (w_token w) = Bridge.bsns (Bridge.immutables (w_bridge w));
  ww_window : window_wf (Bridge.immutables (w_bridge w)) (Bridge.minting (w_bridge w)) now (w_logs w);
  ww_requests : requests_wf (Bridge.requests (w_bridge w)) (w_logs w);
  ww_processed id : Bridge.isDepositProcessed (w_bridge w) id = true <-> id ∈ minted_ids (w_logs w);
  ww_once : NoDup (minted_ids (w_logs w));
  ww_mints : Forall (mint_log_wf (Bridge.immutables (w_bridge w))) (w_logs w);
  ww_supply : supply (w_token w) = total log_minted (w_logs w) - total log_burnt (w_logs w);
  ww_past l : l ∈ w_logs w -> log_timestamp l <= now;
}.

(** ** Windows *)

Lemma minted_between_app logs logs' a b :
  minted_between (logs ++ logs') a b = minted_between logs a b + minted_between logs' a b.
Proof. apply total_app. Qed.

Lemma minted_between_free logs a b :
  Forall (fun l => minted_id l = None) logs -> minted_between logs a b = 0.
Proof.
  induction 1 as [|l ls Hl _ IH]; [done|]. unfold minted_between in *. simpl. rewrite IH.
  assert (log_minted l = 0) as -> by (unfold log_minted, minted_id in *; by destruct (log_event l)).
  by case_match.
Qed.

Definition mints_nonneg logs : Prop := forall l, l ∈ logs -> 0 <= log_minted l.

Lemma minted_between_mono logs a b a' b' :
  mints_nonneg logs -> a' <= a -> b <= b' -> minted_between logs a b <= minted_between logs a' b'.
Proof.
  intros Hn Ha Hb. apply total_le. intros l Hl. specialize (Hn l Hl).
  repeat case_match; reflect; lia.
Qed.

Lemma minted_between_split logs a b c :
  a <= b <= c -> minted_between logs a c = minted_between logs a b + minted_between logs b c.
Proof.
  intros Hab. unfold minted_between. rewrite <- total_add. apply total_ext. intros l _.
  repeat case_match; reflect; lia.
Qed.

Lemma minted_between_one l a b :
  minted_between [l] a b = if (a <=? log_timestamp l) && (log_timestamp l <? b) then log_minted l else 0.
Proof. unfold minted_between. simpl. lia. Qed.

Lemma minted_between_none logs a b :
  (forall l, l ∈ logs -> log_minted l <> 0 -> log_timestamp l < a) -> minted_between logs a b = 0.
Proof.
  intros Hl. unfold minted_between. rewrite (total_ext _ (fun _ => 0)).
  - clear Hl. induction logs; simpl; [done|]. unfold total in *. simpl. lia.
  - intros l Hin. case_match eqn:E; [|done]. reflect. destruct (decide (log_minted l = 0)); [done|].
    specialize (Hl l Hin). lia.
Qed.

Lemma mints_wf_nonneg i logs : Forall (mint_log_wf i) logs -> mints_nonneg logs.
Proof.
  intros Hf l Hl. rewrite Forall_forall in Hf. specialize (Hf l Hl).
  unfold mint_log_wf, log_minted in *. destruct (log_event l); lia.
Qed.

(** Any stretch of one duration holds at most two limits. *)
Lemma window_wf_rate i m now logs t :
  0 <= Bridge.mintWindowDuration i -> mints_nonneg logs -> (forall l, l ∈ logs -> log_timestamp l <= now) ->
  window_wf i m now logs ->
  minted_between logs t (t + Bridge.mintWindowDuration i) <= 2 * Bridge.mintWindowLimit i.
Proof.
  intros Hd Hn Hpast [Hs Hc Hcur _ Hprev Hear].
  set (S := Bridge.mintWindowStartedAt m) in *. set (D := Bridge.mintWindowDuration i) in *.
  destruct (decide (t + D <= S)); [by apply Hear|].
  set (U := Z.max (t + D) (now + 1)).
  assert (minted_between logs S U = Bridge.mintedInWindow m) as Hcu by (apply Hcur; lia).
  destruct (decide (S <= t)).
  - assert (minted_between logs t (t + D) <= minted_between logs S U)
      by (apply minted_between_mono; [done|lia..]). lia.
  - assert (minted_between logs t S <= minted_between logs (S - D) S)
      by (apply minted_between_mono; [done|lia..]).
    assert (minted_between logs S (t + D) <= minted_between logs S U)
      by (apply minted_between_mono; [done|lia..]).
    rewrite (minted_between_split logs t S (t + D)) by lia. lia.
Qed.

Lemma window_wf_frame i m now now' logs ls :
  window_wf i m now logs -> now <= now' -> Forall (fun l => minted_id l = None) ls ->
  window_wf i m now' (logs ++ ls).
Proof.
  intros [Hs Hc Hcur Hend Hprev Hear] Hnow Hls.
  split; [lia|done|intros u Hu|intros l Hl Hnz| |intros t Ht];
    rewrite ?minted_between_app, ?(minted_between_free ls), ?Z.add_0_r by done; auto.
  - apply Hcur. lia.
  - apply elem_of_app in Hl as [Hl|Hl]; [by apply Hend|].
    rewrite Forall_forall in Hls. specialize (Hls _ Hl). unfold log_minted, minted_id in *.
    by destruct (log_event l).
Qed.

(** A mint inside the current window, and one that opens a new window. *)
Lemma window_wf_mint i m now logs l processed :
  window_wf i m now logs -> mints_nonneg logs -> (forall l, l ∈ logs -> log_timestamp l <= now) ->
  now <= log_timestamp l < Bridge.mintWindowStartedAt m + Bridge.mintWindowDuration i ->
  0 <= log_minted l -> Bridge.mintedInWindow m + log_minted l <= Bridge.mintWindowLimit i ->
  window_wf i {| Bridge.mintWindowStartedAt := Bridge.mintWindowStartedAt m;
                 Bridge.mintedInWindow := Bridge.mintedInWindow m + log_minted l;
                 Bridge.processedDeposits := processed |} (log_timestamp l) (logs ++ [l]).
Proof.
  intros [Hs Hc Hcur Hend Hprev Hear] Hn Hpast Hl Hpos Hlim.
  split; simpl; [lia|lia|intros u Hu|intros x Hx Hnz| |intros t Ht];
    rewrite ?minted_between_app, ?minted_between_one.
  - rewrite Hcur by lia. repeat case_match; reflect; lia.
  - apply elem_of_app in Hx as [Hx|Hx%list_elem_of_singleton]; [by apply Hend|subst; lia].
  - repeat case_match; reflect; lia.
  - specialize (Hear t Ht). repeat case_match; reflect; lia.
Qed.

Lemma window_wf_reset i m now logs l processed :
  0 <= Bridge.mintWindowDuration i ->
  window_wf i m now logs -> mints_nonneg logs -> (forall l, l ∈ logs -> log_timestamp l <= now) ->
  Bridge.mintWindowStartedAt m + Bridge.mintWindowDuration i <= log_timestamp l ->
  now <= log_timestamp l <= u64_max ->
  0 < Bridge.mintWindowDuration i -> 0 <= log_minted l <= Bridge.mintWindowLimit i ->
  window_wf i {| Bridge.mintWindowStartedAt := log_timestamp l;
                 Bridge.mintedInWindow := log_minted l;
                 Bridge.processedDeposits := processed |} (log_timestamp l) (logs ++ [l]).
Proof.
  intros Hd Hwf Hn Hpast Hover Hl Hd' Hpos.
  pose proof (fun t => window_wf_rate i m now logs t Hd Hn Hpast Hwf) as Hrate.
  destruct Hwf as [Hs Hc Hcur Hend Hprev Hear].
  assert (forall until, minted_between logs (log_timestamp l) until = 0) as Hnone.
  { intros u. apply minted_between_none. intros x Hx Hnz. specialize (Hend x Hx Hnz). lia. }
  split; simpl; [lia|lia|intros u Hu|intros x Hx Hnz| |intros t Ht];
    rewrite ?minted_between_app, ?minted_between_one.
  - rewrite Hnone. repeat case_match; reflect; lia.
  - apply elem_of_app in Hx as [Hx|Hx%list_elem_of_singleton]; [|subst; lia].
    specialize (Hend x Hx Hnz). lia.
  - assert (minted_between logs (log_timestamp l - Bridge.mintWindowDuration i) (log_timestamp l)
      <= minted_between logs (Bridge.mintWindowStartedAt m) (Z.max (log_timestamp l) (now + 1)))
      by (apply minted_between_mono; [done|lia..]).
    rewrite Hcur in * by lia. repeat case_match; reflect; lia.
  - specialize (Hrate t). repeat case_match; reflect; lia.
Qed.

(** ** Every call keeps the invariant *)

Lemma omap_free {A B} (f : A -> option B) (l : list A) :
  Forall (fun x => f x = None) l -> omap f l = [].
Proof. induction 1 as [|x l Hx _ IH]; [done|]. simpl. by rewrite Hx. Qed.

Lemma requests_wf_frame r logs ls :
  requests_wf r logs -> Forall (fun l => withdrawal_id l = None) ls -> requests_wf r (logs ++ ls).
Proof.
  intros [Hn Hi Hs Hl] Hls. split; [done|..].
  - unfold withdrawal_ids in *. by rewrite omap_app, (omap_free _ ls Hls), app_nil_r.
  - intros id s Hid. destruct (Hs id s Hid) as (l & Hin & Hc). exists l. rewrite elem_of_app. auto.
  - intros l id [Hin|Hin]%elem_of_app Hid; [by apply Hl|].
    rewrite Forall_forall in Hls. by rewrite (Hls l Hin) in Hid.
Qed.

Lemma control_event_free ls :
  Forall (fun l => control_event (log_event l) = true) ls ->
  Forall (fun l => minted_id l = None) ls /\ Forall (fun l => withdrawal_id l = None) ls /\
  total log_minted ls = 0 /\ total log_burnt ls = 0.
Proof.
  induction 1 as [|l ls Hl _ IH]; [done|]. destruct IH as (? & ? & ? & ?). simpl.
  assert (minted_id l = None /\ withdrawal_id l = None /\ log_minted l = 0 /\ log_burnt l = 0)
    as (? & ? & -> & ->)
    by (unfold minted_id, withdrawal_id, log_minted, log_burnt; by destruct (log_event l)).
  split_and!; [by constructor|by constructor|lia|lia].
Qed.

Lemma world_wf_later now now' w : world_wf now w -> now <= now' -> world_wf now' w.
Proof.
  intros [] Hle. split; try done.
  - rewrite <- (app_nil_r (w_logs w)). by eapply window_wf_frame.
  - intros l Hl. etrans; [by apply ww_past0|done].
Qed.

Lemma world_wf_claimed now w claimed : world_wf now w -> world_wf now (set_claimed w claimed).
Proof. intros []. by split. Qed.

Lemma world_wf_token now w t :
  world_wf now w -> same_token (w_token w) t -> supply t = supply (w_token w) ->
  world_wf now (set_token w t).
Proof.
  intros [] (Ha & _ & Hb & _) Hs. split; try done; simpl.
  - by rewrite Ha, Hb.
  - by rewrite Hs.
Qed.

Lemma world_wf_administers now ctx w w' :
  world_wf now w -> now = block_timestamp ctx -> administers ctx w w' -> world_wf now w'.
Proof.
  intros [] Hnow [Hi Hm Hr Ht _ (ls & Hl & Hls) Hc].
  assert (Forall (fun l => control_event (log_event l) = true) ls) as Hce
    by (eapply Forall_impl; [exact Hls|]; simpl; tauto).
  destruct (control_event_free ls Hce) as (Hmf & Hwf & Hm0 & Hb0).
  split; rewrite ?Hi, ?Hr, ?Ht, ?Hl.
  - done.
  - by apply (cm_wf _ _ _ Hc).
  - done.
  - rewrite Hm. by eapply window_wf_frame.
  - by apply requests_wf_frame.
  - intros id. unfold Bridge.isDepositProcessed, minted_ids. rewrite Hm, omap_app, (omap_free _ ls Hmf).
    rewrite app_nil_r. apply ww_processed0.
  - unfold minted_ids. by rewrite omap_app, (omap_free _ ls Hmf), app_nil_r.
  - apply Forall_app. split; [done|]. eapply Forall_impl; [exact Hmf|]. intros l Hml.
    unfold mint_log_wf, minted_id in *. by destruct (log_event l).
  - rewrite !total_app. lia.
  - intros l [Hin|Hin]%elem_of_app; [by apply ww_past0|]. rewrite Forall_forall in Hls.
    destruct (Hls l Hin) as (_ & _ & ->). lia.
Qed.

Lemma mint_input_typed ctx w a :
  world_wf (block_timestamp ctx) w -> 0 <= block_timestamp ctx <= u256_max -> calldata_typed a ->
  input_typed (mint_input ctx w a).
Proof.
  intros [[] _ _ [Hs Hc _ _ _ _] _ _ _ _ _ _] Hts []. unfold is_u256, u256_max in *.
  split; simpl; unfold in_range, u256_max in *; lia.
Qed.

Lemma window_wf_minted ctx w a e :
  world_wf (block_timestamp ctx) w -> acceptable (mint_input ctx w a) ->
  window_wf (Bridge.immutables (w_bridge w)) (Bridge.minting (w_bridge (minted_world ctx w a e)))
    (block_timestamp ctx) (w_logs (minted_world ctx w a e)).
Proof.
  intros Hwf Hacc. pose proof (mints_wf_nonneg _ _ (ww_mints _ _ Hwf)) as Hn.
  destruct Hwf as [[] _ _ Hw _ _ _ _ _ Hpast]. pose proof (wf_started _ _ _ _ Hw) as Hs.
  unfold minted_world, emit. cbn [w_bridge w_logs Bridge.minting Bridge.set_minting set_bridge set_token].
  set (l := Build_Log _ _ _). assert (log_minted l = mint_net (mint_input ctx w a)) as Hl by done.
  destruct Hacc. unfold mint_net, window_base, window_over, accepted_effects in *.
  cbn [MintAuthorizationPolicy.windowStartedAtAfter MintAuthorizationPolicy.windowConsumedAfter] in *.
  unfold window_base, window_over, mint_net in *. simpl in acc_window, acc_reset, acc_positive, Hl |- *.
  destruct (Z.leb_spec (Bridge.mintWindowStartedAt (Bridge.minting (w_bridge w))
    + Bridge.mintWindowDuration (Bridge.immutables (w_bridge w))) (block_timestamp ctx)) as [Hle|Hlt].
  - specialize (acc_reset eq_refl). rewrite Z.add_0_l, <- Hl.
    apply (window_wf_reset _ (Bridge.minting (w_bridge w)) (block_timestamp ctx) (w_logs w) l); simpl; try done; lia.
  - rewrite <- Hl.
    apply (window_wf_mint _ (Bridge.minting (w_bridge w)) (block_timestamp ctx) (w_logs w) l); simpl; try done; lia.
Qed.

Lemma world_wf_minted ctx w a e :
  world_wf (block_timestamp ctx) w -> acceptable (mint_input ctx w a) ->
  0 <= IBridge.chargedServiceFee a ->
  ERC20_mint (bsns_erc20 (w_token w)) (IBridge.recipient a) (mint_net (mint_input ctx w a)) = Ok e ->
  world_wf (block_timestamp ctx) (minted_world ctx w a e).
Proof.
  intros Hwf Hacc Hfee He. pose proof (window_wf_minted ctx w a e Hwf Hacc) as Hw.
  destruct Hwf. split; simpl; try done.
  - by apply requests_wf_frame; [|repeat constructor].
  - intros id. unfold Bridge.isDepositProcessed, minted_ids. simpl. rewrite omap_app, elem_of_app. simpl.
    rewrite list_elem_of_singleton, <- ww_processed0. unfold Bridge.isDepositProcessed.
    destruct (decide (id = IBridge.depositId a)) as [->|Hne].
    + rewrite lookup_insert_eq. naive_solver.
    + rewrite lookup_insert_ne by done. naive_solver.
  - unfold minted_ids. rewrite omap_app. simpl. apply NoDup_app. split_and!; [done| |apply NoDup_singleton].
    intros id Hid Hin%list_elem_of_singleton. subst. apply ww_processed0 in Hid.
    pose proof (acc_new _ Hacc) as Hnew. simpl in Hnew. congruence.
  - apply Forall_app. split; [done|]. repeat constructor; simpl; destruct Hacc;
      unfold mint_net in *; simpl in *; try lia; try tauto.
  - rewrite !total_app. unfold supply in *. simpl. apply ERC20_mint_spec in He as [-> _].
    unfold log_minted at 2, log_burnt at 2. simpl. lia.
  - intros l [Hin|Hin%list_elem_of_singleton]%elem_of_app; [by apply ww_past0|by subst].
Qed.

Lemma requests_wf_withdrawn ctx w amount maxServiceFee owner subaccount e :
  world_wf (block_timestamp ctx) w -> 0 <= amount ->
  withdrawal_admitted ctx w amount maxServiceFee owner ->
  requests_wf (Bridge.requests (w_bridge (withdrawn_world ctx w amount maxServiceFee owner subaccount e)))
    (w_logs (withdrawn_world ctx w amount maxServiceFee owner subaccount e)).
Proof.
  intros Hwf Ha []. pose proof (cw_fee _ _ (ww_control _ _ Hwf)). pose proof (iw_fees _ (ww_immutables _ _ Hwf)).
  destruct (ww_requests _ _ Hwf) as [Hn Hi Hs Hl].
  set (next := Bridge.nextWithdrawalId (Bridge.requests (w_bridge w))) in *.
  assert (forall l id, l ∈ w_logs w -> withdrawal_id l = Some id -> id <> next) as Hfresh.
  { intros l id Hin Hid ->. assert (next ∈ withdrawal_ids (w_logs w)) as Hm.
    { apply list_elem_of_omap. eauto. }
    rewrite Hi in Hm. apply elem_of_seqZ in Hm. lia. }
  split; simpl; fold next.
  - lia.
  - unfold withdrawal_ids in *. rewrite omap_app, Hi. simpl.
    replace (next + 1 - 1) with (next - 1 + 1) by lia. rewrite seqZ_app by lia. f_equal.
    replace (1 + (next - 1)) with next by lia. done.
  - intros id s Hid. destruct (decide (id = next)) as [->|Hne].
    + rewrite lookup_insert_eq in Hid. injection Hid as <-. eexists. rewrite elem_of_app.
      split; [right; by apply list_elem_of_singleton|]. unfold committed_as. simpl. split_and!; done || lia.
    + rewrite lookup_insert_ne in Hid by done. destruct (Hs id s Hid) as (l & Hin & Hc).
      exists l. rewrite elem_of_app. auto.
  - intros l id [Hin|Hin%list_elem_of_singleton]%elem_of_app Hid.
    + rewrite lookup_insert_ne by (symmetry; eauto). by apply Hl.
    + subst l. injection Hid as <-. eexists. rewrite lookup_insert_eq. split; [done|].
      unfold committed_as. simpl. split_and!; done || lia.
Qed.

Lemma world_wf_withdrawn ctx w amount maxServiceFee owner subaccount e :
  world_wf (block_timestamp ctx) w -> 0 <= amount ->
  withdrawal_admitted ctx w amount maxServiceFee owner ->
  burns (w_token w) (msg_sender ctx) (Bridge.this (Bridge.immutables (w_bridge w))) amount e ->
  world_wf (block_timestamp ctx) (withdrawn_world ctx w amount maxServiceFee owner subaccount e).
Proof.
  intros Hwf Ha Hadm (e1 & Hm & Hb).
  pose proof (requests_wf_withdrawn ctx w amount maxServiceFee owner subaccount e Hwf Ha Hadm) as Hr.
  destruct Hwf. split; simpl; try done.
  - by eapply window_wf_frame; [..|repeat constructor].
  - intros id. unfold Bridge.isDepositProcessed, minted_ids. simpl. rewrite omap_app, app_nil_r.
    apply ww_processed0.
  - unfold minted_ids. by rewrite omap_app, app_nil_r.
  - apply Forall_app. split; [done|]. by repeat constructor.
  - rewrite !total_app. unfold supply in *. simpl. destruct Hm as (_ & Hsup & _).
    apply ERC20_burn_spec in Hb as (_ & -> & _). unfold log_minted at 2, log_burnt at 2. simpl. lia.
  - intros l [Hin|Hin%list_elem_of_singleton]%elem_of_app; [by apply ww_past0|by subst].
Qed.

Lemma token_call_same ctx w call t ev :
  msg_sender ctx <> bsns_bridge (w_token w) -> bsns_call ctx (w_token w) call = Ok (t, ev) ->
  same_token (w_token w) t /\ supply t = supply (w_token w).
Proof.
  intros Hne Hc. apply bsns_call_supply in Hc as (Hsame & Hs & Hb). split; [done|]. rewrite Hs.
  destruct call; simpl in *; try lia; by destruct Hne; apply Hb.
Qed.

(** What a call may do to the world, seen from outside. *)
Inductive world_step ctx w : World T -> Prop :=
| Step_same : world_step ctx w w
| Step_token t :
    same_token (w_token w) t -> supply t = supply (w_token w) -> world_step ctx w (set_token w t)
| Step_administers w' : administers ctx w w' -> world_step ctx w w'
| Step_minted a signature e :
    calldata_typed a -> signed_mint ctx w a signature -> acceptable (mint_input ctx w a) ->
    ERC20_mint (bsns_erc20 (w_token w)) (IBridge.recipient a) (mint_net (mint_input ctx w a)) = Ok e ->
    world_step ctx w (minted_world ctx w a e)
| Step_withdrawn amount maxServiceFee owner subaccount e :
    0 <= amount -> withdrawal_admitted ctx w amount maxServiceFee owner ->
    burns (w_token w) (msg_sender ctx) (Bridge.this (Bridge.immutables (w_bridge w))) amount e ->
    world_step ctx w (withdrawn_world ctx w amount maxServiceFee owner subaccount e).

Lemma base_call_step ctx w call :
  world_wf (block_timestamp ctx) w -> 0 <= block_timestamp ctx <= u256_max ->
  msg_sender ctx <> Bridge.this (Bridge.immutables (w_bridge w)) -> call_ranged call ->
  world_step ctx w (base_call ctx w call).
Proof.
  intros Hwf Hts Hs Hr. destruct call as [call|call]; simpl.
  - destruct (bridge_call ctx w call) as [w'|] eqn:Hc; [|constructor].
    destruct (is_administration call) eqn:Ha.
    { by apply Step_administers, (administration_Ok _ _ call). }
    destruct call; simpl in Ha, Hc, Hr; try done.
    + apply mint_Ok in Hc as (Hsig & Hacc & _ & e & He & ->); [|by apply mint_input_typed].
      by econstructor.
    + destruct (createWithdrawal _ _ _ _ _ _) as [[id w1]|] eqn:E; [|done]. simpl in Hc. simplify_eq.
      pose proof (cw_fee _ _ (ww_control _ _ Hwf)). pose proof (iw_fees _ (ww_immutables _ _ Hwf)).
      unfold is_u256 in Hr.
      apply withdraw_Ok in E as (Hadm & _ & _ & e & He & ->); [|lia..].
      apply Step_withdrawn; [lia|done|done].
  - destruct (bsns_call ctx (w_token w) call) as [[t ev]|] eqn:Hc; [|constructor].
    apply token_call_same in Hc as [Hsame Hsup]; [by constructor|].
    by rewrite (proj1 (ww_token _ _ Hwf)).
Qed.

Lemma world_step_wf ctx w w' :
  world_wf (block_timestamp ctx) w -> world_step ctx w w' -> world_wf (block_timestamp ctx) w'.
Proof.
  intros Hwf [|t Hs Ht|w'' Ha|a signature e Hty Hsig Hacc He|]; [done|by apply world_wf_token| | |].
  - by eapply world_wf_administers.
  - apply world_wf_minted; try done. pose proof (cdt_fee _ Hty) as Hf. unfold is_u256 in Hf. lia.
  - by apply world_wf_withdrawn.
Qed.

Lemma world_step_this ctx w w' :
  world_step ctx w w' -> Bridge.immutables (w_bridge w') = Bridge.immutables (w_bridge w).
Proof. by intros [| |w'' Ha| |]; [..|apply (ad_immutables _ _ _ Ha)| |]. Qed.

(** ** Histories *)

(** The world moves from one time to a later one, call by call. *)
Inductive evolves : Z -> World T -> Z -> World T -> Prop :=
| Ev_refl now w : evolves now w now w
| Ev_transaction now now1 w claimed now' w' :
    now <= now1 -> evolves now1 (set_claimed w claimed) now' w' -> evolves now w now' w'
| Ev_call now w ctx w1 now' w' :
    now <= block_timestamp ctx -> block_chainid ctx = chainid ->
    msg_sender ctx <> Bridge.this (Bridge.immutables (w_bridge w)) ->
    world_step ctx w w1 -> evolves (block_timestamp ctx) w1 now' w' -> evolves now w now' w'.

Lemma evolves_wf now w now' w' : evolves now w now' w' -> world_wf now w -> world_wf now' w'.
Proof.
  induction 1 as [|now now1 w claimed now' w' Hle _ IH|now w ctx w1 now' w' Hle _ _ Hst _ IH]; intros Hwf.
  - done.
  - apply IH, world_wf_claimed. by eapply world_wf_later.
  - apply IH. apply (world_step_wf ctx w); [|done]. by eapply world_wf_later.
Qed.

Lemma evolves_trans now w now1 w1 now2 w2 :
  evolves now w now1 w1 -> evolves now1 w1 now2 w2 -> evolves now w now2 w2.
Proof. induction 1; intros; eauto using evolves. Qed.

Lemma evolves_immutables now w now' w' :
  evolves now w now' w' -> Bridge.immutables (w_bridge w') = Bridge.immutables (w_bridge w).
Proof.
  induction 1 as [|now now1 w claimed now' w' Hle _ IH|now w ctx w1 now' w' _ _ _ Hst _ IH]; [done|done|].
  rewrite IH. by apply (world_step_this ctx).
Qed.

Lemma evolves_time now w now' w' : evolves now w now' w' -> now <= now'.
Proof. induction 1; lia. Qed.

(** Transactions in order are such a history. *)
Lemma base_calls_evolve tx w calls :
  world_wf (tx_timestamp tx) w -> 0 <= tx_timestamp tx <= u256_max ->
  Forall (fun c => c.1 <> Bridge.this (Bridge.immutables (w_bridge w)) /\ call_ranged c.2) calls ->
  evolves (tx_timestamp tx) w (tx_timestamp tx)
    (foldl (fun w c => base_call (tx_context chainid tx c.1) w c.2) w calls).
Proof.
  intros Hwf Hts. revert w Hwf.
  induction calls as [|c calls IH]; intros w Hwf Hcalls; simpl; [constructor|].
  apply Forall_cons in Hcalls as [[Hs Hr] Hcalls]. set (ctx := tx_context chainid tx c.1).
  assert (world_step ctx w (base_call ctx w c.2)) as Hst by (by apply base_call_step).
  apply (Ev_call _ _ ctx (base_call ctx w c.2)); try done. simpl. apply IH.
  - by apply (world_step_wf ctx w).
  - by rewrite (world_step_this _ _ _ Hst).
Qed.

Lemma base_tx_evolves now w tx :
  world_wf now w -> now <= tx_timestamp tx ->
  tx_admissible (Bridge.this (Bridge.immutables (w_bridge w))) tx ->
  evolves now w (tx_timestamp tx) (base_tx chainid w tx).
Proof.
  intros Hwf Hle [Hts Hcalls]. apply (Ev_transaction _ (tx_timestamp tx) _ false); [done|].
  apply base_calls_evolve; try done. apply world_wf_claimed. by eapply world_wf_later.
Qed.

Lemma base_run_evolves now w txs :
  world_wf now w -> in_order now txs ->
  Forall (tx_admissible (Bridge.this (Bridge.immutables (w_bridge w)))) txs ->
  evolves now w (chain_time now txs) (base_run chainid w txs).
Proof.
  revert now w. induction txs as [|tx txs IH]; intros now w Hwf Ho Hf; [constructor|].
  destruct Ho as [Hle Ho]. apply Forall_cons in Hf as [Htx Hf].
  pose proof (base_tx_evolves now w tx Hwf Hle Htx) as He1.
  eapply evolves_trans; [exact He1|]. apply IH; [by eapply evolves_wf|done|].
  by rewrite (evolves_immutables _ _ _ _ He1).
Qed.

(** ** Deployment *)

Definition args_typed (a : ConstructorArgs) : Prop :=
  is_u256 (ca_perDepositLimit a) /\ is_u256 (ca_mintWindowLimit a) /\ is_u64 (ca_mintWindowDuration a) /\
  is_u256 (ca_minServiceFee a) /\ is_u256 (ca_maxServiceFee a) /\ is_u256 (ca_serviceFee a).

Lemma bridge_new_wf ctx staging this token c a w :
  args_typed a -> is_u64 (block_timestamp ctx) ->
  bridge_new ctx staging this token c a = Ok w -> world_wf (block_timestamp ctx) w.
Proof.
  unfold args_typed, is_u256. intros Ht Hts Hn. unfold bridge_new in Hn.
  bind Hn as [] Er. apply roles_set_Ok in Er as [Hz Hd].
  do 4 (let E := fresh "E" in bind Hn as [] E; apply require_Ok in E).
  bind Hn as [] Ev. apply Ok_inj in Hn as <-.
  unfold BridgeAdministration.limitsAreNonzero, BridgeAdministration.valuesFitU128,
    BridgeAdministration.valueFitsU128, BridgeAdministration.serviceFeeIsValid,
    MINIMUM_MINT_WINDOW_DURATION, MAXIMUM_MINT_WINDOW_DURATION in *. reflect. ranges.
  split; simpl; try done.
  - split; simpl; lia.
  - split; simpl; rewrite ?wrap_small by lia; try done; try lia.
    by intros l ?%elem_of_nil.
  - split; simpl; [done|done|done|by intros l id ?%elem_of_nil].
  - intros id. unfold Bridge.isDepositProcessed. simpl. rewrite lookup_empty, elem_of_nil. naive_solver.
  - constructor.
  - unfold supply. simpl. apply ERC20_new_empty.
  - by intros l ?%elem_of_nil.
Qed.
End invariant.
