(* ===== verification/BaseMints.v ===== *)
(** * Where the mint events of Base come from

    The log only grows, and a later log carries a later time.  Every mint event a
    transaction adds comes from a mint call of that transaction, signed by the key
    that was the signer when the call ran, before the deadline the calldata names; and
    the signer changes only to a key a rotation of the transaction names. *)

From S2P Require Import Prelude Types Eip712 BaseToken BaseBridge BasePolicy BaseCalls BaseHistory.

Section mints.
Context {T : Type} `{!ERC20 T} `{!ERC20Laws T} `{EIP712} `{!ECDSA}.
Context (chainid : Z).
Implicit Types (w : World T) (tx : Transaction) (l : Log).

(** ** The log grows *)

Definition logs_since (now : Z) (logs logs' : list Log) : Prop :=
  exists ls, logs' = logs ++ ls /\ Forall (fun l => now <= log_timestamp l) ls.

Lemma logs_since_refl now logs : logs_since now logs logs.
Proof. exists []. by rewrite app_nil_r. Qed.

Lemma logs_since_trans now now1 logs logs1 logs2 :
  now <= now1 -> logs_since now logs logs1 -> logs_since now1 logs1 logs2 -> logs_since now logs logs2.
Proof.
  intros Hle (a & -> & Ha) (b & -> & Hb). exists (a ++ b). rewrite app_assoc. split; [done|].
  apply Forall_app. split; [done|]. eapply Forall_impl; [exact Hb|]. simpl. lia.
Qed.

Lemma world_step_logs ctx w w' :
  world_step ctx w w' -> logs_since (block_timestamp ctx) (w_logs w) (w_logs w').
Proof.
  intros [|t _ _|w'' Ha|a signature e _ _ _ _|amount fee owner sub e _ _ _];
    [apply logs_since_refl..| | |].
  - destruct (ad_logs _ _ _ Ha) as (ls & -> & Hls). exists ls. split; [done|].
    eapply Forall_impl; [exact Hls|]. simpl. lia.
  - eexists. split; [reflexivity|]. repeat constructor. simpl. lia.
  - eexists. split; [reflexivity|]. repeat constructor. simpl. lia.
Qed.

Lemma evolves_logs now w now' w' :
  evolves chainid now w now' w' -> logs_since now (w_logs w) (w_logs w').
Proof.
  induction 1 as [|now now1 w claimed now' w' Hle _ IH|now w ctx w1 now' w' Hle _ _ Hst _ IH].
  - apply logs_since_refl.
  - by eapply logs_since_trans; [done|apply logs_since_refl|].
  - eapply logs_since_trans; [exact Hle|apply logs_since_refl|].
    eapply logs_since_trans; [|by apply (world_step_logs ctx)|exact IH]. done.
Qed.

Lemma evolves_keeps_log now w now' w' l :
  evolves chainid now w now' w' -> l ∈ w_logs w -> l ∈ w_logs w'.
Proof. intros (ls & -> & _)%evolves_logs Hl. rewrite elem_of_app. auto. Qed.

(** ** The signer *)

Definition signer_of w : address := Bridge.bridgeSigner (Bridge.control (w_bridge w)).

Lemma administration_signer ctx w call w' :
  is_administration call = true -> bridge_call ctx w call = Ok w' ->
  signer_of w' = signer_of w \/ call = Call_rotateBridgeSigner (signer_of w').
Proof.
  intros Ha Hc. unfold signer_of. destruct call; try done; simpl in Hc.
  - unfold pauseDepositMints, onlyRuntimeAdministrator in Hc. bind Hc as [] E. cbv zeta in Hc.
    case_match; simplify_eq; [by left|]. bind Hc as [b next] En. simplify_eq. by left.
  - unfold pauseWithdrawals, onlyRuntimeAdministrator in Hc. bind Hc as [] E. cbv zeta in Hc.
    case_match; simplify_eq; by left.
  - unfold unpauseDepositMints, onlyBaseAdminTimelock in Hc. bind Hc as [] E. cbv zeta in Hc.
    case_match; simplify_eq; [by left|]. case_match; [done|]. bind Hc as [b next] En.
    simplify_eq. by left.
  - unfold unpauseWithdrawals, onlyBaseAdminTimelock in Hc. bind Hc as [] E. cbv zeta in Hc.
    case_match; simplify_eq; by left.
  - unfold setServiceFee, onlyRuntimeAdministrator in Hc. bind Hc as [] E. cbv zeta in Hc.
    bind Hc as [] Ef. case_match; simplify_eq; by left.
  - apply rotateBridgeSigner_Ok in Hc as (_ & _ & [->|<-]); auto.
  - unfold rotateRuntimeAdministrator, onlyBaseAdminTimelock in Hc. bind Hc as [] E. cbv zeta in Hc.
    case_match; simplify_eq; [by left|]. bind Hc as [] Ev. simplify_eq. by left.
Qed.

(** ** Mint events *)

(** The event comes from this calldata, signed by [signer]. *)
Record mint_source (this signer : address) (c : IBridge.MintAuthorization) (signature : bytes) l
    : Prop := {
  ms_typed : calldata_typed c;
  ms_signed : ECDSA_tryRecoverCalldata (mintAuthorizationDigest chainid this c) signature
      = (signer, RecoverError_NoError);
  ms_deadline : log_timestamp l <= IBridge.deadline c;
  ms_event : log_event l =
      DepositMinted (IBridge.depositId c) (IBridge.recipient c) (mintAuthorizationDigest chainid this c)
        (IBridge.grossAmount c) (IBridge.chargedServiceFee c)
        (IBridge.grossAmount c - IBridge.chargedServiceFee c);
}.

Abbreviation this_of w := (Bridge.this (Bridge.immutables (w_bridge w))).

Lemma base_call_mints tx sender w call :
  let ctx := tx_context chainid tx sender in
  world_wf (tx_timestamp tx) w -> 0 <= tx_timestamp tx <= u256_max ->
  sender <> this_of w -> call_ranged call ->
  let w' := base_call ctx w call in
  (signer_of w' = signer_of w \/ call = To_bridge (Call_rotateBridgeSigner (signer_of w'))) /\
  exists ls, w_logs w' = w_logs w ++ ls /\ forall l, l ∈ ls -> minted_id l <> None ->
    exists c signature, call = To_bridge (Call_mintDepositWithAuthorization c signature) /\
      mint_source (this_of w) (signer_of w) c signature l.
Proof.
  intros ctx Hwf Hts Hs Hr. destruct call as [call|call]; simpl.
  2:{ split; [case_match; [case_match|]; by left|]. exists []. rewrite app_nil_r.
      split; [by repeat case_match|]. by intros l ?%elem_of_nil. }
  destruct (bridge_call ctx w call) as [w'|] eqn:Hc.
  2:{ split; [by left|]. exists []. rewrite app_nil_r. split; [done|]. by intros l ?%elem_of_nil. }
  destruct (is_administration call) eqn:Ha.
  { split; [destruct (administration_signer _ _ _ _ Ha Hc) as [Hk|Hk]; [by left|right; by f_equal]|].
    destruct (administration_Ok _ _ _ _ Ha Hc) as [_ [_ _ _ _ _ (ls & -> & Hls) _]].
    exists ls. split; [done|]. intros l Hl Hm. rewrite Forall_forall in Hls.
    destruct (Hls l Hl) as [Hce _]. unfold minted_id in Hm. by destruct (log_event l). }
  destruct call as [c signature|amount fee owner sub| | | | | | |]; try done; simpl in Hc, Hr.
  - apply mint_Ok in Hc as (Hsig & Hacc & _ & e & _ & ->); [|by apply mint_input_typed].
    split; [by left|]. eexists. split; [reflexivity|]. intros l ->%list_elem_of_singleton _.
    exists c, signature. split; [done|]. split; [done|exact Hsig| |done].
    simpl. pose proof (acc_deadline _ Hacc) as Hd. simpl in Hd. lia.
  - destruct (createWithdrawal _ _ _ _ _ _) as [[id w1]|] eqn:E; [|done]. simpl in Hc. simplify_eq.
    pose proof (cw_fee _ _ (ww_control _ _ Hwf)). pose proof (iw_fees _ (ww_immutables _ _ Hwf)).
    unfold is_u256 in Hr. apply withdraw_Ok in E as (_ & _ & _ & e & _ & ->); [|lia..].
    split; [by left|]. eexists. split; [reflexivity|]. by intros l ->%list_elem_of_singleton [].
Qed.

(** The signer of a transaction is always a key of [key], when it was one before and
    every rotation names one. *)
Definition rotates_within (key : address -> Prop) (calls : list (address * BaseCall)) : Prop :=
  forall sender signer, (sender, To_bridge (Call_rotateBridgeSigner signer)) ∈ calls -> key signer.

Definition mints_within (key : address -> Prop) (this : address)
    (calls : list (address * BaseCall)) (ls : list Log) : Prop :=
  forall l, l ∈ ls -> minted_id l <> None ->
    exists signer sender c signature, key signer /\
      (sender, To_bridge (Call_mintDepositWithAuthorization c signature)) ∈ calls /\
      mint_source this signer c signature l.

Lemma base_calls_mints key tx w calls :
  world_wf (tx_timestamp tx) w -> 0 <= tx_timestamp tx <= u256_max ->
  Forall (fun c => c.1 <> this_of w /\ call_ranged c.2) calls ->
  key (signer_of w) -> rotates_within key calls ->
  let w' := foldl (fun w c => base_call (tx_context chainid tx c.1) w c.2) w calls in
  key (signer_of w') /\
  exists ls, w_logs w' = w_logs w ++ ls /\ mints_within key (this_of w) calls ls.
Proof.
  intros Hwf Hts. revert w Hwf.
  induction calls as [|[sender call] calls IH]; intros w Hwf Hcalls Hk Hrot; simpl.
  { split; [done|]. exists []. rewrite app_nil_r. split; [done|]. by intros l ?%elem_of_nil. }
  apply Forall_cons in Hcalls as [[Hs Hr] Hcalls]. simpl in Hs, Hr.
  set (ctx := tx_context chainid tx sender).
  assert (world_step ctx w (base_call ctx w call)) as Hst by (by apply base_call_step).
  destruct (base_call_mints tx sender w call Hwf Hts Hs Hr) as [Hsig (ls & Hls & Hm)].
  fold ctx in Hsig, Hls, Hm.
  pose proof (world_step_this _ _ _ Hst) as Hi.
  destruct (IH (base_call ctx w call)) as [Hk' (ls' & Hls' & Hm')].
  - by apply (world_step_wf ctx w).
  - by rewrite Hi.
  - destruct Hsig as [->|Hsig]; [done|]. apply (Hrot sender). rewrite <- Hsig. constructor.
  - intros s r Hin. apply (Hrot s). by constructor.
  - split; [done|]. exists (ls ++ ls'). rewrite Hls', Hls, app_assoc. split; [done|].
    rewrite Hi in Hm'. intros l [Hl|Hl]%elem_of_app Hid.
    + destruct (Hm l Hl Hid) as (c & signature & -> & Hsrc).
      exists (signer_of w), sender, c, signature. split_and!; [done|constructor|done].
    + destruct (Hm' l Hl Hid) as (r & s & c & signature & ? & ? & ?).
      exists r, s, c, signature. split_and!; [done|by constructor|done].
Qed.

Lemma base_tx_mints key now w tx :
  world_wf now w -> now <= tx_timestamp tx -> tx_admissible (this_of w) tx ->
  key (signer_of w) -> rotates_within key (tx_calls tx) ->
  let w' := base_tx chainid w tx in
  key (signer_of w') /\
  exists ls, w_logs w' = w_logs w ++ ls /\ mints_within key (this_of w) (tx_calls tx) ls.
Proof.
  intros Hwf Hle [Hts Hcalls] Hk Hrot.
  apply (base_calls_mints key tx (set_claimed w false)); try done.
  apply world_wf_claimed. by eapply world_wf_later.
Qed.
End mints.
