(* ===== verification/BaseTheorems.v ===== *)
(** * What holds of every deployment on Base

    A deployment starts from a successful constructor and runs transactions in the
    order of their blocks, by anyone and with any arguments.  The theorems are about
    the contracts after any such history. *)

From S2P Require Import Prelude Types Eip712 BaseToken BaseBridge BasePolicy BaseCalls BaseHistory.

Section deployment.
Context {T : Type} `{!ERC20 T} `{!ERC20Laws T} `{EIP712} `{!ECDSA}.
Context (chainid : Z).
Implicit Types (w : World T) (txs : list Transaction).

(** [w] was deployed by the block of [ctx] under typed arguments. *)
Record deployed (ctx : CallContext) (staging : bool) (this token : address) (c : TimelockCandidate)
    (a : ConstructorArgs) w : Prop := {
  dep_typed : args_typed a;
  dep_time : is_u64 (block_timestamp ctx);
  dep_new : bridge_new ctx staging this token c a = Ok w;
}.

(** The transactions a chain may include after [now]. *)
Definition includable (this : address) (now : Z) txs : Prop :=
  in_order now txs /\ Forall (tx_admissible this) txs.

Lemma bridge_new_this ctx staging this token c a w :
  bridge_new ctx staging this token c a = Ok w -> Bridge.this (Bridge.immutables (w_bridge w)) = this.
Proof.
  unfold bridge_new. intros Hn.
  do 6 (let E := fresh "E" in bind Hn as [] E). by apply Ok_inj in Hn as <-.
Qed.

Lemma in_order_app now txs tx :
  in_order now (txs ++ [tx]) <-> in_order now txs /\ chain_time now txs <= tx_timestamp tx.
Proof.
  revert now. induction txs as [|tx' txs IH]; intros now; simpl; [tauto|]. rewrite IH.
  unfold chain_time. simpl. tauto.
Qed.

Lemma seqZ_snoc_inv n n' id : 1 <= n -> seqZ 1 (n' - 1) = seqZ 1 (n - 1) ++ [id] -> id = n.
Proof.
  intros Hn Hs. assert (seqZ 1 (n' - 1) !! Z.to_nat (n - 1) = Some id) as Hl.
  { rewrite Hs, lookup_app_r by (by rewrite length_seqZ). by rewrite length_seqZ, Nat.sub_diag. }
  apply lookup_seqZ in Hl as [-> _]. lia.
Qed.

Lemma deployed_evolves ctx staging this token c a w txs :
  deployed ctx staging this token c a w -> includable this (block_timestamp ctx) txs ->
  let now := chain_time (block_timestamp ctx) txs in
  evolves chainid (block_timestamp ctx) w now (base_run chainid w txs) /\
  world_wf now (base_run chainid w txs).
Proof.
  intros [Ht Hts Hn] [Ho Hf] now. pose proof (bridge_new_wf _ _ _ _ _ _ _ Ht Hts Hn) as Hwf.
  assert (evolves chainid (block_timestamp ctx) w now (base_run chainid w txs)) as He.
  { apply base_run_evolves; try done. by rewrite (bridge_new_this _ _ _ _ _ _ _ Hn). }
  split; [done|]. by eapply evolves_wf.
Qed.

(** C10 (the supply on Base).  After any history of the deployment the total supply is
    exactly what the mint events minted less what the withdrawal events burnt; no
    deposit was minted twice; every mint is gross less a fee within its bound, to a
    recipient outside the contracts, and within the limit of one deposit; and the
    withdrawals are numbered without gaps from one. *)
Theorem base_supply_exact ctx staging this token c a w txs :
  deployed ctx staging this token c a w -> includable this (block_timestamp ctx) txs ->
  let w' := base_run chainid w txs in
  supply (w_token w') = total log_minted (w_logs w') - total log_burnt (w_logs w') /\
  NoDup (minted_ids (w_logs w')) /\
  (forall id, Bridge.isDepositProcessed (w_bridge w') id = true <-> id ∈ minted_ids (w_logs w')) /\
  Forall (mint_log_wf (Bridge.immutables (w_bridge w'))) (w_logs w') /\
  withdrawal_ids (w_logs w') = seqZ 1 (Bridge.nextWithdrawalId (Bridge.requests (w_bridge w')) - 1).
Proof.
  intros Hd Hi w'. destruct (deployed_evolves _ _ _ _ _ _ _ _ Hd Hi) as (_ & []).
  split_and!; try done. by apply rw_ids.
Qed.

(** C30 (the mint rate).  In any stretch of time as long as the mint window, wherever
    it begins, a deployment mints at most twice the window limit. *)
Theorem mint_rate_bounded ctx staging this token c a w txs t :
  deployed ctx staging this token c a w -> includable this (block_timestamp ctx) txs ->
  let w' := base_run chainid w txs in
  let i := Bridge.immutables (w_bridge w') in
  minted_between (w_logs w') t (t + Bridge.mintWindowDuration i) <= 2 * Bridge.mintWindowLimit i.
Proof.
  intros Hd Hi w' i. destruct (deployed_evolves _ _ _ _ _ _ _ _ Hd Hi) as (_ & []).
  eapply window_wf_rate; [|by eapply mints_wf_nonneg|exact ww_past|exact ww_window].
  pose proof (iw_duration _ ww_immutables). subst i w'. lia.
Qed.

(** ** Pauses *)

Lemma world_step_control ctx w w' :
  world_step ctx w w' ->
  control_moves (Bridge.immutables (w_bridge w)) (Bridge.control (w_bridge w)) (Bridge.control (w_bridge w')).
Proof. by intros [| |w'' Ha| |]; [..|apply (ad_control _ _ _ Ha)| |]. Qed.

Lemma evolves_control now w now' w' :
  evolves chainid now w now' w' ->
  control_moves (Bridge.immutables (w_bridge w)) (Bridge.control (w_bridge w)) (Bridge.control (w_bridge w')).
Proof.
  induction 1 as [|now now1 w claimed now' w' _ _ IH|now w ctx w1 now' w' _ _ _ Hst _ IH]; [done|done|].
  etrans; [by eapply world_step_control|]. by rewrite <- (world_step_this ctx w w1).
Qed.

(** C29 (a pause revokes).  Once the runtime administrator pauses minting, no mint
    after it, ever, is signed by the signer of that moment, and none uses an
    authorization of an epoch up to the one the pause opened: ending the pause takes a
    new signer, and a signer that was replaced never returns. *)
Theorem pause_revokes ctx staging this token c a w txs pause w1 txs' mint authorization signature w2 :
  deployed ctx staging this token c a w -> includable this (block_timestamp ctx) txs ->
  chain_time (block_timestamp ctx) txs <= block_timestamp pause ->
  let active := base_run chainid w txs in
  Bridge.depositMintsPaused (Bridge.control (w_bridge active)) = false ->
  pauseDepositMints pause active = Ok w1 ->
  includable this (block_timestamp pause) txs' ->
  let later := base_run chainid w1 txs' in
  chain_time (block_timestamp pause) txs' <= block_timestamp mint <= u256_max ->
  calldata_typed authorization ->
  mintDepositWithAuthorization mint later authorization signature = Ok w2 ->
  (ECDSA_tryRecoverCalldata (mintAuthorizationDigest (block_chainid mint) this authorization) signature).1
    <> Bridge.bridgeSigner (Bridge.control (w_bridge active)) /\
  Bridge.mintAuthorizationEpoch (Bridge.control (w_bridge w1)) < IBridge.authorizationEpoch authorization.
Proof.
  intros Hd Hi Hle active Hact Hp [Ho' Hf'] later Hmint Hty Hm.
  destruct (deployed_evolves _ _ _ _ _ _ _ _ Hd Hi) as [He Hwf].
  fold active in He, Hwf. apply world_wf_later with (now' := block_timestamp pause) in Hwf; [|done].
  pose proof (pauseDepositMints_Ok _ _ _ Hp) as (_ & Had & Hc). specialize (Hc Hact).
  assert (Bridge.this (Bridge.immutables (w_bridge w1)) = this) as Hthis.
  { rewrite (ad_immutables _ _ _ Had), (evolves_immutables _ _ _ _ _ He).
    by rewrite (bridge_new_this _ _ _ _ _ _ _ (dep_new _ _ _ _ _ _ _ Hd)). }
  set (signer := Bridge.bridgeSigner (Bridge.control (w_bridge active))) in *.
  set (epoch := Bridge.mintAuthorizationEpoch (Bridge.control (w_bridge w1))).
  assert (revoked signer epoch (Bridge.control (w_bridge w1))) as Hrev.
  { pose proof (cw_nonzero _ _ (ww_control _ _ Hwf)) as Hz. unfold BridgeAdministration.rolesAreNonzero in Hz.
    reflect. subst epoch. rewrite Hc. split; [done|]. left. simpl. tauto. }
  pose proof (world_wf_administers _ _ _ _ Hwf eq_refl Had) as Hwf1.
  assert (evolves chainid (block_timestamp pause) w1 (chain_time (block_timestamp pause) txs') later) as He'.
  { apply base_run_evolves; [done|done|by rewrite Hthis]. }
  apply (cm_revoked _ _ _ (evolves_control _ _ _ _ He')) in Hrev as [_ Hrev].
  pose proof (evolves_wf _ _ _ _ _ He' Hwf1) as Hwf2.
  apply world_wf_later with (now' := block_timestamp mint) in Hwf2; [|lia].
  pose proof (wf_started _ _ _ _ (ww_window _ _ Hwf2)) as Hs.
  apply mint_Ok in Hm as (Hsig & Hacc & _); [|apply mint_input_typed; [done|lia|done]].
  pose proof (acc_active _ Hacc) as Ha. pose proof (acc_epoch _ Hacc) as Hep. simpl in Ha, Hep.
  destruct Hrev as [(Hpp & _)|[Hret Hlt]]; [congruence|]. split; [|by rewrite Hep].
  unfold signed_mint in Hsig. rewrite (evolves_immutables _ _ _ _ _ He'), Hthis in Hsig.
  rewrite Hsig. simpl. intros Heq. pose proof (cw_signer _ _ (ww_control _ _ Hwf2)) as Hcs.
  unfold retired in Hret. rewrite Heq in Hcs. congruence.
Qed.

(** ** Minting *)

Lemma mint_complete ctx w a signature e :
  input_typed (mint_input ctx w a) -> bsns_bridge (w_token w) = Bridge.this (Bridge.immutables (w_bridge w)) ->
  signed_mint ctx w a signature -> acceptable (mint_input ctx w a) ->
  ERC20_mint (bsns_erc20 (w_token w)) (IBridge.recipient a) (mint_net (mint_input ctx w a)) = Ok e ->
  mintDepositWithAuthorization ctx w a signature = Ok (minted_world ctx w a e).
Proof.
  intros Ht Hb Hsig Hacc He. unfold mintDepositWithAuthorization. rewrite Hsig.
  rewrite !bool_decide_eq_false_2 by tauto. cbn [orb].
  rewrite (proj2 (evaluateMint_exact _ _ _ Ht)) by done. cbn [revertRejectedMint].
  unfold commitAuthorizedMint, bridgeMint, onlyBridge, token_call. cbn -[accepted_effects].
  rewrite decide_True by done. unfold accepted_effects.
  cbn [MintAuthorizationPolicy.supplyIncrease]. by rewrite He.
Qed.

(** C31 (what a mint takes and does).  On any reachable state a mint call succeeds
    exactly when the calldata is signed by the current signer and satisfies the policy
    (active, unexpired and at most fifteen minutes ahead, of the current epoch, a new
    deposit, fees and amounts within their limits, room in the window) and the token
    can be minted; it then marks the deposit, moves the window and mints the net
    amount, and changes nothing else. *)
Theorem mint_call_exact ctx staging this token c a w txs call authorization signature w2 :
  deployed ctx staging this token c a w -> includable this (block_timestamp ctx) txs ->
  chain_time (block_timestamp ctx) txs <= block_timestamp call <= u256_max ->
  calldata_typed authorization ->
  let now := base_run chainid w txs in
  mintDepositWithAuthorization call now authorization signature = Ok w2 <->
  signed_mint call now authorization signature /\ acceptable (mint_input call now authorization) /\
  exists e, ERC20_mint (bsns_erc20 (w_token now)) (IBridge.recipient authorization)
      (mint_net (mint_input call now authorization)) = Ok e /\ w2 = minted_world call now authorization e.
Proof.
  intros Hd Hi Hle Hty now. destruct (deployed_evolves _ _ _ _ _ _ _ _ Hd Hi) as [_ Hwf]. fold now in Hwf.
  apply world_wf_later with (now' := block_timestamp call) in Hwf; [|lia].
  pose proof (wf_started _ _ _ _ (ww_window _ _ Hwf)).
  assert (input_typed (mint_input call now authorization)) as Hin by (apply mint_input_typed; done || lia).
  split.
  - intros Hm. apply mint_Ok in Hm as (Hs & Ha & _ & He); done.
  - intros (Hs & Ha & e & He & ->). apply mint_complete; try done. apply (ww_token _ _ Hwf).
Qed.

(** ** Withdrawals *)

Lemma world_step_withdrawals ctx w w' :
  world_step ctx w w' ->
  (w_claimed w' = w_claimed w /\ withdrawal_ids (w_logs w') = withdrawal_ids (w_logs w)) \/
  (w_claimed w = false /\ w_claimed w' = true /\
   exists id, withdrawal_ids (w_logs w') = withdrawal_ids (w_logs w) ++ [id]).
Proof.
  unfold withdrawal_ids.
  intros [| |w'' [_ _ _ _ Hc (ls & Hl & Hls) _]| |amount fee owner sub e _ Hadm _]; [by left..| | |].
  - left. split; [done|]. rewrite Hl, omap_app, (omap_free _ ls), app_nil_r; [done|].
    apply control_event_free. eapply Forall_impl; [exact Hls|]. simpl. tauto.
  - left. split; [done|]. simpl. by rewrite omap_app, app_nil_r.
  - right. split_and!; [apply Hadm|done|]. eexists. simpl. by rewrite omap_app.
Qed.

Lemma calls_withdrawals tx w calls :
  world_wf (tx_timestamp tx) w -> 0 <= tx_timestamp tx <= u256_max ->
  Forall (fun c => c.1 <> Bridge.this (Bridge.immutables (w_bridge w)) /\ call_ranged c.2) calls ->
  let w' := foldl (fun w c => base_call (tx_context chainid tx c.1) w c.2) w calls in
  withdrawal_ids (w_logs w') = withdrawal_ids (w_logs w) \/
  (w_claimed w = false /\ exists id, withdrawal_ids (w_logs w') = withdrawal_ids (w_logs w) ++ [id]).
Proof.
  intros Hwf Hts. revert w Hwf. induction calls as [|c calls IH]; intros w Hwf Hf; [by left|].
  apply Forall_cons in Hf as [[Hs Hr] Hf]. cbn zeta. cbn [foldl].
  set (ctx := tx_context chainid tx c.1).
  assert (world_step ctx w (base_call ctx w c.2)) as Hst by (by apply base_call_step).
  destruct (IH (base_call ctx w c.2)) as [Hi|[Hc [id Hi]]].
  - by apply (world_step_wf ctx w).
  - by rewrite (world_step_this _ _ _ Hst).
  - fold ctx in Hi. rewrite Hi. destruct (world_step_withdrawals _ _ _ Hst) as [[_ ->]|(? & _ & ?)]; auto.
  - fold ctx in Hi. rewrite Hi. destruct (world_step_withdrawals _ _ _ Hst) as [[Heq ->]|(_ & Heq & _)].
    + right. split; [congruence|eauto].
    + congruence.
Qed.

(** One withdrawal per transaction.  However often one transaction calls the
    contract, through whatever contracts in between, it commits at most one
    withdrawal: the transaction hash a user reports names one burn. *)
Theorem one_withdrawal_per_transaction ctx staging this token c a w txs tx :
  deployed ctx staging this token c a w -> includable this (block_timestamp ctx) (txs ++ [tx]) ->
  let before := base_run chainid w txs in
  withdrawal_ids (w_logs (base_tx chainid before tx)) = withdrawal_ids (w_logs before) \/
  withdrawal_ids (w_logs (base_tx chainid before tx)) =
    withdrawal_ids (w_logs before) ++ [Bridge.nextWithdrawalId (Bridge.requests (w_bridge before))].
Proof.
  intros Hd [Ho Hf] before. apply in_order_app in Ho as [Ho Hts]. apply Forall_app in Hf as [Hf Htx].
  apply Forall_cons in Htx as [Htx _].
  destruct (deployed_evolves _ _ _ _ _ _ _ _ Hd (conj Ho Hf)) as [He Hwf]. fold before in He, Hwf.
  assert (Bridge.this (Bridge.immutables (w_bridge before)) = this) as Hthis.
  { rewrite (evolves_immutables _ _ _ _ _ He). by eapply bridge_new_this, dep_new. }
  rewrite <- Hthis in Htx.
  pose proof (evolves_wf _ _ _ _ _ (base_tx_evolves chainid _ _ _ Hwf Hts Htx) Hwf) as Hwf'.
  apply world_wf_later with (now' := tx_timestamp tx) in Hwf; [|done]. destruct Htx as [Hb Hcalls].
  destruct (calls_withdrawals tx (set_claimed before false) (tx_calls tx)) as [Hi|[_ [id Hi]]];
    [by apply world_wf_claimed|done|done|by left|].
  right. fold (base_tx chainid before tx) in Hi. rewrite Hi. simpl. repeat f_equal.
  rewrite (rw_ids _ _ (ww_requests _ _ Hwf')) in Hi. simpl in Hi.
  rewrite (rw_ids _ _ (ww_requests _ _ Hwf)) in Hi. pose proof (rw_next _ _ (ww_requests _ _ Hwf)).
  by apply seqZ_snoc_inv in Hi; [|done].
Qed.

(** C32 (withdrawals can be read back).  [getWithdrawal] answers for every number, from
    the day of the deployment on: with status committed exactly for the numbers the
    contract has announced in an event, and then field by field what that event said. *)
Theorem withdrawals_readable ctx staging this token c a w txs id :
  deployed ctx staging this token c a w -> includable this (block_timestamp ctx) txs ->
  let now := base_run chainid w txs in
  exists r, Bridge.getWithdrawal (w_bridge now) id = Ok r /\
    (Bridge.wd_status r = Bridge.Status_Committed <-> id ∈ withdrawal_ids (w_logs now)) /\
    (forall l, l ∈ w_logs now -> withdrawal_id l = Some id ->
       log_event l = WithdrawalCommitted id (Bridge.wd_requester r) (Bridge.wd_amount r)
         (Bridge.wd_maxServiceFee r) (Bridge.wd_chargedServiceFee r) (Bridge.wd_amountOut r)
         (Bridge.wd_owner r) (Bridge.wd_subaccount r)).
Proof.
  intros Hd Hi now. destruct (deployed_evolves _ _ _ _ _ _ _ _ Hd Hi) as [_ Hwf]. fold now in Hwf.
  pose proof (ww_requests _ _ Hwf) as [_ _ Hst Hlog]. unfold Bridge.getWithdrawal.
  destruct (Bridge.withdrawals _ !! id) as [s|] eqn:Hs.
  - destruct (Hst id s Hs) as (l & Hl & He & Hex & Hfee & _). rewrite Hex. cbn [negb].
    rewrite sol_sub_exact by lia. eexists. split; [done|]. simpl. split; [split; [intros _|done]|].
    + apply list_elem_of_omap. exists l. split; [done|]. unfold withdrawal_id. by rewrite He.
    + intros l' Hl' Hid. destruct (Hlog l' id Hl' Hid) as (s' & Hs' & He' & _).
      rewrite Hs in Hs'. by injection Hs' as <-.
  - eexists. split; [done|]. split.
    + split; [done|]. intros (l & Hl & Hid)%list_elem_of_omap.
      destruct (Hlog l id Hl Hid) as (s' & Hs' & _). congruence.
    + intros l Hl Hid. destruct (Hlog l id Hl Hid) as (s' & Hs' & _). congruence.
Qed.
End deployment.

(** ** A deployment that runs *)

#[local] Existing Instance sample_Keccak.
#[local] Existing Instance sample_EIP712.
#[local] Existing Instance sample_ECDSA.

Definition demo_address (n : Z) : address := replicate 20 n.
Definition demo_this : address := demo_address 3.
Definition demo_token : address := demo_address 4.
Definition demo_timelock : address := demo_address 12.

(** A timelock of one day with one member per role. *)
Definition demo_candidate : TimelockCandidate :=
  {| tc_code_length := 100; tc_codehash := replicate 32 77; tc_getMinDelay := Some 86400;
     tc_hasRole := fun role account =>
       Some (if decide (role = zeros 32) then bool_decide (account = demo_timelock)
             else bool_decide (account = demo_address 21));
     tc_roleMember := fun role =>
       Some (if decide (role = zeros 32) then demo_timelock else demo_address 21);
     tc_pendingOperationCount := Some 0 |}.

Definition demo_args : ConstructorArgs :=
  {| ca_bridgeSigner := demo_address 10; ca_runtimeAdministrator := demo_address 11;
     ca_baseAdminTimelock := demo_timelock; ca_approvedTimelockRuntimeCodeHash := replicate 32 77;
     ca_perDepositLimit := 1000; ca_mintWindowLimit := 5000; ca_mintWindowDuration := 3600;
     ca_minServiceFee := 5; ca_maxServiceFee := 50; ca_serviceFee := 10 |}.

Definition demo_context (sender : address) (now : Z) : CallContext :=
  {| msg_sender := sender; block_timestamp := now; block_number := now; block_chainid := 8453 |}.

Definition demo_new : Result BridgeError (World PlainToken.State) :=
  bridge_new (demo_context (demo_address 1) 1000000) false demo_this demo_token
    demo_candidate demo_args.

Definition demo_world : World PlainToken.State :=
  match demo_new with Ok w => w | Err _ =>
    {| w_bridge := Bridge.Build_State (Bridge.Build_Immutables [] [] [] 0 0 [] 0 0 0)
         (Bridge.Build_Minting 0 0 ∅) (Bridge.Build_Withdrawals 0 ∅)
         (Bridge.Build_Control [] 0 [] 0 true true ∅ []);
       w_token := sample_token; w_claimed := false; w_logs := [] |}
  end.

Definition demo_mint (n epoch deadline : Z) : IBridge.MintAuthorization :=
  {| IBridge.depositId := replicate 32 n; IBridge.recipient := demo_address 30;
     IBridge.grossAmount := 510; IBridge.maxServiceFee := 20; IBridge.chargedServiceFee := 10;
     IBridge.deadline := deadline; IBridge.authorizationEpoch := epoch |}.

(** The sample scheme recovers the address a signature starts with. *)
Definition demo_signature (signer : Z) : bytes := replicate 65 signer.

Definition demo_tx (now : Z) (calls : list (address * BaseCall)) : Transaction :=
  {| tx_block := now; tx_timestamp := now; tx_calls := calls |}.

(** Activation; a mint and its replay; an approval and two withdrawals in one
    transaction. *)
Definition demo_first_txs : list Transaction :=
  [demo_tx 1000100 [(demo_timelock, To_bridge Call_unpauseDepositMints);
                    (demo_timelock, To_bridge Call_unpauseWithdrawals)];
   demo_tx 1000200
     [(demo_address 30, To_bridge (Call_mintDepositWithAuthorization (demo_mint 1 2 1000300)
         (demo_signature 10)));
      (demo_address 30, To_bridge (Call_mintDepositWithAuthorization (demo_mint 1 2 1000300)
         (demo_signature 10)))]].

Definition demo_last_tx : Transaction :=
  demo_tx 1000250
    [(demo_address 30, To_token (Call_approve demo_this 400));
     (demo_address 30, To_bridge (Call_createWithdrawal 100 10 [1; 2; 3] (zeros 32)));
     (demo_address 30, To_bridge (Call_createWithdrawal 100 10 [1; 2; 3] (zeros 32)))].

Definition demo_txs : list Transaction := demo_first_txs ++ [demo_last_tx].

Abbreviation demo_after := (base_run 8453 demo_world demo_txs).

Lemma demo_deployed :
  deployed (demo_context (demo_address 1) 1000000) false demo_this demo_token demo_candidate demo_args
    demo_world.
Proof.
  split; [unfold args_typed, is_u256; simpl; ranges; lia|simpl; ranges; lia|].
  vm_compute. reflexivity.
Qed.

Lemma demo_mint_typed n epoch deadline :
  is_u256 epoch -> is_u256 deadline -> calldata_typed (demo_mint n epoch deadline).
Proof. intros ? ?. split; simpl; try done; unfold is_u256; lia. Qed.

Lemma demo_txs_includable : includable demo_this 1000000 demo_txs.
Proof.
  split; [simpl; lia|]. unfold demo_txs, demo_first_txs, demo_last_tx, tx_admissible, u256_max.
  cbn [app].
  repeat first [apply Forall_cons; split | apply Forall_nil; exact I | split]; simpl; try done; try lia;
    try (apply demo_mint_typed; unfold is_u256; lia); unfold is_u256; lia.
Qed.

Lemma base_supply_exact_witness :
  supply (w_token demo_after) = 400 /\ length (w_logs demo_after) = 5%nat /\
  supply (w_token demo_after) = total log_minted (w_logs demo_after) - total log_burnt (w_logs demo_after).
Proof.
  split; [vm_compute; reflexivity|]. split; [vm_compute; reflexivity|].
  apply (base_supply_exact 8453 _ _ _ _ _ _ _ _ demo_deployed demo_txs_includable).
Defined.

Lemma mint_rate_bounded_witness :
  minted_between (w_logs demo_after) 1000000 1003600 = 500 /\
  minted_between (w_logs demo_after) 1000000 (1000000 +
    Bridge.mintWindowDuration (Bridge.immutables (w_bridge demo_after)))
    <= 2 * Bridge.mintWindowLimit (Bridge.immutables (w_bridge demo_after)).
Proof.
  split; [vm_compute; reflexivity|].
  apply (mint_rate_bounded 8453 _ _ _ _ _ _ _ _ 1000000 demo_deployed demo_txs_includable).
Defined.

(** The pause, a new signer, and the end of the pause. *)
Definition demo_pause : CallContext := demo_context (demo_address 11) 1000400.

Definition demo_paused : World PlainToken.State :=
  match pauseDepositMints demo_pause demo_after with Ok w => w | Err _ => demo_after end.

Definition demo_recovery : list Transaction :=
  [demo_tx 1000500 [(demo_timelock, To_bridge (Call_rotateBridgeSigner (demo_address 13)));
                    (demo_timelock, To_bridge Call_unpauseDepositMints)]].

Abbreviation demo_recovered := (base_run 8453 demo_paused demo_recovery).

Lemma demo_recovery_includable : includable demo_this 1000400 demo_recovery.
Proof.
  split; [simpl; lia|]. unfold demo_recovery, tx_admissible, u256_max.
  repeat first [apply Forall_cons; split | apply Forall_nil; exact I | split]; simpl; try done; lia.
Qed.

Definition demo_late : CallContext := demo_context (demo_address 30) 1000600.

Abbreviation demo_late_mint :=
  (mintDepositWithAuthorization demo_late demo_recovered (demo_mint 2 5 1000700) (demo_signature 13)).

Lemma pause_revokes_witness :
  is_ok demo_late_mint = true /\
  Bridge.mintAuthorizationEpoch (Bridge.control (w_bridge demo_paused)) = 3 /\
  Bridge.mintAuthorizationEpoch (Bridge.control (w_bridge demo_paused)) < 5.
Proof.
  split; [vm_compute; reflexivity|]. split; [vm_compute; reflexivity|].
  destruct demo_late_mint as [w2|] eqn:E; [|vm_compute in E; discriminate].
  refine (proj2 (pause_revokes 8453 _ _ _ _ _ _ _ _ demo_pause demo_paused demo_recovery demo_late
    (demo_mint 2 5 1000700) (demo_signature 13) w2 demo_deployed demo_txs_includable _ _ _ _ _ _ E)).
  - simpl. lia.
  - vm_compute. reflexivity.
  - vm_compute. reflexivity.
  - apply demo_recovery_includable.
  - unfold chain_time, u256_max. simpl. lia.
  - apply demo_mint_typed; unfold is_u256; lia.
Defined.

Lemma mint_call_exact_witness :
  let call := demo_context (demo_address 30) 1000300 in
  signed_mint call demo_after (demo_mint 2 2 1000400) (demo_signature 10) /\
  acceptable (mint_input call demo_after (demo_mint 2 2 1000400)).
Proof.
  intros call.
  destruct (mintDepositWithAuthorization call demo_after (demo_mint 2 2 1000400) (demo_signature 10))
    as [w2|] eqn:E; [|vm_compute in E; discriminate].
  refine (match proj1 (mint_call_exact 8453 _ _ _ _ _ _ _ _ call (demo_mint 2 2 1000400)
    (demo_signature 10) w2 demo_deployed demo_txs_includable _ _) E with
    conj Hs (conj Ha _) => conj Hs Ha end).
  - unfold chain_time, u256_max. simpl. lia.
  - apply demo_mint_typed; unfold is_u256; lia.
Defined.

Lemma one_withdrawal_per_transaction_witness :
  let before := base_run 8453 demo_world demo_first_txs in
  let after := base_tx 8453 before demo_last_tx in
  withdrawal_ids (w_logs after) = [1] /\
  (withdrawal_ids (w_logs after) = withdrawal_ids (w_logs before) \/
   withdrawal_ids (w_logs after) = withdrawal_ids (w_logs before)
     ++ [Bridge.nextWithdrawalId (Bridge.requests (w_bridge before))]).
Proof.
  split; [vm_compute; reflexivity|].
  exact (one_withdrawal_per_transaction 8453 _ _ _ _ _ _ _ demo_first_txs demo_last_tx
    demo_deployed demo_txs_includable).
Defined.

Lemma withdrawals_readable_witness :
  withdrawal_ids (w_logs demo_after) = [1] /\
  exists r, Bridge.getWithdrawal (w_bridge demo_after) 1 = Ok r /\
    (Bridge.wd_status r = Bridge.Status_Committed <-> 1 ∈ withdrawal_ids (w_logs demo_after)).
Proof.
  split; [vm_compute; reflexivity|].
  destruct (withdrawals_readable 8453 _ _ _ _ _ _ _ _ 1 demo_deployed demo_txs_includable)
    as (r & Hr & Hs & _). exists r. split; [exact Hr|exact Hs].
Defined.
