(* ===== verification/EvmDecode.v ===== *)
(** * Reading Base: the decoders of the canister

    The pure part of [canister/bridge-canister/src/evm_rpc.rs]: from the JSON-RPC
    strings and the logs of a receipt to the values the canister acts on.  A [String]
    is the list of its bytes.  [usize] is 32 bits wide, as on the canister's target.

    [Encoding] is what the contract answers: Solidity's ABI encoding of its return
    values and events.  The theorems are round trips in both directions: what the
    contract encodes the canister reads back, and a log the canister accepts is the
    encoding of what it read. *)

From S2P Require Import Prelude Types Eip712 BaseToken BaseBridge.

Inductive ObservationError :=
| Inconsistent
| Rpc
| InsufficientCycles
| InvalidResponse
| Overflow
| BaseStateMismatch
| TransactionPending
| TransactionReverted.

#[export] Instance ObservationError_eq_dec : EqDecision ObservationError.
Proof. solve_decision. Defined.

(** ** Strings *)

Abbreviation usize_max := u32_max.

Fixpoint trim_start (c : Z) (s : bytes) : bytes :=
  match s with x :: s' => if x =? c then trim_start c s' else s | [] => [] end.

(** [str::trim_matches] for one character. *)
Definition trim_matches (c : Z) (s : bytes) : bytes := rev (trim_start c (rev (trim_start c s))).

Definition QUOTE : Z := 34.

(** [str::strip_prefix("0x")]. *)
Definition strip_0x (s : bytes) : option bytes :=
  match s with a :: b :: s' => if (a =? 48) && (b =? 120) then Some s' else None | _ => None end.

Definition hex_digit (c : Z) : option Z :=
  if (48 <=? c) && (c <=? 57) then Some (c - 48)
  else if (97 <=? c) && (c <=? 102) then Some (c - 87)
  else if (65 <=? c) && (c <=? 70) then Some (c - 55)
  else None.

Fixpoint hex_digits (max acc : Z) (s : bytes) : option Z :=
  match s with
  | [] => Some acc
  | c :: s =>
      match hex_digit c with
      | None => None
      | Some d => if acc * 16 + d <=? max then hex_digits max (acc * 16 + d) s else None
      end
  end.

(** [from_str_radix(_, 16)] of an unsigned type: a leading [+] is accepted. *)
Definition from_str_radix_16 (max : Z) (s : bytes) : option Z :=
  match s with
  | [] => None
  | [c] => hex_digits max 0 [c]
  | c :: s' => if c =? 43 then hex_digits max 0 s' else hex_digits max 0 s
  end.

Fixpoint decode_pairs (s : bytes) : Result ObservationError bytes :=
  match s with
  | a :: b :: s =>
      let? x := ok_or (from_str_radix_16 u8_max [a; b]) InvalidResponse in
      let? rest := decode_pairs s in
      Ok (x :: rest)
  | _ => Ok []
  end.

Definition decode_hex (value : bytes) : Result ObservationError bytes :=
  if negb (Nat.even (length value)) then Err InvalidResponse else decode_pairs value.

Definition hex_char (d : Z) : Z := if d <? 10 then 48 + d else 87 + d.

Definition hex (b : bytes) : bytes := concat ((fun x => [hex_char (x / 16); hex_char (x mod 16)]) <$> b).

Definition parse_u128 (value : bytes) : Result ObservationError Z :=
  let? value := ok_or (strip_0x (trim_matches QUOTE value)) InvalidResponse in
  if (64 <? length value)%nat then Err InvalidResponse
  else
    let significant := trim_start 48 value in
    if (32 <? length significant)%nat then Err Overflow
    else match significant with
         | [] => Ok 0
         | _ => ok_or (from_str_radix_16 u128_max significant) InvalidResponse
         end.

(** ** Words *)

Definition ABI_WORD_BYTES : nat := 32.

Definition all_zero (b : bytes) : bool := forallb (fun x => x =? 0) b.

Definition word_u128 (word : bytes) : Result ObservationError Z :=
  if negb (length word =? 32)%nat || negb (all_zero (take 16 word)) then Err Overflow
  else Ok (be_value (drop 16 word)).

Definition try_u64 (x : Z) : Result ObservationError Z := if x <=? u64_max then Ok x else Err Overflow.
Definition try_usize (x : Z) : Result ObservationError Z := if x <=? usize_max then Ok x else Err Overflow.

(** [slice::get] of the word at [start + 32 * index]. *)
Definition word_at (data : bytes) (start index : nat) : Result ObservationError bytes :=
  let from := (start + index * ABI_WORD_BYTES)%nat in
  if (from + ABI_WORD_BYTES <=? length data)%nat then Ok (take ABI_WORD_BYTES (drop from data))
  else Err InvalidResponse.

Definition u128_at (data : bytes) (start index : nat) : Result ObservationError Z :=
  let? w := word_at data start index in word_u128 w.

Definition u64_at (data : bytes) (start index : nat) : Result ObservationError Z :=
  let? x := u128_at data start index in try_u64 x.

Definition bool_at (data : bytes) (start index : nat) : Result ObservationError bool :=
  let? x := u128_at data start index in
  if x =? 0 then Ok false else if x =? 1 then Ok true else Err InvalidResponse.

Definition observed_bytes32 (value : bytes) : Result ObservationError bytes :=
  let? b := decode_hex (default value (strip_0x (trim_matches QUOTE value))) in
  if (length b =? 32)%nat then Ok b else Err InvalidResponse.

Definition observed_u64 (value : bytes) : Result ObservationError Z :=
  let? word := observed_bytes32 value in
  if negb (all_zero (take 24 word)) then Err InvalidResponse else Ok (be_value (drop 24 word)).

Definition observed_u128 (value : bytes) : Result ObservationError Z :=
  let? word := observed_bytes32 value in
  if negb (all_zero (take 16 word)) then Err InvalidResponse else Ok (be_value (drop 16 word)).

Definition observed_address (value : bytes) : Result ObservationError bytes :=
  let? decoded := decode_hex (default value (strip_0x (trim_matches QUOTE value))) in
  if negb (length decoded =? 32)%nat || negb (all_zero (take 12 decoded)) then Err InvalidResponse
  else Ok (drop 12 decoded).

(** The bytes of a quoted hex answer. *)
Definition answer_bytes (value : bytes) : Result ObservationError bytes :=
  let? digits := ok_or (strip_0x (trim_matches QUOTE value)) InvalidResponse in
  decode_hex digits.

(** ** What the canister reads *)

Record BridgeSnapshot := {
  obs_mint : BaseMintSnapshot;
  obs_bridge_signer : bytes;
  obs_mint_authorization_epoch : Z;
  obs_deposits_paused : bool;
  obs_withdrawals_paused : bool;
}.

Definition decode_bridge_snapshot (value : bytes) : Result ObservationError BridgeSnapshot :=
  let? data := answer_bytes value in
  if negb (length data =? 13 * ABI_WORD_BYTES)%nat then Err InvalidResponse
  else
    let? address_word := word_at data 0 2 in
    if negb (all_zero (take 12 address_word)) then Err InvalidResponse
    else
      let? finalized_head_block_number := u64_at data 0 0 in
      let? confirmed_block_timestamp := u64_at data 0 1 in
      let? service_fee := u128_at data 0 4 in
      let? max_service_fee := u128_at data 0 5 in
      let? per_deposit_limit := u128_at data 0 6 in
      let? mint_window_limit := u128_at data 0 7 in
      let? mint_window_duration := u64_at data 0 8 in
      let? mint_window_started_at := u64_at data 0 9 in
      let? minted_in_window := u128_at data 0 10 in
      let? epoch := u64_at data 0 3 in
      let? deposits_paused := bool_at data 0 11 in
      let? withdrawals_paused := bool_at data 0 12 in
      Ok {| obs_mint :=
              {| bms_finalized_head_block_number := finalized_head_block_number;
                 bms_confirmed_block_timestamp := confirmed_block_timestamp;
                 bms_service_fee := service_fee;
                 bms_max_service_fee := max_service_fee;
                 bms_per_deposit_limit := per_deposit_limit;
                 bms_mint_window_limit := mint_window_limit;
                 bms_mint_window_started_at := mint_window_started_at;
                 bms_mint_window_duration := mint_window_duration;
                 bms_minted_in_window := minted_in_window |};
            obs_bridge_signer := drop 12 address_word;
            obs_mint_authorization_epoch := epoch;
            obs_deposits_paused := deposits_paused;
            obs_withdrawals_paused := withdrawals_paused |}.

Definition decode_bool_word (value : bytes) : Result ObservationError bool :=
  let? data := answer_bytes value in
  if negb (length data =? ABI_WORD_BYTES)%nat || negb (all_zero (take 31 data)) then Err InvalidResponse
  else
    let last := nth 31 data 0 in
    if last =? 0 then Ok false else if last =? 1 then Ok true else Err InvalidResponse.

Record ObservedWithdrawal := {
  ow_id : bytes;
  ow_amount : Z;
  ow_max_service_fee : Z;
  ow_charged_service_fee : Z;
  ow_amount_out : Z;
  ow_owner : bytes;
  ow_subaccount : bytes;
  ow_requester : bytes;
}.

Record CurrentWithdrawal := {
  cur_requester : bytes;
  cur_amount : Z;
  cur_max_service_fee : Z;
  cur_charged_service_fee : Z;
  cur_amount_out : Z;
  cur_owner : bytes;
  cur_subaccount : bytes;
  cur_status : Z;
}.

(** [evm_rpc_types::LogEntry], the fields the canister uses. *)
Record LogEntry := {
  le_address : bytes;
  le_topics : list bytes;
  le_data : bytes;
  le_block_number : option Z;
  le_transaction_hash : option bytes;
  le_block_hash : option bytes;
  le_log_index : option Z;
  le_removed : bool;
}.

#[export] Instance LogEntry_eq_dec : EqDecision LogEntry.
Proof. solve_decision. Defined.

Definition topic (log : LogEntry) (index : nat) : bytes := nth index (le_topics log) [].

Definition div_ceil (x y : Z) : Z := (x + y - 1) / y.

(** The tail of both withdrawal encodings: a length in [1..=29] in word [index], the
    owner behind it, and zeros up to the end of its last word. *)
Definition decode_owner (data : bytes) (start index : nat) : Result ObservationError bytes :=
  let? len := u128_at data start index in
  let? len := try_usize len in
  if negb ((1 <=? len) && (len <=? 29)) then Err InvalidResponse
  else
    let owner_start := (start + (index + 1) * ABI_WORD_BYTES)%nat in
    let owner_end := (owner_start + Z.to_nat len)%nat in
    let expected_len := (owner_start + Z.to_nat (div_ceil len 32) * ABI_WORD_BYTES)%nat in
    if negb (length data =? expected_len)%nat || negb (all_zero (drop owner_end data))
    then Err InvalidResponse
    else Ok (take (Z.to_nat len) (drop owner_start data)).

Definition decode_withdrawal_created_log (log : LogEntry) : Result ObservationError ObservedWithdrawal :=
  let data := le_data log in
  if (length data <? 8 * ABI_WORD_BYTES)%nat then Err InvalidResponse
  else
    let? owner_offset := u128_at data 0 4 in
    let? owner_offset := try_usize owner_offset in
    if negb (owner_offset =? 192) then Err InvalidResponse
    else
      let? owner := decode_owner data 0 6 in
      let? amount := u128_at data 0 0 in
      let? max_service_fee := u128_at data 0 1 in
      let? charged_service_fee := u128_at data 0 2 in
      let? amount_out := u128_at data 0 3 in
      let? subaccount := word_at data 0 5 in
      Ok {| ow_id := topic log 1;
            ow_amount := amount;
            ow_max_service_fee := max_service_fee;
            ow_charged_service_fee := charged_service_fee;
            ow_amount_out := amount_out;
            ow_owner := owner;
            ow_subaccount := subaccount;
            ow_requester := drop 12 (topic log 2) |}.

Definition decode_current_withdrawal (value : bytes) : Result ObservationError CurrentWithdrawal :=
  let? data := answer_bytes value in
  let? _ :=
    if (length data <? 10 * ABI_WORD_BYTES)%nat then Err InvalidResponse
    else
      let? offset := word_u128 (take ABI_WORD_BYTES data) in
      if negb (offset =? 32) then Err InvalidResponse else Ok tt in
  let tuple_start := ABI_WORD_BYTES in
  let? requester_word := word_at data tuple_start 0 in
  if negb (all_zero (take 12 requester_word)) then Err InvalidResponse
  else
    let? owner_offset := u128_at data tuple_start 5 in
    let? owner_offset := try_usize owner_offset in
    if negb (owner_offset =? 256) then Err InvalidResponse
    else
      let? owner := decode_owner data tuple_start 8 in
      let? status := u128_at data tuple_start 7 in
      let? status := if status <=? u8_max then Ok status else Err InvalidResponse in
      let? amount := u128_at data tuple_start 1 in
      let? max_service_fee := u128_at data tuple_start 2 in
      let? charged_service_fee := u128_at data tuple_start 3 in
      let? amount_out := u128_at data tuple_start 4 in
      let? subaccount := word_at data tuple_start 6 in
      Ok {| cur_requester := drop 12 requester_word;
            cur_amount := amount;
            cur_max_service_fee := max_service_fee;
            cur_charged_service_fee := charged_service_fee;
            cur_amount_out := amount_out;
            cur_owner := owner;
            cur_subaccount := subaccount;
            cur_status := status |}.

Definition is_same_committed_withdrawal (current : CurrentWithdrawal) (observed : ObservedWithdrawal) : bool :=
  (cur_status current =? 1)
  && bool_decide (cur_requester current = ow_requester observed)
  && (cur_amount current =? ow_amount observed)
  && (cur_max_service_fee current =? ow_max_service_fee observed)
  && (cur_charged_service_fee current =? ow_charged_service_fee observed)
  && (cur_amount_out current =? ow_amount_out observed)
  && bool_decide (cur_owner current = ow_owner observed)
  && bool_decide (cur_subaccount current = ow_subaccount observed).

(** ** What the contract answers *)

Module Encoding.

(** A [bytes] value in the tail of an encoding. *)
Definition abi_padding (n : nat) : nat := Z.to_nat (div_ceil (Z.of_nat n) 32 * 32 - Z.of_nat n).

Definition abi_tail (b : bytes) : bytes :=
  abi_uint256 (Z.of_nat (length b)) ++ b ++ zeros (abi_padding (length b)).

Definition abi_bool (b : bool) : bytes := abi_uint256 (if b then 1 else 0).

(** The answer of a JSON-RPC [eth_call]. *)
Definition answer (b : bytes) : bytes := [QUOTE; 48; 120] ++ hex b ++ [QUOTE].

(** [bridgeSnapshot()]: a static struct. *)
Definition snapshot_words (s : Bridge.BridgeSnapshot) : list bytes :=
  [abi_uint256 (Bridge.bs_blockNumber s);
   abi_uint256 (Bridge.bs_blockTimestamp s);
   abi_address (Bridge.bs_bridgeSigner s);
   abi_uint256 (Bridge.bs_mintAuthorizationEpoch s);
   abi_uint256 (Bridge.bs_serviceFee s);
   abi_uint256 (Bridge.bs_maxServiceFee s);
   abi_uint256 (Bridge.bs_perDepositLimit s);
   abi_uint256 (Bridge.bs_mintWindowLimit s);
   abi_uint256 (Bridge.bs_mintWindowDuration s);
   abi_uint256 (Bridge.bs_mintWindowStartedAt s);
   abi_uint256 (Bridge.bs_mintedInWindow s);
   abi_bool (Bridge.bs_depositMintsPaused s);
   abi_bool (Bridge.bs_withdrawalsPaused s)].

Definition status_value (s : Bridge.WithdrawalStatus) : Z :=
  match s with Bridge.Status_None => 0 | Bridge.Status_Committed => 1 end.

(** [getWithdrawal(uint256)]: a dynamic struct behind its offset. *)
Definition withdrawal_words (r : Bridge.Withdrawal) : list bytes :=
  [abi_uint256 32;
   abi_address (Bridge.wd_requester r);
   abi_uint256 (Bridge.wd_amount r);
   abi_uint256 (Bridge.wd_maxServiceFee r);
   abi_uint256 (Bridge.wd_chargedServiceFee r);
   abi_uint256 (Bridge.wd_amountOut r);
   abi_uint256 256;
   Bridge.wd_subaccount r;
   abi_uint256 (status_value (Bridge.wd_status r))].

Definition withdrawal_bytes (r : Bridge.Withdrawal) : bytes :=
  concat (withdrawal_words r) ++ abi_tail (Bridge.wd_owner r).

(** The unindexed part of [WithdrawalCommitted]. *)
Definition committed_words (amount maxServiceFee chargedServiceFee amountOut : Z) (subaccount : bytes)
    : list bytes :=
  [abi_uint256 amount; abi_uint256 maxServiceFee; abi_uint256 chargedServiceFee;
   abi_uint256 amountOut; abi_uint256 192; subaccount].

Definition committed_data (amount maxServiceFee chargedServiceFee amountOut : Z)
    (owner subaccount : bytes) : bytes :=
  concat (committed_words amount maxServiceFee chargedServiceFee amountOut subaccount) ++ abi_tail owner.

(** The unindexed part of [DepositMinted]. *)
Definition minted_data (grossAmount serviceFee mintedAmount : Z) : bytes :=
  abi_uint256 grossAmount ++ abi_uint256 serviceFee ++ abi_uint256 mintedAmount.
End Encoding.

(** ** Hex *)

Lemma hex_char_digit d : 0 <= d < 16 -> hex_digit (hex_char d) = Some d.
Proof.
  intros Hd. unfold hex_char, hex_digit. destruct (Z.ltb_spec d 10).
  - replace ((48 <=? 48 + d) && (48 + d <=? 57)) with true by (symmetry; reflect; lia). f_equal. lia.
  - replace ((48 <=? 87 + d) && (87 + d <=? 57)) with false by (symmetry; reflect; lia).
    replace ((97 <=? 87 + d) && (87 + d <=? 102)) with true by (symmetry; reflect; lia). f_equal. lia.
Qed.

Lemma hex_char_bounds d : 0 <= d < 16 -> 48 <= hex_char d <= 102 /\ hex_char d <> 34 /\ hex_char d <> 43.
Proof. intros Hd. unfold hex_char. destruct (Z.ltb_spec d 10); lia. Qed.

Lemma byte_digits x : is_byte x -> 0 <= x / 16 < 16 /\ 0 <= x mod 16 < 16.
Proof.
  unfold is_byte. intros Hx. split; [|apply Z.mod_pos_bound; lia].
  split; [apply Z.div_pos; lia|apply Z.div_lt_upper_bound; lia].
Qed.

Lemma hex_cons x b : hex (x :: b) = hex_char (x / 16) :: hex_char (x mod 16) :: hex b.
Proof. done. Qed.

Lemma decode_pairs_hex b : Forall is_byte b -> decode_pairs (hex b) = Ok b.
Proof.
  induction 1 as [|x b Hx _ IH]; [done|]. rewrite hex_cons. cbn [decode_pairs from_str_radix_16].
  destruct (byte_digits x Hx) as [Hh Hl]. destruct (hex_char_bounds _ Hh) as (_ & _ & Hp).
  unfold is_byte in Hx. apply Z.eqb_neq in Hp. rewrite Hp. cbn [hex_digits].
  rewrite !hex_char_digit by done. pose proof (Z_div_mod_eq_full x 16).
  do 2 rewrite (proj2 (Z.leb_le _ _)) by lia. cbn [ok_or]. rewrite IH. repeat f_equal. lia.
Qed.

Lemma hex_length b : length (hex b) = (2 * length b)%nat.
Proof. induction b as [|x b IH]; [done|]. rewrite hex_cons. simpl. rewrite IH. lia. Qed.

Lemma decode_hex_hex b : Forall is_byte b -> decode_hex (hex b) = Ok b.
Proof.
  intros Hb. unfold decode_hex. rewrite hex_length, Nat.even_mul. simpl. by apply decode_pairs_hex.
Qed.

Lemma trim_start_id c s : (forall x s', s = x :: s' -> x <> c) -> trim_start c s = s.
Proof.
  intros Hs. destruct s as [|x s]; [done|]. simpl. specialize (Hs x s eq_refl).
  by apply Z.eqb_neq in Hs as ->.
Qed.

Lemma hex_no_quote b : Forall is_byte b -> Forall (fun c => c <> QUOTE) (hex b).
Proof.
  induction 1 as [|x b Hx _ IH]; [constructor|]. rewrite hex_cons.
  destruct (byte_digits x Hx) as [Hh Hl].
  constructor; [apply (hex_char_bounds _ Hh)|]. constructor; [apply (hex_char_bounds _ Hl)|done].
Qed.

Lemma answer_bytes_answer b : Forall is_byte b -> answer_bytes (Encoding.answer b) = Ok b.
Proof.
  intros Hb. unfold answer_bytes, Encoding.answer, trim_matches.
  assert (Forall (fun c => c <> QUOTE) (rev (48 :: 120 :: hex b))) as Hq.
  { apply Forall_rev. repeat constructor; try done. by apply hex_no_quote. }
  change ([QUOTE; 48; 120] ++ hex b ++ [QUOTE]) with (QUOTE :: (48 :: 120 :: hex b) ++ [QUOTE]).
  cbn [trim_start]. rewrite Z.eqb_refl.
  rewrite (trim_start_id _ ((48 :: 120 :: hex b) ++ [QUOTE])); last first.
  { intros x s' Hs. by injection Hs as <- _. }
  rewrite rev_app_distr. change (rev [QUOTE]) with [QUOTE]. cbn [app trim_start].
  rewrite Z.eqb_refl. rewrite trim_start_id.
  - rewrite (rev_involutive (48 :: 120 :: hex b)). simpl. by apply decode_hex_hex.
  - intros x s' Hs. rewrite Hs in Hq. by apply Forall_cons in Hq as [].
Qed.

(** ** Words of an encoding *)

Definition is_word (w : bytes) : Prop := length w = 32%nat.

Lemma concat_words_length words :
  Forall is_word words -> length (concat words) = (length words * 32)%nat.
Proof. induction 1 as [|w ws Hw _ IH]; [done|]. simpl. rewrite length_app, IH, Hw. lia. Qed.

Lemma word_at_concat words tail i w :
  Forall is_word words -> words !! i = Some w -> word_at (concat words ++ tail) 0 i = Ok w.
Proof.
  intros Hws Hi. unfold word_at, ABI_WORD_BYTES.
  destruct (list_elem_of_split_length words i w Hi) as (l1 & l2 & -> & ->).
  rewrite length_app, concat_words_length, length_app by done. cbn [length].
  rewrite (proj2 (Nat.leb_le _ _)) by lia. f_equal. rewrite concat_app. cbn [concat].
  apply Forall_app in Hws as [Hpre Hws]. apply Forall_cons in Hws as [Hw _].
  rewrite <- app_assoc, drop_app_length' by (rewrite concat_words_length by done; lia).
  rewrite <- app_assoc. by rewrite take_app_length' by done.
Qed.

Lemma word_at_shift data i : word_at data ABI_WORD_BYTES i = word_at data 0 (S i).
Proof. unfold word_at. by replace (ABI_WORD_BYTES + i * ABI_WORD_BYTES)%nat
  with (0 + S i * ABI_WORD_BYTES)%nat by (unfold ABI_WORD_BYTES; lia). Qed.

Lemma all_zero_zeros n : all_zero (zeros n) = true.
Proof. unfold all_zero. induction n; [done|]. simpl. done. Qed.

Lemma all_zero_inv b : all_zero b = true -> b = zeros (length b).
Proof.
  unfold all_zero. induction b as [|x b IH]; [done|]. simpl. rewrite andb_true_iff, Z.eqb_eq.
  intros [-> Hb]. by rewrite (IH Hb) at 1.
Qed.

#[local] Arguments abi_uint256 : simpl never.
#[local] Arguments abi_address : simpl never.

Lemma word_u128_abi x : is_u128 x -> word_u128 (abi_uint256 x) = Ok x.
Proof.
  intros Hx. unfold word_u128. rewrite abi_uint256_length. cbn [Nat.eqb negb orb].
  rewrite <- uint_word_abi by done. unfold MintDigest.uint_word.
  rewrite take_app_length' by (by rewrite zeros_length). rewrite all_zero_zeros. cbn [negb].
  rewrite drop_app_length' by (by rewrite zeros_length). f_equal. apply be_value_to_be_bytes.
  ranges. change (256 ^ Z.of_nat 16) with (u128_max + 1). lia.
Qed.

(** A word that reads as [x] is the encoding of [x]. *)
Lemma word_u128_Ok w x :
  Forall is_byte w -> word_u128 w = Ok x -> is_u128 x /\ w = abi_uint256 x.
Proof.
  unfold word_u128. intros Hb. destruct (Nat.eqb_spec (length w) 32) as [Hl|]; [|done]. simpl.
  destruct (all_zero (take 16 w)) eqn:Ez; [|done]. simpl. intros [= <-].
  apply all_zero_inv in Ez. rewrite length_take, Hl in Ez. simpl in Ez.
  assert (Forall is_byte (drop 16 w)) as Hd by (by apply Forall_drop).
  pose proof (be_value_bounds _ Hd) as Hv. rewrite length_drop, Hl in Hv. simpl in Hv.
  assert (is_u128 (be_value (drop 16 w))) as Hr by (ranges; lia). split; [done|].
  rewrite <- uint_word_abi by done. unfold MintDigest.uint_word.
  rewrite <- (take_drop 16 w) at 1. rewrite Ez. f_equal.
  apply be_value_inj; [done|apply to_be_bytes_byte| |].
  - by rewrite length_drop, Hl, to_be_bytes_length.
  - symmetry. apply be_value_to_be_bytes. ranges. change (256 ^ Z.of_nat 16) with (u128_max + 1). lia.
Qed.

Lemma u128_at_concat words tail i x :
  Forall is_word words -> words !! i = Some (abi_uint256 x) -> is_u128 x ->
  u128_at (concat words ++ tail) 0 i = Ok x.
Proof. intros. unfold u128_at. erewrite word_at_concat by done. by apply word_u128_abi. Qed.

Lemma u64_at_concat words tail i x :
  Forall is_word words -> words !! i = Some (abi_uint256 x) -> is_u64 x ->
  u64_at (concat words ++ tail) 0 i = Ok x.
Proof.
  intros Hw Hi Hx. unfold u64_at. erewrite u128_at_concat by eauto using u64_u128. unfold try_u64.
  ranges. by rewrite (proj2 (Z.leb_le _ _)) by lia.
Qed.

Lemma bool_at_concat words tail i b :
  Forall is_word words -> words !! i = Some (Encoding.abi_bool b) ->
  bool_at (concat words ++ tail) 0 i = Ok b.
Proof.
  intros Hw Hi. unfold bool_at.
  erewrite u128_at_concat; [|done|exact Hi|destruct b; ranges; lia]. by destruct b.
Qed.

Lemma abi_uint256_word x : is_word (abi_uint256 x).
Proof. apply abi_uint256_length. Qed.

Lemma abi_address_word a : length a = 20%nat -> is_word (abi_address a).
Proof. apply abi_address_length. Qed.

#[export] Hint Resolve abi_uint256_word abi_address_word : bridge.

Lemma abi_uint256_bytes x : Forall is_byte (abi_uint256 x).
Proof. apply to_be_bytes_byte. Qed.

Lemma abi_address_bytes a : Forall is_byte a -> Forall is_byte (abi_address a).
Proof. intros. apply Forall_app. split; [apply zeros_byte|done]. Qed.

#[export] Hint Resolve abi_uint256_bytes abi_address_bytes zeros_byte : bridge.

(** One goal per element of a literal list. *)
Ltac each_element :=
  first [apply Forall_nil; exact I|apply Forall_cons; split; [|each_element]].

Lemma concat_bytes words : Forall (Forall is_byte) words -> Forall is_byte (concat words).
Proof. induction 1; [constructor|]. simpl. by apply Forall_app. Qed.

(** ** The snapshot *)

(** The widths the canister can hold; the contract's own bounds keep the fee, the
    limits and the window inside them. *)
Record snapshot_fits (s : Bridge.BridgeSnapshot) : Prop := {
  sf_number : is_u64 (Bridge.bs_blockNumber s);
  sf_timestamp : is_u64 (Bridge.bs_blockTimestamp s);
  sf_signer : length (Bridge.bs_bridgeSigner s) = 20%nat /\ Forall is_byte (Bridge.bs_bridgeSigner s);
  sf_epoch : is_u64 (Bridge.bs_mintAuthorizationEpoch s);
  sf_fee : is_u128 (Bridge.bs_serviceFee s);
  sf_max_fee : is_u128 (Bridge.bs_maxServiceFee s);
  sf_limit : is_u128 (Bridge.bs_perDepositLimit s);
  sf_window_limit : is_u128 (Bridge.bs_mintWindowLimit s);
  sf_duration : is_u64 (Bridge.bs_mintWindowDuration s);
  sf_started : is_u64 (Bridge.bs_mintWindowStartedAt s);
  sf_minted : is_u128 (Bridge.bs_mintedInWindow s);
}.

Definition observed_snapshot (s : Bridge.BridgeSnapshot) : BridgeSnapshot :=
  {| obs_mint :=
       {| bms_finalized_head_block_number := Bridge.bs_blockNumber s;
          bms_confirmed_block_timestamp := Bridge.bs_blockTimestamp s;
          bms_service_fee := Bridge.bs_serviceFee s;
          bms_max_service_fee := Bridge.bs_maxServiceFee s;
          bms_per_deposit_limit := Bridge.bs_perDepositLimit s;
          bms_mint_window_limit := Bridge.bs_mintWindowLimit s;
          bms_mint_window_started_at := Bridge.bs_mintWindowStartedAt s;
          bms_mint_window_duration := Bridge.bs_mintWindowDuration s;
          bms_minted_in_window := Bridge.bs_mintedInWindow s |};
     obs_bridge_signer := Bridge.bs_bridgeSigner s;
     obs_mint_authorization_epoch := Bridge.bs_mintAuthorizationEpoch s;
     obs_deposits_paused := Bridge.bs_depositMintsPaused s;
     obs_withdrawals_paused := Bridge.bs_withdrawalsPaused s |}.

Lemma snapshot_words_word s :
  snapshot_fits s -> Forall is_word (Encoding.snapshot_words s).
Proof.
  intros [_ _ [Hl _] _ _ _ _ _ _ _ _].
  unfold Encoding.snapshot_words, Encoding.abi_bool. each_element; auto with bridge.
Qed.

Lemma snapshot_words_bytes s :
  snapshot_fits s -> Forall (Forall is_byte) (Encoding.snapshot_words s).
Proof.
  intros [_ _ [_ Hb] _ _ _ _ _ _ _ _].
  unfold Encoding.snapshot_words, Encoding.abi_bool. each_element; auto with bridge.
Qed.

Lemma take_address a : take 12 (abi_address a) = zeros 12 /\ drop 12 (abi_address a) = a.
Proof. done. Qed.

(** The snapshot.  What the contract answers to [bridgeSnapshot()] the canister
    reads back field by field, for every state whose block, epoch and window fit 64
    bits and whose amounts fit 128. *)
Theorem snapshot_round_trip s :
  snapshot_fits s ->
  decode_bridge_snapshot (Encoding.answer (concat (Encoding.snapshot_words s))) = Ok (observed_snapshot s).
Proof.
  intros Hs. pose proof (snapshot_words_word s Hs) as Hw. pose proof (snapshot_words_bytes s Hs) as Hb.
  unfold decode_bridge_snapshot. rewrite answer_bytes_answer by (by apply concat_bytes).
  rewrite concat_words_length by done. cbn [length Nat.mul Nat.add ABI_WORD_BYTES Nat.eqb negb].
  rewrite <- (app_nil_r (concat _)). destruct Hs.
  erewrite (word_at_concat _ _ 2) by done. destruct (take_address (Bridge.bs_bridgeSigner s)) as [-> ->].
  rewrite all_zero_zeros. cbn [negb].
  rewrite (u64_at_concat _ _ 0 _ Hw eq_refl), (u64_at_concat _ _ 1 _ Hw eq_refl),
    (u128_at_concat _ _ 4 _ Hw eq_refl), (u128_at_concat _ _ 5 _ Hw eq_refl),
    (u128_at_concat _ _ 6 _ Hw eq_refl), (u128_at_concat _ _ 7 _ Hw eq_refl),
    (u64_at_concat _ _ 8 _ Hw eq_refl), (u64_at_concat _ _ 9 _ Hw eq_refl),
    (u128_at_concat _ _ 10 _ Hw eq_refl), (u64_at_concat _ _ 3 _ Hw eq_refl) by done.
  by rewrite (bool_at_concat _ _ 11 _ Hw eq_refl), (bool_at_concat _ _ 12 _ Hw eq_refl).
Qed.

(** ** Withdrawals *)

Lemma word_at_from data start i k :
  (start + i * 32 = k * 32)%nat -> word_at data start i = word_at data 0 k.
Proof. intros Hk. unfold word_at, ABI_WORD_BYTES. by rewrite Hk. Qed.

Definition chunks (k : nat) (data : bytes) : list bytes :=
  (fun i => take 32 (drop (i * 32) data)) <$> seq 0 k.

Lemma chunks_concat k data :
  (k * 32 <= length data)%nat -> data = concat (chunks k data) ++ drop (k * 32) data.
Proof.
  induction k as [|k IH]; intros Hl; [by rewrite drop_0|].
  unfold chunks in *. rewrite seq_S, fmap_app, concat_app. cbn [fmap list_fmap concat].
  rewrite app_nil_r, <- app_assoc. rewrite (IH ltac:(lia)) at 1. f_equal.
  replace (S k * 32)%nat with (k * 32 + 32)%nat by lia. rewrite Nat.add_0_l.
  rewrite <- (take_drop 32 (drop (k * 32) data)) at 1. by rewrite drop_drop.
Qed.

Lemma word_at_chunk data k i w :
  (i < k)%nat -> word_at data 0 i = Ok w -> chunks k data !! i = Some w /\ is_word w.
Proof.
  intros Hi. unfold word_at, ABI_WORD_BYTES. case_match eqn:E; [|done]. intros [= <-].
  apply Nat.leb_le in E. split.
  - unfold chunks. rewrite list_lookup_fmap, lookup_seq_lt by done. done.
  - unfold is_word. rewrite length_take, length_drop. lia.
Qed.

Lemma u128_at_Ok data i x :
  Forall is_byte data -> u128_at data 0 i = Ok x ->
  is_u128 x /\ word_at data 0 i = Ok (abi_uint256 x).
Proof.
  intros Hb. unfold u128_at. intros Hx. bind Hx as w Ew.
  assert (Forall is_byte w) as Hwb.
  { unfold word_at in Ew. case_match; [|done]. injection Ew as <-. by apply Forall_take, Forall_drop. }
  destruct (word_u128_Ok w x Hwb Hx) as [Hr ->]. done.
Qed.

Lemma div_ceil_one n : 1 <= n <= 32 -> div_ceil n 32 = 1.
Proof. intros Hn. unfold div_ceil. symmetry. apply (Z.div_unique _ _ _ (n - 1)); lia. Qed.

Lemma abi_tail_length b : (1 <= length b <= 32)%nat -> length (Encoding.abi_tail b) = 64%nat.
Proof.
  intros Hb. unfold Encoding.abi_tail, Encoding.abi_padding.
  rewrite !length_app, abi_uint256_length, zeros_length, div_ceil_one by lia. lia.
Qed.

Lemma abi_tail_bytes b : Forall is_byte b -> Forall is_byte (Encoding.abi_tail b).
Proof. intros Hb. unfold Encoding.abi_tail. rewrite !Forall_app. auto with bridge. Qed.

Lemma decode_owner_concat words owner start index :
  Forall is_word words -> (start + index * 32 = length words * 32)%nat ->
  (1 <= length owner <= 29)%nat ->
  decode_owner (concat words ++ Encoding.abi_tail owner) start index = Ok owner.
Proof.
  intros Hw Hs Ho. unfold decode_owner, u128_at. rewrite (word_at_from _ _ _ (length words) Hs).
  assert (concat words ++ Encoding.abi_tail owner =
    concat (words ++ [abi_uint256 (Z.of_nat (length owner))])
    ++ owner ++ zeros (Encoding.abi_padding (length owner))) as ->.
  { rewrite concat_app. unfold Encoding.abi_tail. cbn [concat]. by rewrite app_nil_r, <- app_assoc. }
  assert (Forall is_word (words ++ [abi_uint256 (Z.of_nat (length owner))])) as Hw'
    by (apply Forall_app; split; [done|]; each_element; auto with bridge).
  erewrite word_at_concat by (done || by rewrite lookup_app_r, Nat.sub_diag).
  rewrite word_u128_abi by (ranges; lia). unfold try_usize. rewrite (proj2 (Z.leb_le _ _)) by lia.
  replace ((1 <=? Z.of_nat (length owner)) && (Z.of_nat (length owner) <=? 29)) with true
    by (symmetry; reflect; lia). cbn [negb]. rewrite Nat2Z.id.
  assert (div_ceil (Z.of_nat (length owner)) 32 = 1) as Hd by (apply div_ceil_one; lia).
  unfold Encoding.abi_padding, ABI_WORD_BYTES. rewrite Hd.
  assert (length (concat (words ++ [abi_uint256 (Z.of_nat (length owner))])) =
    (start + (index + 1) * 32)%nat) as Hlen.
  { rewrite concat_words_length, length_app by done. simpl. lia. }
  rewrite !length_app, Hlen, zeros_length.
  replace (_ =? _)%nat with true by (symmetry; apply Nat.eqb_eq; lia). cbn [negb orb].
  rewrite <- drop_drop, !drop_app_length' by done. rewrite all_zero_zeros. cbn [negb].
  by rewrite take_app_length'.
Qed.

Lemma decode_owner_Ok data k start index owner :
  Forall is_byte data -> (start + index * 32 = k * 32)%nat ->
  decode_owner data start index = Ok owner ->
  (1 <= length owner <= 29)%nat /\ (k * 32 <= length data)%nat /\
  drop (k * 32) data = Encoding.abi_tail owner.
Proof.
  intros Hb Hs. unfold decode_owner. intros Ho. bind Ho as len El. unfold u128_at in El.
  rewrite (word_at_from _ _ _ k Hs) in El. apply u128_at_Ok in El as [Hr Ew]; [|done].
  unfold try_usize in Ho. destruct (Z.leb_spec len usize_max); [|done].
  destruct ((1 <=? len) && (len <=? 29)) eqn:Er; [|done]. reflect. cbn [negb] in Ho.
  assert (div_ceil len 32 = 1) as Hd by (apply div_ceil_one; lia).
  rewrite Hd in Ho. unfold ABI_WORD_BYTES in Ho.
  destruct (Nat.eqb_spec (length data) (start + (index + 1) * 32 + Z.to_nat 1 * 32)) as [Hl|]; [|done].
  destruct (all_zero _) eqn:Ez; [|done]. simpl in Ho. injection Ho as <-.
  apply all_zero_inv in Ez. rewrite length_drop in Ez.
  assert (start + (index + 1) * 32 = k * 32 + 32)%nat as Hst by lia.
  assert (length (take (Z.to_nat len) (drop (start + (index + 1) * 32) data)) = Z.to_nat len) as Hlo.
  { rewrite length_take, length_drop. lia. }
  split; [rewrite Hlo; lia|]. split; [lia|].
  unfold Encoding.abi_tail, Encoding.abi_padding. rewrite Hlo, Z2Nat.id, Hd by lia.
  unfold word_at, ABI_WORD_BYTES in Ew. case_match; [|done]. injection Ew as Ew. simpl in Ew.
  rewrite <- (take_drop 32 (drop (k * 32) data)). rewrite Ew. f_equal.
  rewrite drop_drop, <- Hst.
  rewrite <- (take_drop (Z.to_nat len) (drop (start + (index + 1) * 32) data)) at 1. f_equal.
  rewrite drop_drop, Ez. f_equal. lia.
Qed.

Record observed_fits (w : ObservedWithdrawal) : Prop := {
  of_amount : is_u128 (ow_amount w);
  of_max_fee : is_u128 (ow_max_service_fee w);
  of_fee : is_u128 (ow_charged_service_fee w);
  of_out : is_u128 (ow_amount_out w);
  of_owner : (1 <= length (ow_owner w) <= 29)%nat;
  of_subaccount : is_word (ow_subaccount w);
}.

Definition committed_data_of (w : ObservedWithdrawal) : bytes :=
  Encoding.committed_data (ow_amount w) (ow_max_service_fee w) (ow_charged_service_fee w)
    (ow_amount_out w) (ow_owner w) (ow_subaccount w).

Lemma committed_words_word w :
  observed_fits w ->
  Forall is_word (Encoding.committed_words (ow_amount w) (ow_max_service_fee w)
    (ow_charged_service_fee w) (ow_amount_out w) (ow_subaccount w)).
Proof. intros []. unfold Encoding.committed_words. each_element; auto with bridge. Qed.

Lemma decode_log_encoded log w :
  observed_fits w -> le_data log = committed_data_of w ->
  ow_id w = topic log 1 -> ow_requester w = drop 12 (topic log 2) ->
  decode_withdrawal_created_log log = Ok w.
Proof.
  intros Hf Hd Hi Hr. pose proof (committed_words_word w Hf) as Hw. destruct Hf.
  unfold decode_withdrawal_created_log. rewrite Hd. unfold committed_data_of, Encoding.committed_data.
  rewrite length_app, concat_words_length, abi_tail_length by (done || lia). cbn [length Nat.ltb Nat.leb Nat.mul Nat.add ABI_WORD_BYTES].
  rewrite (u128_at_concat _ _ 4 192 Hw eq_refl) by (ranges; lia). cbn [try_usize Z.leb Z.compare Z.eqb negb].
  unfold try_usize. simpl (192 <=? usize_max). cbn [negb Z.eqb Pos.eqb].
  rewrite decode_owner_concat by done.
  rewrite (u128_at_concat _ _ 0 _ Hw eq_refl), (u128_at_concat _ _ 1 _ Hw eq_refl),
    (u128_at_concat _ _ 2 _ Hw eq_refl), (u128_at_concat _ _ 3 _ Hw eq_refl) by done.
  erewrite (word_at_concat _ _ 5) by done. rewrite <- Hi, <- Hr. by destruct w.
Qed.

Lemma decode_log_decoded log w :
  Forall is_byte (le_data log) -> decode_withdrawal_created_log log = Ok w ->
  observed_fits w /\ le_data log = committed_data_of w /\
  ow_id w = topic log 1 /\ ow_requester w = drop 12 (topic log 2).
Proof.
  intros Hb. unfold decode_withdrawal_created_log. case_match; [done|]. intros Hc.
  bind Hc as off Eo. apply u128_at_Ok in Eo as [_ Eo]; [|done]. unfold try_usize in Hc.
  destruct (off <=? usize_max); [|done]. destruct (Z.eqb_spec off 192) as [->|]; [|done]. cbn [negb] in Hc.
  bind Hc as owner Ew. apply (decode_owner_Ok _ 6) in Ew as (Hlen & Hl & Htail); [|done|done].
  bind Hc as amount E0. bind Hc as max_fee E1. bind Hc as fee E2. bind Hc as out E3. bind Hc as sub E5.
  apply u128_at_Ok in E0 as [? E0], E1 as [? E1], E2 as [? E2], E3 as [? E3]; [|done..].
  injection Hc as <-.
  apply (word_at_chunk _ 6) in E0 as [E0 _], E1 as [E1 _], E2 as [E2 _], E3 as [E3 _],
    Eo as [Eo _], E5 as [E5 Hs]; [|lia..].
  split; [by split|]. split; [|done].
  rewrite (chunks_concat 6 (le_data log)), Htail by lia.
  unfold committed_data_of, Encoding.committed_data.
  cbn [ow_amount ow_max_service_fee ow_charged_service_fee ow_amount_out ow_owner ow_subaccount]. f_equal. unfold Encoding.committed_words.
  assert (length (chunks 6 (le_data log)) = 6%nat) as Hlc by done.
  destruct (chunks 6 (le_data log)) as [|c0 [|c1 [|c2 [|c3 [|c4 [|c5 [|]]]]]]]; try done.
  simpl in *. by simplify_eq.
Qed.

(** C35 (withdrawal logs).  The canister accepts the data of a log as a withdrawal
    exactly when it is Solidity's encoding of that withdrawal: every event of the
    contract is read back, and no other bytes, padding included, read as it. *)
Theorem withdrawal_log_exact log w :
  Forall is_byte (le_data log) ->
  decode_withdrawal_created_log log = Ok w <->
  observed_fits w /\ le_data log = committed_data_of w /\
  ow_id w = topic log 1 /\ ow_requester w = drop 12 (topic log 2).
Proof.
  intros Hb. split; [by apply decode_log_decoded|]. intros (? & ? & ? & ?). by apply decode_log_encoded.
Qed.

(** ** The stored withdrawal *)

Record withdrawal_fits (r : Bridge.Withdrawal) : Prop := {
  rf_requester : length (Bridge.wd_requester r) = 20%nat /\ Forall is_byte (Bridge.wd_requester r);
  rf_amount : is_u128 (Bridge.wd_amount r);
  rf_max_fee : is_u128 (Bridge.wd_maxServiceFee r);
  rf_fee : is_u128 (Bridge.wd_chargedServiceFee r);
  rf_out : is_u128 (Bridge.wd_amountOut r);
  rf_owner : (1 <= length (Bridge.wd_owner r) <= 29)%nat /\ Forall is_byte (Bridge.wd_owner r);
  rf_subaccount : is_word (Bridge.wd_subaccount r) /\ Forall is_byte (Bridge.wd_subaccount r);
}.

Definition current_of (r : Bridge.Withdrawal) : CurrentWithdrawal :=
  {| cur_requester := Bridge.wd_requester r;
     cur_amount := Bridge.wd_amount r;
     cur_max_service_fee := Bridge.wd_maxServiceFee r;
     cur_charged_service_fee := Bridge.wd_chargedServiceFee r;
     cur_amount_out := Bridge.wd_amountOut r;
     cur_owner := Bridge.wd_owner r;
     cur_subaccount := Bridge.wd_subaccount r;
     cur_status := Encoding.status_value (Bridge.wd_status r) |}.

Lemma withdrawal_words_word r :
  withdrawal_fits r -> Forall is_word (Encoding.withdrawal_words r).
Proof.
  intros [[Hl _] _ _ _ _ _ [Hs _]]. unfold Encoding.withdrawal_words. each_element; auto with bridge.
Qed.

Lemma withdrawal_bytes_bytes r : withdrawal_fits r -> Forall is_byte (Encoding.withdrawal_bytes r).
Proof.
  intros [[_ Hr] _ _ _ _ [_ Ho] [_ Hs]]. unfold Encoding.withdrawal_bytes. apply Forall_app.
  split; [|by apply abi_tail_bytes]. apply concat_bytes. unfold Encoding.withdrawal_words.
  each_element; auto with bridge.
Qed.

(** The stored withdrawal.  What the contract answers to [getWithdrawal] for a
    withdrawal it holds the canister reads back field by field. *)
Theorem current_withdrawal_round_trip r :
  withdrawal_fits r ->
  decode_current_withdrawal (Encoding.answer (Encoding.withdrawal_bytes r)) = Ok (current_of r).
Proof.
  intros Hf. pose proof (withdrawal_words_word r Hf) as Hw. pose proof (withdrawal_bytes_bytes r Hf) as Hb.
  unfold decode_current_withdrawal. rewrite answer_bytes_answer by done. destruct Hf.
  unfold Encoding.withdrawal_bytes.
  rewrite length_app, concat_words_length, abi_tail_length by (done || lia).
  unfold ABI_WORD_BYTES. change (length (Encoding.withdrawal_words r)) with 9%nat.
  change (9 * 32 + 64 <? 10 * 32)%nat with false. cbv iota.
  assert (take 32 (concat (Encoding.withdrawal_words r) ++ Encoding.abi_tail (Bridge.wd_owner r))
    = abi_uint256 32) as -> by (cbn [concat Encoding.withdrawal_words]; rewrite <- app_assoc;
      apply take_app_length'; by rewrite abi_uint256_length).
  rewrite word_u128_abi by (ranges; lia). cbn [Z.eqb Pos.eqb negb].
  rewrite (word_at_from _ 32 0 1), (word_at_concat _ _ 1 _ Hw eq_refl) by done.
  destruct (take_address (Bridge.wd_requester r)) as [-> ->]. rewrite all_zero_zeros. cbn [negb].
  unfold u128_at. rewrite (word_at_from _ 32 5 6), (word_at_concat _ _ 6 _ Hw eq_refl) by done.
  rewrite word_u128_abi by (ranges; lia). unfold try_usize. cbn [Z.leb Z.compare Pos.compare Pos.compare_cont].
  cbn [Z.eqb Pos.eqb negb]. rewrite decode_owner_concat by (done || lia).
  rewrite (word_at_from _ 32 7 8), (word_at_concat _ _ 8 _ Hw eq_refl) by done.
  rewrite word_u128_abi by (destruct (Bridge.wd_status r); simpl; ranges; lia).
  rewrite (proj2 (Z.leb_le _ _)) by (destruct (Bridge.wd_status r); simpl; lia).
  rewrite (word_at_from _ 32 1 2), (word_at_from _ 32 2 3), (word_at_from _ 32 3 4),
    (word_at_from _ 32 4 5), (word_at_from _ 32 6 7) by done.
  rewrite (word_at_concat _ _ 2 _ Hw eq_refl), (word_at_concat _ _ 3 _ Hw eq_refl),
    (word_at_concat _ _ 4 _ Hw eq_refl), (word_at_concat _ _ 5 _ Hw eq_refl),
    (word_at_concat _ _ 7 _ Hw eq_refl).
  by rewrite !word_u128_abi by done.
Qed.

Lemma decode_bool_word_abi b : decode_bool_word (Encoding.answer (Encoding.abi_bool b)) = Ok b.
Proof. by destruct b. Qed.

(** ** Examples *)

Definition sample_snapshot : Bridge.BridgeSnapshot :=
  {| Bridge.bs_blockNumber := 41000000; Bridge.bs_blockTimestamp := 1790000000;
     Bridge.bs_bridgeSigner := replicate 20 7; Bridge.bs_mintAuthorizationEpoch := 3;
     Bridge.bs_serviceFee := 50000; Bridge.bs_maxServiceFee := 1000000;
     Bridge.bs_perDepositLimit := u128_max; Bridge.bs_mintWindowLimit := 4000000000;
     Bridge.bs_mintWindowDuration := 3600; Bridge.bs_mintWindowStartedAt := 1789999000;
     Bridge.bs_mintedInWindow := 0; Bridge.bs_depositMintsPaused := false;
     Bridge.bs_withdrawalsPaused := true |}.

Lemma sample_snapshot_fits : snapshot_fits sample_snapshot.
Proof.
  split; simpl; try (ranges; lia). split; [done|]. by repeat constructor.
Qed.

Lemma snapshot_round_trip_witness :
  decode_bridge_snapshot (Encoding.answer (concat (Encoding.snapshot_words sample_snapshot)))
  = Ok (observed_snapshot sample_snapshot).
Proof. exact (snapshot_round_trip sample_snapshot sample_snapshot_fits). Defined.

Definition sample_observed : ObservedWithdrawal :=
  {| ow_id := abi_uint256 12; ow_amount := 90000000; ow_max_service_fee := 60000;
     ow_charged_service_fee := 50000; ow_amount_out := 89950000; ow_owner := replicate 29 4;
     ow_subaccount := zeros 32; ow_requester := replicate 20 9 |}.

Definition sample_log : LogEntry :=
  {| le_address := replicate 20 3;
     le_topics := [replicate 32 1; abi_uint256 12; abi_address (replicate 20 9)];
     le_data := committed_data_of sample_observed; le_block_number := Some 5;
     le_transaction_hash := Some (replicate 32 6); le_block_hash := Some (replicate 32 8);
     le_log_index := Some 0; le_removed := false |}.

Lemma withdrawal_log_exact_witness :
  decode_withdrawal_created_log sample_log = Ok sample_observed.
Proof.
  apply (withdrawal_log_exact sample_log sample_observed).
  - apply (bool_decide_unpack _). vm_compute. exact I.
  - split; [|split_and!; reflexivity].
    split; simpl; try (ranges; lia). reflexivity.
Defined.

Definition sample_withdrawal : Bridge.Withdrawal :=
  {| Bridge.wd_requester := replicate 20 9; Bridge.wd_amount := 90000000;
     Bridge.wd_maxServiceFee := 60000; Bridge.wd_chargedServiceFee := 50000;
     Bridge.wd_amountOut := 89950000; Bridge.wd_owner := replicate 29 4;
     Bridge.wd_subaccount := zeros 32; Bridge.wd_status := Bridge.Status_Committed |}.

Lemma sample_withdrawal_fits : withdrawal_fits sample_withdrawal.
Proof.
  split; simpl; try (ranges; lia).
  - split; [done|]. by repeat constructor.
  - split; [lia|]. by repeat constructor.
  - split; [done|]. by repeat constructor.
Qed.

Lemma current_withdrawal_round_trip_witness :
  decode_current_withdrawal (Encoding.answer (Encoding.withdrawal_bytes sample_withdrawal))
  = Ok (current_of sample_withdrawal).
Proof. exact (current_withdrawal_round_trip sample_withdrawal sample_withdrawal_fits). Defined.
