(* ===== verification/External.v ===== *)
(** * External observations

    [canister/bridge-core/src/external.rs]: ledger call outcomes, governance
    transaction envelopes, the monotone finalized observation and the data of a
    reconciliation scan. *)

From S2P Require Import Prelude Types.

Inductive LedgerFailure :=
| BadFee (expected_fee : Z)
| BadBurn (minimum : Z)
| InsufficientFunds (balance : Z)
| InsufficientAllowance (allowance : Z)
| TooOld
| CreatedInFuture (ledger_time_ns : Z)
| TemporarilyUnavailable
| Generic (code : Z).

#[export] Instance LedgerFailure_eq_dec : EqDecision LedgerFailure.
Proof. solve_decision. Defined.

Inductive LedgerCallOutcome :=
| Outcome_Succeeded (block_index : Z)
| Outcome_Duplicate (block_index : Z)
| Outcome_DefinitiveFailure (code : LedgerFailure)
| Outcome_RetryableFailure (code : LedgerFailure)
| Outcome_Ambiguous.

Definition LedgerCallOutcome_confirmed_block (self : LedgerCallOutcome) : option Z :=
  match self with
  | Outcome_Succeeded block_index | Outcome_Duplicate block_index => Some block_index
  | Outcome_DefinitiveFailure _ | Outcome_RetryableFailure _ | Outcome_Ambiguous => None
  end.

Definition LedgerCallOutcome_requires_hold (self : LedgerCallOutcome) : bool :=
  match self with Outcome_Ambiguous => true | _ => false end.

(** ** Governance transactions *)

Record SignedGovernanceTransaction := {
  sgt_raw_transaction : bytes;
  sgt_transaction_hash : bytes;
  sgt_max_fee_per_gas : Z;
  sgt_max_priority_fee_per_gas : Z;
  sgt_generation : Z;
  sgt_signed_at_ns : Z;
}.

Record GovernanceTransactionEnvelope := {
  gte_operation_id : Z;
  gte_payload_hash : bytes;
  gte_nonce : Z;
  gte_chain_id : Z;
  gte_contract : bytes;
  gte_calldata : bytes;
  gte_gas_limit : Z;
  gte_max_fee_per_gas : Z;
  gte_max_priority_fee_per_gas : Z;
  gte_signed_transactions : list SignedGovernanceTransaction;
}.

Record GovernanceCallIntent := {
  gci_operation_id : Z;
  gci_payload_hash : bytes;
  gci_chain_id : Z;
  gci_contract : bytes;
  gci_calldata : bytes;
  gci_gas_limit : Z;
  gci_max_fee_per_gas : Z;
  gci_max_priority_fee_per_gas : Z;
}.

Definition GovernanceCallIntent_assign_nonce (self : GovernanceCallIntent) (nonce : Z)
    : GovernanceTransactionEnvelope :=
  {| gte_operation_id := gci_operation_id self;
     gte_payload_hash := gci_payload_hash self;
     gte_nonce := nonce;
     gte_chain_id := gci_chain_id self;
     gte_contract := gci_contract self;
     gte_calldata := gci_calldata self;
     gte_gas_limit := gci_gas_limit self;
     gte_max_fee_per_gas := gci_max_fee_per_gas self;
     gte_max_priority_fee_per_gas := gci_max_priority_fee_per_gas self;
     gte_signed_transactions := [] |}.

Definition GovernanceTransactionEnvelope_validate
    (self : GovernanceTransactionEnvelope) (expected_chain_id : Z) (expected_contract : bytes)
    : Result CoreError unit :=
  if negb (gte_chain_id self =? expected_chain_id)
     || bool_decide (gte_contract self <> expected_contract)
  then Err PayloadConflict
  else if (Z.of_nat (length (gte_calldata self)) <? 4) || (gte_gas_limit self =? 0)
          || (gte_max_fee_per_gas self =? 0)
  then Err InvalidAmount
  else Ok tt.

(** ** Finalized observations *)

Record FinalizedObservationRecord := {
  for_chain_id : Z;
  for_block_number : Z;
  for_block_hash : bytes;
  for_observed_at_ns : Z;
  for_bridge_signer : bytes;
  for_runtime_sha256 : bytes;
}.

#[export] Instance FinalizedObservationRecord_eq_dec : EqDecision FinalizedObservationRecord.
Proof. solve_decision. Defined.

Record ExternalProgress := {
  ep_last_finalized_base_block : Z;
  ep_last_finalized_observation_ns : Z;
  ep_finalized_observation : option FinalizedObservationRecord;
}.

Definition ExternalProgress_default : ExternalProgress :=
  {| ep_last_finalized_base_block := 0; ep_last_finalized_observation_ns := 0;
     ep_finalized_observation := None |}.

(** The checks against the stored observation, if there is one. *)
Definition observe_conflict (current candidate : FinalizedObservationRecord)
    : Result CoreError unit :=
  if negb (for_chain_id candidate =? for_chain_id current)
  then Err ConflictingFinalizedObservation
  else if for_block_number candidate <? for_block_number current
  then Err StaleFinalizedObservation
  else if (for_block_number candidate =? for_block_number current)
          && (bool_decide (for_block_hash candidate <> for_block_hash current)
              || bool_decide (for_bridge_signer candidate <> for_bridge_signer current)
              || bool_decide (for_runtime_sha256 candidate <> for_runtime_sha256 current))
  then Err ConflictingFinalizedObservation
  else Ok tt.

Definition ExternalProgress_observe_finalized
    (self : ExternalProgress) (candidate : FinalizedObservationRecord)
    : Result CoreError ExternalProgress :=
  if for_block_number candidate <? ep_last_finalized_base_block self
  then Err StaleFinalizedObservation
  else
    let? _ :=
      match ep_finalized_observation self with
      | Some current => observe_conflict current candidate
      | None => Ok tt
      end in
    let observed_at_ns :=
      Z.max (ep_last_finalized_observation_ns self) (for_observed_at_ns candidate) in
    Ok {| ep_last_finalized_base_block := for_block_number candidate;
          ep_last_finalized_observation_ns := observed_at_ns;
          ep_finalized_observation :=
            Some {| for_chain_id := for_chain_id candidate;
                    for_block_number := for_block_number candidate;
                    for_block_hash := for_block_hash candidate;
                    for_observed_at_ns := observed_at_ns;
                    for_bridge_signer := for_bridge_signer candidate;
                    for_runtime_sha256 := for_runtime_sha256 candidate |} |}.

(** ** Reconciliation scans *)

Inductive ReconciliationTarget :=
| Target_Hold (id : Z)
| Target_FeePayout (id : Z)
| Target_FundingAttempt (id : bytes).

#[export] Instance ReconciliationTarget_eq_dec : EqDecision ReconciliationTarget.
Proof. solve_decision. Defined.

Record ReconciliationArchiveRange := {
  rar_canister_id : bytes;
  rar_method : string;
  rar_start : Z;
  rar_length : Z;
}.

#[export] Instance ReconciliationArchiveRange_eq_dec : EqDecision ReconciliationArchiveRange.
Proof. solve_decision. Defined.

Record ReconciliationLedgerPage := {
  rlp_end : Z;
  rlp_archives : list ReconciliationArchiveRange;
  rlp_next_archive : Z;
}.

#[export] Instance ReconciliationLedgerPage_eq_dec : EqDecision ReconciliationLedgerPage.
Proof. solve_decision. Defined.

Inductive ReconciliationScanPhase :=
| Scan_Ledger (next_block : Z) (ledger_tip : option Z)
    (pending_page : option ReconciliationLedgerPage)
| Scan_Index (ledger_watermark : Z) (index_watermark next_start : option Z).

#[export] Instance ReconciliationScanPhase_eq_dec : EqDecision ReconciliationScanPhase.
Proof. solve_decision. Defined.

Record ReconciliationScanProgress := {
  rsp_target : ReconciliationTarget;
  rsp_transfer : LedgerTransferIdentity;
  rsp_phase : ReconciliationScanPhase;
}.

#[export] Instance ReconciliationScanProgress_eq_dec : EqDecision ReconciliationScanProgress.
Proof. solve_decision. Defined.

Definition ReconciliationScanProgress_new
    (target : ReconciliationTarget) (transfer : LedgerTransferIdentity)
    : ReconciliationScanProgress :=
  {| rsp_target := target; rsp_transfer := transfer; rsp_phase := Scan_Ledger 0 None None |}.

(** ** Properties of finalized observations *)

(** The stored observation is the one the two summary fields describe. *)
Definition ExternalProgress_wf (p : ExternalProgress) : Prop :=
  match ep_finalized_observation p with
  | Some o => for_block_number o = ep_last_finalized_base_block p /\
              for_observed_at_ns o = ep_last_finalized_observation_ns p
  | None => True
  end.

(** What an observation says about a block, its time of observation apart. *)
Definition observed_identity (o : FinalizedObservationRecord) :=
  (for_chain_id o, for_block_number o, for_block_hash o, for_bridge_signer o,
   for_runtime_sha256 o).

Definition observe_run (p : ExternalProgress) (l : list FinalizedObservationRecord)
    : ExternalProgress :=
  foldl (fun p c => match ExternalProgress_observe_finalized p c with
                    | Ok p' => p' | Err _ => p end) p l.

(** [q] is not older than [p], and does not contradict it. *)
Definition progress_extends (p q : ExternalProgress) : Prop :=
  ep_last_finalized_base_block p <= ep_last_finalized_base_block q /\
  ep_last_finalized_observation_ns p <= ep_last_finalized_observation_ns q /\
  forall o, ep_finalized_observation p = Some o ->
    exists o', ep_finalized_observation q = Some o' /\
      for_chain_id o' = for_chain_id o /\ for_block_number o <= for_block_number o' /\
      (for_block_number o' = for_block_number o -> observed_identity o' = observed_identity o).

Lemma observe_conflict_Ok cur c :
  observe_conflict cur c = Ok tt ->
  for_chain_id c = for_chain_id cur /\ for_block_number cur <= for_block_number c /\
  (for_block_number c = for_block_number cur -> observed_identity c = observed_identity cur).
Proof.
  unfold observe_conflict, observed_identity. intros H.
  repeat (case_match; simplify_eq/=; reflect).
  split_and!; [lia..|]. intros Hn.
  assert (for_block_hash c = for_block_hash cur) by (apply dec_stable; intuition lia).
  assert (for_bridge_signer c = for_bridge_signer cur) by (apply dec_stable; intuition lia).
  assert (for_runtime_sha256 c = for_runtime_sha256 cur) by (apply dec_stable; intuition lia).
  congruence.
Qed.

Lemma observe_finalized_Ok p c p' :
  ExternalProgress_observe_finalized p c = Ok p' ->
  ExternalProgress_wf p' /\ progress_extends p p' /\
  exists o, ep_finalized_observation p' = Some o /\ observed_identity o = observed_identity c.
Proof.
  unfold ExternalProgress_observe_finalized. intros H.
  destruct (Z.ltb_spec (for_block_number c) (ep_last_finalized_base_block p)); [done|].
  destruct (match ep_finalized_observation p with
            | Some current => observe_conflict current c | None => Ok tt end) as [[]|] eqn:E;
    [|done]. simplify_eq. split; [done|]. split; [|eexists; split; [reflexivity|done]].
  split_and!; [simpl; lia..|]. intros o Ho. rewrite Ho in E.
  apply observe_conflict_Ok in E as (?&?&Hid). eexists. split_and!; [reflexivity|done..|].
  simpl. intros Heq. by rewrite <- (Hid Heq).
Qed.

#[export] Instance progress_extends_preorder : PreOrder progress_extends.
Proof.
  split.
  - intros p. split_and!; [lia..|]. intros o Ho. exists o. split_and!; done || lia.
  - intros p q r (H1 & H2 & H3) (H4 & H5 & H6). split_and!; [lia..|].
    intros o Ho. destruct (H3 o Ho) as (o1 & Ho1 & Hc1 & Hb1 & Hi1).
    destruct (H6 o1 Ho1) as (o2 & Ho2 & Hc2 & Hb2 & Hi2). exists o2.
    split_and!; [done|congruence|lia|]. intros E.
    rewrite Hi2, Hi1; [done|lia|lia].
Qed.

(** Finalized observations.  However observations arrive, and whichever
    are rejected, the recorded progress only moves forward: block height and
    observation time never decrease, the chain never changes, and the identity
    recorded at a height is never replaced by another one for that height. *)
Theorem observe_finalized_monotone p l : progress_extends p (observe_run p l).
Proof.
  revert p. induction l as [|c l IH]; intros p; [reflexivity|]. unfold observe_run in *. simpl.
  destruct (ExternalProgress_observe_finalized p c) as [p'|] eqn:E; [|apply IH].
  etransitivity; [|apply IH]. by apply observe_finalized_Ok in E as (_ & ? & _).
Qed.

(** Accepted and rejected observations.  Repeating the accepted candidate
    succeeds and leaves the progress unchanged, and from then on every candidate
    of a smaller height is rejected as stale. *)
Theorem observe_finalized_replay p c p' :
  ExternalProgress_observe_finalized p c = Ok p' ->
  ExternalProgress_observe_finalized p' c = Ok p' /\
  forall c', for_block_number c' < for_block_number c ->
    ExternalProgress_observe_finalized p' c' = Err StaleFinalizedObservation.
Proof.
  intros H. pose proof H as H'. unfold ExternalProgress_observe_finalized in H'.
  repeat (case_match; simplify_eq); unfold ExternalProgress_observe_finalized, observe_conflict;
    cbn [ep_last_finalized_base_block ep_last_finalized_observation_ns
         ep_finalized_observation for_chain_id for_block_number for_block_hash
         for_observed_at_ns for_bridge_signer for_runtime_sha256];
    (split; [|intros c' Hc'; by rewrite (proj2 (Z.ltb_lt _ _)) by lia]);
    rewrite !Z.ltb_irrefl, !Z.eqb_refl, !bool_decide_false by tauto; cbn;
    rewrite (Z.max_l (Z.max _ _)) by lia; reflexivity.
Qed.

Lemma observe_finalized_replay_witness :
  let c := {| for_chain_id := 8453; for_block_number := 10; for_block_hash := [1];
              for_observed_at_ns := 5; for_bridge_signer := [7]; for_runtime_sha256 := [8] |} in
  exists p', ExternalProgress_observe_finalized ExternalProgress_default c = Ok p' /\
             ExternalProgress_observe_finalized p' c = Ok p'.
Proof.
  intros c. eexists. split; [vm_compute; reflexivity|].
  exact (proj1 (observe_finalized_replay ExternalProgress_default c _ eq_refl)).
Defined.
