(* ===== verification/Withdrawal.v ===== *)
(** * Withdrawals

    [canister/bridge-core/src/withdrawal.rs]: the record of a burn observed on
    Base and its way to a paid release on the ledger.  A [&mut self] method
    returns the record it leaves; on an error the source has not written to the
    record, so the error alone is returned. *)

From S2P Require Import Prelude KernelArith KernelPolicy KernelWithdrawal Types.

Record TransferAttempt := {
  ta_attempt_no : Z;
  ta_identity : LedgerTransferIdentity;
}.

#[export] Instance TransferAttempt_eq_dec : EqDecision TransferAttempt.
Proof. solve_decision. Defined.

Definition TransferAttempt_retry_after_absence
    (self : TransferAttempt) (identity : LedgerTransferIdentity)
    : Result CoreError TransferAttempt :=
  let current := ta_identity self in
  if (lti_created_at_time_ns identity <=? lti_created_at_time_ns current)
     || bool_decide (lti_memo identity = lti_memo current)
     || bool_decide (lti_operation identity <> lti_operation current)
     || negb (lti_amount identity =? lti_amount current)
     || negb (lti_fee identity =? lti_fee current)
     || bool_decide (lti_from identity <> lti_from current)
     || bool_decide (lti_to identity <> lti_to current)
     || bool_decide (lti_spender identity <> lti_spender current)
  then Err AttemptPayloadChanged
  else
    let? attempt_no := ok_or (next_attempt (ta_attempt_no self)) AttemptOverflow in
    Ok {| ta_attempt_no := attempt_no; ta_identity := identity |}.

Inductive WithdrawalState :=
| Observed
| ReleasePending (attempt : TransferAttempt) (settlement : Settlement)
| Paid (attempt : TransferAttempt) (settlement : Settlement)
    (release_ledger_block_index : Z) (source_hold : option Z)
| ReconciliationHold (hold_id : Z) (attempt : TransferAttempt) (settlement : Settlement).

#[export] Instance WithdrawalState_eq_dec : EqDecision WithdrawalState.
Proof. solve_decision. Defined.

Definition WithdrawalState_phase_code (self : WithdrawalState) : Z :=
  match self with
  | Observed => 0
  | ReleasePending _ _ => 1
  | Paid _ _ _ _ => 2
  | ReconciliationHold _ _ _ => 3
  end.

Inductive WithdrawalEvent :=
| StartRelease (attempt : TransferAttempt) (settlement : Settlement)
| ReleaseSucceeded (release_ledger_block_index : Z)
| ReleaseAmbiguous (hold_id : Z).

Definition WithdrawalEvent_phase_code (self : WithdrawalEvent) : Z :=
  match self with
  | StartRelease _ _ => 0
  | ReleaseSucceeded _ => 2
  | ReleaseAmbiguous _ => 3
  end.

Definition WithdrawalEvent_name (self : WithdrawalEvent) : string :=
  match self with
  | StartRelease _ _ => "start_release"
  | ReleaseSucceeded _ => "release_succeeded"
  | ReleaseAmbiguous _ => "release_ambiguous"
  end.

Record WithdrawalRecord := {
  wr_id : bytes;
  wr_base_requester : bytes;
  wr_owner : bytes;
  wr_subaccount : bytes;
  wr_payload_hash : bytes;
  wr_amount : Z;
  wr_max_service_fee : Z;
  wr_charged_service_fee : Z;
  wr_amount_out : Z;
  wr_observed_at_ns : Z;
  wr_state : WithdrawalState;
  wr_last_settlement_stop_reason : option string;
}.

#[export] Instance WithdrawalRecord_eq_dec : EqDecision WithdrawalRecord.
Proof. solve_decision. Defined.

Definition WithdrawalRecord_with_state (self : WithdrawalRecord) (state : WithdrawalState)
    : WithdrawalRecord :=
  {| wr_id := wr_id self;
     wr_base_requester := wr_base_requester self;
     wr_owner := wr_owner self;
     wr_subaccount := wr_subaccount self;
     wr_payload_hash := wr_payload_hash self;
     wr_amount := wr_amount self;
     wr_max_service_fee := wr_max_service_fee self;
     wr_charged_service_fee := wr_charged_service_fee self;
     wr_amount_out := wr_amount_out self;
     wr_observed_at_ns := wr_observed_at_ns self;
     wr_state := state;
     wr_last_settlement_stop_reason := wr_last_settlement_stop_reason self |}.

Definition WithdrawalRecord_observed
    (id base_requester owner subaccount payload_hash : bytes)
    (amount max_service_fee charged_service_fee amount_out observed_at_ns : Z)
    : Result CoreError WithdrawalRecord :=
  let accept :=
    Ok {| wr_id := id;
          wr_base_requester := base_requester;
          wr_owner := owner;
          wr_subaccount := subaccount;
          wr_payload_hash := payload_hash;
          wr_amount := amount;
          wr_max_service_fee := max_service_fee;
          wr_charged_service_fee := charged_service_fee;
          wr_amount_out := amount_out;
          wr_observed_at_ns := observed_at_ns;
          wr_state := Observed;
          wr_last_settlement_stop_reason := None |} in
  if (amount =? 0) || (amount_out =? 0) || (charged_service_fee >? max_service_fee)
  then Err InvalidAmount
  else
    let? total := Amount_checked_add amount_out charged_service_fee in
    if negb (total =? amount) then Err InvalidAmount else accept.

Definition WithdrawalRecord_verify_retry (self : WithdrawalRecord) (payload_hash : bytes)
    : Result CoreError unit :=
  if negb (replay_matches (bool_decide (wr_payload_hash self = payload_hash)))
  then Err PayloadConflict else Ok tt.

Definition WithdrawalRecord_validate_attempt
    (self : WithdrawalRecord) (attempt : TransferAttempt) (settlement : Settlement)
    : Result CoreError unit :=
  let identity := ta_identity attempt in
  if match wr_state self with Observed => true | _ => false end
     && negb (ta_attempt_no attempt =? 0)
  then Err InvalidLedgerOperation
  else if bool_decide (lti_operation identity <> ReleaseWithdrawal)
       || negb (release_transfer_matches (lti_amount identity) (lti_fee identity)
                  (wr_amount_out self) (s_ledger_fee settlement))
       || bool_decide (a_owner (lti_to identity) <> wr_owner self)
       || bool_decide (a_subaccount (lti_to identity) <> wr_subaccount self)
       || negb (s_amount_out settlement =? wr_amount_out self)
       || negb (s_service_fee settlement =? wr_charged_service_fee self)
  then Err SettlementMismatch
  else Settlement_validate_committed settlement (wr_amount self) (wr_max_service_fee self).

Definition WithdrawalRecord_is_idempotent (self : WithdrawalRecord) (event : WithdrawalEvent)
    : bool :=
  match wr_state self, event with
  | ReleasePending current_attempt current_settlement, StartRelease attempt settlement
  | Paid current_attempt current_settlement _ _, StartRelease attempt settlement
  | ReconciliationHold _ current_attempt current_settlement, StartRelease attempt settlement =>
      bool_decide (current_attempt = attempt) && bool_decide (current_settlement = settlement)
  | Paid _ _ current _, ReleaseSucceeded release_ledger_block_index =>
      current =? release_ledger_block_index
  | ReconciliationHold current _ _, ReleaseAmbiguous hold_id => current =? hold_id
  | _, _ => false
  end.

Definition WithdrawalState_release_block (self : WithdrawalState) : option Z :=
  match self with
  | Paid _ _ release_ledger_block_index _ => Some release_ledger_block_index
  | _ => None
  end.

Definition WithdrawalRecord_settlement_for_effects
    (state : WithdrawalState) (event : WithdrawalEvent) : Settlement :=
  match state, event with
  | _, StartRelease _ settlement => settlement
  | ReleasePending _ settlement, _ | ReconciliationHold _ _ settlement, _ => settlement
  | _, _ => {| s_amount_out := 0; s_service_fee := 0; s_ledger_fee := 0 |}
  end.

Definition WithdrawalRecord_next_state (self : WithdrawalRecord) (event : WithdrawalEvent)
    : Result CoreError WithdrawalState :=
  match wr_state self, event with
  | Observed, StartRelease attempt settlement =>
      let? _ := WithdrawalRecord_validate_attempt self attempt settlement in
      Ok (ReleasePending attempt settlement)
  | ReleasePending attempt settlement, ReleaseSucceeded release_ledger_block_index =>
      let? _ := WithdrawalRecord_validate_attempt self attempt settlement in
      Ok (Paid attempt settlement release_ledger_block_index None)
  | ReleasePending attempt settlement, ReleaseAmbiguous hold_id =>
      Ok (ReconciliationHold hold_id attempt settlement)
  | _, other => Err (InvalidTransition "withdrawal" (WithdrawalEvent_name other))
  end.

Definition WithdrawalRecord_apply (self : WithdrawalRecord) (event : WithdrawalEvent)
    : Result CoreError (ApplyResult * WithdrawalRecord) :=
  let current_release := WithdrawalState_release_block (wr_state self) in
  let ledger_event :=
    match event with
    | ReleaseSucceeded release_ledger_block_index => (1, release_ledger_block_index)
    | _ => (0, 0)
    end in
  let? expected_release :=
    ok_or (withdrawal_ledger_block_transition current_release ledger_event.1 ledger_event.2)
      LedgerBlockConflict in
  if WithdrawalRecord_is_idempotent self event then Ok (ApplyResult_idempotent, self)
  else
    let state_code := WithdrawalState_phase_code (wr_state self) in
    let event_code := WithdrawalEvent_phase_code event in
    if negb (withdrawal_phase_allows state_code event_code)
    then Err (InvalidTransition "withdrawal" (WithdrawalEvent_name event))
    else
      let settlement_for_effects :=
        WithdrawalRecord_settlement_for_effects (wr_state self) event in
      let? next := WithdrawalRecord_next_state self event in
      let next_release := WithdrawalState_release_block next in
      if bool_decide (next_release <> expected_release)
      then Err (InvalidTransition "withdrawal" "ledger_block_effect_mismatch")
      else
        let? effects :=
          ok_or (withdrawal_transition_effects state_code event_code
                   (s_amount_out settlement_for_effects)
                   (s_ledger_fee settlement_for_effects)
                   (s_service_fee settlement_for_effects))
            (InvalidTransition "withdrawal" "effect_mismatch") in
        let '(_, _, fee_delta, _) := effects in
        Ok (ApplyResult_applied fee_delta, WithdrawalRecord_with_state self next).

(** ** Well-formed records *)

Definition Settlement_ranged (s : Settlement) : Prop :=
  is_u128 (s_amount_out s) /\ is_u128 (s_service_fee s) /\ is_u128 (s_ledger_fee s).

(** The transfer pays exactly this withdrawal: the committed amount, to the
    committed account, with a ledger fee the charged service fee covers. *)
Record attempt_pays (r : WithdrawalRecord) (attempt : TransferAttempt) (s : Settlement) : Prop := {
  pays_operation : lti_operation (ta_identity attempt) = ReleaseWithdrawal;
  pays_amount : lti_amount (ta_identity attempt) = wr_amount_out r;
  pays_owner : a_owner (lti_to (ta_identity attempt)) = wr_owner r;
  pays_subaccount : a_subaccount (lti_to (ta_identity attempt)) = wr_subaccount r;
  pays_ledger_fee : lti_fee (ta_identity attempt) = s_ledger_fee s;
  pays_settlement_out : s_amount_out s = wr_amount_out r;
  pays_settlement_fee : s_service_fee s = wr_charged_service_fee r;
  pays_fee_covered : 0 <= s_ledger_fee s <= s_service_fee s;
}.

(** The quote committed on Base. *)
Record WithdrawalRecord_quoted (r : WithdrawalRecord) : Prop := {
  quoted_amount : is_u128 (wr_amount r);
  quoted_out_positive : 0 < wr_amount_out r;
  quoted_fee : 0 <= wr_charged_service_fee r <= wr_max_service_fee r;
  quoted_total : wr_amount_out r + wr_charged_service_fee r = wr_amount r;
}.

Definition WithdrawalRecord_wf (r : WithdrawalRecord) : Prop :=
  WithdrawalRecord_quoted r /\
  match wr_state r with
  | Observed => True
  | ReleasePending a s | Paid a s _ _ | ReconciliationHold _ a s => attempt_pays r a s
  end.

Definition WithdrawalEvent_ranged (e : WithdrawalEvent) : Prop :=
  match e with StartRelease _ s => Settlement_ranged s | _ => True end.

(** ** The withdrawal protocol

    What an event means to a well-formed record, without the checks of the
    implementation. *)

Definition withdrawal_already_recorded (r : WithdrawalRecord) (e : WithdrawalEvent) : Prop :=
  match e with
  | StartRelease a s =>
      match wr_state r with
      | Observed => False
      | ReleasePending a' s' | Paid a' s' _ _ | ReconciliationHold _ a' s' => a' = a /\ s' = s
      end
  | ReleaseSucceeded b => WithdrawalState_release_block (wr_state r) = Some b
  | ReleaseAmbiguous h => exists a s, wr_state r = ReconciliationHold h a s
  end.

Inductive WithdrawalStep (r : WithdrawalRecord)
  : WithdrawalEvent -> ApplyResult -> WithdrawalRecord -> Prop :=
| WStep_replay e :
    withdrawal_already_recorded r e -> WithdrawalStep r e ApplyResult_idempotent r
| WStep_start a s :
    wr_state r = Observed -> ta_attempt_no a = 0 -> attempt_pays r a s ->
    WithdrawalStep r (StartRelease a s) (ApplyResult_applied 0)
      (WithdrawalRecord_with_state r (ReleasePending a s))
| WStep_paid a s b :
    wr_state r = ReleasePending a s ->
    WithdrawalStep r (ReleaseSucceeded b)
      (ApplyResult_applied (wr_charged_service_fee r - s_ledger_fee s))
      (WithdrawalRecord_with_state r (Paid a s b None))
| WStep_ambiguous a s h :
    wr_state r = ReleasePending a s ->
    WithdrawalStep r (ReleaseAmbiguous h) (ApplyResult_applied 0)
      (WithdrawalRecord_with_state r (ReconciliationHold h a s)).

#[export] Hint Constructors WithdrawalStep : bridge.

(** ** Lemmas *)

Lemma withdrawal_already_recorded_spec r e :
  WithdrawalRecord_is_idempotent r e = true <-> withdrawal_already_recorded r e.
Proof.
  unfold WithdrawalRecord_is_idempotent, withdrawal_already_recorded.
  destruct (wr_state r), e; simpl; reflect; naive_solver.
Qed.

Lemma validate_attempt_Ok r a s :
  WithdrawalRecord_quoted r -> Settlement_ranged s ->
  WithdrawalRecord_validate_attempt r a s = Ok tt <->
  (wr_state r = Observed -> ta_attempt_no a = 0) /\ attempt_pays r a s.
Proof.
  intros [Hamt Hout Hfee Htot] (Hs1 & Hs2 & Hs3).
  unfold WithdrawalRecord_validate_attempt, release_transfer_matches,
    release_transfer_matches_body.
  destruct (match wr_state r with Observed => true | _ => false end
            && negb (ta_attempt_no a =? 0)) eqn:E1.
  { split; [done|]. intros [H _]. destruct (wr_state r); [|done..]. simpl in E1. reflect. naive_solver. }
  assert (wr_state r = Observed -> ta_attempt_no a = 0) as Hno.
  { intros Hobs. rewrite Hobs in E1. simpl in E1. reflect. done. }
  clear E1. cbv beta iota. case_match eqn:E2.
  - split; [done|]. intros [_ []]. exfalso. reflect. naive_solver lia.
  - rewrite Settlement_validate_committed_Ok by done. reflect.
    split.
    + intros ([? ?] & ? & ?). split; [done|].
      split; first [ranges; lia | apply dec_stable; tauto | tauto].
    + intros [_ []]. ranges. lia.
Qed.

Lemma attempt_pays_ranged r a s :
  WithdrawalRecord_quoted r -> attempt_pays r a s -> Settlement_ranged s.
Proof. intros [] []. unfold Settlement_ranged. ranges. lia. Qed.

(** The effects of a release, for the settlement of a well-formed attempt. *)
Lemma release_effects r a s :
  WithdrawalRecord_quoted r -> attempt_pays r a s ->
  outbound_settlement (s_amount_out s) (s_ledger_fee s) (s_service_fee s) =
    Some (wr_amount_out r + s_ledger_fee s, wr_charged_service_fee r - s_ledger_fee s,
          wr_amount r).
Proof.
  intros Hq Hp. pose proof (attempt_pays_ranged r a s Hq Hp) as (?&?&?).
  destruct Hq, Hp. rewrite outbound_settlement_spec by done.
  rewrite (proj2 (andb_true_iff _ _)) by (rewrite !Z.leb_le; ranges; lia).
  repeat f_equal; lia.
Qed.

Lemma withdrawal_apply_sound r e res r' :
  WithdrawalRecord_wf r -> WithdrawalEvent_ranged e ->
  WithdrawalRecord_apply r e = Ok (res, r') -> WithdrawalStep r e res r'.
Proof.
  intros [Hq Hst] He H. unfold WithdrawalRecord_apply in H.
  destruct (ok_or _ _) as [exp|] eqn:E1 in H; [|done].
  destruct (WithdrawalRecord_is_idempotent r e) eqn:E2.
  { simplify_eq. apply WStep_replay. by apply withdrawal_already_recorded_spec. }
  case_match; [done|].
  destruct (WithdrawalRecord_next_state r e) as [next|] eqn:E3 in H; [|done].
  unfold WithdrawalRecord_next_state in E3.
  destruct (wr_state r) as [|a s| |] eqn:Es, e; simplify_eq/=.
  - destruct (WithdrawalRecord_validate_attempt r attempt settlement) as [[]|] eqn:E4;
      simplify_eq/=.
    apply validate_attempt_Ok in E4 as [Hno Hpay]; [|done..].
    repeat case_match; simplify_eq/=. auto with bridge.
  - destruct (WithdrawalRecord_validate_attempt r a s) as [[]|] eqn:E4; simplify_eq/=.
    case_bool_decide; [done|].
    unfold withdrawal_transition_effects, withdrawal_transition_effects_body in H. simpl in H.
    pose proof (release_effects r a s Hq Hst) as Heff. unfold outbound_settlement in Heff.
    rewrite Heff in H. simplify_eq/=. eauto with bridge.
  - repeat case_match; simplify_eq/=. eauto with bridge.
Qed.

Lemma withdrawal_apply_complete r e res r' :
  WithdrawalRecord_wf r -> WithdrawalStep r e res r' ->
  WithdrawalRecord_apply r e = Ok (res, r').
Proof.
  intros [Hq Hst] Hstep. unfold WithdrawalRecord_apply.
  destruct Hstep as [e Hrec|a s Hs Hno Hpay|a s b Hs|a s h Hs].
  - rewrite (proj2 (withdrawal_already_recorded_spec r e) Hrec).
    destruct e as [a s|b|h]; simpl in *; [done| |done].
    rewrite Hrec. unfold withdrawal_ledger_block_transition,
      withdrawal_ledger_block_transition_body. simpl. by rewrite Z.eqb_refl.
  - unfold WithdrawalRecord_is_idempotent, WithdrawalRecord_next_state. rewrite Hs. simpl.
    rewrite (proj2 (validate_attempt_Ok r a s Hq (attempt_pays_ranged r a s Hq Hpay)))
      by done. done.
  - rewrite Hs in Hst. unfold WithdrawalRecord_is_idempotent, WithdrawalRecord_next_state.
    rewrite Hs. simpl.
    rewrite (proj2 (validate_attempt_Ok r a s Hq (attempt_pays_ranged r a s Hq Hst)))
      by (split; [by rewrite Hs|done]). simpl.
    rewrite bool_decide_false by tauto.
    pose proof (release_effects r a s Hq Hst) as Heff. unfold outbound_settlement in Heff.
    unfold withdrawal_transition_effects, withdrawal_transition_effects_body. simpl.
    by rewrite Heff.
  - unfold WithdrawalRecord_is_idempotent, WithdrawalRecord_next_state. rewrite Hs. done.
Qed.

Lemma withdrawal_observed_wf id requester owner sub hash amount max charged out ns r :
  is_u128 amount -> is_u128 max -> is_u128 charged -> is_u128 out ->
  WithdrawalRecord_observed id requester owner sub hash amount max charged out ns = Ok r ->
  WithdrawalRecord_wf r /\ wr_state r = Observed.
Proof.
  intros Ha Hm Hc Ho H. unfold WithdrawalRecord_observed in H. ranges.
  repeat (case_match; reflect; simplify_eq/=). destruct_and?.
  split; [|done]. split; [|done]. split; simpl; ranges; lia.
Qed.

Lemma attempt_pays_with_state r st a s :
  attempt_pays r a s -> attempt_pays (WithdrawalRecord_with_state r st) a s.
Proof. intros []. by split. Qed.

Lemma quoted_with_state r st :
  WithdrawalRecord_quoted r -> WithdrawalRecord_quoted (WithdrawalRecord_with_state r st).
Proof. intros []. by split. Qed.

#[export] Hint Resolve attempt_pays_with_state quoted_with_state : bridge.

Lemma withdrawal_step_wf r e res r' :
  WithdrawalRecord_wf r -> WithdrawalStep r e res r' -> WithdrawalRecord_wf r'.
Proof.
  intros [Hq Hst] Hstep. destruct Hstep as [e Hrec|a s Hs Hno Hpay|a s b Hs|a s h Hs];
    [done|..]; try rewrite Hs in Hst; split; simpl; auto with bridge.
Qed.

Lemma withdrawal_step_recorded r e res r' :
  WithdrawalStep r e res r' -> withdrawal_already_recorded r' e.
Proof. destruct 1; simpl; eauto. Qed.
