(* ===== verification/Deposit.v ===== *)
(** * Deposits

    [canister/bridge-core/src/deposit.rs]: the deposit record and its state
    machine, from funding on the ledger to a finalized mint on Base or a
    refund.  [DepositRecord_apply] is the whole method; the source writes the
    record only after its last check, so an error returns no record. *)

From S2P Require Import Prelude KernelPolicy KernelDeposit Types Authorization External Withdrawal.

(** ** Data *)

Record DepositRequest := {
  dq_id : bytes;
  dq_payload_hash : bytes;
  dq_gross_amount : Z;
  dq_user_max_service_fee : Z;
  dq_transfer : LedgerTransferIdentity;
}.

Record DepositQuote := {
  q_service_fee : Z;
  q_net_amount : Z;
}.

#[export] Instance DepositQuote_eq_dec : EqDecision DepositQuote.
Proof. solve_decision. Defined.

Definition DepositQuote_validate (self : DepositQuote) (gross_amount : Z) : Result CoreError unit :=
  if q_net_amount self =? 0 then Err InvalidAmount
  else
    let? total := Amount_checked_add (q_net_amount self) (q_service_fee self) in
    if negb (total =? gross_amount) then Err InvalidAmount else Ok tt.

Inductive DepositRefundReason :=
| Reason_BasePaused
| Reason_ServiceFeeRejected
| Reason_RefundAmountTooSmall
| Reason_InvalidRecipient
| Reason_PerDepositLimitExceeded
| Reason_MintWindowLimitExceeded
| Reason_AuthorizationExpired.

#[export] Instance DepositRefundReason_eq_dec : EqDecision DepositRefundReason.
Proof. solve_decision. Defined.

Inductive DepositState :=
| FundingPending
| EscrowedUnquoted (funding_ledger_block_index : Z)
| AuthorizationPending (funding_ledger_block_index : Z)
| AuthorizationAvailable (funding_ledger_block_index : Z)
| RefundAvailable (reason : DepositRefundReason) (funding_ledger_block_index : Z)
| Minted (funding_ledger_block_index : Z)
| FundingReconciliationHold (hold_id : Z)
| RefundPending (reason : DepositRefundReason) (funding_ledger_block_index : Z)
    (attempt : TransferAttempt)
| RefundReconciliationHold (reason : DepositRefundReason) (funding_ledger_block_index : Z)
    (hold_id : Z) (attempt : TransferAttempt)
| Refunded (reason : DepositRefundReason) (funding_ledger_block_index : Z)
    (attempt : TransferAttempt) (refund_ledger_block_index : Z) (source_hold : option Z)
| Cancelled (hold_id history_watermark : option Z) (ledger_failure : option LedgerFailure).

#[export] Instance DepositState_eq_dec : EqDecision DepositState.
Proof. solve_decision. Defined.

Inductive DepositEvent :=
| FundingSucceeded (funding_ledger_block_index : Z)
| FundingAmbiguous (hold_id : Z)
| FundingFailed (code : LedgerFailure)
| CommitAuthorization (quote : DepositQuote) (authorization : MintAuthorizationRecord)
| AuthorizationSigned (signature : bytes) (observed_timestamp : Z)
| MarkRefundAvailable (reason : DepositRefundReason) (finalized_timestamp : option Z)
| MintReconciled (evidence : MintFinalizationEvidence)
| StartRefund (reason : DepositRefundReason) (attempt : TransferAttempt)
    (expiry_evidence : option MintExpiryEvidence)
| RefundSucceeded (refund_ledger_block_index : Z)
| RefundAmbiguous (hold_id : Z).

Record DepositRecord := {
  dr_id : bytes;
  dr_payload_hash : bytes;
  dr_gross_amount : Z;
  dr_max_service_fee : Z;
  dr_quote : option DepositQuote;
  dr_mint_authorization : option MintAuthorizationRecord;
  dr_mint_finalization_evidence : option MintFinalizationEvidence;
  dr_mint_expiry_evidence : option MintExpiryEvidence;
  dr_transfer : LedgerTransferIdentity;
  dr_state : DepositState;
  dr_last_settlement_stop_reason : option string;
}.

#[export] Instance DepositRecord_eq_dec : EqDecision DepositRecord.
Proof. solve_decision. Defined.

(** ** Codes and names *)

Definition DepositEvent_code (self : DepositEvent) : Z :=
  match self with
  | FundingSucceeded _ => 0
  | FundingAmbiguous _ => 1
  | FundingFailed _ => 2
  | CommitAuthorization _ _ => 3
  | MarkRefundAvailable _ _ => 4
  | AuthorizationSigned _ _ => 5
  | MintReconciled _ => 6
  | StartRefund _ _ _ => 7
  | RefundSucceeded _ => 8
  | RefundAmbiguous _ => 9
  end.

Definition DepositEvent_name (self : DepositEvent) : string :=
  match self with
  | FundingSucceeded _ => "funding_succeeded"
  | FundingAmbiguous _ => "funding_ambiguous"
  | FundingFailed _ => "funding_failed"
  | CommitAuthorization _ _ => "commit_authorization"
  | AuthorizationSigned _ _ => "authorization_signed"
  | MarkRefundAvailable _ _ => "mark_refund_available"
  | MintReconciled _ => "mint_reconciled"
  | StartRefund _ _ _ => "start_refund"
  | RefundSucceeded _ => "refund_succeeded"
  | RefundAmbiguous _ => "refund_ambiguous"
  end.

Definition DepositState_code (self : DepositState) : Z :=
  match self with
  | FundingPending => 0
  | EscrowedUnquoted _ => 1
  | AuthorizationPending _ => 2
  | AuthorizationAvailable _ => 3
  | RefundAvailable _ _ => 4
  | FundingReconciliationHold _ => 5
  | RefundPending _ _ _ => 6
  | RefundReconciliationHold _ _ _ _ => 7
  | Refunded _ _ _ _ _ => 8
  | Cancelled _ _ _ => 9
  | Minted _ => 10
  end.

(** ** Queries *)

Definition DepositRecord_accept (request : DepositRequest) : Result CoreError DepositRecord :=
  if bool_decide (lti_operation (dq_transfer request) <> PullDeposit)
  then Err InvalidLedgerOperation
  else if negb (lti_amount (dq_transfer request) =? dq_gross_amount request)
          || (dq_gross_amount request =? 0)
  then Err InvalidAmount
  else
    Ok {| dr_id := dq_id request;
          dr_payload_hash := dq_payload_hash request;
          dr_gross_amount := dq_gross_amount request;
          dr_max_service_fee := dq_user_max_service_fee request;
          dr_quote := None;
          dr_mint_authorization := None;
          dr_mint_finalization_evidence := None;
          dr_mint_expiry_evidence := None;
          dr_transfer := dq_transfer request;
          dr_state := FundingPending;
          dr_last_settlement_stop_reason := None |}.

Definition DepositRecord_verify_retry (self : DepositRecord) (payload_hash : bytes)
    : Result CoreError unit :=
  if negb (replay_matches (bool_decide (dr_payload_hash self = payload_hash)))
  then Err PayloadConflict else Ok tt.

Definition DepositRecord_reserves_mint_resources (self : DepositRecord) : bool :=
  deposit_reservation_active (DepositState_code (dr_state self)).

Definition DepositRecord_reserved_mint_amount (self : DepositRecord) : Result CoreError Z :=
  if negb (DepositRecord_reserves_mint_resources self) then Ok 0
  else ok_or (q_net_amount <$> dr_quote self) (InvalidTransition "deposit" "missing_quote").

Definition DepositRecord_state_ledger_blocks (state : DepositState) : option Z * option Z :=
  match state with
  | EscrowedUnquoted funding | AuthorizationPending funding | AuthorizationAvailable funding
  | RefundAvailable _ funding | Minted funding | RefundPending _ funding _
  | RefundReconciliationHold _ funding _ _ => (Some funding, None)
  | Refunded _ funding _ refund _ => (Some funding, Some refund)
  | FundingPending | FundingReconciliationHold _ | Cancelled _ _ _ => (None, None)
  end.

Definition DepositRecord_ledger_blocks (self : DepositRecord) : option Z * option Z :=
  DepositRecord_state_ledger_blocks (dr_state self).

Definition DepositRecord_funding_ledger_block_index (self : DepositRecord) : option Z :=
  (DepositRecord_ledger_blocks self).1.

(** The authorization has been issued: it carries a signature. *)
Definition DepositRecord_signed_authorization (self : DepositRecord) : bool :=
  is_some_and (dr_mint_authorization self) (fun authorization => is_some (mar_signature authorization)).

Definition DepositRecord_expiry_evidence_matches
    (self : DepositRecord) (evidence : MintExpiryEvidence) : bool :=
  match dr_mint_authorization self with
  | None => false
  | Some authorization =>
      let binding_matches :=
        bool_decide (mee_authorization_digest evidence = mar_digest authorization)
        && bool_decide (mee_deposit_id evidence = ma_deposit_id (mar_authorization authorization))
        && (mee_chain_id evidence =? mad_chain_id (mar_domain authorization))
        && bool_decide (mee_verifying_contract evidence
                        = mad_verifying_contract (mar_domain authorization))
        && (mee_finalized_block_number evidence
            >=? mao_finalized_block_number (mar_origin authorization))
        && bool_decide (mee_finalized_block_hash evidence <> zeros 32)
        && bool_decide (mee_runtime_sha256 evidence <> zeros 32)
        && bool_decide (mee_rpc_request_digest evidence <> zeros 32)
        && bool_decide (mee_rpc_response_digest evidence <> zeros 32) in
      expiry_refund_allowed binding_matches (mee_deposit_processed evidence)
        (mee_finalized_block_timestamp evidence)
        (ma_deadline (mar_authorization authorization))
  end.

(** ** Guards *)

Definition then_some {A} (b : bool) (a : A) : option A := if b then Some a else None.

Definition commit_authorization_guard
    (self : DepositRecord) (quote : DepositQuote) (record : MintAuthorizationRecord)
    : DepositEventGuard * option CoreError :=
  let quote_result := DepositQuote_validate quote (dr_gross_amount self) in
  let authorization := mar_authorization record in
  let fixed_fields_match :=
    bool_decide (ma_deposit_id authorization = dr_id self)
    && bool_decide (ma_recipient authorization <> zeros 20)
    && (ma_gross_amount authorization =? dr_gross_amount self)
    && (ma_max_service_fee authorization =? dr_max_service_fee self)
    && (ma_charged_service_fee authorization =? q_service_fee quote)
    && negb (mad_chain_id (mar_domain record) =? 0)
    && bool_decide (mad_verifying_contract (mar_domain record) <> zeros 20)
    && bool_decide (mar_digest record <> zeros 32)
    && bool_decide (mao_finalized_block_hash (mar_origin record) <> zeros 32)
    && negb (ma_authorization_epoch authorization =? 0) in
  let canonical_domain_strings :=
    bool_decide (mad_name (mar_domain record) = MINT_AUTHORIZATION_DOMAIN_NAME)
    && bool_decide (mad_version (mar_domain record) = MINT_AUTHORIZATION_DOMAIN_VERSION) in
  let expected_deadline :=
    checked_add u64_max (mao_issued_at_timestamp (mar_origin record))
      MINT_AUTHORIZATION_TTL_SECONDS in
  let deadline_valid := bool_decide (expected_deadline = Some (ma_deadline authorization)) in
  let pristine :=
    is_none (mar_signature record) && negb (mar_signature_dispatched record)
    && (mar_signature_dispatch_attempt record =? 0) in
  let guard :=
    Guard_CommitAuthorization (is_ok quote_result) fixed_fields_match
      canonical_domain_strings deadline_valid pristine in
  (guard,
   then_some (negb (DepositEventGuard_accepts guard))
     (match quote_result with
      | Err error => error
      | Ok _ =>
          if negb deadline_valid && is_none expected_deadline then ArithmeticOverflow
          else ConflictingReplay
      end)).

Definition authorization_signed_guard
    (self : DepositRecord) (signature : bytes) (observed_timestamp : Z)
    : DepositEventGuard * option CoreError :=
  let authorization := dr_mint_authorization self in
  let guard :=
    Guard_InstallSignature
      (is_some_and authorization mar_signature_dispatched)
      (is_some_and authorization (fun record => is_none (mar_signature record)))
      (length signature =? 65)%nat
      observed_timestamp
      (default 0 ((fun record => ma_deadline (mar_authorization record)) <$> authorization)) in
  (guard, then_some (negb (DepositEventGuard_accepts guard)) ConflictingReplay).

Definition mark_refund_available_guard
    (self : DepositRecord) (reason : DepositRefundReason) (finalized_timestamp : option Z)
    : DepositEventGuard * option CoreError :=
  let deadline :=
    (fun record => ma_deadline (mar_authorization record)) <$> dr_mint_authorization self in
  (Guard_MarkRefundAvailable
     (match dr_state self, reason, finalized_timestamp with
      | EscrowedUnquoted _, reason, None => bool_decide (reason <> Reason_AuthorizationExpired)
      | AuthorizationPending _, Reason_AuthorizationExpired, Some finalized_timestamp
      | AuthorizationAvailable _, Reason_AuthorizationExpired, Some finalized_timestamp =>
          is_some_and deadline (fun deadline => finalized_timestamp >? deadline)
      | AuthorizationPending _, Reason_RefundAmountTooSmall, None
      | AuthorizationPending _, Reason_InvalidRecipient, None =>
          is_some_and (dr_mint_authorization self) (fun record => is_none (mar_signature record))
      | _, _, _ => false
      end),
   None).

Definition mint_reconciled_guard (self : DepositRecord) (evidence : MintFinalizationEvidence)
    : DepositEventGuard * option CoreError :=
  let authorization := dr_mint_authorization self in
  let expected_net :=
    authorization ≫= fun record =>
      checked_sub (ma_gross_amount (mar_authorization record))
        (ma_charged_service_fee (mar_authorization record)) in
  let fixed_fields_match :=
    is_some_and authorization (fun authorization =>
      is_some (mar_signature authorization)
      && bool_decide (mfe_authorization_digest evidence = mar_digest authorization)
      && bool_decide (mfe_deposit_id evidence = ma_deposit_id (mar_authorization authorization))
      && bool_decide (mfe_recipient evidence = ma_recipient (mar_authorization authorization))
      && (mfe_chain_id evidence =? mad_chain_id (mar_domain authorization))
      && bool_decide (mfe_verifying_contract evidence
                      = mad_verifying_contract (mar_domain authorization))
      && (mfe_gross_amount evidence =? ma_gross_amount (mar_authorization authorization))
      && (mfe_charged_service_fee evidence
          =? ma_charged_service_fee (mar_authorization authorization))
      && bool_decide (Some (mfe_minted_amount evidence) = expected_net)) in
  let origin_inclusion :=
    is_some_and authorization (fun authorization =>
      mfe_receipt_block_number evidence
      >=? mao_finalized_block_number (mar_origin authorization)) in
  let audit_complete :=
    bool_decide (mfe_transaction_hash evidence <> zeros 32)
    && bool_decide (mfe_receipt_block_hash evidence <> zeros 32)
    && bool_decide (mfe_finalized_block_hash evidence <> zeros 32)
    && bool_decide (mfe_rpc_request_digest evidence <> zeros 32)
    && bool_decide (mfe_rpc_response_digest evidence <> zeros 32) in
  let guard :=
    Guard_MintFinalization (fixed_fields_match && origin_inclusion)
      (mfe_receipt_succeeded evidence) (mfe_receipt_block_number evidence)
      (mfe_finalized_block_number evidence) audit_complete in
  (guard, then_some (negb (DepositEventGuard_accepts guard)) ConflictingReplay).

Definition start_refund_guard
    (self : DepositRecord) (reason : DepositRefundReason) (attempt : TransferAttempt)
    (expiry_evidence : option MintExpiryEvidence) : DepositEventGuard * option CoreError :=
  let identity := ta_identity attempt in
  let service_fee :=
    if DepositRecord_signed_authorization self
    then map_or 0 q_service_fee (dr_quote self) else 0 in
  let attempt_matches :=
    (ta_attempt_no attempt =? 0)
    && bool_decide (lti_operation identity = RefundDeposit)
    && is_none (lti_spender identity)
    && bool_decide (lti_from identity = lti_to (dr_transfer self))
    && bool_decide (lti_to identity = lti_from (dr_transfer self))
    && is_some_and
         (checked_add u128_max (lti_amount identity) (lti_fee identity)
            ≫= fun amount => checked_add u128_max amount service_fee)
         (fun amount => amount =? dr_gross_amount self) in
  let signed_authorization := DepositRecord_signed_authorization self in
  let policy_matches :=
    match dr_state self, reason, expiry_evidence with
    | RefundAvailable expected _, reason, Some evidence =>
        if bool_decide (reason = Reason_AuthorizationExpired) && signed_authorization
        then bool_decide (expected = Reason_AuthorizationExpired)
             && DepositRecord_expiry_evidence_matches self evidence
        else false
    | RefundAvailable expected _, reason, None =>
        if negb signed_authorization then bool_decide (expected = reason) else false
    | _, _, _ => false
    end in
  let guard := Guard_StartRefund attempt_matches policy_matches in
  (guard, then_some (negb (DepositEventGuard_accepts guard)) RefundIneligible).

Definition DepositRecord_transition_guard (self : DepositRecord) (event : DepositEvent)
    : DepositEventGuard * option CoreError :=
  match event with
  | FundingSucceeded _ | FundingAmbiguous _ | FundingFailed _ => (Guard_Funding, None)
  | CommitAuthorization quote record => commit_authorization_guard self quote record
  | AuthorizationSigned signature observed_timestamp =>
      authorization_signed_guard self signature observed_timestamp
  | MarkRefundAvailable reason finalized_timestamp =>
      mark_refund_available_guard self reason finalized_timestamp
  | MintReconciled evidence => mint_reconciled_guard self evidence
  | StartRefund reason attempt expiry_evidence =>
      start_refund_guard self reason attempt expiry_evidence
  | RefundSucceeded _ | RefundAmbiguous _ => (Guard_RefundResult, None)
  end.

Definition DepositRecord_is_idempotent (self : DepositRecord) (event : DepositEvent) : bool :=
  match event with
  | FundingSucceeded funding_ledger_block_index =>
      bool_decide (DepositRecord_funding_ledger_block_index self
                   = Some funding_ledger_block_index)
  | _ =>
      match dr_state self, event with
      | FundingReconciliationHold current, FundingAmbiguous hold_id => current =? hold_id
      | Cancelled None None (Some current), FundingFailed code => bool_decide (current = code)
      | AuthorizationPending _, CommitAuthorization quote authorization
      | AuthorizationAvailable _, CommitAuthorization quote authorization
      | RefundAvailable _ _, CommitAuthorization quote authorization
      | Minted _, CommitAuthorization quote authorization =>
          bool_decide (dr_quote self = Some quote)
          && bool_decide (dr_mint_authorization self = Some authorization)
      | AuthorizationAvailable _, AuthorizationSigned signature _ =>
          bool_decide ((dr_mint_authorization self ≫= mar_signature) = Some signature)
      | RefundAvailable current _, MarkRefundAvailable reason _ => bool_decide (current = reason)
      | Minted _, MintReconciled evidence =>
          bool_decide (dr_mint_finalization_evidence self = Some evidence)
      | RefundPending current_reason _ current_attempt, StartRefund reason attempt expiry_evidence =>
          bool_decide (current_reason = reason) && bool_decide (current_attempt = attempt)
          && bool_decide (dr_mint_expiry_evidence self = expiry_evidence)
      | Refunded _ _ _ current None, RefundSucceeded refund_ledger_block_index =>
          current =? refund_ledger_block_index
      | RefundReconciliationHold _ _ current _, RefundAmbiguous hold_id => current =? hold_id
      | _, _ => false
      end
  end.

(** ** Applying an event *)

(** The tuple the source computes before it commits: state, quote,
    authorization, finalization evidence, expiry evidence and fee delta. *)
Record DepositNext := {
  dn_state : DepositState;
  dn_quote : option DepositQuote;
  dn_authorization : option MintAuthorizationRecord;
  dn_finalization_evidence : option MintFinalizationEvidence;
  dn_expiry_evidence : option MintExpiryEvidence;
  dn_fee_delta : Z;
}.

(** The arms that reset, respectively keep, the deposit's derived fields. *)
Definition DepositNext_reset (state : DepositState) : DepositNext :=
  {| dn_state := state; dn_quote := None; dn_authorization := None;
     dn_finalization_evidence := None; dn_expiry_evidence := None; dn_fee_delta := 0 |}.

Definition DepositNext_keep (self : DepositRecord) (state : DepositState) : DepositNext :=
  {| dn_state := state; dn_quote := dr_quote self;
     dn_authorization := dr_mint_authorization self;
     dn_finalization_evidence := dr_mint_finalization_evidence self;
     dn_expiry_evidence := dr_mint_expiry_evidence self; dn_fee_delta := 0 |}.

Definition DepositRecord_next_signed
    (self : DepositRecord) (funding : Z) (signature : bytes) : Result CoreError DepositNext :=
  let? authorization :=
    ok_or (dr_mint_authorization self) (InvalidTransition "deposit" "missing_authorization") in
  let '(installed, authorization) :=
    MintAuthorizationRecord_install_signature authorization signature in
  if negb installed then Err ConflictingReplay
  else
    let? quote := ok_or (dr_quote self) InvalidAmount in
    Ok {| dn_state := AuthorizationAvailable funding;
          dn_quote := dr_quote self;
          dn_authorization := Some authorization;
          dn_finalization_evidence := dr_mint_finalization_evidence self;
          dn_expiry_evidence := dr_mint_expiry_evidence self;
          dn_fee_delta := q_service_fee quote |}.

Definition DepositRecord_next (self : DepositRecord) (event : DepositEvent)
    : Result CoreError DepositNext :=
  match dr_state self, event with
  | FundingPending, FundingSucceeded funding => Ok (DepositNext_reset (EscrowedUnquoted funding))
  | FundingPending, FundingAmbiguous hold_id =>
      Ok (DepositNext_reset (FundingReconciliationHold hold_id))
  | FundingPending, FundingFailed code =>
      Ok (DepositNext_reset (Cancelled None None (Some code)))
  | EscrowedUnquoted funding, CommitAuthorization quote authorization =>
      Ok {| dn_state := AuthorizationPending funding;
            dn_quote := Some quote;
            dn_authorization := Some authorization;
            dn_finalization_evidence := None;
            dn_expiry_evidence := None;
            dn_fee_delta := 0 |}
  | AuthorizationPending funding, AuthorizationSigned signature _ =>
      DepositRecord_next_signed self funding signature
  | EscrowedUnquoted funding, MarkRefundAvailable reason _
  | AuthorizationPending funding, MarkRefundAvailable reason _ =>
      Ok (DepositNext_keep self (RefundAvailable reason funding))
  | AuthorizationAvailable funding, MarkRefundAvailable reason _ =>
      Ok (DepositNext_keep self (RefundAvailable reason funding))
  | AuthorizationAvailable funding, MintReconciled evidence
  | RefundAvailable _ funding, MintReconciled evidence =>
      Ok {| dn_state := Minted funding;
            dn_quote := dr_quote self;
            dn_authorization := dr_mint_authorization self;
            dn_finalization_evidence := Some evidence;
            dn_expiry_evidence := None;
            dn_fee_delta := 0 |}
  | RefundAvailable _ funding, StartRefund reason attempt expiry_evidence =>
      Ok {| dn_state := RefundPending reason funding attempt;
            dn_quote := dr_quote self;
            dn_authorization := dr_mint_authorization self;
            dn_finalization_evidence := dr_mint_finalization_evidence self;
            dn_expiry_evidence := expiry_evidence;
            dn_fee_delta := 0 |}
  | RefundPending reason funding attempt, RefundSucceeded refund =>
      Ok (DepositNext_keep self (Refunded reason funding attempt refund None))
  | RefundPending reason funding attempt, RefundAmbiguous hold_id =>
      Ok (DepositNext_keep self (RefundReconciliationHold reason funding hold_id attempt))
  | _, other => Err (InvalidTransition "deposit" (DepositEvent_name other))
  end.

(** The cross-check of the computed next state against the kernel's effects. *)
Definition DepositRecord_effects_match
    (self : DepositRecord) (next : DepositNext) (expected : DepositEffects) : bool :=
  let next_state_code := DepositState_code (dn_state next) in
  let next_reservation_active := deposit_reservation_active next_state_code in
  (next_state_code =? de_next_state expected)
  && eqb next_reservation_active (de_reservation_active expected)
  && eqb (DepositRecord_reserves_mint_resources self && negb next_reservation_active)
       (de_release_reservation expected)
  && (map_or 0 (fun quote => if next_reservation_active then q_net_amount quote else 0)
        (dn_quote next) =? de_reservation_after expected)
  && ((if negb (DepositRecord_reserves_mint_resources self) && next_reservation_active
       then map_or 0 q_net_amount (dn_quote next) else 0) =? de_reservation_add expected)
  && (dn_fee_delta next =? de_fee_credit expected).

Definition DepositRecord_commit (self : DepositRecord) (next : DepositNext) : DepositRecord :=
  {| dr_id := dr_id self;
     dr_payload_hash := dr_payload_hash self;
     dr_gross_amount := dr_gross_amount self;
     dr_max_service_fee := dr_max_service_fee self;
     dr_quote := dn_quote next;
     dr_mint_authorization := dn_authorization next;
     dr_mint_finalization_evidence := dn_finalization_evidence next;
     dr_mint_expiry_evidence := dn_expiry_evidence next;
     dr_transfer := dr_transfer self;
     dr_state := dn_state next;
     dr_last_settlement_stop_reason := dr_last_settlement_stop_reason self |}.

(** The input of the kernel's decision for this record and event. *)
Definition DepositRecord_transition_input
    (self : DepositRecord) (event : DepositEvent) (guard : DepositEventGuard)
    (reserved_amount : Z) : DepositTransitionInput :=
  let transition_quote :=
    match event with CommitAuthorization quote _ => Some quote | _ => dr_quote self end in
  let authorization_issued :=
    DepositRecord_signed_authorization self
    || match event with AuthorizationSigned _ _ => true | _ => false end in
  let service_fee :=
    if authorization_issued then map_or 0 q_service_fee transition_quote else 0 in
  let net_amount :=
    if match event with StartRefund _ _ _ | RefundSucceeded _ => true | _ => false end
       && negb authorization_issued
    then dr_gross_amount self
    else map_or 0 q_net_amount transition_quote in
  {| dti_state := DepositState_code (dr_state self);
     dti_event := DepositEvent_code event;
     dti_guard := guard;
     dti_same_payload := DepositRecord_is_idempotent self event;
     dti_gross_amount := dr_gross_amount self;
     dti_net_amount := net_amount;
     dti_service_fee := service_fee;
     dti_reserved_amount := reserved_amount |}.

Definition DepositEffects_accounting (e : DepositEffects) : DepositAccountingEffects :=
  {| dae_reservation_after := de_reservation_after e;
     dae_reservation_add := de_reservation_add e;
     dae_reservation_release := de_reservation_release e;
     dae_fee_credit := de_fee_credit e;
     dae_pending_liability_debit := de_pending_liability_debit e;
     dae_escrow_debit := de_escrow_debit e;
     dae_mint_supply_increase := de_mint_supply_increase e |}.

Definition DepositRecord_apply (self : DepositRecord) (event : DepositEvent)
    : Result CoreError (ApplyResult * DepositRecord) :=
  let current_ledger_blocks := DepositRecord_ledger_blocks self in
  let ledger_event :=
    match event with
    | FundingSucceeded funding_ledger_block_index => (1, funding_ledger_block_index)
    | RefundSucceeded refund_ledger_block_index => (2, refund_ledger_block_index)
    | _ => (0, 0)
    end in
  let? expected_ledger_blocks :=
    ok_or (deposit_ledger_block_transition current_ledger_blocks.1 current_ledger_blocks.2
             ledger_event.1 ledger_event.2) LedgerBlockConflict in
  let '(guard, guard_error) := DepositRecord_transition_guard self event in
  let? reserved_amount := DepositRecord_reserved_mint_amount self in
  match deposit_transition_decision
          (DepositRecord_transition_input self event guard reserved_amount) with
  | DepositDecision_Idempotent => Ok (ApplyResult_idempotent, self)
  | DepositDecision_Reject =>
      Err (default (InvalidTransition "deposit" (DepositEvent_name event)) guard_error)
  | DepositDecision_Apply expected_effects =>
      let? next := DepositRecord_next self event in
      if bool_decide (DepositRecord_state_ledger_blocks (dn_state next)
                      <> expected_ledger_blocks)
      then Err (InvalidTransition "deposit" "ledger_block_effect_mismatch")
      else if negb (DepositRecord_effects_match self next expected_effects)
      then Err (InvalidTransition "deposit" "transition_effect_mismatch")
      else
        Ok (ApplyResult_applied_deposit (DepositEffects_accounting expected_effects),
            DepositRecord_commit self next)
  end.
