(* ===== verification/DepositProtocol.v ===== *)
(** * The deposit protocol

    What a well-formed deposit record is, the protocol its events follow
    ([DepositStep], free of the implementation's cross-checks), and the proofs
    that [DepositRecord_apply] of [Deposit.v] implements it: every accepted
    event is a step of the protocol with the same effects, every step is
    accepted, and the internal consistency checks never fire. *)

From S2P Require Import Prelude KernelPolicy KernelDeposit Types Authorization External Withdrawal Deposit.

(** ** Well-formed records *)

(** The service fee the deposit has paid: the quoted one from the moment its
    authorization is signed, nothing before. *)
Definition charged_fee (r : DepositRecord) : Z :=
  if DepositRecord_signed_authorization r then map_or 0 q_service_fee (dr_quote r) else 0.

Definition quote_splits (r : DepositRecord) (q : DepositQuote) : Prop :=
  0 < q_net_amount q /\ 0 <= q_service_fee q /\
  q_net_amount q + q_service_fee q = dr_gross_amount r.

(** The authorization commits to this deposit, this quote and a real origin. *)
Record authorization_binds (r : DepositRecord) (q : DepositQuote) (a : MintAuthorizationRecord)
    : Prop := {
  binds_id : ma_deposit_id (mar_authorization a) = dr_id r;
  binds_recipient : ma_recipient (mar_authorization a) <> zeros 20;
  binds_gross : ma_gross_amount (mar_authorization a) = dr_gross_amount r;
  binds_max_fee : ma_max_service_fee (mar_authorization a) = dr_max_service_fee r;
  binds_fee : ma_charged_service_fee (mar_authorization a) = q_service_fee q;
  binds_chain : mad_chain_id (mar_domain a) <> 0;
  binds_contract : mad_verifying_contract (mar_domain a) <> zeros 20;
  binds_digest : mar_digest a <> zeros 32;
  binds_origin : mao_finalized_block_hash (mar_origin a) <> zeros 32;
  binds_epoch : ma_authorization_epoch (mar_authorization a) <> 0;
  binds_name : mad_name (mar_domain a) = MINT_AUTHORIZATION_DOMAIN_NAME;
  binds_version : mad_version (mar_domain a) = MINT_AUTHORIZATION_DOMAIN_VERSION;
  binds_deadline : MintAuthorization_deadline_from_issued_at_timestamp
      (mao_issued_at_timestamp (mar_origin a)) = Some (ma_deadline (mar_authorization a));
}.

Definition pristine (a : MintAuthorizationRecord) : Prop :=
  mar_signature a = None /\ mar_signature_dispatched a = false /\
  mar_signature_dispatch_attempt a = 0.

(** The signature, if there is one, was dispatched and has 65 bytes. *)
Definition signature_wf (a : MintAuthorizationRecord) : Prop :=
  forall s, mar_signature a = Some s -> length s = 65%nat /\ mar_signature_dispatched a = true.

Definition committed (r : DepositRecord) (q : DepositQuote) (a : MintAuthorizationRecord) : Prop :=
  dr_quote r = Some q /\ dr_mint_authorization r = Some a /\
  quote_splits r q /\ authorization_binds r q a /\ signature_wf a.

(** The evidence proves the mint of exactly this authorization. *)
Record finalizes (a : MintAuthorizationRecord) (ev : MintFinalizationEvidence) : Prop := {
  fin_digest : mfe_authorization_digest ev = mar_digest a;
  fin_id : mfe_deposit_id ev = ma_deposit_id (mar_authorization a);
  fin_recipient : mfe_recipient ev = ma_recipient (mar_authorization a);
  fin_chain : mfe_chain_id ev = mad_chain_id (mar_domain a);
  fin_contract : mfe_verifying_contract ev = mad_verifying_contract (mar_domain a);
  fin_gross : mfe_gross_amount ev = ma_gross_amount (mar_authorization a);
  fin_fee : mfe_charged_service_fee ev = ma_charged_service_fee (mar_authorization a);
  fin_minted : mfe_minted_amount ev
      = ma_gross_amount (mar_authorization a) - ma_charged_service_fee (mar_authorization a);
  fin_origin : mao_finalized_block_number (mar_origin a) <= mfe_receipt_block_number ev;
  fin_succeeded : mfe_receipt_succeeded ev = true;
  fin_finalized : mfe_receipt_block_number ev <= mfe_finalized_block_number ev;
  fin_transaction : mfe_transaction_hash ev <> zeros 32;
  fin_receipt_hash : mfe_receipt_block_hash ev <> zeros 32;
  fin_block_hash : mfe_finalized_block_hash ev <> zeros 32;
  fin_request : mfe_rpc_request_digest ev <> zeros 32;
  fin_response : mfe_rpc_response_digest ev <> zeros 32;
}.

(** The evidence proves that the authorization expired unused. *)
Record expires (a : MintAuthorizationRecord) (ev : MintExpiryEvidence) : Prop := {
  exp_digest : mee_authorization_digest ev = mar_digest a;
  exp_id : mee_deposit_id ev = ma_deposit_id (mar_authorization a);
  exp_chain : mee_chain_id ev = mad_chain_id (mar_domain a);
  exp_contract : mee_verifying_contract ev = mad_verifying_contract (mar_domain a);
  exp_origin : mao_finalized_block_number (mar_origin a) <= mee_finalized_block_number ev;
  exp_block_hash : mee_finalized_block_hash ev <> zeros 32;
  exp_runtime : mee_runtime_sha256 ev <> zeros 32;
  exp_request : mee_rpc_request_digest ev <> zeros 32;
  exp_response : mee_rpc_response_digest ev <> zeros 32;
  exp_unprocessed : mee_deposit_processed ev = false;
  exp_deadline : ma_deadline (mar_authorization a) < mee_finalized_block_timestamp ev;
}.

(** A refund of a signed deposit carries the proof of expiry; an unsigned one
    has nothing to prove. *)
Definition expiry_settled (r : DepositRecord) (ev : option MintExpiryEvidence) : Prop :=
  match ev with
  | Some ev => exists a, dr_mint_authorization r = Some a /\ is_some (mar_signature a) = true /\
                 expires a ev
  | None => DepositRecord_signed_authorization r = false
  end.

(** The transfer returns the deposit, less the fees, to the account it came
    from. *)
Record refund_pays (r : DepositRecord) (attempt : TransferAttempt) : Prop := {
  refund_operation : lti_operation (ta_identity attempt) = RefundDeposit;
  refund_spender : lti_spender (ta_identity attempt) = None;
  refund_from : lti_from (ta_identity attempt) = lti_to (dr_transfer r);
  refund_to : lti_to (ta_identity attempt) = lti_from (dr_transfer r);
  refund_amount_nonneg : 0 <= lti_amount (ta_identity attempt);
  refund_fee_nonneg : 0 <= lti_fee (ta_identity attempt);
  refund_total : lti_amount (ta_identity attempt) + lti_fee (ta_identity attempt)
      + charged_fee r = dr_gross_amount r;
}.

Definition unquoted (r : DepositRecord) : Prop :=
  dr_quote r = None /\ dr_mint_authorization r = None.

Definition no_evidence (r : DepositRecord) : Prop :=
  dr_mint_finalization_evidence r = None /\ dr_mint_expiry_evidence r = None.

(** A deposit whose refund is open for [reason]. *)
Definition refundable (r : DepositRecord) (reason : DepositRefundReason) : Prop :=
  (unquoted r /\ reason <> Reason_AuthorizationExpired) \/
  exists q a, committed r q a /\
    (is_some (mar_signature a) = true -> reason = Reason_AuthorizationExpired).

Definition refunding (r : DepositRecord) (reason : DepositRefundReason) (attempt : TransferAttempt)
    : Prop :=
  refundable r reason /\ dr_mint_finalization_evidence r = None /\
  expiry_settled r (dr_mint_expiry_evidence r) /\ refund_pays r attempt.

Definition DepositRecord_state_wf (r : DepositRecord) : Prop :=
  match dr_state r with
  | FundingPending | EscrowedUnquoted _ | FundingReconciliationHold _ | Cancelled _ _ _ =>
      unquoted r /\ no_evidence r
  | AuthorizationPending _ =>
      exists q a, committed r q a /\ mar_signature a = None /\ no_evidence r
  | AuthorizationAvailable _ =>
      exists q a, committed r q a /\ is_some (mar_signature a) = true /\ no_evidence r
  | RefundAvailable reason _ => refundable r reason /\ no_evidence r
  | Minted _ =>
      exists q a ev, committed r q a /\ is_some (mar_signature a) = true /\
        dr_mint_finalization_evidence r = Some ev /\ dr_mint_expiry_evidence r = None /\
        finalizes a ev
  | RefundPending reason _ attempt | RefundReconciliationHold reason _ _ attempt
  | Refunded reason _ attempt _ _ => refunding r reason attempt
  end.

Record DepositRecord_wf (r : DepositRecord) : Prop := {
  dwf_gross : 0 < dr_gross_amount r <= u128_max;
  dwf_operation : lti_operation (dr_transfer r) = PullDeposit;
  dwf_amount : lti_amount (dr_transfer r) = dr_gross_amount r;
  dwf_state : DepositRecord_state_wf r;
}.

Definition DepositEvent_ranged (e : DepositEvent) : Prop :=
  match e with
  | CommitAuthorization q a =>
      is_u128 (q_service_fee q) /\ is_u128 (q_net_amount q)
  | StartRefund _ attempt _ =>
      is_u128 (lti_amount (ta_identity attempt)) /\ is_u128 (lti_fee (ta_identity attempt))
  | _ => True
  end.

(** ** The protocol *)

Definition deposit_with (r : DepositRecord) (state : DepositState) (q : option DepositQuote)
    (a : option MintAuthorizationRecord) (fin : option MintFinalizationEvidence)
    (exp : option MintExpiryEvidence) : DepositRecord :=
  DepositRecord_commit r
    {| dn_state := state; dn_quote := q; dn_authorization := a;
       dn_finalization_evidence := fin; dn_expiry_evidence := exp; dn_fee_delta := 0 |}.

Definition deposit_with_state (r : DepositRecord) (state : DepositState) : DepositRecord :=
  deposit_with r state (dr_quote r) (dr_mint_authorization r)
    (dr_mint_finalization_evidence r) (dr_mint_expiry_evidence r).

Definition with_signature (a : MintAuthorizationRecord) (signature : bytes)
    : MintAuthorizationRecord :=
  {| mar_authorization := mar_authorization a;
     mar_domain := mar_domain a;
     mar_digest := mar_digest a;
     mar_origin := mar_origin a;
     mar_signature_dispatch_attempt := mar_signature_dispatch_attempt a;
     mar_signature_dispatched := mar_signature_dispatched a;
     mar_signature := Some signature |}.

(** The mint amount the record keeps reserved. *)
Definition reserved (r : DepositRecord) : Z :=
  if DepositRecord_reserves_mint_resources r then map_or 0 q_net_amount (dr_quote r) else 0.

(** When, and why, a deposit that is not minted may be refunded. *)
Inductive refund_opens (r : DepositRecord) : DepositRefundReason -> option Z -> Z -> Prop :=
| Opens_unquoted f reason :
    dr_state r = EscrowedUnquoted f -> reason <> Reason_AuthorizationExpired ->
    refund_opens r reason None f
| Opens_unsigned f reason :
    dr_state r = AuthorizationPending f ->
    reason = Reason_RefundAmountTooSmall \/ reason = Reason_InvalidRecipient ->
    refund_opens r reason None f
| Opens_expired f a t :
    dr_state r = AuthorizationPending f \/ dr_state r = AuthorizationAvailable f ->
    dr_mint_authorization r = Some a -> ma_deadline (mar_authorization a) < t ->
    refund_opens r Reason_AuthorizationExpired (Some t) f.

Definition deposit_effects (after add release fee debit escrow minted : Z) : ApplyResult :=
  ApplyResult_applied_deposit
    {| dae_reservation_after := after; dae_reservation_add := add;
       dae_reservation_release := release; dae_fee_credit := fee;
       dae_pending_liability_debit := debit; dae_escrow_debit := escrow;
       dae_mint_supply_increase := minted |}.

Abbreviation no_effects := (deposit_effects 0 0 0 0 0 0 0).

(** The record already is what the event would make of it. *)
Definition deposit_already_recorded (r : DepositRecord) (e : DepositEvent) : Prop :=
  match e with
  | FundingSucceeded b => DepositRecord_funding_ledger_block_index r = Some b
  | FundingAmbiguous h => dr_state r = FundingReconciliationHold h
  | FundingFailed code => dr_state r = Cancelled None None (Some code)
  | CommitAuthorization q a =>
      dr_quote r = Some q /\ dr_mint_authorization r = Some a /\
      match dr_state r with
      | AuthorizationPending _ | AuthorizationAvailable _ | RefundAvailable _ _ | Minted _ => True
      | _ => False
      end
  | AuthorizationSigned s _ =>
      exists f a, dr_state r = AuthorizationAvailable f /\ dr_mint_authorization r = Some a /\
        mar_signature a = Some s
  | MarkRefundAvailable reason _ => exists f, dr_state r = RefundAvailable reason f
  | MintReconciled ev =>
      (exists f, dr_state r = Minted f) /\ dr_mint_finalization_evidence r = Some ev
  | StartRefund reason attempt ev =>
      (exists f, dr_state r = RefundPending reason f attempt) /\ dr_mint_expiry_evidence r = ev
  | RefundSucceeded b => exists reason f attempt, dr_state r = Refunded reason f attempt b None
  | RefundAmbiguous h =>
      exists reason f attempt, dr_state r = RefundReconciliationHold reason f h attempt
  end.

Inductive DepositStep (r : DepositRecord) : DepositEvent -> ApplyResult -> DepositRecord -> Prop :=
| DStep_replay e :
    deposit_already_recorded r e ->
    DepositStep r e ApplyResult_idempotent r
| DStep_funded b :
    dr_state r = FundingPending ->
    DepositStep r (FundingSucceeded b) no_effects (deposit_with_state r (EscrowedUnquoted b))
| DStep_funding_ambiguous h :
    dr_state r = FundingPending ->
    DepositStep r (FundingAmbiguous h) no_effects
      (deposit_with_state r (FundingReconciliationHold h))
| DStep_funding_failed code :
    dr_state r = FundingPending ->
    DepositStep r (FundingFailed code) no_effects
      (deposit_with_state r (Cancelled None None (Some code)))
| DStep_commit f q a :
    dr_state r = EscrowedUnquoted f ->
    quote_splits r q -> authorization_binds r q a -> pristine a ->
    DepositStep r (CommitAuthorization q a)
      (deposit_effects (q_net_amount q) (q_net_amount q) 0 0 0 0 0)
      (deposit_with r (AuthorizationPending f) (Some q) (Some a) None None)
| DStep_signed f q a signature t :
    dr_state r = AuthorizationPending f ->
    dr_quote r = Some q -> dr_mint_authorization r = Some a ->
    mar_signature_dispatched a = true -> length signature = 65%nat ->
    t < ma_deadline (mar_authorization a) ->
    DepositStep r (AuthorizationSigned signature t)
      (deposit_effects (q_net_amount q) 0 0 (q_service_fee q) (q_service_fee q) 0 0)
      (deposit_with r (AuthorizationAvailable f) (Some q) (Some (with_signature a signature))
         None None)
| DStep_mark_refund reason t f :
    refund_opens r reason t f ->
    DepositStep r (MarkRefundAvailable reason t)
      (deposit_effects 0 0 (reserved r) 0 0 0 0)
      (deposit_with_state r (RefundAvailable reason f))
| DStep_minted f q a ev :
    (dr_state r = AuthorizationAvailable f \/ exists reason, dr_state r = RefundAvailable reason f) ->
    dr_quote r = Some q -> dr_mint_authorization r = Some a ->
    is_some (mar_signature a) = true -> finalizes a ev ->
    DepositStep r (MintReconciled ev)
      (deposit_effects 0 0 (reserved r) 0 (q_net_amount q) 0 (q_net_amount q))
      (deposit_with r (Minted f) (Some q) (Some a) (Some ev) None)
| DStep_start_refund reason f attempt ev :
    dr_state r = RefundAvailable reason f ->
    ta_attempt_no attempt = 0 -> refund_pays r attempt -> expiry_settled r ev ->
    DepositStep r (StartRefund reason attempt ev) no_effects
      (deposit_with r (RefundPending reason f attempt) (dr_quote r) (dr_mint_authorization r)
         None ev)
| DStep_refunded reason f attempt b :
    dr_state r = RefundPending reason f attempt ->
    DepositStep r (RefundSucceeded b)
      (let paid := dr_gross_amount r - charged_fee r in deposit_effects 0 0 0 0 paid paid 0)
      (deposit_with_state r (Refunded reason f attempt b None))
| DStep_refund_ambiguous reason f attempt h :
    dr_state r = RefundPending reason f attempt ->
    DepositStep r (RefundAmbiguous h) no_effects
      (deposit_with_state r (RefundReconciliationHold reason f h attempt)).

#[export] Hint Constructors DepositStep refund_opens : bridge.

(** ** What the guards decide *)

Lemma deposit_already_recorded_spec r e :
  DepositRecord_is_idempotent r e = true <-> deposit_already_recorded r e.
Proof.
  unfold DepositRecord_is_idempotent, deposit_already_recorded.
  destruct e; [by reflect|..];
    destruct (dr_state r) as [| | | | | | | | |? ? ? ? []|[] [] []]; simpl; reflect;
    try naive_solver.
  destruct (dr_mint_authorization r) as [a|]; simpl; naive_solver.
Qed.

Lemma DepositQuote_validate_Ok q gross :
  is_u128 (q_net_amount q) -> is_u128 gross ->
  is_ok (DepositQuote_validate q gross) = true <->
  0 < q_net_amount q /\ q_net_amount q + q_service_fee q = gross.
Proof.
  intros Hn Hg. unfold DepositQuote_validate, Amount_checked_add, ok_or, checked_add. ranges.
  repeat (case_match; reflect; simplify_eq/=); split; intros; simplify_eq; try done;
    destruct_and?; lia.
Qed.

Lemma commit_guard_accepts r q a :
  DepositRecord_wf r -> is_u128 (q_service_fee q) -> is_u128 (q_net_amount q) ->
  DepositEventGuard_accepts (commit_authorization_guard r q a).1 = true <->
  quote_splits r q /\ authorization_binds r q a /\ pristine a.
Proof.
  intros [Hg _ _ _] Hf Hn. unfold commit_authorization_guard. cbn [fst DepositEventGuard_accepts].
  unfold authorization_commit_allowed_body, pristine, quote_splits.
  rewrite !andb_true_iff, DepositQuote_validate_Ok by (ranges; lia). reflect. ranges.
  split; [|intros (? & [] & ?)]; intros; destruct_and?; split_and!; try done; try lia.
Qed.

Lemma signed_guard_accepts r s t :
  DepositEventGuard_accepts (authorization_signed_guard r s t).1 = true <->
  exists a, dr_mint_authorization r = Some a /\ mar_signature_dispatched a = true /\
    mar_signature a = None /\ length s = 65%nat /\ t < ma_deadline (mar_authorization a).
Proof.
  unfold authorization_signed_guard. cbn [fst DepositEventGuard_accepts].
  unfold signature_install_allowed_body, mint_authorization_before_deadline_body.
  rewrite !andb_true_iff, Nat.eqb_eq, Z.ltb_lt.
  destruct (dr_mint_authorization r) as [a|]; simpl; [|naive_solver].
  rewrite is_none_true. naive_solver.
Qed.

Lemma mark_guard_accepts r reason t :
  DepositRecord_wf r ->
  DepositEventGuard_accepts (mark_refund_available_guard r reason t).1 = true <->
  exists f, refund_opens r reason t f.
Proof.
  intros [_ _ _ Hst]. unfold DepositRecord_state_wf in Hst.
  unfold mark_refund_available_guard. cbn [fst DepositEventGuard_accepts]. split.
  - destruct (dr_state r) eqn:Es, t as [t|]; try done; destruct reason; intros H; try done;
      try (destruct Hst as (q & a & (_ & Ha & _) & Hst); rewrite Ha in H);
      simpl in H; reflect; eauto 8 with bridge.
  - intros [f Hop]. destruct Hop as [f reason Hs Hr|f reason Hs Hr|f a t Hs Ha Ht].
    + rewrite Hs. destruct reason; by reflect.
    + rewrite Hs in Hst |- *. destruct Hst as (q & a & (_ & Ha & _) & Hsig & _).
      rewrite Ha. simpl. rewrite Hsig. by destruct Hr as [-> | ->].
    + destruct Hs as [Hs|Hs]; rewrite Hs, Ha; simpl; reflect; done.
Qed.

Lemma mint_guard_accepts r ev :
  DepositEventGuard_accepts (mint_reconciled_guard r ev).1 = true <->
  exists a, dr_mint_authorization r = Some a /\ is_some (mar_signature a) = true /\
    ma_charged_service_fee (mar_authorization a) <= ma_gross_amount (mar_authorization a) /\
    finalizes a ev.
Proof.
  unfold mint_reconciled_guard. cbn [fst DepositEventGuard_accepts].
  unfold mint_finalization_allowed_body.
  destruct (dr_mint_authorization r) as [a|]; simpl; [|reflect; naive_solver].
  unfold checked_sub. destruct (Z.leb_spec (ma_charged_service_fee (mar_authorization a))
    (ma_gross_amount (mar_authorization a))) as [Hle|Hgt]; reflect.
  - split.
    + intros Hg. destruct_and?. exists a. split_and!; try done; [by apply is_some_true|].
      split; try done; congruence.
    + intros (? & [= <-] & Hs & _ & []). apply is_some_true in Hs.
      split_and!; try done; congruence.
  - split; [intros; destruct_and?; done|]. intros (? & [= <-] & ? & ? & _). lia.
Qed.

Lemma expiry_evidence_matches_spec r ev :
  DepositRecord_expiry_evidence_matches r ev = true <->
  exists a, dr_mint_authorization r = Some a /\ expires a ev.
Proof.
  unfold DepositRecord_expiry_evidence_matches, expiry_refund_allowed, expiry_refund_allowed_body.
  destruct (dr_mint_authorization r) as [a|]; [|naive_solver]. reflect. split.
  - intros. destruct_and?. exists a. by split.
  - intros (? & [= <-] & []). by split_and!.
Qed.

(** Every well-formed record is unquoted or bound by a committed authorization. *)
Lemma wf_unquoted_or_committed r :
  DepositRecord_wf r -> unquoted r \/ exists q a, committed r q a.
Proof.
  intros [_ _ _ Hst]. unfold DepositRecord_state_wf, refunding, refundable in Hst.
  destruct (dr_state r); naive_solver.
Qed.

Lemma charged_fee_range r : DepositRecord_wf r -> 0 <= charged_fee r < dr_gross_amount r.
Proof.
  intros Hwf. pose proof (dwf_gross r Hwf). unfold charged_fee.
  destruct (wf_unquoted_or_committed r Hwf) as [[-> ?]|(q & a & -> & _ & [] & _)]; simpl;
    case_match; lia.
Qed.

Lemma refund_attempt_matches_spec r attempt fee :
  is_u128 (lti_amount (ta_identity attempt)) -> is_u128 (lti_fee (ta_identity attempt)) ->
  dr_gross_amount r <= u128_max -> 0 <= charged_fee r -> fee = charged_fee r ->
  let identity := ta_identity attempt in
  (ta_attempt_no attempt =? 0)
  && bool_decide (lti_operation identity = RefundDeposit)
  && is_none (lti_spender identity)
  && bool_decide (lti_from identity = lti_to (dr_transfer r))
  && bool_decide (lti_to identity = lti_from (dr_transfer r))
  && is_some_and
       (checked_add u128_max (lti_amount identity) (lti_fee identity)
          ≫= fun amount => checked_add u128_max amount fee)
       (fun amount => amount =? dr_gross_amount r) = true <->
  ta_attempt_no attempt = 0 /\ refund_pays r attempt.
Proof.
  intros Ha Hf Hg Hc ->. simpl. reflect. setoid_rewrite Z.eqb_eq. ranges. split.
  - intros ([[[[? ?] ?] ?] ?] & total & Htotal & Heq).
    apply bind_Some in Htotal as (part & [? ->]%checked_add_Some & [? ->]%checked_add_Some).
    split; [done|]. split; done || lia.
  - intros [? []]. split_and!; try done. exists (dr_gross_amount r). split; [|done].
    apply bind_Some. setoid_rewrite checked_add_Some.
    exists (lti_amount (ta_identity attempt) + lti_fee (ta_identity attempt)). lia.
Qed.

Lemma signed_authorization_true r :
  DepositRecord_signed_authorization r = true <->
  exists a, dr_mint_authorization r = Some a /\ is_some (mar_signature a) = true.
Proof. apply is_some_and_true. Qed.

Lemma signed_and_expires_spec r ev :
  DepositRecord_signed_authorization r = true /\
  DepositRecord_expiry_evidence_matches r ev = true <-> expiry_settled r (Some ev).
Proof.
  rewrite signed_authorization_true, expiry_evidence_matches_spec. simpl. naive_solver.
Qed.

Lemma start_guard_accepts r reason attempt ev :
  is_u128 (lti_amount (ta_identity attempt)) -> is_u128 (lti_fee (ta_identity attempt)) ->
  DepositRecord_wf r ->
  DepositEventGuard_accepts (start_refund_guard r reason attempt ev).1 = true <->
  (exists f, dr_state r = RefundAvailable reason f) /\
  ta_attempt_no attempt = 0 /\ refund_pays r attempt /\ expiry_settled r ev.
Proof.
  intros Ha Hf Hwf. pose proof (charged_fee_range r Hwf) as Hc.
  destruct Hwf as [Hg _ _ Hst]. unfold DepositRecord_state_wf in Hst.
  unfold start_refund_guard. cbn [fst DepositEventGuard_accepts].
  fold (charged_fee r). unfold refund_start_allowed_body. rewrite andb_true_iff.
  rewrite refund_attempt_matches_spec by (done || lia).
  destruct (dr_state r) as [| | | |expected f| | | | | |] eqn:Es;
    try (split; [intros [_ ?]; done|intros [[? ?] _]; done]).
  destruct ev as [ev|].
  - rewrite <- signed_and_expires_spec.
    destruct (DepositRecord_signed_authorization r) eqn:Hsig; rewrite ?andb_true_r, ?andb_false_r.
    + apply signed_authorization_true in Hsig as (a & Ha' & Hsig).
      destruct Hst as [[[[_ ?] _]|(q & a' & (_ & Ha'' & _) & Hexp)] _]; [congruence|].
      simplify_eq. specialize (Hexp Hsig). case_match; reflect; naive_solver.
    + split; [intros [_ ?]; done|]. intros (_ & _ & _ & ? & _). done.
  - unfold expiry_settled. destruct (DepositRecord_signed_authorization r); simpl; reflect.
    + split; [intros [_ ?]; done|]. intros (_ & _ & _ & ?). done.
    + clear Hst. naive_solver.
Qed.

(** ** The implementation follows the protocol *)

Lemma reserved_mint_amount_wf r :
  DepositRecord_wf r -> DepositRecord_reserved_mint_amount r = Ok (reserved r).
Proof.
  intros [_ _ _ Hst].
  unfold DepositRecord_reserved_mint_amount, reserved, DepositRecord_reserves_mint_resources.
  unfold DepositRecord_state_wf in Hst. destruct (dr_state r); try done; simpl;
    destruct Hst as (q & a & (-> & _) & _); done.
Qed.

(** The condition each event's guard decides. *)
Definition deposit_guard (r : DepositRecord) (e : DepositEvent) : Prop :=
  match e with
  | CommitAuthorization q a => quote_splits r q /\ authorization_binds r q a /\ pristine a
  | AuthorizationSigned s t =>
      exists a, dr_mint_authorization r = Some a /\ mar_signature_dispatched a = true /\
        mar_signature a = None /\ length s = 65%nat /\ t < ma_deadline (mar_authorization a)
  | MarkRefundAvailable reason t => exists f, refund_opens r reason t f
  | MintReconciled ev =>
      exists a, dr_mint_authorization r = Some a /\ is_some (mar_signature a) = true /\
        ma_charged_service_fee (mar_authorization a) <= ma_gross_amount (mar_authorization a) /\
        finalizes a ev
  | StartRefund reason attempt ev =>
      (exists f, dr_state r = RefundAvailable reason f) /\ ta_attempt_no attempt = 0 /\
      refund_pays r attempt /\ expiry_settled r ev
  | _ => True
  end.

Lemma transition_guard_accepts r e :
  DepositRecord_wf r -> DepositEvent_ranged e ->
  DepositEventGuard_accepts (DepositRecord_transition_guard r e).1 = true <-> deposit_guard r e.
Proof.
  intros Hwf He. destruct e; simpl in He; destruct_and?; try done;
    [by apply commit_guard_accepts | by apply signed_guard_accepts
    | by apply mark_guard_accepts | by apply mint_guard_accepts | by apply start_guard_accepts].
Qed.

Lemma transition_guard_matches r e :
  DepositEventGuard_matches_event (DepositRecord_transition_guard r e).1 (DepositEvent_code e) = true.
Proof. by destruct e. Qed.

(** The kernel's effects for an event the guard accepts. *)
Definition kernel_effects (r : DepositRecord) (e : DepositEvent) (next : Z) : DepositEffects :=
  let i := DepositRecord_transition_input r e Guard_Funding (reserved r) in
  let n := deposit_numeric_effects (dti_state i) (dti_event i) (dti_gross_amount i)
             (dti_net_amount i) (dti_service_fee i) (dti_reserved_amount i) in
  {| de_next_state := next;
     de_reservation_active := deposit_reservation_active next;
     de_release_reservation :=
       deposit_reservation_active (dti_state i) && negb (deposit_reservation_active next);
     de_charge_service_fee := deposit_charge_service_fee (dti_state i) (dti_event i);
     de_reservation_after := ne_reservation_after n;
     de_reservation_add := ne_reservation_add n;
     de_reservation_release := ne_reservation_release n;
     de_fee_credit := ne_fee_credit n;
     de_pending_liability_debit := ne_pending_liability_debit n;
     de_escrow_debit := ne_escrow_debit n;
     de_mint_supply_increase := ne_mint_supply_increase n |}.

(** [DepositRecord_apply] on a well-formed record, with its guard opened. *)
Lemma deposit_apply_eq r e :
  DepositRecord_wf r ->
  DepositRecord_apply r e =
    let event := match e with
                 | FundingSucceeded b => (1, b) | RefundSucceeded b => (2, b) | _ => (0, 0)
                 end in
    let guard := DepositRecord_transition_guard r e in
    let rejection := Err (default (InvalidTransition "deposit" (DepositEvent_name e)) guard.2) in
    match deposit_ledger_block_transition (DepositRecord_ledger_blocks r).1
            (DepositRecord_ledger_blocks r).2 event.1 event.2 with
    | None => Err LedgerBlockConflict
    | Some blocks =>
        if DepositRecord_is_idempotent r e then Ok (ApplyResult_idempotent, r)
        else if negb (DepositEventGuard_accepts guard.1) then rejection
        else
          match deposit_transition (DepositState_code (dr_state r)) (DepositEvent_code e) with
          | None => rejection
          | Some next =>
              let? nx := DepositRecord_next r e in
              if bool_decide (DepositRecord_state_ledger_blocks (dn_state nx) <> blocks)
              then Err (InvalidTransition "deposit" "ledger_block_effect_mismatch")
              else if negb (DepositRecord_effects_match r nx (kernel_effects r e next))
              then Err (InvalidTransition "deposit" "transition_effect_mismatch")
              else Ok (ApplyResult_applied_deposit
                         (DepositEffects_accounting (kernel_effects r e next)),
                       DepositRecord_commit r nx)
          end
    end.
Proof.
  intros Hwf. unfold DepositRecord_apply.
  destruct (DepositRecord_transition_guard r e) as [g ge] eqn:Eg. cbn [fst snd].
  replace g with (DepositRecord_transition_guard r e).1 by (by rewrite Eg).
  rewrite (reserved_mint_amount_wf r Hwf).
  destruct (deposit_ledger_block_transition _ _ _ _); [|done]. cbn [ok_or].
  unfold deposit_transition_decision, deposit_transition.
  cbn [DepositRecord_transition_input dti_same_payload dti_guard dti_event dti_state].
  rewrite transition_guard_matches. cbn [negb orb].
  destruct (DepositRecord_is_idempotent r e); [done|].
  destruct (negb (DepositEventGuard_accepts _)); [done|].
  destruct (deposit_transition_body _ _ _ _ _ _ _ _ _ _ _ _ _ _); done.
Qed.

(** Case analysis on a step, with the names the proofs below use. *)
Ltac deposit_steps H :=
  destruct H as [e Hrec|b Hs|h Hs|code Hs|f q a Hs Hq Hb Hp|f q a sig t Hs Hq Ha Hd Hl Ht
    |reason t f Ho|f q a ev Hs Hq Ha Hsig Hfin|reason f attempt ev Hs Hn Hp Hx
    |reason f attempt b Hs|reason f attempt h Hs].

Lemma deposit_step_guard r e res r' :
  DepositRecord_wf r -> DepositStep r e res r' -> ar_outcome res = Applied ->
  DepositEvent_ranged e /\ deposit_guard r e.
Proof.
  intros Hwf Hstep Happ. pose proof (charged_fee_range r Hwf).
  pose proof (dwf_gross r Hwf). deposit_steps Hstep; try done; simpl.
  - split; [|done]. destruct Hq as (? & ? & ?). ranges; lia.
  - pose proof (dwf_state r Hwf) as Hst. unfold DepositRecord_state_wf in Hst.
    rewrite Hs in Hst. destruct Hst as (q' & a' & (_ & Ha' & _) & Hsig & _). naive_solver.
  - eauto.
  - destruct (wf_unquoted_or_committed r Hwf) as [[_ ?]|(q' & a' & Hc & Ha' & Hq' & [] & _)];
      [congruence|]. simplify_eq. split; [done|]. exists a. destruct Hq' as (? & ? & ?).
    split_and!; done || lia.
  - destruct Hp eqn:E. split; [ranges; lia|]. eauto.
Qed.

Lemma deposit_step_fresh r e res r' :
  DepositStep r e res r' -> ar_outcome res = Applied -> DepositRecord_is_idempotent r e = false.
Proof.
  intros Hstep Happ. unfold DepositRecord_is_idempotent. deposit_steps Hstep; try done;
    try (by rewrite Hs).
  - unfold DepositRecord_funding_ledger_block_index, DepositRecord_ledger_blocks. by rewrite Hs.
  - destruct Ho as [? ? Hs|? ? Hs|? ? ? [Hs|Hs]]; by rewrite Hs.
  - destruct Hs as [Hs|[reason Hs]]; by rewrite Hs.
Qed.

(** Evaluate [apply] on a record whose state, quote and authorization are known. *)
Ltac eval_apply r :=
  destruct r; cbn [dr_state dr_quote dr_mint_authorization dr_mint_finalization_evidence
    dr_mint_expiry_evidence dr_gross_amount] in *; simplify_eq;
  unfold DepositRecord_effects_match, kernel_effects, deposit_with_state, deposit_with, reserved,
    charged_fee, DepositRecord_next; simpl;
  try (rewrite bool_decide_false by tauto); rewrite ?map_or_const, ?Z.eqb_refl; simpl;
  try match goal with
      | H : 0 < ?net |- context [?net =? 0] => rewrite (proj2 (Z.eqb_neq net 0)) by lia
      end; try reflexivity.

Lemma next_signed_Ok r f sig q a :
  dr_quote r = Some q -> dr_mint_authorization r = Some a -> mar_signature a = None ->
  mar_signature_dispatched a = true -> length sig = 65%nat ->
  DepositRecord_next_signed r f sig =
    Ok {| dn_state := AuthorizationAvailable f; dn_quote := Some q;
          dn_authorization := Some (with_signature a sig);
          dn_finalization_evidence := dr_mint_finalization_evidence r;
          dn_expiry_evidence := dr_mint_expiry_evidence r; dn_fee_delta := q_service_fee q |}.
Proof.
  intros Hq Ha Hs Hd Hl. unfold DepositRecord_next_signed. rewrite Hq, Ha. cbn [ok_or].
  unfold MintAuthorizationRecord_install_signature, with_signature. by rewrite Hs, Hd, Hl.
Qed.

Lemma deposit_apply_complete_applied r e res r' :
  DepositRecord_wf r -> DepositStep r e res r' -> ar_outcome res = Applied ->
  DepositRecord_apply r e = Ok (res, r').
Proof.
  intros Hwf Hstep Happ. rewrite deposit_apply_eq by done. cbv zeta.
  destruct (deposit_step_guard r e res r' Hwf Hstep Happ) as [He Hg].
  rewrite (deposit_step_fresh r e res r' Hstep Happ).
  rewrite (proj2 (transition_guard_accepts r e Hwf He) Hg). clear He Hg.
  destruct Hwf as [[Hgross ?] _ _ Hst].
  unfold DepositRecord_state_wf, refunding, refundable, unquoted, no_evidence, committed in Hst.
  deposit_steps Hstep; [done|try (rewrite Hs in Hst)..].
  - destruct Hst as [[? ?] [? ?]]. eval_apply r.
  - destruct Hst as [[? ?] [? ?]]. eval_apply r.
  - destruct Hst as [[? ?] [? ?]]. eval_apply r.
  - destruct Hst as [[? ?] [? ?]]. eval_apply r.
  - destruct Hst as (q' & a' & (_ & ? & _) & Hsig & ? & ?). replace a' with a in Hsig by congruence.
    pose proof (next_signed_Ok r f sig q a Hq Ha Hsig Hd Hl) as Hn.
    eval_apply r. rewrite Hn. simpl. rewrite bool_decide_false, orb_true_r, !Z.eqb_refl by tauto.
    reflexivity.
  - destruct Ho as [? ? Hs ?|? ? Hs ?|? ? ? [Hs|Hs] ? ?]; rewrite Hs in Hst;
      [destruct Hst as [[? ?] [? ?]]|destruct Hst as (? & ? & (? & ? & _) & ? & ? & ?)..];
      eval_apply r.
  - destruct Hs as [Hs|[? Hs]]; rewrite Hs in Hst;
      [destruct Hst as (? & ? & (? & ? & [? _] & _) & ? & ? & ?)
      |destruct Hst as [[[[? ?] _]|(? & ? & (? & ? & [? _] & _) & _)] [? ?]]; [congruence|]];
      eval_apply r.
  - destruct Hst as [_ [? ?]]. clear Hp Hx. eval_apply r.
  - destruct Hst as [[[[? ?] _]|(q & a & (? & ? & (Hq & _ & Hsum) & _) & _)] [? _]].
    + eval_apply r. by rewrite Z.sub_0_r.
    + destruct (DepositRecord_signed_authorization r) eqn:Hsig; eval_apply r; rewrite Hsig; simpl.
      * rewrite (proj2 (Z.eqb_neq (q_net_amount q) 0)) by lia. by rewrite Z.add_simpl_r.
      * rewrite (proj2 (Z.eqb_neq (q_net_amount q + q_service_fee q) 0)) by lia.
        by rewrite Z.sub_0_r.
  - clear Hst. eval_apply r.
Qed.

Lemma deposit_apply_complete r e res r' :
  DepositRecord_wf r -> DepositStep r e res r' -> DepositRecord_apply r e = Ok (res, r').
Proof.
  intros Hwf Hstep. destruct (decide (ar_outcome res = Applied)) as [Happ|Hidem];
    [by apply deposit_apply_complete_applied|].
  deposit_steps Hstep; try done. rewrite deposit_apply_eq by done. cbv zeta.
  rewrite (proj2 (deposit_already_recorded_spec r e) Hrec).
  destruct e; simpl in Hrec; try done.
  - unfold DepositRecord_funding_ledger_block_index in Hrec.
    rewrite Hrec. unfold deposit_ledger_block_transition, deposit_ledger_block_transition_body.
    simpl. by rewrite Z.eqb_refl.
  - destruct Hrec as (reason & f & attempt & Hs). unfold DepositRecord_ledger_blocks.
    rewrite Hs. unfold deposit_ledger_block_transition, deposit_ledger_block_transition_body.
    simpl. by rewrite Z.eqb_refl.
Qed.

(** Guard and phase table together are enough for a step. *)
Lemma deposit_guard_step r e next :
  DepositRecord_wf r -> deposit_guard r e ->
  deposit_transition (DepositState_code (dr_state r)) (DepositEvent_code e) = Some next ->
  exists res r', DepositStep r e res r'.
Proof.
  intros Hwf Hg Ht.
  destruct (wf_unquoted_or_committed r Hwf) as [[Hq Ha]|(q & a & Hq & Ha & _)];
    destruct (dr_state r) eqn:Es, e; try done; simpl in Hg; open_hyps; simplify_eq;
    eauto 8 with bridge.
Qed.

(** Every call is a step, a ledger block conflict or a refusal by the guard. *)
Lemma deposit_apply_cases r e :
  DepositRecord_wf r -> DepositEvent_ranged e ->
  (exists res r', DepositStep r e res r') \/
  DepositRecord_apply r e = Err LedgerBlockConflict \/
  DepositRecord_apply r e =
    Err (default (InvalidTransition "deposit" (DepositEvent_name e))
           (DepositRecord_transition_guard r e).2).
Proof.
  intros Hwf He. rewrite deposit_apply_eq by done. cbv zeta.
  destruct (deposit_ledger_block_transition _ _ _ _); [|by right; left].
  destruct (DepositRecord_is_idempotent r e) eqn:Ei.
  { apply deposit_already_recorded_spec in Ei. eauto with bridge. }
  destruct (DepositEventGuard_accepts _) eqn:Eg; [|by right; right].
  apply transition_guard_accepts in Eg; [|done..]. cbn [negb].
  destruct (deposit_transition _ _) eqn:Et; [|by right; right].
  left. by eapply deposit_guard_step.
Qed.

Lemma deposit_apply_sound r e res r' :
  DepositRecord_wf r -> DepositEvent_ranged e ->
  DepositRecord_apply r e = Ok (res, r') -> DepositStep r e res r'.
Proof.
  intros Hwf He H. destruct (deposit_apply_cases r e Hwf He) as [(res' & r'' & Hstep)|[?|?]];
    [|congruence..].
  pose proof (deposit_apply_complete _ _ _ _ Hwf Hstep). congruence.
Qed.
