(* ===== verification/DepositInvariant.v ===== *)
(** * Invariants of a deposit

    What every event preserves: the request behind the record, its
    well-formedness, and the bookkeeping of the amounts that enter and leave
    it, first for one event and then along any history of events, signature
    dispatches and refused calls. *)

From S2P Require Import Prelude KernelPolicy KernelDeposit Types Authorization External Withdrawal Deposit DepositProtocol.

(** ** Well-formedness is preserved *)

(** What no event changes: the request the record was accepted for. *)
Definition same_request (r r' : DepositRecord) : Prop :=
  dr_id r' = dr_id r /\ dr_payload_hash r' = dr_payload_hash r /\
  dr_gross_amount r' = dr_gross_amount r /\ dr_max_service_fee r' = dr_max_service_fee r /\
  dr_transfer r' = dr_transfer r.

#[export] Instance same_request_equivalence : Equivalence same_request.
Proof. unfold same_request. split; repeat intro; naive_solver congruence. Qed.

Lemma binds_frame r r' q a a' :
  same_request r r' -> same_payload a a' -> authorization_binds r q a -> authorization_binds r' q a'.
Proof.
  intros (Hi & _ & Hg & Hm & _) (H1 & H2 & H3 & H4) [].
  split; rewrite <- ?H1, <- ?H2, <- ?H3, <- ?H4, ?Hi, ?Hg, ?Hm; done.
Qed.

Lemma committed_frame r r' q a :
  same_request r r' -> dr_quote r' = dr_quote r ->
  dr_mint_authorization r' = dr_mint_authorization r -> committed r q a -> committed r' q a.
Proof.
  intros Hr Hq Ha (? & ? & Hs & ? & ?). unfold committed. rewrite Hq, Ha.
  split_and!; try done; [|by eapply binds_frame].
  destruct Hr as (_ & _ & Hg & _). unfold quote_splits. by rewrite Hg.
Qed.

Lemma charged_fee_frame r r' :
  dr_quote r' = dr_quote r -> dr_mint_authorization r' = dr_mint_authorization r ->
  charged_fee r' = charged_fee r.
Proof.
  intros Hq Ha. unfold charged_fee, DepositRecord_signed_authorization. by rewrite Hq, Ha.
Qed.

Lemma refund_pays_frame r r' attempt :
  same_request r r' -> charged_fee r' = charged_fee r ->
  refund_pays r attempt -> refund_pays r' attempt.
Proof.
  intros (_ & _ & Hg & _ & Ht) Hc []. split; rewrite ?Ht, ?Hc, ?Hg; done.
Qed.

Lemma refundable_frame r r' reason :
  same_request r r' -> dr_quote r' = dr_quote r ->
  dr_mint_authorization r' = dr_mint_authorization r ->
  refundable r reason -> refundable r' reason.
Proof.
  intros Hr Hq Ha [[[? ?] ?]|(q & a & Hc & ?)].
  - left. unfold unquoted. by rewrite Hq, Ha.
  - right. exists q, a. split; [by eapply committed_frame|done].
Qed.

Lemma expiry_settled_frame r r' ev :
  dr_mint_authorization r' = dr_mint_authorization r ->
  expiry_settled r ev -> expiry_settled r' ev.
Proof.
  intros Ha. unfold expiry_settled, DepositRecord_signed_authorization. by rewrite Ha.
Qed.

Lemma refunding_frame r r' reason attempt :
  same_request r r' -> dr_quote r' = dr_quote r ->
  dr_mint_authorization r' = dr_mint_authorization r ->
  dr_mint_finalization_evidence r' = dr_mint_finalization_evidence r ->
  dr_mint_expiry_evidence r' = dr_mint_expiry_evidence r ->
  refunding r reason attempt -> refunding r' reason attempt.
Proof.
  intros Hr Hq Ha Hf He (? & ? & ? & ?). unfold refunding. rewrite Hf, He.
  split_and!; [by eapply refundable_frame|done|by eapply expiry_settled_frame|].
  eapply refund_pays_frame; [done|by apply charged_fee_frame|done].
Qed.

Lemma deposit_step_same_request r e res r' : DepositStep r e res r' -> same_request r r'.
Proof. destruct 1; done. Qed.

Lemma committed_unique r q' a' q a :
  committed r q' a' -> dr_quote r = Some q -> dr_mint_authorization r = Some a ->
  q' = q /\ a' = a.
Proof. intros (? & ? & _) ? ?. by simplify_eq. Qed.

Lemma signed_commit_wf r f q a sig :
  committed r q a -> mar_signature_dispatched a = true -> length sig = 65%nat ->
  committed (deposit_with r (AuthorizationAvailable f) (Some q) (Some (with_signature a sig))
    None None) q (with_signature a sig).
Proof.
  intros (? & ? & ? & ? & ?) Hd Hl. split_and!; try done.
  - by apply (binds_frame r _ q a).
  - intros s [= <-]. done.
Qed.

Lemma deposit_step_state_wf r e res r' :
  DepositRecord_state_wf r -> DepositStep r e res r' -> DepositRecord_state_wf r'.
Proof.
  intros Hst Hstep. pose proof (deposit_step_same_request r e res r' Hstep) as Hr.
  deposit_steps Hstep; [done|..]; unfold DepositRecord_state_wf in *; simpl;
    try rewrite Hs in Hst; try done.
  - exists q, a. destruct Hp as (Hsig & _ & _). split; [|done]. split_and!; try done.
    + by apply (binds_frame r _ q a).
    + intros s. by rewrite Hsig.
  - destruct Hst as (q' & a' & Hc & Hsig & Hev).
    destruct (committed_unique r q' a' q a) as [-> ->]; [done..|].
    exists q, (with_signature a sig). split; [by apply signed_commit_wf|done].
  - destruct Ho as [? ? Hs Hn|? ? Hs Hn|? ? ? [Hs|Hs] Ha Ht]; rewrite Hs in Hst.
    + destruct Hst as [Hq Hev]. split; [|done]. by left.
    + destruct Hst as (q & a & Hc & Hsig & Hev). split; [|done]. right. exists q, a.
      split; [by eapply committed_frame|]. by rewrite Hsig.
    + destruct Hst as (q & a' & Hc & _ & Hev). split; [|done]. right. exists q, a'.
      split; [by eapply committed_frame|done].
    + destruct Hst as (q & a' & Hc & _ & Hev). split; [|done]. right. exists q, a'.
      split; [by eapply committed_frame|done].
  - assert (exists q' a', committed r q' a') as (q' & a' & Hc).
    { destruct Hs as [Hs|[? Hs]]; rewrite Hs in Hst; unfold refundable, unquoted in Hst;
        naive_solver. }
    destruct (committed_unique r q' a' q a) as [-> ->]; [done..|].
    exists q, a, ev. split; [by eapply committed_frame|done].
  - destruct Hst as [Href [Hfin _]]. split_and!; try done.
    + by eapply refundable_frame.
    + by eapply refund_pays_frame.
  - by eapply refunding_frame.
  - by eapply refunding_frame.
Qed.

Lemma deposit_step_wf r e res r' :
  DepositRecord_wf r -> DepositStep r e res r' -> DepositRecord_wf r'.
Proof.
  intros [] Hstep. pose proof (deposit_step_same_request r e res r' Hstep) as (_ & _ & Hg & _ & Ht).
  split; rewrite ?Hg, ?Ht; try done. by eapply deposit_step_state_wf.
Qed.

Lemma deposit_accept_wf request r :
  is_u128 (dq_gross_amount request) ->
  DepositRecord_accept request = Ok r -> DepositRecord_wf r /\ dr_state r = FundingPending.
Proof.
  intros Hu H. unfold DepositRecord_accept in H. ranges.
  repeat (case_match; reflect; simplify_eq/=); destruct_and?.
  split; [|done]. split; simpl; try done; try lia. by apply dec_stable.
Qed.

Lemma deposit_step_recorded r e res r' :
  DepositStep r e res r' -> deposit_already_recorded r' e.
Proof.
  intros Hstep. deposit_steps Hstep; simpl; eauto 10.
Qed.

(** ** Bookkeeping *)

(** What the bridge owes for the deposit while it is neither minted nor
    refunded. *)
Definition open_liability (r : DepositRecord) : Z :=
  match dr_state r with
  | FundingPending | FundingReconciliationHold _ | Cancelled _ _ _ => 0
  | Minted _ | Refunded _ _ _ _ _ => 0
  | _ => dr_gross_amount r - charged_fee r
  end.

Definition minted_amount (r : DepositRecord) : Z :=
  match dr_state r with Minted _ => dr_gross_amount r - charged_fee r | _ => 0 end.

Definition refunded_amount (r : DepositRecord) : Z :=
  match dr_state r with Refunded _ _ _ _ _ => dr_gross_amount r - charged_fee r | _ => 0 end.

Definition funded_amount (r : DepositRecord) : Z :=
  map_or 0 (fun _ => dr_gross_amount r) (DepositRecord_funding_ledger_block_index r).

(** The effects move the deposit's balances from those of [r] to those of [r']. *)
Record effects_balance (r r' : DepositRecord) (e : DepositAccountingEffects) : Prop := {
  eb_reserved : reserved r' = reserved r + dae_reservation_add e - dae_reservation_release e;
  eb_fee : charged_fee r' = charged_fee r + dae_fee_credit e;
  eb_liability : open_liability r' - funded_amount r' =
      open_liability r - funded_amount r - dae_pending_liability_debit e;
  eb_minted : minted_amount r' = minted_amount r + dae_mint_supply_increase e;
  eb_refunded : refunded_amount r' = refunded_amount r + dae_escrow_debit e;
}.

Definition effects_of (res : ApplyResult) : DepositAccountingEffects :=
  default DepositAccountingEffects_ZERO (ar_deposit_effects res).

Lemma charged_fee_unsigned r : DepositRecord_signed_authorization r = false -> charged_fee r = 0.
Proof. intros H. unfold charged_fee. by rewrite H. Qed.

(** Evaluate the balances of a record whose state is known. *)
Ltac eval_balance r :=
  destruct r; cbn [dr_state dr_quote dr_mint_authorization dr_mint_finalization_evidence
    dr_mint_expiry_evidence dr_gross_amount] in *; simplify_eq;
  unfold effects_of; split; [split|];
  unfold reserved, open_liability, minted_amount, refunded_amount, funded_amount, charged_fee,
    DepositRecord_signed_authorization; simpl; try lia.

Lemma deposit_step_balance r e res r' :
  DepositRecord_wf r -> DepositStep r e res r' -> ar_outcome res = Applied ->
  effects_balance r r' (effects_of res) /\
  dae_reservation_after (effects_of res) = reserved r'.
Proof.
  intros Hwf Hstep Happ. pose proof (dwf_state r Hwf) as Hst.
  unfold DepositRecord_state_wf, refundable, unquoted, no_evidence, committed in Hst.
  deposit_steps Hstep; [done|try rewrite Hs in Hst..].
  - destruct Hst as [[? ?] _]. eval_balance r.
  - destruct Hst as [[? ?] _]. eval_balance r.
  - destruct Hst as [[? ?] _]. eval_balance r.
  - destruct Hst as [[? ?] _]. destruct Hp as (Hsig & _). eval_balance r; rewrite Hsig; simpl; lia.
  - destruct Hst as (q' & a' & (? & ? & _) & Hsig & _). eval_balance r; rewrite Hsig; simpl; lia.
  - destruct Ho as [? ? Hs ?|? ? Hs ?|? ? ? [Hs|Hs] ? ?]; rewrite Hs in Hst;
      [destruct Hst as [[? ?] _]|destruct Hst as (? & ? & (? & ? & _) & ? & _)..]; eval_balance r.
  - assert (q_net_amount q + q_service_fee q = dr_gross_amount r) as Hnet.
    { destruct (wf_unquoted_or_committed r Hwf) as [[? ?]|(q' & a' & ? & _ & (_ & _ & ?) & _)];
        congruence. }
    clear Hst. destruct Hs as [Hs|[? Hs]]; eval_balance r; rewrite Hsig; simpl; lia.
  - eval_balance r.
  - eval_balance r.
  - eval_balance r.
Qed.

(** ** Histories

    The canister also writes the record when it dispatches a signing request
    (the block of [settle_deposit] in [tasks.rs] that calls
    [dispatch_signature]). *)

Inductive SettlementActionError :=
| Action_AnonymousCaller
| Action_InvalidId
| Action_NotFound
| Action_Unauthorized
| Action_Busy
| Action_StorageFailure
| Action_WrongState
| Action_AutomaticProgressPending (next_run_at_ns : option Z)
| Action_RateLimited (retry_after_seconds : Z)
| Action_InsufficientCycles.

Definition DepositRecord_with_authorization
    (r : DepositRecord) (a : MintAuthorizationRecord) : DepositRecord :=
  deposit_with r (dr_state r) (dr_quote r) (Some a) (dr_mint_finalization_evidence r)
    (dr_mint_expiry_evidence r).

(** [Ok None] is an expired authorization, [Ok (Some digest)] a dispatched one. *)
Definition dispatch_mint_signature (current : DepositRecord) (dispatch_observed_timestamp : Z)
    : Result SettlementActionError (option bytes * DepositRecord) :=
  let? authorization := ok_or (dr_mint_authorization current) Action_StorageFailure in
  if negb (mint_authorization_before_deadline dispatch_observed_timestamp
             (ma_deadline (mar_authorization authorization)))
  then Ok (None, current)
  else
    let '(attempt, authorization') := MintAuthorizationRecord_dispatch_signature authorization in
    let? _ := ok_or attempt Action_StorageFailure in
    Ok (Some (mar_digest authorization'), DepositRecord_with_authorization current authorization').

(** A dispatch keeps the payload and leaves the authorization unsigned. *)
Lemma dispatch_mint_signature_Ok r t digest r' :
  dispatch_mint_signature r t = Ok (digest, r') ->
  r' = r \/ exists a a', r' = DepositRecord_with_authorization r a' /\
    dr_mint_authorization r = Some a /\ same_payload a a' /\
    mar_signature a = None /\ mar_signature a' = None /\ mar_signature_dispatched a' = true.
Proof.
  unfold dispatch_mint_signature, MintAuthorizationRecord_dispatch_signature. intros H.
  destruct (dr_mint_authorization r) as [a|] eqn:Ha; [|done]. simpl in H.
  case_match; [simplify_eq; by left|]. right.
  destruct (mar_signature a) eqn:Hs; simpl in H; [done|].
  destruct (checked_add _ _ _); simplify_eq/=. by eexists a, _.
Qed.

Section dispatch_frame.
Context (r : DepositRecord) (a a' : MintAuthorizationRecord).
Hypothesis (Ha : dr_mint_authorization r = Some a) (Hp : same_payload a a').
Hypothesis (Hs : mar_signature a = None) (Hs' : mar_signature a' = None).

Let r' := DepositRecord_with_authorization r a'.

Lemma dispatch_signed : DepositRecord_signed_authorization r' = DepositRecord_signed_authorization r.
Proof. unfold DepositRecord_signed_authorization. rewrite Ha. simpl. by rewrite Hs, Hs'. Qed.

Lemma dispatch_charged_fee : charged_fee r' = charged_fee r.
Proof. unfold charged_fee. by rewrite dispatch_signed. Qed.

Lemma dispatch_committed q b :
  committed r q b -> b = a /\ committed r' q a'.
Proof.
  intros (? & ? & ? & ? & _). simplify_eq. split; [done|]. split_and!; try done.
  - by apply (binds_frame r _ q a).
  - intros s. by rewrite Hs'.
Qed.

Lemma dispatch_refundable reason : refundable r reason -> refundable r' reason.
Proof.
  intros [[[? ?] _]|(q & b & Hc & _)]; [congruence|].
  apply dispatch_committed in Hc as [-> Hc]. right. exists q, a'. by rewrite Hs'.
Qed.

Lemma dispatch_refunding reason attempt : refunding r reason attempt -> refunding r' reason attempt.
Proof.
  intros (? & ? & Hx & ?). split_and!; try done; [by apply dispatch_refundable| |].
  - unfold expiry_settled in *. simpl. case_match.
    + destruct Hx as (b & ? & Hb & _). simplify_eq. by rewrite Hs in Hb.
    + by rewrite dispatch_signed.
  - by eapply (refund_pays_frame r); [|apply dispatch_charged_fee|].
Qed.

Lemma dispatch_state_wf : DepositRecord_state_wf r -> DepositRecord_state_wf r'.
Proof.
  unfold DepositRecord_state_wf. simpl.
  destruct (dr_state r); try by apply dispatch_refunding.
  1,2,7,8: intros [[_ ?] _]; congruence.
  - intros (q & b & Hc & _ & ?). apply dispatch_committed in Hc as [-> Hc]. by exists q, a'.
  - intros (q & b & Hc & Hb & _). apply dispatch_committed in Hc as [-> _]. by rewrite Hs in Hb.
  - intros [? ?]. split; [by apply dispatch_refundable|done].
  - intros (q & b & ev & Hc & Hb & _). apply dispatch_committed in Hc as [-> _].
    by rewrite Hs in Hb.
Qed.
End dispatch_frame.

Lemma effects_balance_refl r : effects_balance r r DepositAccountingEffects_ZERO.
Proof. split; simpl; lia. Qed.

Lemma dispatch_wf r t digest r' :
  DepositRecord_wf r -> dispatch_mint_signature r t = Ok (digest, r') ->
  DepositRecord_wf r' /\ same_request r r' /\ effects_balance r r' DepositAccountingEffects_ZERO.
Proof.
  intros Hwf H. apply dispatch_mint_signature_Ok in H as [->|(a & a' & -> & Ha & Hp & Hs & Hs' & _)].
  { split_and!; try done. apply effects_balance_refl. }
  pose proof (dispatch_charged_fee r a a' Ha Hs Hs') as Hc. destruct Hwf.
  split_and!; [by split; [..|apply (dispatch_state_wf r a)]|done|].
  pose proof (eq_refl : reserved (DepositRecord_with_authorization r a') = reserved r).
  pose proof (eq_refl : funded_amount (DepositRecord_with_authorization r a') = funded_amount r).
  split; unfold open_liability, minted_amount, refunded_amount; rewrite ?Hc; simpl; lia.
Qed.

(** A history of calls on one deposit, the refused ones included. *)
Inductive DepositOp :=
| Op_apply (event : DepositEvent)
| Op_dispatch (timestamp : Z).

Definition DepositOp_ranged (op : DepositOp) : Prop :=
  match op with Op_apply e => DepositEvent_ranged e | Op_dispatch _ => True end.

Definition effects_add (a b : DepositAccountingEffects) : DepositAccountingEffects :=
  {| dae_reservation_after := dae_reservation_after b;
     dae_reservation_add := dae_reservation_add a + dae_reservation_add b;
     dae_reservation_release := dae_reservation_release a + dae_reservation_release b;
     dae_fee_credit := dae_fee_credit a + dae_fee_credit b;
     dae_pending_liability_debit := dae_pending_liability_debit a + dae_pending_liability_debit b;
     dae_escrow_debit := dae_escrow_debit a + dae_escrow_debit b;
     dae_mint_supply_increase := dae_mint_supply_increase a + dae_mint_supply_increase b |}.

(** The record after one call, and the effects the call reports. *)
Definition deposit_call (r : DepositRecord) (op : DepositOp)
    : DepositRecord * DepositAccountingEffects :=
  match op with
  | Op_apply e =>
      match DepositRecord_apply r e with
      | Ok (res, r') => (r', effects_of res)
      | Err _ => (r, DepositAccountingEffects_ZERO)
      end
  | Op_dispatch t =>
      match dispatch_mint_signature r t with
      | Ok (_, r') => (r', DepositAccountingEffects_ZERO)
      | Err _ => (r, DepositAccountingEffects_ZERO)
      end
  end.

Definition deposit_history (r : DepositRecord) (ops : list DepositOp)
    : DepositRecord * DepositAccountingEffects :=
  foldl (fun s op => let '(r', e) := deposit_call s.1 op in (r', effects_add s.2 e))
    (r, DepositAccountingEffects_ZERO) ops.

Lemma effects_balance_add r1 r2 r3 e1 e2 :
  effects_balance r1 r2 e1 -> effects_balance r2 r3 e2 ->
  effects_balance r1 r3 (effects_add e1 e2).
Proof. intros [] []. split; simpl; lia. Qed.

Lemma deposit_call_invariant r op :
  DepositRecord_wf r -> DepositOp_ranged op ->
  let '(r', e) := deposit_call r op in
  DepositRecord_wf r' /\ same_request r r' /\ effects_balance r r' e.
Proof.
  intros Hwf Hop. destruct op as [e|t]; simpl.
  - destruct (DepositRecord_apply r e) as [[res r']|] eqn:E;
      [|split_and!; try done; apply effects_balance_refl].
    apply deposit_apply_sound in E; [|done..]. split_and!.
    + by eapply deposit_step_wf.
    + by eapply deposit_step_same_request.
    + destruct (decide (ar_outcome res = Applied)) as [?|Hi];
        [by eapply deposit_step_balance|].
      deposit_steps E; try done. apply effects_balance_refl.
  - destruct (dispatch_mint_signature r t) as [[d r']|] eqn:E; [by eapply dispatch_wf|].
    split_and!; try done. apply effects_balance_refl.
Qed.

Lemma deposit_history_invariant r ops :
  DepositRecord_wf r -> Forall DepositOp_ranged ops ->
  let '(r', e) := deposit_history r ops in
  DepositRecord_wf r' /\ same_request r r' /\ effects_balance r r' e.
Proof.
  intros Hwf Hops. unfold deposit_history. induction ops as [|op ops IH] using rev_ind; simpl.
  - split_and!; try done. apply effects_balance_refl.
  - apply Forall_app in Hops as [Hops [Hop _]%Forall_cons_iff]. rewrite foldl_app. simpl.
    specialize (IH Hops). destruct (foldl _ _ _) as [r1 e1]. simpl.
    destruct IH as (Hwf1 & Hr1 & Hb1). pose proof (deposit_call_invariant r1 op Hwf1 Hop) as Hc.
    destruct (deposit_call r1 op) as [r2 e2]. destruct Hc as (? & ? & ?).
    split_and!; [done|by etransitivity|by eapply effects_balance_add].
Qed.

Lemma funding_block_conflict r b b' :
  DepositRecord_funding_ledger_block_index r = Some b -> b' <> b ->
  DepositRecord_apply r (FundingSucceeded b') = Err LedgerBlockConflict.
Proof.
  intros Hb Hne. unfold DepositRecord_apply. unfold DepositRecord_funding_ledger_block_index in Hb.
  rewrite Hb. unfold deposit_ledger_block_transition, deposit_ledger_block_transition_body. simpl.
  by rewrite (proj2 (Z.eqb_neq b b')) by congruence.
Qed.

Lemma refund_block_conflict r b b' :
  (DepositRecord_ledger_blocks r).2 = Some b -> b' <> b ->
  DepositRecord_apply r (RefundSucceeded b') = Err LedgerBlockConflict.
Proof.
  intros Hb Hne. unfold DepositRecord_apply. rewrite Hb.
  unfold deposit_ledger_block_transition, deposit_ledger_block_transition_body. simpl.
  rewrite (proj2 (Z.eqb_neq b b')) by congruence. by destruct (DepositRecord_ledger_blocks r).1.
Qed.

(** The only errors: a ledger block conflict, or the refusal the guard names. *)
Lemma deposit_apply_error r e err :
  DepositRecord_wf r -> DepositEvent_ranged e ->
  DepositRecord_apply r e = Err err ->
  err = LedgerBlockConflict \/
  err = default (InvalidTransition "deposit" (DepositEvent_name e))
          (DepositRecord_transition_guard r e).2.
Proof.
  intros Hwf He H. destruct (deposit_apply_cases r e Hwf He) as [(res & r' & Hstep)|[?|?]].
  - pose proof (deposit_apply_complete _ _ _ _ Hwf Hstep). congruence.
  - left. congruence.
  - right. congruence.
Qed.

(** A deposit that is minted, refunded or cancelled. *)
Definition deposit_closed (r : DepositRecord) : bool :=
  negb (deposit_nonterminal_indexed (DepositState_code (dr_state r))).

Lemma deposit_step_closed r e res r' :
  deposit_closed r = true -> DepositStep r e res r' -> r' = r /\ res = ApplyResult_idempotent.
Proof.
  unfold deposit_closed. intros Hc Hstep. deposit_steps Hstep; try done;
    try (by rewrite Hs in Hc).
  - destruct Ho as [? ? Hs|? ? Hs|? ? ? [Hs|Hs]]; by rewrite Hs in Hc.
  - destruct Hs as [Hs|[? Hs]]; by rewrite Hs in Hc.
Qed.

Lemma deposit_call_closed r op :
  DepositRecord_wf r -> DepositOp_ranged op -> deposit_closed r = true ->
  dr_state (deposit_call r op).1 = dr_state r /\
  (deposit_call r op).2 = DepositAccountingEffects_ZERO.
Proof.
  intros Hwf Hop Hc. destruct op as [e|t]; simpl.
  - destruct (DepositRecord_apply r e) as [[res r']|] eqn:E; [|done].
    apply deposit_apply_sound in E; [|done..].
    by destruct (deposit_step_closed r e res r' Hc E) as [-> ->].
  - destruct (dispatch_mint_signature r t) as [[d r']|] eqn:E; [|done].
    by apply dispatch_mint_signature_Ok in E as [->|(? & ? & -> & _)].
Qed.

(** What was funded is charged, minted, refunded or still owed. *)
Lemma deposit_books r :
  DepositRecord_wf r ->
  funded_amount r = charged_fee r + minted_amount r + refunded_amount r + open_liability r.
Proof.
  intros Hwf. pose proof (dwf_state r Hwf) as Hst. unfold DepositRecord_state_wf in Hst.
  unfold funded_amount, minted_amount, refunded_amount, open_liability,
    DepositRecord_funding_ledger_block_index, DepositRecord_ledger_blocks.
  destruct (dr_state r) eqn:Es; simpl; try lia; destruct Hst as [[_ Ha] _];
    rewrite charged_fee_unsigned; try done; unfold DepositRecord_signed_authorization; by rewrite Ha.
Qed.

Lemma deposit_pending_zero r :
  DepositRecord_wf r -> dr_state r = FundingPending ->
  reserved r = 0 /\ charged_fee r = 0 /\ open_liability r = 0 /\ minted_amount r = 0 /\
  refunded_amount r = 0 /\ funded_amount r = 0.
Proof.
  intros Hwf Hs. pose proof (deposit_books r Hwf) as Hb.
  unfold reserved, funded_amount, minted_amount, refunded_amount, open_liability,
    DepositRecord_reserves_mint_resources, DepositRecord_funding_ledger_block_index,
    DepositRecord_ledger_blocks in *. rewrite Hs in *. simpl in *. lia.
Qed.

Lemma deposit_history_snoc r ops op :
  deposit_history r (ops ++ [op]) =
    let '(r1, e1) := deposit_history r ops in
    let '(r2, e2) := deposit_call r1 op in (r2, effects_add e1 e2).
Proof. unfold deposit_history. rewrite foldl_app. simpl. by destruct (foldl _ _ _). Qed.

Lemma accept_request request r :
  DepositRecord_accept request = Ok r ->
  dr_id r = dq_id request /\ dr_gross_amount r = dq_gross_amount request /\
  dr_transfer r = dq_transfer request.
Proof. unfold DepositRecord_accept. intros H. repeat case_match; by simplify_eq/=. Qed.

Lemma charged_fee_committed r q a :
  committed r q a -> is_some (mar_signature a) = true ->
  charged_fee r = ma_charged_service_fee (mar_authorization a).
Proof.
  intros (Hq & Ha & _ & Hb & _) Hs. unfold charged_fee, DepositRecord_signed_authorization.
  rewrite Hq, Ha. simpl. rewrite Hs. symmetry. by apply (binds_fee r).
Qed.
