(* ===== verification/Examples.v ===== *)
(** * Concrete records

    One deposit of 1000 units with a fee of 50 and one withdrawal of 500 with a
    fee of 20, with the transfers and the evidence of their protocols.  The
    theorems of the other files are evaluated on them. *)

From S2P Require Import Prelude Types Authorization External Withdrawal Deposit DepositProtocol DepositInvariant.

Definition ex_user : Account := {| a_owner := [1]; a_subaccount := zeros 32 |}.
Definition ex_bridge : Account := {| a_owner := [9]; a_subaccount := zeros 32 |}.

Definition ex_transfer (operation : LedgerOperation) (amount fee created : Z)
    (from to : Account) (spender : option Account) : LedgerTransferIdentity :=
  {| lti_operation := operation; lti_created_at_time_ns := created; lti_memo := [created];
     lti_amount := amount; lti_fee := fee; lti_from := from; lti_to := to;
     lti_spender := spender |}.

Definition ex_request : DepositRequest :=
  {| dq_id := [7]; dq_payload_hash := [8]; dq_gross_amount := 1000;
     dq_user_max_service_fee := 60;
     dq_transfer := ex_transfer PullDeposit 1000 10 5 ex_user ex_bridge (Some ex_bridge) |}.

Definition ex_quote : DepositQuote := {| q_service_fee := 50; q_net_amount := 950 |}.

Definition ex_authorization : MintAuthorizationRecord :=
  {| mar_authorization :=
       {| ma_deposit_id := [7]; ma_recipient := [2]; ma_gross_amount := 1000;
          ma_max_service_fee := 60; ma_charged_service_fee := 50;
          ma_deadline := 1800; ma_authorization_epoch := 1 |};
     mar_domain := MintAuthorizationDomain_bridge 8453 [3];
     mar_digest := [4];
     mar_origin :=
       {| mao_finalized_block_number := 70; mao_finalized_block_hash := [5];
          mao_finalized_block_timestamp := 890; mao_issued_at_timestamp := 900 |};
     mar_signature_dispatch_attempt := 0; mar_signature_dispatched := false;
     mar_signature := None |}.

Definition ex_signature : bytes := replicate 65 1.

Definition ex_finalization : MintFinalizationEvidence :=
  {| mfe_deposit_id := [7]; mfe_recipient := [2]; mfe_authorization_digest := [4];
     mfe_chain_id := 8453; mfe_verifying_contract := [3]; mfe_gross_amount := 1000;
     mfe_charged_service_fee := 50; mfe_minted_amount := 950; mfe_transaction_hash := [6];
     mfe_log_index := 0; mfe_receipt_succeeded := true; mfe_receipt_block_number := 80;
     mfe_receipt_block_hash := [11]; mfe_finalized_block_number := 90;
     mfe_finalized_block_hash := [12]; mfe_rpc_request_digest := [13];
     mfe_rpc_response_digest := [14] |}.

Definition ex_expiry : MintExpiryEvidence :=
  {| mee_deposit_id := [7]; mee_authorization_digest := [4]; mee_chain_id := 8453;
     mee_verifying_contract := [3]; mee_deposit_processed := false;
     mee_finalized_block_number := 95; mee_finalized_block_hash := [15];
     mee_finalized_block_timestamp := 1801; mee_bridge_signer := [16];
     mee_mint_authorization_epoch := 1; mee_runtime_sha256 := [17];
     mee_rpc_request_digest := [18]; mee_rpc_response_digest := [19] |}.

(** The refund of the signed deposit: 1000 less the fee of 50 and the ledger
    fee of 10. *)
Definition ex_refund : TransferAttempt :=
  {| ta_attempt_no := 0; ta_identity := ex_transfer RefundDeposit 940 10 20 ex_bridge ex_user None |}.

Definition ex_deposit : DepositRecord :=
  {| dr_id := [7]; dr_payload_hash := [8]; dr_gross_amount := 1000; dr_max_service_fee := 60;
     dr_quote := None; dr_mint_authorization := None; dr_mint_finalization_evidence := None;
     dr_mint_expiry_evidence := None;
     dr_transfer := ex_transfer PullDeposit 1000 10 5 ex_user ex_bridge (Some ex_bridge);
     dr_state := FundingPending; dr_last_settlement_stop_reason := None |}.

Definition ex_withdrawal : WithdrawalRecord :=
  {| wr_id := [21]; wr_base_requester := [22]; wr_owner := [1]; wr_subaccount := zeros 32;
     wr_payload_hash := [23]; wr_amount := 500; wr_max_service_fee := 30;
     wr_charged_service_fee := 20; wr_amount_out := 480; wr_observed_at_ns := 6;
     wr_state := Observed; wr_last_settlement_stop_reason := None |}.

Definition ex_settlement : Settlement :=
  {| s_amount_out := 480; s_service_fee := 20; s_ledger_fee := 10 |}.

Definition ex_release : TransferAttempt :=
  {| ta_attempt_no := 0;
     ta_identity := ex_transfer ReleaseWithdrawal 480 10 30 ex_bridge ex_user None |}.

(** ** Histories of the example deposit *)

Definition ex_signed_ops : list DepositOp :=
  [Op_apply (FundingSucceeded 3);
   Op_apply (CommitAuthorization ex_quote ex_authorization);
   Op_dispatch 1000;
   Op_apply (AuthorizationSigned ex_signature 1001)].

Definition ex_mint_ops : list DepositOp :=
  ex_signed_ops ++ [Op_apply (MintReconciled ex_finalization)].

Definition ex_refund_ops : list DepositOp :=
  ex_signed_ops ++
  [Op_apply (MarkRefundAvailable Reason_AuthorizationExpired (Some 1801));
   Op_apply (StartRefund Reason_AuthorizationExpired ex_refund (Some ex_expiry));
   Op_apply (RefundSucceeded 44)].

Lemma ex_ops_ranged : Forall DepositOp_ranged ex_mint_ops /\ Forall DepositOp_ranged ex_refund_ops.
Proof. split; repeat constructor; simpl; lia. Qed.

Lemma ex_deposit_wf ops :
  Forall DepositOp_ranged ops -> DepositRecord_wf (deposit_history ex_deposit ops).1.
Proof.
  intros Hops. assert (DepositRecord_wf ex_deposit) as Hwf by (split; simpl; [lia|done..]).
  pose proof (deposit_history_invariant ex_deposit ops Hwf Hops) as H.
  destruct (deposit_history ex_deposit ops) as [r e]. by destruct H.
Qed.

(** The signed deposit whose refund the ledger left open, on hold 9. *)
Definition ex_held_ops : list DepositOp :=
  ex_signed_ops ++
  [Op_apply (MarkRefundAvailable Reason_AuthorizationExpired (Some 1801));
   Op_apply (StartRefund Reason_AuthorizationExpired ex_refund (Some ex_expiry));
   Op_apply (RefundAmbiguous 9)].

Definition ex_held_deposit : DepositRecord := (deposit_history ex_deposit ex_held_ops).1.

Lemma ex_held_deposit_wf : DepositRecord_wf ex_held_deposit.
Proof. apply ex_deposit_wf. repeat constructor; simpl; lia. Qed.

(** The withdrawal on hold 12, and the transfers that would replace it. *)
Definition ex_held_withdrawal (a : TransferAttempt) : WithdrawalRecord :=
  WithdrawalRecord_with_state ex_withdrawal (ReconciliationHold 12 a ex_settlement).

Lemma ex_held_withdrawal_wf a :
  ta_identity a = ta_identity ex_release -> WithdrawalRecord_wf (ex_held_withdrawal a).
Proof.
  intros Ha. split; [split; simpl; ranges; lia|]. split; rewrite ?Ha; simpl; done || lia.
Qed.

Lemma ex_withdrawal_wf : WithdrawalRecord_wf ex_withdrawal.
Proof. split; [|done]. split; simpl; ranges; lia. Qed.
