(* ===== verification/DepositSafety.v ===== *)
(** * What a deposit guarantees

    The properties of the deposit state machine, each with a run of the example
    deposit that meets its hypotheses. *)

From S2P Require Import Prelude KernelPolicy KernelDeposit Types Authorization External Withdrawal Deposit Examples DepositProtocol DepositInvariant.

(** ** Properties *)

(** C16 (deposit refinement).  On a well-formed record the implementation accepts
    exactly the events of the deposit protocol, with exactly its accounting
    effects and next record; every other event is refused, none of the internal
    consistency checks ([missing_quote], [ledger_block_effect_mismatch],
    [transition_effect_mismatch]) ever fires, and the phase reached is the one
    of the kernel's phase table. *)
Theorem deposit_apply_refines_protocol r e :
  DepositRecord_wf r -> DepositEvent_ranged e ->
  (forall res r', DepositRecord_apply r e = Ok (res, r') <-> DepositStep r e res r') /\
  (forall res r', DepositStep r e res r' -> ar_outcome res = Applied ->
     deposit_transition (DepositState_code (dr_state r)) (DepositEvent_code e) =
     Some (DepositState_code (dr_state r'))) /\
  (forall err, DepositRecord_apply r e = Err err ->
     err = LedgerBlockConflict \/
     err = default (InvalidTransition "deposit" (DepositEvent_name e))
             (DepositRecord_transition_guard r e).2).
Proof.
  intros Hwf He. split_and!.
  - split; [by apply deposit_apply_sound|by apply deposit_apply_complete].
  - intros res r' Hstep Happ. deposit_steps Hstep; try done; try (by rewrite Hs).
    + destruct Ho as [? ? Hs|? ? Hs|? ? ? [Hs|Hs]]; by rewrite Hs.
    + destruct Hs as [Hs|[? Hs]]; by rewrite Hs.
  - intros err Herr. by apply deposit_apply_error.
Qed.

Lemma deposit_apply_refines_protocol_witness :
  let r := (deposit_history ex_deposit ex_signed_ops).1 in
  exists res r', DepositStep r (MintReconciled ex_finalization) res r' /\
    dr_state r = AuthorizationAvailable 3 /\ dr_state r' = Minted 3.
Proof.
  intros r. pose proof (deposit_apply_refines_protocol r (MintReconciled ex_finalization)
    (ex_deposit_wf ex_signed_ops ltac:(repeat constructor; simpl; lia)) I) as (H & _ & _).
  destruct (DepositRecord_apply r (MintReconciled ex_finalization)) as [[res r']|] eqn:E;
    [|vm_compute in E; discriminate].
  exists res, r'. split; [by apply H|]. vm_compute in E. injection E as <- <-. by vm_compute.
Defined.

(** Deposit replays.  An event that was accepted is accepted again as a
    replay that changes nothing; a funding or refund block, once recorded, is
    never replaced: another block is a conflict. *)
Theorem deposit_apply_replay r e res r' :
  DepositRecord_wf r -> DepositEvent_ranged e ->
  DepositRecord_apply r e = Ok (res, r') ->
  DepositRecord_apply r' e = Ok (ApplyResult_idempotent, r') /\
  (forall b b', DepositRecord_funding_ledger_block_index r' = Some b -> b' <> b ->
     DepositRecord_apply r' (FundingSucceeded b') = Err LedgerBlockConflict) /\
  (forall b b', (DepositRecord_ledger_blocks r').2 = Some b -> b' <> b ->
     DepositRecord_apply r' (RefundSucceeded b') = Err LedgerBlockConflict).
Proof.
  intros Hwf He H. apply deposit_apply_sound in H; [|done..].
  pose proof (deposit_step_wf _ _ _ _ Hwf H) as Hwf'. split_and!.
  - apply deposit_apply_complete; [done|]. apply DStep_replay. by eapply deposit_step_recorded.
  - intros b b' Hb Hne. by apply (funding_block_conflict r' b).
  - intros b b' Hb Hne. by apply (refund_block_conflict r' b).
Qed.

Lemma deposit_apply_replay_witness :
  let r := (deposit_history ex_deposit ex_signed_ops).1 in
  let r' := (deposit_history ex_deposit ex_mint_ops).1 in
  DepositRecord_apply r' (MintReconciled ex_finalization) = Ok (ApplyResult_idempotent, r') /\
  DepositRecord_apply r' (FundingSucceeded 4) = Err LedgerBlockConflict.
Proof.
  intros r r'.
  destruct (deposit_apply_replay r (MintReconciled ex_finalization)
    (deposit_effects 0 0 950 0 950 0 950) r'
    (ex_deposit_wf ex_signed_ops ltac:(repeat constructor; simpl; lia)) I eq_refl) as (H & Hf & _).
  split; [exact H|]. by apply (Hf 3).
Defined.

(** C15 (deposit conservation).  Along any history of calls on an accepted
    deposit, refused calls and signature dispatches included: the record stays
    well formed and keeps its request; the fees, mints, refunds and reservations
    reported add up to what the final record says; what was funded is exactly
    what was charged, minted, refunded or is still owed; the fee is charged at
    most once; and a deposit is never both minted and refunded. *)
Theorem deposit_history_conserves request r0 ops :
  is_u128 (dq_gross_amount request) -> DepositRecord_accept request = Ok r0 ->
  Forall DepositOp_ranged ops ->
  let '(r, total) := deposit_history r0 ops in
  DepositRecord_wf r /\ same_request r0 r /\
  dae_reservation_add total - dae_reservation_release total = reserved r /\
  funded_amount r = dae_fee_credit total + dae_mint_supply_increase total
                    + dae_escrow_debit total + open_liability r /\
  funded_amount r = dae_pending_liability_debit total + open_liability r /\
  dae_fee_credit total = charged_fee r /\
  (dae_mint_supply_increase total = 0 \/ dae_escrow_debit total = 0).
Proof.
  intros Hu Hacc Hops. apply deposit_accept_wf in Hacc as [Hwf Hs]; [|done].
  pose proof (deposit_history_invariant r0 ops Hwf Hops) as H.
  destruct (deposit_history r0 ops) as [r total]. destruct H as (Hwf' & Hr & Hb).
  pose proof (deposit_books r Hwf') as Hbooks.
  destruct (deposit_pending_zero r0 Hwf Hs) as (? & ? & ? & ? & ? & ?).
  destruct Hb. split_and!; try done; try lia.
  unfold minted_amount, refunded_amount in *. destruct (dr_state r); lia.
Qed.

Lemma deposit_history_conserves_witness :
  let '(r, total) := deposit_history ex_deposit ex_refund_ops in
  dr_state r = Refunded Reason_AuthorizationExpired 3 ex_refund 44 None /\
  dae_fee_credit total = 50 /\ dae_escrow_debit total = 950 /\ open_liability r = 0.
Proof.
  pose proof (deposit_history_conserves ex_request ex_deposit ex_refund_ops ltac:(done) eq_refl
    (proj2 ex_ops_ranged)) as H.
  revert H. vm_compute. intros (_ & _ & _ & _ & _ & Hfee & _). by split_and!.
Defined.

(** Closed deposits stay closed.  Once a deposit is minted, refunded or
    cancelled, no later call changes its state, charges a fee, mints, refunds or
    reserves anything: in particular a minted deposit is never refunded and a
    refunded one never minted. *)
Theorem deposit_closed_final r ops :
  DepositRecord_wf r -> Forall DepositOp_ranged ops -> deposit_closed r = true ->
  dr_state (deposit_history r ops).1 = dr_state r /\
  (deposit_history r ops).2 = DepositAccountingEffects_ZERO.
Proof.
  intros Hwf Hops Hc. induction ops as [|op ops IH] using rev_ind; [done|].
  apply Forall_app in Hops as [Hops [Hop _]%Forall_cons_iff]. specialize (IH Hops).
  pose proof (deposit_history_invariant r ops Hwf Hops) as Hinv.
  rewrite deposit_history_snoc. destruct (deposit_history r ops) as [r1 e1]. simpl in *.
  destruct IH as [Hs ->], Hinv as (Hwf1 & _ & _).
  assert (deposit_closed r1 = true) as Hc1 by (unfold deposit_closed in *; by rewrite Hs).
  pose proof (deposit_call_closed r1 op Hwf1 Hop Hc1) as [Hs2 He2].
  destruct (deposit_call r1 op) as [r2 e2]. simpl in *. subst e2. by rewrite Hs2, Hs.
Qed.

Lemma deposit_closed_final_witness :
  let r := (deposit_history ex_deposit ex_mint_ops).1 in
  dr_state (deposit_history r ex_refund_ops).1 = Minted 3.
Proof.
  intros r. exact (proj1 (deposit_closed_final r ex_refund_ops
    (ex_deposit_wf ex_mint_ops (proj1 ex_ops_ranged)) (proj2 ex_ops_ranged) eq_refl)).
Defined.

(** The refund a state carries. *)
Definition refund_in_progress (st : DepositState) : option (DepositRefundReason * TransferAttempt) :=
  match st with
  | RefundPending reason _ attempt | RefundReconciliationHold reason _ _ attempt
  | Refunded reason _ attempt _ _ => Some (reason, attempt)
  | _ => None
  end.

(** C17 (refunds).  However a deposit got there, a refund transfer pays the
    account the deposit came from, out of the account it went to, and what it
    moves is the deposit less the ledger fee and the fee charged; when a
    signature was issued, the record holds evidence, from a finalized block
    after the deadline, that the authorization was never used. *)
Theorem deposit_refund_safe request r0 ops reason attempt :
  is_u128 (dq_gross_amount request) -> DepositRecord_accept request = Ok r0 ->
  Forall DepositOp_ranged ops ->
  let r := (deposit_history r0 ops).1 in
  refund_in_progress (dr_state r) = Some (reason, attempt) ->
  let identity := ta_identity attempt in
  lti_operation identity = RefundDeposit /\
  lti_to identity = lti_from (dq_transfer request) /\
  lti_from identity = lti_to (dq_transfer request) /\
  lti_amount identity + lti_fee identity + charged_fee r = dq_gross_amount request /\
  (forall a, dr_mint_authorization r = Some a -> is_some (mar_signature a) = true ->
     reason = Reason_AuthorizationExpired /\
     exists ev, dr_mint_expiry_evidence r = Some ev /\ expires a ev).
Proof.
  intros Hu Hacc Hops r Hst identity.
  pose proof (accept_request request r0 Hacc) as (_ & Hg & Ht).
  apply deposit_accept_wf in Hacc as [Hwf Hs]; [|done].
  pose proof (deposit_history_invariant r0 ops Hwf Hops) as H. subst r.
  destruct (deposit_history r0 ops) as [r total]. simpl in *.
  destruct H as (Hwf' & (_ & _ & Hg' & _ & Ht') & _).
  assert (refunding r reason attempt) as (Href & _ & Hexp & Hpays).
  { pose proof (dwf_state r Hwf') as Hr. unfold DepositRecord_state_wf in Hr.
    by destruct (dr_state r); simplify_eq/=. }
  subst identity. destruct Hpays. split_and!; [congruence..|]. intros a Ha Hsig.
  destruct Href as [[[_ ?] _]|(q & b & (_ & Hb & _) & Hreason)]; [congruence|].
  replace b with a in Hreason by congruence. split; [by apply Hreason|].
  assert (DepositRecord_signed_authorization r = true) as Hsigned
    by (apply signed_authorization_true; eauto).
  unfold expiry_settled in Hexp. case_match; [|congruence].
  destruct Hexp as (b' & Hb' & _ & ?). replace b' with a in * by congruence. eauto.
Qed.

Lemma deposit_refund_safe_witness :
  lti_to (ta_identity ex_refund) = lti_from (dq_transfer ex_request) /\
  lti_amount (ta_identity ex_refund) + lti_fee (ta_identity ex_refund) + 50 = 1000.
Proof.
  destruct (deposit_refund_safe ex_request ex_deposit ex_refund_ops
    Reason_AuthorizationExpired ex_refund ltac:(done) eq_refl (proj2 ex_ops_ranged) eq_refl)
    as (_ & Hto & _ & Htotal & _).
  split; [exact Hto|exact Htotal].
Defined.

(** C18 (mints).  A deposit recorded as minted holds finalized evidence of the
    very authorization that was signed for it, and the supply the history
    reports as minted is the amount of that evidence: the deposit less the fee
    charged. *)
Theorem deposit_mint_safe request r0 ops f :
  is_u128 (dq_gross_amount request) -> DepositRecord_accept request = Ok r0 ->
  Forall DepositOp_ranged ops ->
  let '(r, total) := deposit_history r0 ops in
  dr_state r = Minted f ->
  exists q a ev,
    committed r q a /\ is_some (mar_signature a) = true /\
    dr_mint_finalization_evidence r = Some ev /\ finalizes a ev /\
    dae_mint_supply_increase total = mfe_minted_amount ev /\
    mfe_minted_amount ev + dae_fee_credit total = dq_gross_amount request /\
    dae_escrow_debit total = 0 /\ dae_reservation_add total = dae_reservation_release total.
Proof.
  intros Hu Hacc Hops. pose proof (accept_request request r0 Hacc) as (_ & Hg & _).
  apply deposit_accept_wf in Hacc as [Hwf Hs]; [|done].
  pose proof (deposit_history_invariant r0 ops Hwf Hops) as H.
  destruct (deposit_history r0 ops) as [r total]. intros Hm.
  destruct H as (Hwf' & (_ & _ & Hg' & _ & _) & Hb).
  destruct (deposit_pending_zero r0 Hwf Hs) as (? & ? & ? & ? & ? & ?).
  pose proof (dwf_state r Hwf') as Hr. unfold DepositRecord_state_wf in Hr. rewrite Hm in Hr.
  destruct Hr as (q & a & ev & Hc & Hsig & Hev & _ & Hfin). exists q, a, ev.
  pose proof (charged_fee_committed r q a Hc Hsig) as Hfee.
  destruct Hb. unfold reserved, minted_amount, refunded_amount, DepositRecord_reserves_mint_resources in *.
  rewrite Hm in *. simpl in *.
  pose proof (fin_minted a ev Hfin) as Hminted. pose proof Hc as (_ & _ & _ & [] & _).
  split_and!; try done; lia.
Qed.

Lemma deposit_mint_safe_witness :
  let '(r, total) := deposit_history ex_deposit ex_mint_ops in
  exists a, dr_mint_authorization r = Some a /\ finalizes a ex_finalization /\
    dae_mint_supply_increase total = 950.
Proof.
  pose proof (deposit_mint_safe ex_request ex_deposit ex_mint_ops 3 ltac:(done) eq_refl
    (proj1 ex_ops_ranged)) as H.
  destruct (deposit_history ex_deposit ex_mint_ops) as [r total] eqn:E. vm_compute in E.
  injection E as <- <-. specialize (H eq_refl).
  destruct H as (q & a & ev & (_ & Ha & _) & _ & Hev & Hfin & _).
  injection Hev as <-. exists a. by split.
Defined.
