(* ===== verification/WithdrawalSafety.v ===== *)
(** * What a withdrawal guarantees

    The properties of the withdrawal state machine of [Withdrawal.v], for one
    event and along any history of events. *)

From S2P Require Import Prelude KernelArith KernelWithdrawal Types Withdrawal Examples.

(** ** Bookkeeping *)

(** What the bridge owes for the burn until its release is recorded as paid,
    what leaves the escrow then, and what stays as a fee. *)
Definition withdrawal_open (w : WithdrawalRecord) : Z :=
  match wr_state w with Paid _ _ _ _ => 0 | _ => wr_amount w end.

Definition withdrawal_paid_out (w : WithdrawalRecord) : Z :=
  match wr_state w with
  | Paid _ s _ _ => wr_amount_out w + s_ledger_fee s
  | _ => 0
  end.

Definition withdrawal_fee (w : WithdrawalRecord) : Z :=
  match wr_state w with
  | Paid _ s _ _ => wr_charged_service_fee w - s_ledger_fee s
  | _ => 0
  end.

(** The burn and the quote the record was created for. *)
Definition same_burn (w w' : WithdrawalRecord) : Prop :=
  wr_id w' = wr_id w /\ wr_base_requester w' = wr_base_requester w /\
  wr_owner w' = wr_owner w /\ wr_subaccount w' = wr_subaccount w /\
  wr_payload_hash w' = wr_payload_hash w /\ wr_amount w' = wr_amount w /\
  wr_max_service_fee w' = wr_max_service_fee w /\
  wr_charged_service_fee w' = wr_charged_service_fee w /\ wr_amount_out w' = wr_amount_out w.

#[export] Instance same_burn_equivalence : Equivalence same_burn.
Proof. unfold same_burn. split; repeat intro; naive_solver congruence. Qed.

Lemma withdrawal_books w :
  WithdrawalRecord_wf w ->
  wr_amount w = withdrawal_open w + withdrawal_paid_out w + withdrawal_fee w /\
  0 <= withdrawal_fee w.
Proof.
  intros [[] Hst]. unfold withdrawal_open, withdrawal_paid_out, withdrawal_fee.
  destruct (wr_state w); try lia. destruct Hst. lia.
Qed.

Lemma withdrawal_step_books r e res r' :
  WithdrawalStep r e res r' ->
  same_burn r r' /\ withdrawal_fee r' = withdrawal_fee r + ar_fee_delta res.
Proof.
  destruct 1 as [|? ? Hs|? ? ? Hs|? ? ? Hs]; (split; [done|]); unfold withdrawal_fee;
    simpl; try lia; rewrite Hs; simpl; lia.
Qed.

(** The record after a history of events, refused ones included, and the fees
    reported on the way. *)
Definition withdrawal_history (r : WithdrawalRecord) (events : list WithdrawalEvent)
    : WithdrawalRecord * Z :=
  foldl (fun s e => match WithdrawalRecord_apply s.1 e with
                    | Ok (res, r') => (r', s.2 + ar_fee_delta res)
                    | Err _ => s
                    end) (r, 0) events.

Lemma withdrawal_history_invariant r events :
  WithdrawalRecord_wf r -> Forall WithdrawalEvent_ranged events ->
  let '(r', fees) := withdrawal_history r events in
  WithdrawalRecord_wf r' /\ same_burn r r' /\ withdrawal_fee r' = withdrawal_fee r + fees.
Proof.
  intros Hwf He. unfold withdrawal_history. induction events as [|e events IH] using rev_ind; simpl.
  - split_and!; try done. lia.
  - apply Forall_app in He as [He [Hev _]%Forall_cons_iff]. rewrite foldl_app. simpl.
    specialize (IH He). destruct (foldl _ _ _) as [r1 f1]. destruct IH as (Hwf1 & Hb1 & Hf1). simpl.
    destruct (WithdrawalRecord_apply r1 e) as [[res r2]|] eqn:E; [|done].
    apply withdrawal_apply_sound in E; [|done..].
    pose proof (withdrawal_step_books r1 e res r2 E) as [Hb Hf].
    split_and!; [by eapply withdrawal_step_wf|by etransitivity|lia].
Qed.

(** ** Properties *)

(** C22 (withdrawal refinement).  On a well-formed record the implementation
    accepts exactly the events of the withdrawal protocol, with exactly its
    result and next record: every other event is an error, the internal
    consistency checks never fire, and the phase it reaches is the one the
    kernel's phase table computes. *)
Theorem withdrawal_apply_refines_protocol r e res r' :
  WithdrawalRecord_wf r -> WithdrawalEvent_ranged e ->
  (WithdrawalRecord_apply r e = Ok (res, r') <-> WithdrawalStep r e res r') /\
  (WithdrawalStep r e res r' -> ar_outcome res = Applied ->
     WithdrawalState_phase_code (wr_state r') =
     withdrawal_phase_step (WithdrawalState_phase_code (wr_state r))
       (WithdrawalEvent_phase_code e)).
Proof.
  intros Hwf He. split; [split|].
  - by apply withdrawal_apply_sound.
  - by apply withdrawal_apply_complete.
  - intros Hstep Happ. destruct Hstep as [|? ? Hs|? ? ? Hs|? ? ? Hs]; [done|by rewrite Hs..].
Qed.

Lemma withdrawal_apply_refines_protocol_witness :
  WithdrawalStep ex_withdrawal (StartRelease ex_release ex_settlement) (ApplyResult_applied 0)
    (WithdrawalRecord_with_state ex_withdrawal (ReleasePending ex_release ex_settlement)).
Proof.
  apply (withdrawal_apply_refines_protocol ex_withdrawal (StartRelease ex_release ex_settlement)
    (ApplyResult_applied 0)
    (WithdrawalRecord_with_state ex_withdrawal (ReleasePending ex_release ex_settlement))
    ex_withdrawal_wf ltac:(done)).
  vm_compute. reflexivity.
Defined.

(** Withdrawal replays.  An event that was accepted is accepted again, as a
    replay that changes nothing and credits no fee; once a release block is
    recorded, any other block is a conflict. *)
Theorem withdrawal_apply_replay r e res r' :
  WithdrawalRecord_wf r -> WithdrawalEvent_ranged e ->
  WithdrawalRecord_apply r e = Ok (res, r') ->
  WithdrawalRecord_apply r' e = Ok (ApplyResult_idempotent, r') /\
  forall b b', WithdrawalState_release_block (wr_state r') = Some b -> b' <> b ->
    WithdrawalRecord_apply r' (ReleaseSucceeded b') = Err LedgerBlockConflict.
Proof.
  intros Hwf He H. apply withdrawal_apply_sound in H; [|done..]. split.
  - apply withdrawal_apply_complete; [by eapply withdrawal_step_wf|].
    apply WStep_replay. by eapply withdrawal_step_recorded.
  - intros b b' Hb Hne. unfold WithdrawalRecord_apply. rewrite Hb.
    unfold withdrawal_ledger_block_transition, withdrawal_ledger_block_transition_body. simpl.
    by rewrite (proj2 (Z.eqb_neq b b')) by congruence.
Qed.

Lemma withdrawal_apply_replay_witness :
  let r' := WithdrawalRecord_with_state ex_withdrawal (ReleasePending ex_release ex_settlement) in
  WithdrawalRecord_apply r' (StartRelease ex_release ex_settlement) =
    Ok (ApplyResult_idempotent, r').
Proof.
  intros r'.
  assert (WithdrawalRecord_apply ex_withdrawal (StartRelease ex_release ex_settlement) =
          Ok (ApplyResult_applied 0, r')) as H by (vm_compute; reflexivity).
  exact (proj1 (withdrawal_apply_replay ex_withdrawal (StartRelease ex_release ex_settlement)
    (ApplyResult_applied 0) r' ex_withdrawal_wf ltac:(done) H)).
Defined.

(** C21 (withdrawal conservation).  However the events of a burn arrive, the
    record keeps the burn it was created for; the amount burnt is still owed in
    full until the release is recorded, and afterwards it is exactly what left
    the escrow plus the fee credited; that fee is never negative, is credited
    once, and the transfer pays the committed amount to the committed account. *)
Theorem withdrawal_history_conserves r0 events :
  WithdrawalRecord_wf r0 -> wr_state r0 = Observed -> Forall WithdrawalEvent_ranged events ->
  let '(r, fees) := withdrawal_history r0 events in
  WithdrawalRecord_wf r /\ same_burn r0 r /\ 0 <= fees /\
  wr_amount r0 = withdrawal_open r + withdrawal_paid_out r + fees /\
  (forall a s b src, wr_state r = Paid a s b src ->
     withdrawal_open r = 0 /\
     lti_amount (ta_identity a) = wr_amount_out r0 /\
     a_owner (lti_to (ta_identity a)) = wr_owner r0 /\
     a_subaccount (lti_to (ta_identity a)) = wr_subaccount r0).
Proof.
  intros Hwf Hs He. pose proof (withdrawal_history_invariant r0 events Hwf He) as H.
  destruct (withdrawal_history r0 events) as [r fees]. destruct H as (Hwf' & Hb & Hf).
  pose proof (withdrawal_books r Hwf') as [Hbooks Hnn].
  assert (withdrawal_fee r0 = 0) as H0 by (unfold withdrawal_fee; by rewrite Hs).
  pose proof Hb as (_ & _ & Hown & Hsub & _ & Ham & _ & _ & Hout).
  split_and!; [done..|lia|lia|]. intros a s b src Hp. destruct Hwf' as [_ Hst]. rewrite Hp in Hst.
  unfold withdrawal_open. rewrite Hp. destruct Hst. split_and!; congruence.
Qed.

Lemma withdrawal_history_conserves_witness :
  let '(r, fees) := withdrawal_history ex_withdrawal
    [StartRelease ex_release ex_settlement; ReleaseSucceeded 77; ReleaseSucceeded 78] in
  wr_state r = Paid ex_release ex_settlement 77 None /\ fees = 10 /\
  withdrawal_paid_out r = 490 /\ same_burn ex_withdrawal r.
Proof.
  pose proof (withdrawal_history_conserves ex_withdrawal
    [StartRelease ex_release ex_settlement; ReleaseSucceeded 77; ReleaseSucceeded 78]
    ex_withdrawal_wf eq_refl ltac:(repeat constructor; done)) as H.
  destruct (withdrawal_history _ _) as [r fees] eqn:E. vm_compute in E. injection E as <- <-.
  destruct H as (_ & Hb & _). by split_and!.
Defined.
