(* ===== verification/Reconciliation.v ===== *)
(** * Reconciliation holds

    [canister/bridge-core/src/reconciliation.rs]: a transfer whose outcome the
    ledger did not report is put on hold; the hold is resolved once, by the
    block found for it or by a complete scan that proves its absence, and the
    deposit or withdrawal moves with it.  Both resolvers work on clones and
    write both records only at the end, so an error returns neither. *)

From S2P Require Import Prelude KernelArith KernelPolicy KernelDeposit KernelWithdrawal Types Authorization External Withdrawal Deposit DepositProtocol.

(** ** Holds *)

Inductive RequestReference :=
| Ref_DepositFunding (id : bytes)
| Ref_DepositRefund (id : bytes)
| Ref_Withdrawal (id : bytes).

#[export] Instance RequestReference_eq_dec : EqDecision RequestReference.
Proof. solve_decision. Defined.

Inductive ReconciliationHoldState :=
| HoldOpen
| HoldResolvedSucceeded (ledger_block_index : Z)
| HoldResolvedAbsent (history_watermark : Z).

#[export] Instance ReconciliationHoldState_eq_dec : EqDecision ReconciliationHoldState.
Proof. solve_decision. Defined.

Record ReconciliationHoldRecord := {
  rh_id : Z;
  rh_request : RequestReference;
  rh_transfer : LedgerTransferIdentity;
  rh_state : ReconciliationHoldState;
}.

#[export] Instance ReconciliationHoldRecord_eq_dec : EqDecision ReconciliationHoldRecord.
Proof. solve_decision. Defined.

Definition ReconciliationHoldRecord_open
    (id : Z) (request : RequestReference) (transfer : LedgerTransferIdentity)
    : ReconciliationHoldRecord :=
  {| rh_id := id; rh_request := request; rh_transfer := transfer; rh_state := HoldOpen |}.

Definition hold_with_state (self : ReconciliationHoldRecord) (state : ReconciliationHoldState)
    : ReconciliationHoldRecord :=
  {| rh_id := rh_id self; rh_request := rh_request self; rh_transfer := rh_transfer self;
     rh_state := state |}.

Definition ReconciliationHoldRecord_resolve_succeeded
    (self : ReconciliationHoldRecord) (block : Z)
    : Result CoreError (ApplyOutcome * ReconciliationHoldRecord) :=
  match rh_state self with
  | HoldOpen => Ok (Applied, hold_with_state self (HoldResolvedSucceeded block))
  | HoldResolvedSucceeded ledger_block_index =>
      if ledger_block_index =? block then Ok (Idempotent, self) else Err ConflictingReplay
  | _ => Err ConflictingReplay
  end.

Definition ReconciliationHoldRecord_resolve_absent
    (self : ReconciliationHoldRecord) (watermark : Z)
    : Result CoreError (ApplyOutcome * ReconciliationHoldRecord) :=
  match rh_state self with
  | HoldOpen => Ok (Applied, hold_with_state self (HoldResolvedAbsent watermark))
  | HoldResolvedAbsent history_watermark =>
      if history_watermark =? watermark then Ok (Idempotent, self) else Err ConflictingReplay
  | _ => Err ConflictingReplay
  end.

Inductive DepositHoldResolution :=
| Res_FundingSucceeded (funding_ledger_block_index : Z)
| Res_FundingAbsent (history_watermark : Z)
| Res_RefundSucceeded (refund_ledger_block_index : Z)
| Res_RefundAbsent (history_watermark : Z) (next_identity : LedgerTransferIdentity).

Inductive WithdrawalHoldResolution :=
| Res_Succeeded (release_ledger_block_index : Z)
| Res_Absent (history_watermark : Z) (next_identity : LedgerTransferIdentity).

(** ** Deposits on hold

    One definition per arm of the match on the resolution; each returns the
    outcome for the hold, the outcome for the request, and the next records. *)

Definition HoldArm (request : Type) : Type :=
  ApplyOutcome * ApplyOutcome * request * ReconciliationHoldRecord.

Definition resolve_funding_succeeded
    (deposit : DepositRecord) (hold : ReconciliationHoldRecord) (funding_ledger_block_index : Z)
    : Result CoreError (HoldArm DepositRecord) :=
  if bool_decide (rh_request hold <> Ref_DepositFunding (dr_id deposit))
     || bool_decide (rh_transfer hold <> dr_transfer deposit)
  then Err HoldMismatch
  else
    let current_funding := DepositRecord_funding_ledger_block_index deposit in
    let? blocks :=
      ok_or (deposit_ledger_block_transition current_funding None 1 funding_ledger_block_index)
        LedgerBlockConflict in
    let? next_funding := ok_or blocks.1 LedgerBlockConflict in
    let? (ho, next_hold) := ReconciliationHoldRecord_resolve_succeeded hold next_funding in
    let replay :=
      if bool_decide (current_funding = Some funding_ledger_block_index)
      then Ok (ho, Idempotent, deposit, next_hold) else Err HoldMismatch in
    match dr_state deposit with
    | FundingReconciliationHold hold_id =>
        if hold_id =? rh_id hold
        then Ok (ho, Applied, deposit_with_state deposit (EscrowedUnquoted next_funding), next_hold)
        else replay
    | _ => replay
    end.

Definition resolve_funding_absent
    (deposit : DepositRecord) (hold : ReconciliationHoldRecord) (history_watermark : Z)
    : Result CoreError (HoldArm DepositRecord) :=
  if bool_decide (rh_request hold <> Ref_DepositFunding (dr_id deposit))
     || bool_decide (rh_transfer hold <> dr_transfer deposit)
  then Err HoldMismatch
  else
    let? (ho, next_hold) := ReconciliationHoldRecord_resolve_absent hold history_watermark in
    match dr_state deposit with
    | FundingReconciliationHold hold_id =>
        if hold_id =? rh_id hold
        then Ok (ho, Applied,
                 deposit_with_state deposit
                   (Cancelled (Some hold_id) (Some history_watermark) None),
                 next_hold)
        else Err HoldMismatch
    | Cancelled (Some hold_id) (Some current) None =>
        if (hold_id =? rh_id hold) && (current =? history_watermark)
        then Ok (ho, Idempotent, deposit, next_hold) else Err HoldMismatch
    | _ => Err HoldMismatch
    end.

Definition refund_hold_blocks (state : DepositState) : option Z * option Z :=
  match state with
  | RefundReconciliationHold _ funding _ _ => (Some funding, None)
  | Refunded _ funding _ refund _ => (Some funding, Some refund)
  | _ => (None, None)
  end.

Definition resolve_refund_succeeded
    (deposit : DepositRecord) (hold : ReconciliationHoldRecord) (refund_ledger_block_index : Z)
    : Result CoreError (HoldArm DepositRecord) :=
  if bool_decide (rh_request hold <> Ref_DepositRefund (dr_id deposit)) then Err HoldMismatch
  else
    let current := refund_hold_blocks (dr_state deposit) in
    let? blocks :=
      ok_or (deposit_ledger_block_transition current.1 current.2 2 refund_ledger_block_index)
        LedgerBlockConflict in
    let? next_refund := ok_or blocks.2 LedgerBlockConflict in
    let? (ho, next_hold) := ReconciliationHoldRecord_resolve_succeeded hold next_refund in
    match dr_state deposit with
    | RefundReconciliationHold reason funding hold_id attempt =>
        if (hold_id =? rh_id hold) && bool_decide (rh_transfer hold = ta_identity attempt)
        then Ok (ho, Applied,
                 deposit_with_state deposit
                   (Refunded reason funding attempt next_refund (Some (rh_id hold))),
                 next_hold)
        else Err HoldMismatch
    | Refunded _ _ attempt current (Some id) =>
        if (id =? rh_id hold) && (current =? refund_ledger_block_index)
           && bool_decide (rh_transfer hold = ta_identity attempt)
        then Ok (ho, Idempotent, deposit, next_hold) else Err HoldMismatch
    | _ => Err HoldMismatch
    end.

Definition resolve_refund_absent
    (deposit : DepositRecord) (hold : ReconciliationHoldRecord)
    (history_watermark : Z) (next_identity : LedgerTransferIdentity)
    : Result CoreError (HoldArm DepositRecord) :=
  if bool_decide (rh_request hold <> Ref_DepositRefund (dr_id deposit)) then Err HoldMismatch
  else
    let? (ho, next_hold) := ReconciliationHoldRecord_resolve_absent hold history_watermark in
    match dr_state deposit with
    | RefundReconciliationHold reason funding hold_id attempt =>
        if (hold_id =? rh_id hold) && bool_decide (rh_transfer hold = ta_identity attempt)
        then
          let? next_attempt := TransferAttempt_retry_after_absence attempt next_identity in
          Ok (ho, Applied, deposit_with_state deposit (RefundPending reason funding next_attempt),
              next_hold)
        else Err HoldMismatch
    | RefundPending _ _ attempt =>
        if bool_decide (ta_identity attempt = next_identity)
        then Ok (ho, Idempotent, deposit, next_hold) else Err HoldMismatch
    | _ => Err HoldMismatch
    end.

Definition resolve_deposit_hold
    (deposit : DepositRecord) (hold : ReconciliationHoldRecord)
    (resolution : DepositHoldResolution)
    : Result CoreError (ApplyResult * DepositRecord * ReconciliationHoldRecord) :=
  let? (hold_outcome, request_outcome, next_deposit, next_hold) :=
    match resolution with
    | Res_FundingSucceeded block => resolve_funding_succeeded deposit hold block
    | Res_FundingAbsent watermark => resolve_funding_absent deposit hold watermark
    | Res_RefundSucceeded block => resolve_refund_succeeded deposit hold block
    | Res_RefundAbsent watermark next_identity =>
        resolve_refund_absent deposit hold watermark next_identity
    end in
  if bool_decide (hold_outcome <> request_outcome) then Err ConflictingReplay
  else
    Ok (if bool_decide (request_outcome = Applied) then ApplyResult_applied 0
        else ApplyResult_idempotent,
        next_deposit, next_hold).

(** ** Withdrawals on hold *)

Definition withdrawal_held_attempt (withdrawal : WithdrawalRecord) (hold : ReconciliationHoldRecord)
    : Result CoreError TransferAttempt :=
  match wr_state withdrawal with
  | ReconciliationHold hold_id attempt _ =>
      if hold_id =? rh_id hold then Ok attempt else Err HoldMismatch
  | Paid attempt _ _ (Some id) => if id =? rh_id hold then Ok attempt else Err HoldMismatch
  | ReleasePending attempt _ => if ta_attempt_no attempt >? 0 then Ok attempt else Err HoldMismatch
  | _ => Err HoldMismatch
  end.

Definition resolve_release_succeeded
    (withdrawal : WithdrawalRecord) (hold : ReconciliationHoldRecord)
    (release_ledger_block_index : Z)
    : Result CoreError (HoldArm WithdrawalRecord * Z) :=
  let current_release := WithdrawalState_release_block (wr_state withdrawal) in
  let? release :=
    ok_or (withdrawal_ledger_block_transition current_release 1 release_ledger_block_index)
      LedgerBlockConflict in
  let? next_release := ok_or release LedgerBlockConflict in
  let? (ho, next_hold) := ReconciliationHoldRecord_resolve_succeeded hold next_release in
  match wr_state withdrawal with
  | ReconciliationHold _ attempt settlement =>
      let? (next_state, escrow_debit, reserve_credit, liability_debit) :=
        ok_or (withdrawal_transition_effects 3 4 (s_amount_out settlement)
                 (s_ledger_fee settlement) (s_service_fee settlement)) SettlementMismatch in
      if negb (next_state =? 2) then Err SettlementMismatch
      else
        let? expected_escrow :=
          Amount_checked_add (s_amount_out settlement) (s_ledger_fee settlement) in
        if negb (escrow_debit =? expected_escrow) then Err SettlementMismatch
        else
          let? expected_liability :=
            Amount_checked_add (s_amount_out settlement) (s_service_fee settlement) in
          if negb (liability_debit =? expected_liability) then Err SettlementMismatch
          else
            Ok ((ho, Applied,
                 WithdrawalRecord_with_state withdrawal
                   (Paid attempt settlement next_release (Some (rh_id hold))),
                 next_hold), reserve_credit)
  | Paid _ _ current (Some id) =>
      if (id =? rh_id hold) && (current =? release_ledger_block_index)
      then Ok ((ho, Idempotent, withdrawal, next_hold), 0) else Err HoldMismatch
  | _ => Err HoldMismatch
  end.

Definition resolve_release_absent
    (withdrawal : WithdrawalRecord) (hold : ReconciliationHoldRecord)
    (history_watermark : Z) (next_identity : LedgerTransferIdentity)
    : Result CoreError (HoldArm WithdrawalRecord * Z) :=
  let? (ho, next_hold) := ReconciliationHoldRecord_resolve_absent hold history_watermark in
  match wr_state withdrawal with
  | ReconciliationHold _ attempt settlement =>
      let? (next_state, escrow_debit, reserve_credit, liability_debit) :=
        ok_or (withdrawal_transition_effects 3 5 (s_amount_out settlement)
                 (s_ledger_fee settlement) (s_service_fee settlement)) SettlementMismatch in
      if negb (next_state =? 1) || negb (escrow_debit =? 0) || negb (reserve_credit =? 0)
         || negb (liability_debit =? 0)
      then Err SettlementMismatch
      else
        let? next_attempt := TransferAttempt_retry_after_absence attempt next_identity in
        Ok ((ho, Applied,
             WithdrawalRecord_with_state withdrawal (ReleasePending next_attempt settlement),
             next_hold), 0)
  | ReleasePending attempt _ =>
      if bool_decide (ta_identity attempt = next_identity)
      then Ok ((ho, Idempotent, withdrawal, next_hold), 0) else Err HoldMismatch
  | _ => Err HoldMismatch
  end.

Definition resolve_withdrawal_hold
    (withdrawal : WithdrawalRecord) (hold : ReconciliationHoldRecord)
    (resolution : WithdrawalHoldResolution)
    : Result CoreError (ApplyResult * WithdrawalRecord * ReconciliationHoldRecord) :=
  if bool_decide (rh_request hold <> Ref_Withdrawal (wr_id withdrawal)) then Err HoldMismatch
  else
    let? held_attempt := withdrawal_held_attempt withdrawal hold in
    if bool_decide (rh_transfer hold <> ta_identity held_attempt)
       && (ta_attempt_no held_attempt =? 0)
    then Err HoldMismatch
    else
      let? ((hold_outcome, request_outcome, next_withdrawal, next_hold), fee_delta) :=
        match resolution with
        | Res_Succeeded block => resolve_release_succeeded withdrawal hold block
        | Res_Absent watermark next_identity =>
            resolve_release_absent withdrawal hold watermark next_identity
        end in
      if bool_decide (hold_outcome <> request_outcome) then Err ConflictingReplay
      else
        Ok (if bool_decide (request_outcome = Applied) then ApplyResult_applied fee_delta
            else ApplyResult_idempotent,
            next_withdrawal, next_hold).
