(* ===== verification/HoldSafety.v ===== *)
(** * What resolving a hold guarantees

    The protocol of hold resolutions, the proofs that the resolvers of
    [Reconciliation.v] implement it, and its properties. *)

From S2P Require Import Prelude KernelArith KernelDeposit KernelWithdrawal Types Authorization External Withdrawal Deposit DepositProtocol DepositInvariant Examples Reconciliation.

(** ** What a resolution means *)

(** The replacement of a transfer proved absent: later, with another memo, and
    otherwise the same transfer. *)
Record retries (a : TransferAttempt) (identity' : LedgerTransferIdentity) (a' : TransferAttempt)
    : Prop := {
  retry_identity : ta_identity a' = identity';
  retry_number : next_attempt (ta_attempt_no a) = Some (ta_attempt_no a');
  retry_later : lti_created_at_time_ns (ta_identity a) < lti_created_at_time_ns identity';
  retry_memo : lti_memo identity' <> lti_memo (ta_identity a);
  retry_operation : lti_operation identity' = lti_operation (ta_identity a);
  retry_amount : lti_amount identity' = lti_amount (ta_identity a);
  retry_fee : lti_fee identity' = lti_fee (ta_identity a);
  retry_from : lti_from identity' = lti_from (ta_identity a);
  retry_to : lti_to identity' = lti_to (ta_identity a);
  retry_spender : lti_spender identity' = lti_spender (ta_identity a);
}.

(** The hold was opened for the funding, or for the refund, of this deposit. *)
Definition holds_funding (h : ReconciliationHoldRecord) (d : DepositRecord) : Prop :=
  rh_request h = Ref_DepositFunding (dr_id d) /\ rh_transfer h = dr_transfer d.

Definition holds_refund (h : ReconciliationHoldRecord) (d : DepositRecord) : Prop :=
  rh_request h = Ref_DepositRefund (dr_id d).

Definition deposit_resolution_recorded
    (d : DepositRecord) (h : ReconciliationHoldRecord) (r : DepositHoldResolution) : Prop :=
  match r with
  | Res_FundingSucceeded b =>
      holds_funding h d /\ rh_state h = HoldResolvedSucceeded b /\
      DepositRecord_funding_ledger_block_index d = Some b
  | Res_FundingAbsent w =>
      holds_funding h d /\ rh_state h = HoldResolvedAbsent w /\
      dr_state d = Cancelled (Some (rh_id h)) (Some w) None
  | Res_RefundSucceeded b =>
      holds_refund h d /\ rh_state h = HoldResolvedSucceeded b /\
      exists reason f a, dr_state d = Refunded reason f a b (Some (rh_id h)) /\
        rh_transfer h = ta_identity a
  | Res_RefundAbsent w identity' =>
      holds_refund h d /\ rh_state h = HoldResolvedAbsent w /\
      exists reason f a, dr_state d = RefundPending reason f a /\ ta_identity a = identity'
  end.

Inductive DepositHoldStep (d : DepositRecord) (h : ReconciliationHoldRecord)
  : DepositHoldResolution -> ApplyResult -> DepositRecord -> ReconciliationHoldRecord -> Prop :=
| HStep_replay r :
    deposit_resolution_recorded d h r -> DepositHoldStep d h r ApplyResult_idempotent d h
| HStep_funded b :
    holds_funding h d -> rh_state h = HoldOpen ->
    dr_state d = FundingReconciliationHold (rh_id h) ->
    DepositHoldStep d h (Res_FundingSucceeded b) (ApplyResult_applied 0)
      (deposit_with_state d (EscrowedUnquoted b)) (hold_with_state h (HoldResolvedSucceeded b))
| HStep_unfunded w :
    holds_funding h d -> rh_state h = HoldOpen ->
    dr_state d = FundingReconciliationHold (rh_id h) ->
    DepositHoldStep d h (Res_FundingAbsent w) (ApplyResult_applied 0)
      (deposit_with_state d (Cancelled (Some (rh_id h)) (Some w) None))
      (hold_with_state h (HoldResolvedAbsent w))
| HStep_refunded b reason f a :
    holds_refund h d -> rh_state h = HoldOpen ->
    dr_state d = RefundReconciliationHold reason f (rh_id h) a ->
    rh_transfer h = ta_identity a ->
    DepositHoldStep d h (Res_RefundSucceeded b) (ApplyResult_applied 0)
      (deposit_with_state d (Refunded reason f a b (Some (rh_id h))))
      (hold_with_state h (HoldResolvedSucceeded b))
| HStep_retry w reason f a identity' a' :
    holds_refund h d -> rh_state h = HoldOpen ->
    dr_state d = RefundReconciliationHold reason f (rh_id h) a ->
    rh_transfer h = ta_identity a -> retries a identity' a' ->
    DepositHoldStep d h (Res_RefundAbsent w identity') (ApplyResult_applied 0)
      (deposit_with_state d (RefundPending reason f a'))
      (hold_with_state h (HoldResolvedAbsent w)).

#[export] Hint Constructors DepositHoldStep : bridge.

(** ** Lemmas *)

Lemma retry_after_absence_spec a identity' a' :
  TransferAttempt_retry_after_absence a identity' = Ok a' <-> retries a identity' a'.
Proof.
  unfold TransferAttempt_retry_after_absence. split.
  - intros H. case_match eqn:E; [done|].
    destruct (ok_or _ _) as [n|] eqn:En in H; [|done]. simplify_eq. reflect. destruct_and?.
    split; simpl; try done; first [lia | by apply dec_stable].
  - intros []. case_match eqn:E.
    + exfalso. reflect. naive_solver lia.
    + rewrite retry_number0. simpl. destruct a'. by simplify_eq/=.
Qed.

Lemma resolve_succeeded_spec h b o h' :
  ReconciliationHoldRecord_resolve_succeeded h b = Ok (o, h') <->
  (rh_state h = HoldOpen /\ o = Applied /\ h' = hold_with_state h (HoldResolvedSucceeded b)) \/
  (rh_state h = HoldResolvedSucceeded b /\ o = Idempotent /\ h' = h).
Proof.
  unfold ReconciliationHoldRecord_resolve_succeeded.
  destruct (rh_state h); [naive_solver| |naive_solver].
  case_match; reflect; naive_solver.
Qed.

Lemma resolve_absent_spec h w o h' :
  ReconciliationHoldRecord_resolve_absent h w = Ok (o, h') <->
  (rh_state h = HoldOpen /\ o = Applied /\ h' = hold_with_state h (HoldResolvedAbsent w)) \/
  (rh_state h = HoldResolvedAbsent w /\ o = Idempotent /\ h' = h).
Proof.
  unfold ReconciliationHoldRecord_resolve_absent.
  destruct (rh_state h); [naive_solver|naive_solver|].
  case_match; reflect; naive_solver.
Qed.

Definition arm_result (o : ApplyOutcome) : ApplyResult :=
  if bool_decide (o = Applied) then ApplyResult_applied 0 else ApplyResult_idempotent.

(** The funding block of a deposit, given the block the scan found. *)
Lemma funding_transition current b blocks :
  deposit_ledger_block_transition current None 1 b = Some blocks ->
  blocks = (Some b, None) /\ (current = None \/ current = Some b).
Proof.
  unfold deposit_ledger_block_transition, deposit_ledger_block_transition_body. simpl.
  destruct current; [case_match; reflect|]; naive_solver.
Qed.

Lemma refund_transition current b blocks :
  deposit_ledger_block_transition current.1 current.2 2 b = Some blocks ->
  blocks.2 = Some b /\ (current.2 = None \/ current.2 = Some b).
Proof.
  unfold deposit_ledger_block_transition, deposit_ledger_block_transition_body. simpl.
  destruct current as [[f|] [r|]]; simpl; [case_match; reflect|..]; naive_solver.
Qed.

(** Close an arm: the hold was open and the records move, or both had moved. *)
Ltac close_arm Es :=
  repeat case_match; reflect; simplify_eq; try done;
  match goal with
  | H : _ \/ _ |- _ => destruct H as [(? & ? & ?)|(? & ? & ?)]; simplify_eq; try done
  end;
  open_hyps; simplify_eq; unfold arm_result;
  first [ by constructor
        | by econstructor
        | apply HStep_replay; simpl; unfold holds_funding, holds_refund,
            DepositRecord_funding_ledger_block_index, DepositRecord_ledger_blocks;
          rewrite ?Es; simpl; split_and!; eauto ].

Lemma resolve_funding_succeeded_sound d h b o d' h' :
  resolve_funding_succeeded d h b = Ok (o, o, d', h') ->
  DepositHoldStep d h (Res_FundingSucceeded b) (arm_result o) d' h'.
Proof.
  unfold resolve_funding_succeeded. intros H.
  destruct (bool_decide _ || bool_decide _) eqn:E; [done|].
  reflect. destruct E as [?%dec_stable ?%dec_stable].
  destruct (ok_or _ _) as [blocks|] eqn:Eb in H; [|done]. apply ok_or_Ok in Eb.
  apply funding_transition in Eb as [-> Hcur]. simpl in H.
  destruct (ReconciliationHoldRecord_resolve_succeeded h b) as [[ho h1]|] eqn:Eh; [|done].
  apply resolve_succeeded_spec in Eh. clear Hcur.
  unfold DepositRecord_funding_ledger_block_index, DepositRecord_ledger_blocks in *.
  destruct (dr_state d) eqn:Es; simpl in *; close_arm Es.
Qed.

Lemma resolve_funding_absent_sound d h w o d' h' :
  resolve_funding_absent d h w = Ok (o, o, d', h') ->
  DepositHoldStep d h (Res_FundingAbsent w) (arm_result o) d' h'.
Proof.
  unfold resolve_funding_absent. intros H.
  destruct (bool_decide _ || bool_decide _) eqn:E; [done|].
  reflect. destruct E as [?%dec_stable ?%dec_stable].
  destruct (ReconciliationHoldRecord_resolve_absent h w) as [[ho h1]|] eqn:Eh; [|done].
  apply resolve_absent_spec in Eh.
  destruct (dr_state d) eqn:Es; simpl in *; close_arm Es.
Qed.

Lemma resolve_refund_succeeded_sound d h b o d' h' :
  resolve_refund_succeeded d h b = Ok (o, o, d', h') ->
  DepositHoldStep d h (Res_RefundSucceeded b) (arm_result o) d' h'.
Proof.
  unfold resolve_refund_succeeded. intros H.
  destruct (bool_decide _) eqn:E in H; [done|]. apply bool_decide_eq_false, dec_stable in E.
  destruct (ok_or _ _) as [blocks|] eqn:Eb in H; [|done]. apply ok_or_Ok in Eb.
  apply refund_transition in Eb as [Eb _]. rewrite Eb in H. simpl in H.
  destruct (ReconciliationHoldRecord_resolve_succeeded h b) as [[ho h1]|] eqn:Eh; [|done].
  apply resolve_succeeded_spec in Eh. clear Eb.
  destruct (dr_state d) eqn:Es; simpl in *; close_arm Es.
Qed.

Lemma resolve_refund_absent_sound d h w identity' o d' h' :
  resolve_refund_absent d h w identity' = Ok (o, o, d', h') ->
  DepositHoldStep d h (Res_RefundAbsent w identity') (arm_result o) d' h'.
Proof.
  unfold resolve_refund_absent. intros H.
  destruct (bool_decide _) eqn:E in H; [done|]. apply bool_decide_eq_false, dec_stable in E.
  destruct (ReconciliationHoldRecord_resolve_absent h w) as [[ho h1]|] eqn:Eh; [|done].
  apply resolve_absent_spec in Eh.
  destruct (dr_state d) eqn:Es; simpl in *; try done.
  - close_arm Es.
  - case_match eqn:E2; [|done]. reflect. destruct E2 as [-> ?].
    destruct (TransferAttempt_retry_after_absence attempt identity') eqn:Er; [|done].
    apply retry_after_absence_spec in Er. simplify_eq.
    destruct Eh as [(? & ? & ?)|(? & ? & ?)]; simplify_eq. by eapply HStep_retry.
Qed.

Lemma resolve_deposit_hold_sound d h r res d' h' :
  resolve_deposit_hold d h r = Ok (res, d', h') -> DepositHoldStep d h r res d' h'.
Proof.
  unfold resolve_deposit_hold. intros H.
  destruct r; match type of H with
    | match ?arm with _ => _ end = _ => destruct arm as [[[[ho ro] d1] h1]|] eqn:E; [|done]
    end; case_bool_decide as Ho; try done; subst ho; simplify_eq;
    [apply resolve_funding_succeeded_sound in E|apply resolve_funding_absent_sound in E
    |apply resolve_refund_succeeded_sound in E|apply resolve_refund_absent_sound in E]; done.
Qed.

Lemma resolve_deposit_hold_replay d h r :
  deposit_resolution_recorded d h r ->
  resolve_deposit_hold d h r = Ok (ApplyResult_idempotent, d, h).
Proof.
  unfold resolve_deposit_hold, resolve_funding_succeeded, resolve_funding_absent,
    resolve_refund_succeeded, resolve_refund_absent, holds_funding, holds_refund,
    ReconciliationHoldRecord_resolve_succeeded, ReconciliationHoldRecord_resolve_absent.
  destruct r as [b|w|b|w identity']; simpl; unfold holds_funding, holds_refund.
  - intros ([Hr Ht] & Hh & Hb). rewrite Hr, Ht, Hh, Hb, !bool_decide_false by tauto.
    unfold deposit_ledger_block_transition, deposit_ledger_block_transition_body. simpl.
    rewrite Z.eqb_refl. simpl. rewrite Z.eqb_refl, bool_decide_true by done.
    unfold DepositRecord_funding_ledger_block_index, DepositRecord_ledger_blocks in Hb.
    by destruct (dr_state d).
  - intros ([Hr Ht] & Hh & Hs). rewrite Hr, Ht, Hh, Hs, !bool_decide_false by tauto. simpl.
    by rewrite !Z.eqb_refl.
  - intros (Hr & Hh & reason & f & a & Hs & Ht). rewrite Hr, Hh, Hs, bool_decide_false by tauto.
    unfold deposit_ledger_block_transition, deposit_ledger_block_transition_body. simpl.
    rewrite !Z.eqb_refl. simpl. by rewrite !Z.eqb_refl, bool_decide_true.
  - intros (Hr & Hh & reason & f & a & Hs & Ht). rewrite Hr, Hh, Hs, bool_decide_false by tauto.
    by rewrite Z.eqb_refl, bool_decide_true.
Qed.

Lemma resolve_deposit_hold_complete d h r res d' h' :
  DepositHoldStep d h r res d' h' -> resolve_deposit_hold d h r = Ok (res, d', h').
Proof.
  intros H. destruct H as [r Hrec|b [Hr Ht] Ho Hs|w [Hr Ht] Ho Hs|b reason f a Hr Ho Hs Ht
    |w reason f a identity' a' Hr Ho Hs Ht Hretry].
  - by apply resolve_deposit_hold_replay.
  - unfold resolve_deposit_hold, resolve_funding_succeeded, DepositRecord_funding_ledger_block_index,
      DepositRecord_ledger_blocks, ReconciliationHoldRecord_resolve_succeeded.
    rewrite Hr, Ht, Ho, Hs, !bool_decide_false by tauto. simpl. by rewrite Z.eqb_refl.
  - unfold resolve_deposit_hold, resolve_funding_absent, ReconciliationHoldRecord_resolve_absent.
    rewrite Hr, Ht, Ho, Hs, !bool_decide_false by tauto. by rewrite Z.eqb_refl.
  - unfold resolve_deposit_hold, resolve_refund_succeeded, ReconciliationHoldRecord_resolve_succeeded.
    rewrite Hr, Ho, Hs, bool_decide_false by tauto. simpl.
    by rewrite Z.eqb_refl, bool_decide_true.
  - unfold resolve_deposit_hold, resolve_refund_absent, ReconciliationHoldRecord_resolve_absent.
    rewrite Hr, Ho, Hs, bool_decide_false by tauto. simpl.
    rewrite Z.eqb_refl, bool_decide_true by done. simpl.
    by rewrite (proj2 (retry_after_absence_spec a identity' a') Hretry).
Qed.

(** ** Withdrawals *)

(** The transfer on hold is the withdrawal's attempt.  For a retried attempt the
    source skips this comparison. *)
Definition holds_release (h : ReconciliationHoldRecord) (w : WithdrawalRecord)
    (a : TransferAttempt) : Prop :=
  rh_request h = Ref_Withdrawal (wr_id w) /\
  (rh_transfer h = ta_identity a \/ ta_attempt_no a <> 0).

Definition withdrawal_resolution_recorded
    (w : WithdrawalRecord) (h : ReconciliationHoldRecord) (r : WithdrawalHoldResolution) : Prop :=
  match r with
  | Res_Succeeded b =>
      rh_state h = HoldResolvedSucceeded b /\
      exists a s, wr_state w = Paid a s b (Some (rh_id h)) /\ holds_release h w a
  | Res_Absent m identity' =>
      rh_state h = HoldResolvedAbsent m /\
      exists a s, wr_state w = ReleasePending a s /\ ta_identity a = identity' /\
        0 < ta_attempt_no a /\ rh_request h = Ref_Withdrawal (wr_id w)
  end.

Inductive WithdrawalHoldStep (w : WithdrawalRecord) (h : ReconciliationHoldRecord)
  : WithdrawalHoldResolution -> ApplyResult -> WithdrawalRecord -> ReconciliationHoldRecord
    -> Prop :=
| WHStep_replay r :
    withdrawal_resolution_recorded w h r -> WithdrawalHoldStep w h r ApplyResult_idempotent w h
| WHStep_paid b a s :
    rh_state h = HoldOpen -> wr_state w = ReconciliationHold (rh_id h) a s ->
    holds_release h w a ->
    WithdrawalHoldStep w h (Res_Succeeded b)
      (ApplyResult_applied (wr_charged_service_fee w - s_ledger_fee s))
      (WithdrawalRecord_with_state w (Paid a s b (Some (rh_id h))))
      (hold_with_state h (HoldResolvedSucceeded b))
| WHStep_retry m a s identity' a' :
    rh_state h = HoldOpen -> wr_state w = ReconciliationHold (rh_id h) a s ->
    holds_release h w a -> retries a identity' a' ->
    WithdrawalHoldStep w h (Res_Absent m identity') (ApplyResult_applied 0)
      (WithdrawalRecord_with_state w (ReleasePending a' s))
      (hold_with_state h (HoldResolvedAbsent m)).

#[export] Hint Constructors WithdrawalHoldStep : bridge.

Lemma release_transition current b release :
  withdrawal_ledger_block_transition current 1 b = Some release ->
  release = Some b /\ (current = None \/ current = Some b).
Proof.
  unfold withdrawal_ledger_block_transition, withdrawal_ledger_block_transition_body. simpl.
  destruct current; [case_match; reflect|]; naive_solver.
Qed.

(** The settlement checks of a release found on the ledger never fail. *)
Lemma hold_release_effects w a s :
  WithdrawalRecord_quoted w -> attempt_pays w a s ->
  withdrawal_transition_effects 3 4 (s_amount_out s) (s_ledger_fee s) (s_service_fee s) =
    Some (2, s_amount_out s + s_ledger_fee s, wr_charged_service_fee w - s_ledger_fee s,
          s_amount_out s + s_service_fee s) /\
  Amount_checked_add (s_amount_out s) (s_ledger_fee s) = Ok (s_amount_out s + s_ledger_fee s) /\
  Amount_checked_add (s_amount_out s) (s_service_fee s) = Ok (s_amount_out s + s_service_fee s).
Proof.
  intros Hq Hp. pose proof (release_effects w a s Hq Hp) as Heff.
  unfold withdrawal_transition_effects, withdrawal_transition_effects_body.
  unfold outbound_settlement in Heff. simpl. rewrite Heff.
  destruct Hq, Hp. ranges. rewrite !Amount_checked_add_Ok. split_and!; try lia.
  repeat f_equal; lia.
Qed.

Definition release_result (o : ApplyOutcome) (fee : Z) : ApplyResult :=
  if bool_decide (o = Applied) then ApplyResult_applied fee else ApplyResult_idempotent.

(** The checks before the match on the resolution. *)
Definition release_held (w : WithdrawalRecord) (h : ReconciliationHoldRecord) : Prop :=
  exists a, withdrawal_held_attempt w h = Ok a /\ holds_release h w a.

Lemma resolve_release_succeeded_sound w h b o w' h' fee :
  WithdrawalRecord_wf w -> release_held w h ->
  resolve_release_succeeded w h b = Ok ((o, o, w', h'), fee) ->
  WithdrawalHoldStep w h (Res_Succeeded b) (release_result o fee) w' h'.
Proof.
  intros [Hq Hst] (a & Ha & Hheld). unfold resolve_release_succeeded, withdrawal_held_attempt in *.
  intros H. destruct (ok_or _ _) as [release|] eqn:Eb in H; [|done]. apply ok_or_Ok in Eb.
  apply release_transition in Eb as [-> _]. simpl in H.
  destruct (ReconciliationHoldRecord_resolve_succeeded h b) as [[ho h1]|] eqn:Eh; [|done].
  apply resolve_succeeded_spec in Eh.
  destruct (wr_state w) as [|a1 s|a1 s b0 [id|]|hid a1 s] eqn:Es; try done.
  - destruct (Z.eqb_spec id (rh_id h)) as [->|]; [|done].
    destruct (Z.eqb_spec b0 b) as [->|]; [|done]. simplify_eq/=.
    destruct Eh as [(? & ? & ?)|(? & ? & ?)]; simplify_eq. apply WHStep_replay.
    split; [done|]. by exists a, s.
  - destruct (Z.eqb_spec hid (rh_id h)) as [->|]; [|done]. simplify_eq.
    destruct (hold_release_effects w a s Hq Hst) as (Heff & He & Hl).
    rewrite Heff, He, Hl in H. simpl in H. rewrite !Z.eqb_refl in H. simplify_eq/=.
    destruct Eh as [(? & ? & ?)|(? & ? & ?)]; simplify_eq. by apply WHStep_paid.
Qed.

Lemma resolve_release_absent_sound w h m identity' o w' h' fee :
  release_held w h ->
  resolve_release_absent w h m identity' = Ok ((o, o, w', h'), fee) ->
  WithdrawalHoldStep w h (Res_Absent m identity') (release_result o fee) w' h'.
Proof.
  intros (a & Ha & Hheld). unfold resolve_release_absent, withdrawal_held_attempt in *.
  intros H. destruct (ReconciliationHoldRecord_resolve_absent h m) as [[ho h1]|] eqn:Eh; [|done].
  apply resolve_absent_spec in Eh.
  destruct (wr_state w) as [|a1 s|a1 s b0 [id|]|hid a1 s] eqn:Es; try done.
  - destruct (ta_attempt_no a1 >? 0) eqn:En; [|done]. case_bool_decide; [|done].
    rewrite Z.gtb_lt in En. simplify_eq.
    destruct Eh as [(? & ? & ?)|(? & ? & ?)]; simplify_eq. apply WHStep_replay.
    split; [done|]. destruct Hheld. by exists a, s.
  - destruct (Z.eqb_spec hid (rh_id h)) as [->|]; [|done]. simpl in H. simplify_eq.
    destruct (TransferAttempt_retry_after_absence a identity') eqn:Er; [|done].
    apply retry_after_absence_spec in Er. simplify_eq.
    destruct Eh as [(? & ? & ?)|(? & ? & ?)]; simplify_eq. by eapply WHStep_retry.
Qed.

Lemma resolve_withdrawal_hold_sound w h r res w' h' :
  WithdrawalRecord_wf w ->
  resolve_withdrawal_hold w h r = Ok (res, w', h') -> WithdrawalHoldStep w h r res w' h'.
Proof.
  intros Hwf H. unfold resolve_withdrawal_hold in H.
  destruct (bool_decide _) eqn:Hreq in H; [done|]. apply bool_decide_eq_false, dec_stable in Hreq.
  destruct (withdrawal_held_attempt w h) as [a|] eqn:Ha; [|done].
  destruct (bool_decide _ && _) eqn:Ht in H; [done|].
  assert (release_held w h) as Hheld.
  { exists a. split; [done|]. split; [done|]. apply andb_false_iff in Ht as [Ht|Ht]; reflect;
      [left; by apply dec_stable|by right]. }
  destruct r; match type of H with
    | match ?arm with _ => _ end = _ => destruct arm as [[[[[ho ro] w1] h1] fee]|] eqn:E; [|done]
    end; case_bool_decide as Ho; try done; subst ho; simplify_eq;
    [apply resolve_release_succeeded_sound in E|apply resolve_release_absent_sound in E]; done.
Qed.

Lemma hold_check_passes h a :
  rh_transfer h = ta_identity a \/ ta_attempt_no a <> 0 ->
  bool_decide (rh_transfer h <> ta_identity a) && (ta_attempt_no a =? 0) = false.
Proof.
  intros [Ht|Hn]; apply andb_false_iff; [left|right]; reflect; naive_solver.
Qed.

Lemma resolve_withdrawal_hold_complete w h r res w' h' :
  WithdrawalRecord_wf w ->
  WithdrawalHoldStep w h r res w' h' -> resolve_withdrawal_hold w h r = Ok (res, w', h').
Proof.
  intros [Hq Hst] H. unfold resolve_withdrawal_hold, withdrawal_held_attempt.
  destruct H as [r Hrec|b a s Ho Hs [Hr Ht]|m a s identity' a' Ho Hs [Hr Ht] Hretry].
  - destruct r as [b|m identity'].
    + destruct Hrec as (Hh & a & s & Hs & Hr & Ht).
      rewrite Hr, Hs, bool_decide_false, Z.eqb_refl by tauto.
      rewrite (hold_check_passes h a Ht).
      unfold resolve_release_succeeded, ReconciliationHoldRecord_resolve_succeeded.
      rewrite Hs, Hh. unfold withdrawal_ledger_block_transition,
        withdrawal_ledger_block_transition_body. simpl. rewrite !Z.eqb_refl. simpl.
      by rewrite !Z.eqb_refl.
    + destruct Hrec as (Hh & a & s & Hs & Hid & Hno & Hr).
      rewrite Hr, Hs, bool_decide_false by tauto.
      rewrite (proj2 (Z.gtb_lt _ _) Hno), (hold_check_passes h a) by (right; lia).
      unfold resolve_release_absent, ReconciliationHoldRecord_resolve_absent.
      by rewrite Hs, Hh, Z.eqb_refl, bool_decide_true.
  - rewrite Hs in Hst. rewrite Hr, Hs, bool_decide_false, Z.eqb_refl by tauto.
    rewrite (hold_check_passes h a Ht).
    unfold resolve_release_succeeded, ReconciliationHoldRecord_resolve_succeeded.
    destruct (hold_release_effects w a s Hq Hst) as (Heff & He & Hl).
    rewrite Hs, Ho. simpl. rewrite Heff, He, Hl. simpl. by rewrite !Z.eqb_refl.
  - rewrite Hr, Hs, bool_decide_false, Z.eqb_refl by tauto. rewrite (hold_check_passes h a Ht).
    unfold resolve_release_absent, ReconciliationHoldRecord_resolve_absent. rewrite Hs, Ho. simpl.
    by rewrite (proj2 (retry_after_absence_spec a identity' a') Hretry).
Qed.

(** ** Invariants *)

Lemma hold_step_hold d h r res d' h' :
  DepositHoldStep d h r res d' h' ->
  rh_id h' = rh_id h /\ rh_request h' = rh_request h /\ rh_transfer h' = rh_transfer h /\
  (rh_state h = HoldOpen \/ h' = h).
Proof. destruct 1; simpl; auto. Qed.

Lemma retry_refund_pays d a identity' a' :
  retries a identity' a' -> refund_pays d a -> refund_pays d a'.
Proof. intros [] []. split; rewrite retry_identity0; congruence. Qed.

Lemma retry_attempt_pays w a s identity' a' :
  retries a identity' a' -> attempt_pays w a s -> attempt_pays w a' s.
Proof. intros [] []. split; rewrite ?retry_identity0; congruence || lia. Qed.

Lemma with_state_wf d st :
  DepositRecord_wf d -> DepositRecord_state_wf (deposit_with_state d st) ->
  DepositRecord_wf (deposit_with_state d st).
Proof. intros [] ?. by split. Qed.

Lemma hold_step_wf d h r res d' h' :
  DepositRecord_wf d -> DepositHoldStep d h r res d' h' ->
  DepositRecord_wf d' /\ same_request d d' /\ charged_fee d' = charged_fee d /\
  reserved d' = reserved d.
Proof.
  intros Hwf Hstep. pose proof (dwf_state d Hwf) as Hst. unfold DepositRecord_state_wf in Hst.
  destruct Hstep as [r _|b _ _ Hs|w _ _ Hs|b reason f a _ _ Hs _|w reason f a identity' a' _ _ Hs _ Hr];
    [by split_and!|..]; rewrite Hs in Hst;
    (split; [apply with_state_wf; [done|]|split; [done|split; [done|]]];
     [unfold DepositRecord_state_wf; simpl; try done
     |unfold reserved, DepositRecord_reserves_mint_resources; by rewrite Hs]).
  - by apply (refunding_frame d).
  - destruct Hst as (? & ? & ? & ?). split_and!; try done; [by apply (refundable_frame d)|].
    apply (refund_pays_frame d); [done..|]. by eapply retry_refund_pays.
Qed.

Lemma withdrawal_hold_step_wf w h r res w' h' :
  WithdrawalRecord_wf w -> WithdrawalHoldStep w h r res w' h' ->
  WithdrawalRecord_wf w' /\
  rh_id h' = rh_id h /\ rh_request h' = rh_request h /\ rh_transfer h' = rh_transfer h /\
  (rh_state h = HoldOpen \/ h' = h).
Proof.
  intros [Hq Hst] Hstep. destruct Hstep as [r _|b a s Ho Hs _|m a s identity' a' Ho Hs _ Hretry];
    [by split_and!; auto|..]; rewrite Hs in Hst; (split; [split; simpl|by auto]); auto with bridge.
  apply attempt_pays_with_state. by eapply retry_attempt_pays.
Qed.

Lemma hold_step_recorded d h r res d' h' :
  DepositHoldStep d h r res d' h' -> deposit_resolution_recorded d' h' r.
Proof.
  intros H. destruct H as [| | | |? ? ? ? ? ? ? ? ? ? []]; simpl; try done;
    (split; [done|split; [done|]]); eauto 6.
Qed.

Lemma hold_step_resolved d h r res d' h' :
  DepositHoldStep d h r res d' h' -> rh_state h' <> HoldOpen.
Proof. destruct 1 as [[] Hrec| | | |]; simpl in *; open_hyps; congruence. Qed.

(** A resolution of a hold that is not open agrees with the one it has. *)
Lemma hold_step_agrees d h r res d' h' :
  rh_state h <> HoldOpen -> DepositHoldStep d h r res d' h' ->
  match rh_state h, r with
  | HoldResolvedSucceeded b, Res_FundingSucceeded b2
  | HoldResolvedSucceeded b, Res_RefundSucceeded b2 => b2 = b
  | HoldResolvedAbsent m, Res_FundingAbsent m2 | HoldResolvedAbsent m, Res_RefundAbsent m2 _ =>
      m2 = m
  | _, _ => False
  end.
Proof.
  intros Hopen H. destruct H as [[] Hrec| | | |]; simpl in *; open_hyps; try congruence;
    repeat match goal with H : rh_state h = _ |- _ => rewrite H end; done.
Qed.

(** ** Example holds *)

Definition ex_refund_hold : ReconciliationHoldRecord :=
  ReconciliationHoldRecord_open 9 (Ref_DepositRefund [7]) (ta_identity ex_refund).

Definition ex_release_hold : ReconciliationHoldRecord :=
  ReconciliationHoldRecord_open 12 (Ref_Withdrawal [21]) (ta_identity ex_release).

(** ** Properties *)

(** C19 (deposit holds).  A resolution of a deposit's hold is accepted exactly when
    the protocol allows it: the hold was opened for this transfer of this
    deposit and either is still open, with the deposit waiting on it, or was
    already resolved in the same way.  Both records move together; the deposit
    stays well formed with the same request and fee, the hold keeps its
    identity and is resolved once; and a transfer proved absent is replaced by
    a later one with another memo and the same amount and accounts. *)
Theorem resolve_deposit_hold_refines d h r res d' h' :
  DepositRecord_wf d ->
  (resolve_deposit_hold d h r = Ok (res, d', h') <-> DepositHoldStep d h r res d' h') /\
  (DepositHoldStep d h r res d' h' ->
     DepositRecord_wf d' /\ same_request d d' /\ charged_fee d' = charged_fee d /\
     reserved d' = reserved d /\
     rh_id h' = rh_id h /\ rh_request h' = rh_request h /\ rh_transfer h' = rh_transfer h /\
     (rh_state h = HoldOpen \/ h' = h)).
Proof.
  intros Hwf. split.
  - split; [apply resolve_deposit_hold_sound|apply resolve_deposit_hold_complete].
  - intros Hstep. destruct (hold_step_wf _ _ _ _ _ _ Hwf Hstep) as (? & ? & ? & ?).
    split_and!; try done; by eapply hold_step_hold.
Qed.

Lemma resolve_deposit_hold_refines_witness :
  let d := ex_held_deposit in
  let identity' := ex_transfer RefundDeposit 940 10 99 ex_bridge ex_user None in
  let d' := deposit_with_state d (RefundPending Reason_AuthorizationExpired 3
              {| ta_attempt_no := 1; ta_identity := identity' |}) in
  DepositHoldStep d ex_refund_hold (Res_RefundAbsent 1000 identity') (ApplyResult_applied 0) d'
    (hold_with_state ex_refund_hold (HoldResolvedAbsent 1000)).
Proof.
  intros d identity' d'.
  apply (proj1 (resolve_deposit_hold_refines d ex_refund_hold (Res_RefundAbsent 1000 identity')
    (ApplyResult_applied 0) d' (hold_with_state ex_refund_hold (HoldResolvedAbsent 1000))
    ex_held_deposit_wf)).
  vm_compute. reflexivity.
Defined.

(** C23 (withdrawal holds).  The same for the hold of a release: the settlement
    checks never fail for a well-formed withdrawal, the reserve is credited the
    charged fee less the ledger fee exactly when the release is found, and the
    withdrawal stays well formed. *)
Theorem resolve_withdrawal_hold_refines w h r res w' h' :
  WithdrawalRecord_wf w ->
  (resolve_withdrawal_hold w h r = Ok (res, w', h') <-> WithdrawalHoldStep w h r res w' h') /\
  (WithdrawalHoldStep w h r res w' h' ->
     WithdrawalRecord_wf w' /\
     rh_id h' = rh_id h /\ rh_request h' = rh_request h /\ rh_transfer h' = rh_transfer h /\
     (rh_state h = HoldOpen \/ h' = h)).
Proof.
  intros Hwf. split; [split|].
  - by apply resolve_withdrawal_hold_sound.
  - by apply resolve_withdrawal_hold_complete.
  - by apply withdrawal_hold_step_wf.
Qed.

Lemma resolve_withdrawal_hold_refines_witness :
  let w := ex_held_withdrawal ex_release in
  WithdrawalHoldStep w ex_release_hold (Res_Succeeded 77) (ApplyResult_applied 10)
    (WithdrawalRecord_with_state w (Paid ex_release ex_settlement 77 (Some 12)))
    (hold_with_state ex_release_hold (HoldResolvedSucceeded 77)).
Proof.
  intros w. apply (proj1 (resolve_withdrawal_hold_refines w ex_release_hold (Res_Succeeded 77)
    (ApplyResult_applied 10)
    (WithdrawalRecord_with_state w (Paid ex_release ex_settlement 77 (Some 12)))
    (hold_with_state ex_release_hold (HoldResolvedSucceeded 77))
    (ex_held_withdrawal_wf ex_release eq_refl))).
  vm_compute. reflexivity.
Defined.

(** C20 (hold replays).  Whatever resolution was accepted for a hold is accepted
    again as a replay that changes neither record, and the opposite finding for
    the same hold is refused: a hold resolved as found can not be resolved as
    absent (which would retry a transfer that happened), nor the reverse. *)
Theorem hold_resolved_once d h r res d' h' :
  resolve_deposit_hold d h r = Ok (res, d', h') ->
  resolve_deposit_hold d' h' r = Ok (ApplyResult_idempotent, d', h') /\
  forall d2 r2 out, resolve_deposit_hold d2 h' r2 = Ok out ->
    match rh_state h', r2 with
    | HoldResolvedSucceeded b, Res_FundingSucceeded b2 | HoldResolvedSucceeded b, Res_RefundSucceeded b2 =>
        b2 = b
    | HoldResolvedAbsent m, Res_FundingAbsent m2 | HoldResolvedAbsent m, Res_RefundAbsent m2 _ =>
        m2 = m
    | _, _ => False
    end.
Proof.
  intros H. apply resolve_deposit_hold_sound in H. split.
  - apply resolve_deposit_hold_replay. by eapply hold_step_recorded.
  - intros d2 r2 [[res2 d3] h3] H2. apply resolve_deposit_hold_sound in H2.
    apply hold_step_resolved in H. by eapply hold_step_agrees.
Qed.

Lemma hold_resolved_once_witness :
  let d' := deposit_with_state ex_held_deposit
              (Refunded Reason_AuthorizationExpired 3 ex_refund 44 (Some 9)) in
  let h' := hold_with_state ex_refund_hold (HoldResolvedSucceeded 44) in
  resolve_deposit_hold d' h' (Res_RefundSucceeded 44) = Ok (ApplyResult_idempotent, d', h').
Proof.
  intros d' h'.
  assert (resolve_deposit_hold ex_held_deposit ex_refund_hold (Res_RefundSucceeded 44) =
          Ok (ApplyResult_applied 0, d', h')) as H by (vm_compute; reflexivity).
  exact (proj1 (hold_resolved_once ex_held_deposit ex_refund_hold (Res_RefundSucceeded 44)
    (ApplyResult_applied 0) d' h' H)).
Defined.

