(* ===== verification/Tables.v ===== *)
(** * Tracked tables

    [canister/bridge-canister/src/storage/transaction.rs]: key-value tables with
    a row count kept beside them in [table_counts].  A table is a finite map of
    decoded rows with its counter; a statement inside a transaction takes the
    table to the next one or fails with a [DbError], on which the enclosing
    transaction is rolled back.  The primary key of every table is [key], so an
    insertion over an existing row is a constraint violation. *)

From S2P Require Import Prelude.

Inductive DbError :=
| NotFound
| Constraint (message : string).

#[export] Instance DbError_eq_dec : EqDecision DbError.
Proof. solve_decision. Defined.

Record Table (K V : Type) `{Countable K} := {
  t_rows : gmap K V;
  t_count : Z;
}.
Arguments t_rows {K V _ _} _.
Arguments t_count {K V _ _} _.

Definition Table_empty {K V} `{Countable K} : Table K V := {| t_rows := ∅; t_count := 0 |}.

Section tables.
Context {K V : Type} `{Countable K}.
Implicit Types (t : Table K V) (k : K) (v : V).

Definition increment_table_count t : Result DbError (Table K V) :=
  let? next := ok_or (checked_add u64_max (t_count t) 1) (Constraint "table count overflow") in
  Ok {| t_rows := t_rows t; t_count := next |}.

Definition decrement_table_count t : Result DbError (Table K V) :=
  let? next := ok_or (checked_sub (t_count t) 1) (Constraint "table count underflow") in
  Ok {| t_rows := t_rows t; t_count := next |}.

Definition insert_tracked_entry t k v : Result DbError (Table K V) :=
  match t_rows t !! k with
  | Some _ => Err (Constraint "UNIQUE constraint failed")
  | None => increment_table_count {| t_rows := <[k := v]> (t_rows t); t_count := t_count t |}
  end.

Definition require_tracked_entry t k : Result DbError unit :=
  match t_rows t !! k with
  | None => Err (Constraint "missing tracked entry")
  | Some _ => Ok tt
  end.

Definition delete_tracked_entry t k : Result DbError (Table K V) :=
  let? _ := require_tracked_entry t k in
  decrement_table_count {| t_rows := delete k (t_rows t); t_count := t_count t |}.

(** [UPDATE ... SET value = ?1 WHERE key = ?2]: no row, no change. *)
Definition update_entry t k v : Table K V :=
  match t_rows t !! k with
  | Some _ => {| t_rows := <[k := v]> (t_rows t); t_count := t_count t |}
  | None => t
  end.

Definition transition_tracked_entry t (previous_key : option K) (next : option (K * V))
    : Result DbError (Table K V) :=
  match previous_key, next with
  | None, None => Ok t
  | Some previous, None => delete_tracked_entry t previous
  | None, Some (k, v) => insert_tracked_entry t k v
  | Some previous, Some (k, v) =>
      if bool_decide (previous = k) then
        let? _ := require_tracked_entry t k in
        Ok (update_entry t k v)
      else
        let? deleted := delete_tracked_entry t previous in
        insert_tracked_entry deleted k v
  end.

Definition replace_expected_entry `{EqDecision V} t k (expected next : V) (stale_error : string)
    : Result DbError (Table K V) :=
  match t_rows t !! k with
  | None => Err NotFound
  | Some persisted =>
      if bool_decide (persisted <> expected) then Err (Constraint stale_error)
      else Ok (update_entry t k next)
  end.

Definition upsert_table_entry t k v : Result DbError (Table K V) :=
  match t_rows t !! k with
  | Some _ => Ok (update_entry t k v)
  | None => insert_tracked_entry t k v
  end.

Definition remove_table_entry t k : Result DbError (Table K V) :=
  match t_rows t !! k with
  | Some _ => delete_tracked_entry t k
  | None => Ok t
  end.

(** ** The counter is the number of rows *)

Definition table_wf t : Prop :=
  t_count t = Z.of_nat (size (t_rows t)) /\ t_count t <= u64_max.

(** The table with exactly the given rows. *)
Definition tabled (m : gmap K V) : Table K V := {| t_rows := m; t_count := Z.of_nat (size m) |}.

Lemma table_wf_tabled t : table_wf t -> t = tabled (t_rows t).
Proof. destruct t. intros [Hc _]. unfold tabled. simpl in *. by rewrite Hc. Qed.

Lemma size_pos (m : gmap K V) k : is_Some (m !! k) -> (0 < size m)%nat.
Proof.
  intros [v Hk]. destruct (size m) eqn:Hs; [|lia].
  apply map_size_empty_iff in Hs. by rewrite Hs, lookup_empty in Hk.
Qed.

Lemma delete_wf t k : table_wf t -> table_wf (tabled (delete k (t_rows t))).
Proof.
  intros [Hc Hm]. split; simpl; [done|]. rewrite Hc in Hm.
  destruct (t_rows t !! k) eqn:Hk.
  - rewrite map_size_delete_Some by done. lia.
  - by rewrite delete_id.
Qed.

Lemma insert_wf t k v :
  table_wf t -> (t_rows t !! k = None -> t_count t < u64_max) ->
  table_wf (tabled (<[k := v]> (t_rows t))).
Proof.
  intros [Hc Hm] Hroom. split; simpl; [done|]. rewrite Hc in Hm, Hroom.
  destruct (t_rows t !! k) eqn:Hk.
  - rewrite map_size_insert_Some by (by rewrite Hk). lia.
  - rewrite map_size_insert_None by done. specialize (Hroom eq_refl). lia.
Qed.

Lemma insert_tracked_entry_Ok t k v t' :
  table_wf t ->
  insert_tracked_entry t k v = Ok t' <->
  t_rows t !! k = None /\ t_count t < u64_max /\ t' = tabled (<[k := v]> (t_rows t)).
Proof.
  unfold insert_tracked_entry, increment_table_count, tabled. intros [Hc _].
  destruct (t_rows t !! k) eqn:Hk; [naive_solver|]. simpl.
  rewrite map_size_insert_None by done. unfold checked_add.
  destruct (Z.leb_spec (t_count t + 1) u64_max); simpl; split; intros; simplify_eq.
  - split_and!; [done|lia|f_equal; lia].
  - destruct_and!. subst. do 2 f_equal; lia.
  - lia.
Qed.

Lemma delete_tracked_entry_Ok t k t' :
  table_wf t ->
  delete_tracked_entry t k = Ok t' <->
  is_Some (t_rows t !! k) /\ t' = tabled (delete k (t_rows t)).
Proof.
  unfold delete_tracked_entry, require_tracked_entry, decrement_table_count, tabled.
  intros [Hc _]. destruct (t_rows t !! k) as [v|] eqn:Hk; [|split; [done|by intros [[??]?]]]. simpl.
  pose proof (size_pos (t_rows t) k ltac:(by rewrite Hk)).
  rewrite map_size_delete_Some by done. unfold checked_sub.
  destruct (Z.leb_spec 1 (t_count t)); [|lia]. simpl.
  split; intros; [simplify_eq; split; [done|f_equal; lia]|].
  destruct_and!. subst. do 2 f_equal; lia.
Qed.

Lemma update_entry_tabled t k v :
  table_wf t -> is_Some (t_rows t !! k) -> update_entry t k v = tabled (<[k := v]> (t_rows t)).
Proof.
  unfold update_entry, tabled. intros [Hc _] [w Hw]. rewrite Hw. f_equal.
  rewrite map_size_insert_Some by (by rewrite Hw). done.
Qed.

Lemma upsert_table_entry_Ok t k v t' :
  table_wf t ->
  upsert_table_entry t k v = Ok t' <->
  (t_rows t !! k = None -> t_count t < u64_max) /\ t' = tabled (<[k := v]> (t_rows t)).
Proof.
  intros Hwf. unfold upsert_table_entry. destruct (t_rows t !! k) eqn:Hk.
  - rewrite update_entry_tabled by (done || by rewrite Hk). naive_solver.
  - rewrite insert_tracked_entry_Ok by done. naive_solver.
Qed.

Lemma remove_table_entry_Ok t k t' :
  table_wf t -> remove_table_entry t k = Ok t' <-> t' = tabled (delete k (t_rows t)).
Proof.
  intros Hwf. unfold remove_table_entry. destruct (t_rows t !! k) eqn:Hk.
  - rewrite delete_tracked_entry_Ok by done. naive_solver.
  - rewrite delete_id by done. rewrite <- table_wf_tabled by done. naive_solver.
Qed.

(** A transition that succeeds has done exactly what it says. *)
Lemma transition_rows t previous next t' :
  table_wf t -> transition_tracked_entry t previous next = Ok t' ->
  table_wf t' /\
  t_rows t' = (let kept := map_or id delete previous (t_rows t) in
               map_or kept (fun '(k, v) => <[k := v]> kept) next) /\
  (forall p, previous = Some p -> is_Some (t_rows t !! p)) /\
  (forall k v, next = Some (k, v) -> previous = Some k \/
     (t_rows t !! k = None /\ (previous = None -> t_count t < u64_max))).
Proof.
  intros Hwf H1. destruct previous as [p|], next as [[k v]|]; simpl in *.
  - case_bool_decide; subst.
    + unfold require_tracked_entry in H1. destruct (t_rows t !! k) eqn:Hk; simplify_eq/=.
      rewrite update_entry_tabled by (done || by rewrite Hk).
      split_and!; [apply insert_wf; naive_solver| |naive_solver..]. simpl.
      by rewrite insert_delete_eq.
    + destruct (delete_tracked_entry t p) as [deleted|] eqn:Hd; [|done].
      pose proof (delete_wf t p Hwf).
      apply delete_tracked_entry_Ok in Hd as [Hp ->]; [|done].
      apply insert_tracked_entry_Ok in H1 as (Hk & Hroom & ->); [|done].
      simpl in Hk. rewrite lookup_delete_ne in Hk by done.
      split_and!; [by apply (insert_wf (tabled (delete p (t_rows t))))|naive_solver..].
  - apply delete_tracked_entry_Ok in H1 as [Hp ->]; [|done].
    split_and!; [by apply delete_wf|naive_solver..].
  - apply insert_tracked_entry_Ok in H1 as (Hk & Hroom & ->); [|done].
    split_and!; [by apply insert_wf|naive_solver..].
  - simplify_eq. by split_and!.
Qed.

(** A row that is removed under a condition, absent when the condition fails. *)
Lemma remove_if_rows (b : bool) t k t' :
  table_wf t -> (b = false -> t_rows t !! k = None) ->
  (if b then remove_table_entry t k else Ok t) = Ok t' ->
  table_wf t' /\ t_rows t' = delete k (t_rows t).
Proof.
  intros Hwf Hnone. destruct b.
  - rewrite remove_table_entry_Ok by done. intros ->. split; [by apply delete_wf|done].
  - intros [= <-]. by rewrite delete_id by auto.
Qed.

Lemma upsert_rows t k v t' :
  table_wf t -> upsert_table_entry t k v = Ok t' ->
  table_wf t' /\ t_rows t' = <[k := v]> (t_rows t).
Proof.
  intros Hwf. rewrite upsert_table_entry_Ok by done. intros [Hroom ->].
  split; [by apply insert_wf|done].
Qed.

Lemma insert_rows t k v t' :
  table_wf t -> insert_tracked_entry t k v = Ok t' ->
  table_wf t' /\ t_rows t !! k = None /\ t_rows t' = <[k := v]> (t_rows t).
Proof.
  intros Hwf. rewrite insert_tracked_entry_Ok by done. intros (Hnone & Hroom & ->).
  split_and!; [by apply insert_wf|done..].
Qed.

Lemma delete_rows t k t' :
  table_wf t -> delete_tracked_entry t k = Ok t' ->
  table_wf t' /\ is_Some (t_rows t !! k) /\ t_rows t' = delete k (t_rows t).
Proof.
  intros Hwf. rewrite delete_tracked_entry_Ok by done. intros [Hsome ->].
  split_and!; [by apply delete_wf|done..].
Qed.

Lemma update_rows t k v :
  table_wf t -> is_Some (t_rows t !! k) ->
  table_wf (update_entry t k v) /\ t_rows (update_entry t k v) = <[k := v]> (t_rows t).
Proof.
  intros Hwf Hk. rewrite update_entry_tabled by done. split; [|done].
  apply insert_wf; [done|]. intros Hn. destruct Hk. congruence.
Qed.

(** Tracked tables.  [transition_tracked_entry] on a table whose counter
    is its number of rows succeeds exactly when the previous key is present, the
    next one is free unless it replaces the previous one, and a row that is
    added still fits the counter; the rows are then the old ones without the
    previous key and with the next entry, and the counter is again their
    number. *)
Theorem transition_tracked_entry_exact t previous next t' :
  table_wf t ->
  transition_tracked_entry t previous next = Ok t' <->
  (forall p, previous = Some p -> is_Some (t_rows t !! p)) /\
  (forall k v, next = Some (k, v) -> previous = Some k \/
     (t_rows t !! k = None /\ (previous = None -> t_count t < u64_max))) /\
  t_rows t' = (let kept := map_or id delete previous (t_rows t) in
               map_or kept (fun '(k, v) => <[k := v]> kept) next) /\
  table_wf t'.
Proof.
  intros Hwf. split.
  - intros H1. apply transition_rows in H1 as (? & ? & ? & ?); [|done]. by split_and!.
  - intros (Hp & Hk & Hrows & Hwf'). rewrite (table_wf_tabled t'), Hrows by done.
    destruct previous as [p|], next as [[k v]|]; simpl in *.
    + specialize (Hp p eq_refl). specialize (Hk k v eq_refl). case_bool_decide; subst.
      * unfold require_tracked_entry. destruct (t_rows t !! k) eqn:Hk'; [|by destruct Hp].
        rewrite update_entry_tabled by (done || by rewrite Hk'). by rewrite insert_delete_eq.
      * destruct Hk as [?|[Hk _]]; [naive_solver|].
        rewrite (proj2 (delete_tracked_entry_Ok t p _ Hwf) (conj Hp eq_refl)).
        apply insert_tracked_entry_Ok; [by apply delete_wf|]. simpl.
        rewrite lookup_delete_ne by done. split_and!; [done| |done].
        rewrite map_size_delete_Some by done. pose proof (size_pos _ _ Hp).
        destruct Hwf. lia.
    + apply delete_tracked_entry_Ok; [done|]. split; [naive_solver|done].
    + apply insert_tracked_entry_Ok; [done|].
      destruct (Hk k v eq_refl) as [?|[Hk' Hroom]]; [done|]. split_and!; [done|naive_solver|done].
    + f_equal. by apply table_wf_tabled.
Qed.
End tables.

Lemma transition_tracked_entry_exact_witness :
  let t : Table Z Z := tabled {[ 1 := 10; 3 := 30 ]} in
  transition_tracked_entry t (Some 1) (Some (2, 20)) = Ok (tabled {[ 2 := 20; 3 := 30 ]}).
Proof.
  intros t. apply (transition_tracked_entry_exact t (Some 1) (Some (2, 20)));
    [split; [reflexivity|vm_compute; discriminate]|].
  split_and!; [intros ? [= <-]; vm_compute; eauto| | |split; [reflexivity|vm_compute; discriminate]].
  - intros k v [= <- <-]. right. split; [reflexivity|done].
  - by apply (bool_decide_unpack _); vm_compute.
Defined.

(** ** Indexes of a table

    A secondary index maps what [entry] finds in a row to the key of the row; a
    membership index lists the keys of the rows for which a predicate holds. *)

Section indexes.
Context {K V I : Type} `{Countable K} `{Countable I}.
Implicit Types (rows : gmap K V) (index : gmap I K) (marks : gmap K unit) (k : K).

Definition indexed (entry : V -> option I) rows index : Prop :=
  forall i k, index !! i = Some k <-> exists v, rows !! k = Some v /\ entry v = Some i.

(** The index after the row [k] is replaced. *)
Definition reindex (previous next : option I) k index : gmap I K :=
  map_or (fun m => m) (fun i => <[i := k]>) next (map_or (fun m => m) delete previous index).

Lemma indexed_update entry rows index k next :
  indexed entry rows index ->
  (forall i k' v, k' <> k -> rows !! k' = Some v -> entry v = Some i -> entry next <> Some i) ->
  indexed entry (<[k := next]> rows) (reindex (rows !! k ≫= entry) (entry next) k index).
Proof.
  intros Hix Hfresh i k'. unfold reindex.
  assert (map_or (fun m => m) delete (rows !! k ≫= entry) index !! i = Some k' <->
          k' <> k /\ exists v, rows !! k' = Some v /\ entry v = Some i) as Hkept.
  { destruct (rows !! k ≫= entry) as [p|] eqn:Hp; simpl; [rewrite lookup_delete_Some|];
      rewrite (Hix i k'); split.
    - intros [Hne (v & Hv & Hi)]. split; [|by exists v]. intros ->. rewrite Hv in Hp. naive_solver.
    - intros [Hne (v & Hv & Hi)]. split; [|by exists v]. intros ->. apply Hne.
      apply bind_Some in Hp as (w & Hw & Hp).
      assert (index !! i = Some k') as H1 by (apply Hix; eauto).
      assert (index !! i = Some k) as H2 by (apply Hix; eauto). congruence.
    - intros (v & Hv & Hi). split; [|by exists v]. intros ->. rewrite Hv in Hp. naive_solver.
    - naive_solver. }
  setoid_rewrite lookup_insert_Some. destruct (entry next) as [n|] eqn:Hn; simpl.
  - rewrite lookup_insert_Some, Hkept. split; [naive_solver|].
    intros (v & [[<- <-]|[Hne Hv]] & Hi); [naive_solver|right].
    split; [|naive_solver]. intros ->. by apply (Hfresh i k' v).
  - rewrite Hkept. naive_solver.
Qed.

Definition members (p : V -> bool) rows marks : Prop :=
  forall k, marks !! k = Some tt <-> exists v, rows !! k = Some v /\ p v = true.

Lemma members_update p rows marks k next :
  members p rows marks ->
  members p (<[k := next]> rows) ((if p next then <[k := tt]> else delete k) marks).
Proof.
  intros Hm k'. setoid_rewrite lookup_insert_Some. destruct (p next) eqn:Hp.
  - rewrite lookup_insert_Some, (Hm k'). naive_solver.
  - rewrite lookup_delete_Some, (Hm k'). split; [naive_solver|].
    intros (v & [[<- <-]|[? ?]] & ?); [congruence|naive_solver].
Qed.

Lemma members_lookup p rows marks k v :
  members p rows marks -> rows !! k = Some v -> is_some (marks !! k) = p v.
Proof.
  intros Hm Hv. destruct (marks !! k) as [[]|] eqn:Hk; simpl.
  - apply Hm in Hk as (w & Hw & Hp). rewrite Hv in Hw. injection Hw as ->. by rewrite Hp.
  - destruct (p v) eqn:Hp; [|done]. rewrite (proj2 (Hm k)) in Hk by eauto. done.
Qed.

Lemma members_absent p rows marks k v :
  members p rows marks -> rows !! k = Some v -> p v = false -> marks !! k = None.
Proof.
  intros Hm Hv Hp. pose proof (members_lookup _ _ _ _ _ Hm Hv) as Hl. rewrite Hp in Hl.
  by destruct (marks !! k).
Qed.
End indexes.
