(* ===== verification/StorageTypes.v ===== *)
(** * Stored data

    The records, keys, predicates and counters of
    [canister/bridge-canister/src/storage/mod.rs] on which the transactional
    writes are built, with the job keys of [storage/settlement.rs]. *)

From S2P Require Import Prelude KernelArith KernelPolicy KernelDeposit KernelWithdrawal.
From S2P Require Import Types External Authorization Deposit Withdrawal Reconciliation Tables.

(** ** Errors *)

Inductive StorageError :=
| EncodeFailed
| DecodeFailed
| MissingWireVersion
| UnsupportedWireVersion (version : Z)
| UnsupportedSchemaVersion (version : Z)
| ValueTooLarge (actual maximum : Z)
| CounterOverflow
| CounterUnderflow
| SequenceMismatch (expected : Z)
| DepositsPaused
| DepositRateLimited (retry_after_seconds : Z)
| LifetimeDepositCapacityExceeded
| NotificationRateLimited
| RecordNotFound
| DatabaseFailure
| StaleSnapshotRefresh
| ReserveUnavailable
| QuoteSnapshotMismatch
| StorageError_Core (error : CoreError).

#[export] Instance StorageError_eq_dec : EqDecision StorageError.
Proof. solve_decision. Defined.

(** [impl From<CoreError>] and [impl From<DbError>], as [?] applies them. *)
Definition core {A} (r : Result CoreError A) : Result StorageError A := map_err StorageError_Core r.
Definition db {A} (r : Result DbError A) : Result StorageError A :=
  map_err (fun _ => DatabaseFailure) r.

Lemma core_Ok {A} (r : Result CoreError A) a : core r = Ok a <-> r = Ok a.
Proof. unfold core, map_err. destruct r; naive_solver. Qed.

Lemma db_Ok {A} (r : Result DbError A) a : db r = Ok a <-> r = Ok a.
Proof. unfold db, map_err. destruct r; naive_solver. Qed.

(** ** Keys *)

Definition MAX_STABLE_VALUE_BYTES : Z := 16 * 1024.

Definition StableBlob_new (b : bytes) : Result StorageError bytes :=
  if Z.of_nat (length b) >? MAX_STABLE_VALUE_BYTES
  then Err (ValueTooLarge (Z.of_nat (length b)) MAX_STABLE_VALUE_BYTES)
  else Ok b.

Definition deposit_owner_index_prefix (owner : bytes) : bytes :=
  (Z.of_nat (length owner) mod 256) :: owner.

Definition owner_sequence_key (owner : bytes) : Result StorageError bytes := StableBlob_new owner.

Definition deposit_owner_index_bytes (prefix : bytes) (reverse_sequence : Z) : bytes :=
  prefix ++ to_be_bytes 8 reverse_sequence.

Definition deposit_owner_index_key (owner : bytes) (sequence : Z) : Result StorageError bytes :=
  StableBlob_new
    (deposit_owner_index_bytes (deposit_owner_index_prefix owner) (u64_max -u64 sequence)).

Definition deposit_sequence_from_index_key (key : bytes) : Result StorageError Z :=
  let reverse_bytes := drop (length key - 8) key in
  if bool_decide (length reverse_bytes = 8%nat)
  then Ok (u64_max -u64 be_value reverse_bytes)
  else Err DecodeFailed.

Definition deposit_authorization_deadline_index_key (deadline : Z) (deposit_id : bytes)
    : Result StorageError bytes :=
  StableBlob_new (to_be_bytes 8 deadline ++ deposit_id).

Definition withdrawal_liability_key (record : WithdrawalRecord) : bytes :=
  to_be_bytes 8 (wr_observed_at_ns record) ++ wr_id record.

Definition withdrawal_history_key (record : WithdrawalRecord) : bytes :=
  wr_base_requester record ++ to_be_bytes 8 (u64_max -u64 wr_observed_at_ns record)
    ++ wr_id record.

Inductive SettlementJobKind := Job_Deposit | Job_Withdrawal | Job_FeePayout.

#[export] Instance SettlementJobKind_eq_dec : EqDecision SettlementJobKind.
Proof. solve_decision. Defined.

Definition SettlementJobKind_sql (self : SettlementJobKind) : Z :=
  match self with Job_Deposit => 0 | Job_Withdrawal => 1 | Job_FeePayout => 2 end.

Definition settlement_record_key (kind : SettlementJobKind) (settlement_id : bytes) : bytes :=
  SettlementJobKind_sql kind :: settlement_id.

Definition fee_payout_job_id (id : Z) : bytes := zeros 24 ++ to_be_bytes 8 id.

Definition fee_payout_id_from_job (key : bytes) : Result StorageError Z :=
  if bool_decide (take 24 key <> zeros 24) then Err DecodeFailed
  else Ok (be_value (drop 24 key)).

(** ** Deposits as stored *)

Record DepositIntent := {
  di_deposit_id : bytes;
  di_caller : bytes;
  di_owner_sequence : Z;
  di_base_recipient : bytes;
  di_from_subaccount : bytes;
  di_payload_hash : bytes;
}.

#[export] Instance DepositIntent_eq_dec : EqDecision DepositIntent.
Proof. solve_decision. Defined.

Record StoredDeposit := {
  sd_record : DepositRecord;
  sd_owner_sequence : Z;
  sd_base_recipient : bytes;
}.

#[export] Instance StoredDeposit_eq_dec : EqDecision StoredDeposit.
Proof. solve_decision. Defined.

Definition StoredDeposit_intent (self : StoredDeposit) : DepositIntent :=
  {| di_deposit_id := dr_id (sd_record self);
     di_caller := a_owner (lti_from (dr_transfer (sd_record self)));
     di_owner_sequence := sd_owner_sequence self;
     di_base_recipient := sd_base_recipient self;
     di_from_subaccount := a_subaccount (lti_from (dr_transfer (sd_record self)));
     di_payload_hash := dr_payload_hash (sd_record self) |}.

Inductive DepositFundingAttemptState :=
| Attempt_Prepared
| Attempt_Dispatched (dispatched_at_ns : Z)
| Attempt_Retryable (retry_after_ns : Z)
| Attempt_Reconciling (progress : ReconciliationScanProgress) (next_check_at_ns : Z)
    (final_absence_scan : bool).

#[export] Instance DepositFundingAttemptState_eq_dec : EqDecision DepositFundingAttemptState.
Proof. solve_decision. Defined.

Record DepositFundingAttempt := {
  dfa_intent : DepositIntent;
  dfa_gross_amount : Z;
  dfa_max_service_fee : Z;
  dfa_transfer : LedgerTransferIdentity;
  dfa_state : DepositFundingAttemptState;
  dfa_created_at_ns : Z;
  dfa_updated_at_ns : Z;
  dfa_last_failure : option LedgerFailure;
}.

#[export] Instance DepositFundingAttempt_eq_dec : EqDecision DepositFundingAttempt.
Proof. solve_decision. Defined.

Definition funding_recovery_due_ns (attempt : DepositFundingAttempt) : Result StorageError Z :=
  let due :=
    match dfa_state attempt with
    | Attempt_Prepared | Attempt_Retryable _ =>
        saturating_add u64_max (dfa_updated_at_ns attempt) 120000000000
    | Attempt_Dispatched dispatched_at_ns => saturating_add u64_max dispatched_at_ns 30000000000
    | Attempt_Reconciling _ next_check_at_ns _ => next_check_at_ns
    end in
  if due <=? 9223372036854775807 then Ok due else Err CounterOverflow.

(** ** Fee payouts *)

Record FeeRecipientConfig := {
  frc_owner : bytes;
  frc_subaccount : bytes;
}.

#[export] Instance FeeRecipientConfig_eq_dec : EqDecision FeeRecipientConfig.
Proof. solve_decision. Defined.

(** [AdminState] and [WithdrawalFeeGuard] of [admin.rs]. *)
Record WithdrawalFeeGuard := {
  wfg_ledger_fee : Z;
  wfg_charged_service_fee : Z;
  wfg_tripped_at_ns : Z;
}.

#[export] Instance WithdrawalFeeGuard_eq_dec : EqDecision WithdrawalFeeGuard.
Proof. solve_decision. Defined.

Record AdminState := {
  ads_deposits_paused : bool;
  ads_withdrawal_fee_guard : option WithdrawalFeeGuard;
  ads_pause_principal : bytes;
  ads_governance_principal : bytes;
  ads_fee_recipient : FeeRecipientConfig;
}.

#[export] Instance AdminState_eq_dec : EqDecision AdminState.
Proof. solve_decision. Defined.

Inductive FeePayoutState :=
| Payout_Pending
| Payout_Succeeded (block_index : Z)
| Payout_ReconciliationHold
| Payout_Failed.

#[export] Instance FeePayoutState_eq_dec : EqDecision FeePayoutState.
Proof. solve_decision. Defined.

Record FeePayoutRecord := {
  fpr_id : Z;
  fpr_amount : Z;
  fpr_recipient : FeeRecipientConfig;
  fpr_transfer : LedgerTransferIdentity;
  fpr_state : FeePayoutState;
}.

#[export] Instance FeePayoutRecord_eq_dec : EqDecision FeePayoutRecord.
Proof. solve_decision. Defined.

(** ** Counters *)

Record CounterState := {
  cs_next_hold_id : Z;
  cs_pending_ledger_operations : Z;
  cs_next_audit_sequence : Z;
  cs_next_fee_payout_id : Z;
  cs_next_deposit_index_sequence : Z;
  cs_reserved_deposit_mint_amount : Z;
  cs_reserved_deposit_mint_operations : Z;
  cs_pending_fee_payout_debit : Z;
}.

#[export] Instance CounterState_eq_dec : EqDecision CounterState.
Proof. solve_decision. Defined.

Definition CounterState_default : CounterState :=
  {| cs_next_hold_id := 0; cs_pending_ledger_operations := 0; cs_next_audit_sequence := 0;
     cs_next_fee_payout_id := 0; cs_next_deposit_index_sequence := 0;
     cs_reserved_deposit_mint_amount := 0; cs_reserved_deposit_mint_operations := 0;
     cs_pending_fee_payout_debit := 0 |}.

Definition adjust_active_count (current : Z) (was_active is_active : bool)
    : Result StorageError Z :=
  ok_or (checked_counter_transition current was_active is_active)
    (if is_active then CounterOverflow else CounterUnderflow).

(** ** Predicates on stored records *)

Definition is_open_hold (value : ReconciliationHoldRecord) : bool :=
  let state :=
    match rh_state value with
    | HoldOpen => 0
    | HoldResolvedSucceeded _ => 1
    | HoldResolvedAbsent _ => 2
    end in
  reconciliation_hold_indexed state.

Definition is_pending_deposit_ledger (value : DepositRecord) : bool :=
  match dr_state value with
  | FundingPending | RefundPending _ _ _ => true
  | _ => false
  end.

Definition is_terminal_deposit (value : DepositRecord) : bool :=
  negb (deposit_nonterminal_indexed (DepositState_code (dr_state value))).

Definition is_deposit_mint_reserved (value : DepositRecord) : bool :=
  DepositRecord_reserves_mint_resources value.

Definition deposit_authorization_deadline (value : DepositRecord) : option Z :=
  if match dr_state value with
     | AuthorizationPending _ | AuthorizationAvailable _ => true
     | _ => false
     end
  then (fun record => ma_deadline (mar_authorization record)) <$> dr_mint_authorization value
  else None.

Definition is_pending_withdrawal_ledger (value : WithdrawalRecord) : bool :=
  match wr_state value with ReleasePending _ _ => true | _ => false end.

Definition is_nonterminal_withdrawal (value : WithdrawalRecord) : bool :=
  let state :=
    match wr_state value with
    | Observed => 0
    | ReleasePending _ _ => 1
    | Paid _ _ _ _ => 2
    | ReconciliationHold _ _ _ => 3
    end in
  withdrawal_liability_indexed state.

Definition is_pending_fee_payout (value : FeePayoutRecord) : bool :=
  match fpr_state value with
  | Payout_Pending | Payout_ReconciliationHold => true
  | _ => false
  end.

(** ** Adjusting the counters for one record *)

Definition adjust_reserved_mint_amount
    (current : Z) (previous : option DepositRecord) (next : DepositRecord)
    : Result StorageError Z :=
  let? without_previous :=
    match previous with
    | Some previous =>
        if is_deposit_mint_reserved previous then
          let? amount := core (DepositRecord_reserved_mint_amount previous) in
          ok_or (checked_sub current amount) CounterUnderflow
        else Ok current
    | None => Ok current
    end in
  if is_deposit_mint_reserved next then
    let? amount := core (DepositRecord_reserved_mint_amount next) in
    ok_or (checked_add u128_max without_previous amount) CounterOverflow
  else Ok without_previous.

Definition adjust_reserved_mint_operations
    (current : Z) (previous : option DepositRecord) (next : DepositRecord)
    : Result StorageError Z :=
  adjust_active_count current (is_some_and previous is_deposit_mint_reserved)
    (is_deposit_mint_reserved next).

Definition fee_payout_debit (value : FeePayoutRecord) : Result StorageError Z :=
  ok_or (payout_debit true (fpr_amount value) (lti_fee (fpr_transfer value))) CounterOverflow.

Definition adjust_pending_fee_payout_debit
    (current : Z) (previous : option FeePayoutRecord) (next : FeePayoutRecord)
    : Result StorageError Z :=
  let? without_previous :=
    match previous with
    | Some previous =>
        if is_pending_fee_payout previous then
          let? debit := fee_payout_debit previous in
          ok_or (checked_sub current debit) CounterUnderflow
        else Ok current
    | None => Ok current
    end in
  if is_pending_fee_payout next then
    let? debit := fee_payout_debit next in
    ok_or (checked_add u128_max without_previous debit) CounterOverflow
  else Ok without_previous.
