(* ===== verification/Config.v ===== *)
(** * The bridge configuration

    [canister/bridge-canister/src/config.rs]: the installation arguments, the
    part of them that is stored unchanged, the activation attestation, the
    operational limits that governance may replace, and the validation an
    installation, an upgrade and a configuration change have to pass, down to
    the parser of the custom RPC URLs.  Strings are their UTF-8 bytes and
    principals their byte strings.

    [test_deployment] is the cargo feature of that name, and
    [principal_from_text] the decoder of textual principals of the [candid]
    crate; a fixed identifier that does not decode makes the installation fail.
    The staging upgrade helpers, which compare a JSON digest of three fixed URLs,
    are not modelled. *)

From Stdlib Require Import Ascii.
From S2P Require Import Prelude KernelPolicy Accounting StorageTypes.

(** The bytes of a literal. *)
Definition str (s : string) : bytes :=
  (fun c => Z.of_nat (nat_of_ascii c)) <$> String.list_ascii_of_string s.

(** ** Data *)

Record EvmFeePolicy := {
  efp_gas_limit_ceiling : Z;
  efp_max_fee_per_gas_ceiling : Z;
  efp_max_priority_fee_per_gas_ceiling : Z;
  efp_l1_fee_per_transaction_ceiling_wei : Z;
  efp_quote_validity_seconds : Z;
  efp_gas_limit_multiplier_bps : Z;
  efp_base_fee_multiplier_bps : Z;
  efp_l1_fee_multiplier_bps : Z;
}.

#[export] Instance EvmFeePolicy_eq_dec : EqDecision EvmFeePolicy.
Proof. solve_decision. Defined.

Record GovernanceReplacementPolicy := {
  grp_max_replacements : Z;
  grp_fee_bump_bps : Z;
}.

#[export] Instance GovernanceReplacementPolicy_eq_dec : EqDecision GovernanceReplacementPolicy.
Proof. solve_decision. Defined.

Record ActivationAttestation := {
  aa_chain_id : Z;
  aa_finalized_block_number : Z;
  aa_finalized_block_hash : bytes;
  aa_observed_at_ns : Z;
  aa_bridge_signer : bytes;
  aa_bridge_runtime_sha256 : bytes;
  aa_deposits_paused : bool;
  aa_withdrawals_paused : bool;
  aa_bridge_timelock : bytes;
  aa_runtime_administrator : bytes;
  aa_timelock_admin : bytes;
  aa_timelock_proposer : bytes;
  aa_timelock_canceller : bytes;
  aa_timelock_executor : bytes;
  aa_timelock_runtime_code_hash : bytes;
  aa_bridge_approved_timelock_runtime_code_hash : bytes;
  aa_timelock_minimum_delay_seconds : Z;
  aa_bsns_address : bytes;
  aa_bsns_runtime_sha256 : bytes;
  aa_bsns_name : bytes;
  aa_bsns_symbol : bytes;
  aa_bsns_decimals : Z;
  aa_bsns_bridge : bytes;
  aa_base_service_fee : Z;
}.

#[export] Instance ActivationAttestation_eq_dec : EqDecision ActivationAttestation.
Proof. solve_decision. Defined.

Record BridgeInitArgs := {
  bia_ledger_canister_id : bytes;
  bia_index_canister_id : bytes;
  bia_evm_rpc_canister_id : bytes;
  bia_custom_evm_rpc_urls : list bytes;
  bia_base_chain_id : Z;
  bia_bridge_contract : bytes;
  bia_expected_bridge_runtime_sha256 : bytes;
  bia_timelock_contract : bytes;
  bia_expected_timelock_minimum_delay_seconds : Z;
  bia_expected_bsns_runtime_sha256 : bytes;
  bia_expected_bsns_decimals : Z;
  bia_expected_minimum_service_fee : Z;
  bia_deployment_instance_id : bytes;
  bia_minimum_withdrawal_id : bytes;
  bia_ecdsa_key_name : bytes;
  bia_ecdsa_derivation_path : list bytes;
  bia_governance_ecdsa_derivation_path : list bytes;
  bia_deposit_rate_limit_window_seconds : Z;
  bia_deposit_rate_limit_global : Z;
  bia_deposit_rate_limit_per_principal : Z;
  bia_notification_rate_limit_window_seconds : Z;
  bia_notification_rate_limit_global : Z;
  bia_notification_ingestion_rate_limit_global : Z;
  bia_settlement_rate_limit_window_seconds : Z;
  bia_settlement_rate_limit_global : Z;
  bia_settlement_rate_limit_per_principal : Z;
  bia_settlement_rate_limit_per_record : Z;
  bia_settlement_retry_interval_seconds : Z;
  bia_governance_evm_fee : EvmFeePolicy;
  bia_governance_replacement : GovernanceReplacementPolicy;
  bia_cycles_floor : Z;
  bia_settlement_cycle_ceiling : Z;
  bia_governance_principal : bytes;
  bia_pause_principal : bytes;
  bia_confirmation_relayer_principal : bytes;
  bia_fee_recipient : FeeRecipientConfig;
}.

#[export] Instance BridgeInitArgs_eq_dec : EqDecision BridgeInitArgs.
Proof. solve_decision. Defined.

Record ImmutableBridgeConfig := {
  ibc_ledger_canister_id : bytes;
  ibc_index_canister_id : bytes;
  ibc_evm_rpc_canister_id : bytes;
  ibc_custom_evm_rpc_urls : list bytes;
  ibc_base_chain_id : Z;
  ibc_bridge_contract : bytes;
  ibc_expected_bridge_runtime_sha256 : bytes;
  ibc_timelock_contract : bytes;
  ibc_expected_timelock_minimum_delay_seconds : Z;
  ibc_expected_bsns_runtime_sha256 : bytes;
  ibc_expected_bsns_decimals : Z;
  ibc_expected_minimum_service_fee : Z;
  ibc_deployment_instance_id : bytes;
  ibc_minimum_withdrawal_id : bytes;
  ibc_ecdsa_key_name : bytes;
  ibc_ecdsa_derivation_path : list bytes;
  ibc_governance_ecdsa_derivation_path : list bytes;
  ibc_deposit_rate_limit_window_seconds : Z;
  ibc_deposit_rate_limit_global : Z;
  ibc_deposit_rate_limit_per_principal : Z;
  ibc_notification_rate_limit_window_seconds : Z;
  ibc_notification_rate_limit_global : Z;
  ibc_notification_ingestion_rate_limit_global : Z;
  ibc_settlement_rate_limit_window_seconds : Z;
  ibc_settlement_rate_limit_global : Z;
  ibc_settlement_rate_limit_per_principal : Z;
  ibc_settlement_rate_limit_per_record : Z;
  ibc_settlement_retry_interval_seconds : Z;
  ibc_governance_evm_fee : EvmFeePolicy;
  ibc_governance_replacement : GovernanceReplacementPolicy;
  ibc_cycles_floor : Z;
  ibc_settlement_cycle_ceiling : Z;
  ibc_confirmation_relayer_principal : bytes;
  ibc_activation_attestation : option ActivationAttestation;
}.

#[export] Instance ImmutableBridgeConfig_eq_dec : EqDecision ImmutableBridgeConfig.
Proof. solve_decision. Defined.

Record OperationalConfigArgs := {
  oca_governance_evm_fee : EvmFeePolicy;
  oca_cycles_floor : Z;
  oca_settlement_cycle_ceiling : Z;
}.

#[export] Instance OperationalConfigArgs_eq_dec : EqDecision OperationalConfigArgs.
Proof. solve_decision. Defined.

Definition ImmutableBridgeConfig_from_init (value : BridgeInitArgs) : ImmutableBridgeConfig :=
  {| ibc_ledger_canister_id := bia_ledger_canister_id value;
     ibc_index_canister_id := bia_index_canister_id value;
     ibc_evm_rpc_canister_id := bia_evm_rpc_canister_id value;
     ibc_custom_evm_rpc_urls := bia_custom_evm_rpc_urls value;
     ibc_base_chain_id := bia_base_chain_id value;
     ibc_bridge_contract := bia_bridge_contract value;
     ibc_expected_bridge_runtime_sha256 := bia_expected_bridge_runtime_sha256 value;
     ibc_timelock_contract := bia_timelock_contract value;
     ibc_expected_timelock_minimum_delay_seconds := bia_expected_timelock_minimum_delay_seconds value;
     ibc_expected_bsns_runtime_sha256 := bia_expected_bsns_runtime_sha256 value;
     ibc_expected_bsns_decimals := bia_expected_bsns_decimals value;
     ibc_expected_minimum_service_fee := bia_expected_minimum_service_fee value;
     ibc_deployment_instance_id := bia_deployment_instance_id value;
     ibc_minimum_withdrawal_id := bia_minimum_withdrawal_id value;
     ibc_ecdsa_key_name := bia_ecdsa_key_name value;
     ibc_ecdsa_derivation_path := bia_ecdsa_derivation_path value;
     ibc_governance_ecdsa_derivation_path := bia_governance_ecdsa_derivation_path value;
     ibc_deposit_rate_limit_window_seconds := bia_deposit_rate_limit_window_seconds value;
     ibc_deposit_rate_limit_global := bia_deposit_rate_limit_global value;
     ibc_deposit_rate_limit_per_principal := bia_deposit_rate_limit_per_principal value;
     ibc_notification_rate_limit_window_seconds := bia_notification_rate_limit_window_seconds value;
     ibc_notification_rate_limit_global := bia_notification_rate_limit_global value;
     ibc_notification_ingestion_rate_limit_global := bia_notification_ingestion_rate_limit_global value;
     ibc_settlement_rate_limit_window_seconds := bia_settlement_rate_limit_window_seconds value;
     ibc_settlement_rate_limit_global := bia_settlement_rate_limit_global value;
     ibc_settlement_rate_limit_per_principal := bia_settlement_rate_limit_per_principal value;
     ibc_settlement_rate_limit_per_record := bia_settlement_rate_limit_per_record value;
     ibc_settlement_retry_interval_seconds := bia_settlement_retry_interval_seconds value;
     ibc_governance_evm_fee := bia_governance_evm_fee value;
     ibc_governance_replacement := bia_governance_replacement value;
     ibc_cycles_floor := bia_cycles_floor value;
     ibc_settlement_cycle_ceiling := bia_settlement_cycle_ceiling value;
     ibc_confirmation_relayer_principal := bia_confirmation_relayer_principal value;
     ibc_activation_attestation := None |}.

Definition with_activation_attestation
    (self : ImmutableBridgeConfig) (value : ActivationAttestation) : ImmutableBridgeConfig :=
  {| ibc_ledger_canister_id := ibc_ledger_canister_id self;
     ibc_index_canister_id := ibc_index_canister_id self;
     ibc_evm_rpc_canister_id := ibc_evm_rpc_canister_id self;
     ibc_custom_evm_rpc_urls := ibc_custom_evm_rpc_urls self;
     ibc_base_chain_id := ibc_base_chain_id self;
     ibc_bridge_contract := ibc_bridge_contract self;
     ibc_expected_bridge_runtime_sha256 := ibc_expected_bridge_runtime_sha256 self;
     ibc_timelock_contract := ibc_timelock_contract self;
     ibc_expected_timelock_minimum_delay_seconds := ibc_expected_timelock_minimum_delay_seconds self;
     ibc_expected_bsns_runtime_sha256 := ibc_expected_bsns_runtime_sha256 self;
     ibc_expected_bsns_decimals := ibc_expected_bsns_decimals self;
     ibc_expected_minimum_service_fee := ibc_expected_minimum_service_fee self;
     ibc_deployment_instance_id := ibc_deployment_instance_id self;
     ibc_minimum_withdrawal_id := ibc_minimum_withdrawal_id self;
     ibc_ecdsa_key_name := ibc_ecdsa_key_name self;
     ibc_ecdsa_derivation_path := ibc_ecdsa_derivation_path self;
     ibc_governance_ecdsa_derivation_path := ibc_governance_ecdsa_derivation_path self;
     ibc_deposit_rate_limit_window_seconds := ibc_deposit_rate_limit_window_seconds self;
     ibc_deposit_rate_limit_global := ibc_deposit_rate_limit_global self;
     ibc_deposit_rate_limit_per_principal := ibc_deposit_rate_limit_per_principal self;
     ibc_notification_rate_limit_window_seconds := ibc_notification_rate_limit_window_seconds self;
     ibc_notification_rate_limit_global := ibc_notification_rate_limit_global self;
     ibc_notification_ingestion_rate_limit_global := ibc_notification_ingestion_rate_limit_global self;
     ibc_settlement_rate_limit_window_seconds := ibc_settlement_rate_limit_window_seconds self;
     ibc_settlement_rate_limit_global := ibc_settlement_rate_limit_global self;
     ibc_settlement_rate_limit_per_principal := ibc_settlement_rate_limit_per_principal self;
     ibc_settlement_rate_limit_per_record := ibc_settlement_rate_limit_per_record self;
     ibc_settlement_retry_interval_seconds := ibc_settlement_retry_interval_seconds self;
     ibc_governance_evm_fee := ibc_governance_evm_fee self;
     ibc_governance_replacement := ibc_governance_replacement self;
     ibc_cycles_floor := ibc_cycles_floor self;
     ibc_settlement_cycle_ceiling := ibc_settlement_cycle_ceiling self;
     ibc_confirmation_relayer_principal := ibc_confirmation_relayer_principal self;
     ibc_activation_attestation := Some value |}.

Definition ImmutableBridgeConfig_with_admin
    (self : ImmutableBridgeConfig) (governance_principal pause_principal : bytes)
    (fee_recipient : FeeRecipientConfig) : BridgeInitArgs :=
  {| bia_ledger_canister_id := ibc_ledger_canister_id self;
     bia_index_canister_id := ibc_index_canister_id self;
     bia_evm_rpc_canister_id := ibc_evm_rpc_canister_id self;
     bia_custom_evm_rpc_urls := ibc_custom_evm_rpc_urls self;
     bia_base_chain_id := ibc_base_chain_id self;
     bia_bridge_contract := ibc_bridge_contract self;
     bia_expected_bridge_runtime_sha256 := ibc_expected_bridge_runtime_sha256 self;
     bia_timelock_contract := ibc_timelock_contract self;
     bia_expected_timelock_minimum_delay_seconds := ibc_expected_timelock_minimum_delay_seconds self;
     bia_expected_bsns_runtime_sha256 := ibc_expected_bsns_runtime_sha256 self;
     bia_expected_bsns_decimals := ibc_expected_bsns_decimals self;
     bia_expected_minimum_service_fee := ibc_expected_minimum_service_fee self;
     bia_deployment_instance_id := ibc_deployment_instance_id self;
     bia_minimum_withdrawal_id := ibc_minimum_withdrawal_id self;
     bia_ecdsa_key_name := ibc_ecdsa_key_name self;
     bia_ecdsa_derivation_path := ibc_ecdsa_derivation_path self;
     bia_governance_ecdsa_derivation_path := ibc_governance_ecdsa_derivation_path self;
     bia_deposit_rate_limit_window_seconds := ibc_deposit_rate_limit_window_seconds self;
     bia_deposit_rate_limit_global := ibc_deposit_rate_limit_global self;
     bia_deposit_rate_limit_per_principal := ibc_deposit_rate_limit_per_principal self;
     bia_notification_rate_limit_window_seconds := ibc_notification_rate_limit_window_seconds self;
     bia_notification_rate_limit_global := ibc_notification_rate_limit_global self;
     bia_notification_ingestion_rate_limit_global := ibc_notification_ingestion_rate_limit_global self;
     bia_settlement_rate_limit_window_seconds := ibc_settlement_rate_limit_window_seconds self;
     bia_settlement_rate_limit_global := ibc_settlement_rate_limit_global self;
     bia_settlement_rate_limit_per_principal := ibc_settlement_rate_limit_per_principal self;
     bia_settlement_rate_limit_per_record := ibc_settlement_rate_limit_per_record self;
     bia_settlement_retry_interval_seconds := ibc_settlement_retry_interval_seconds self;
     bia_governance_evm_fee := ibc_governance_evm_fee self;
     bia_governance_replacement := ibc_governance_replacement self;
     bia_cycles_floor := ibc_cycles_floor self;
     bia_settlement_cycle_ceiling := ibc_settlement_cycle_ceiling self;
     bia_governance_principal := governance_principal;
     bia_pause_principal := pause_principal;
     bia_confirmation_relayer_principal := ibc_confirmation_relayer_principal self;
     bia_fee_recipient := fee_recipient |}.

Definition with_operational_config (self : BridgeInitArgs) (value : OperationalConfigArgs)
    : BridgeInitArgs :=
  {| bia_ledger_canister_id := bia_ledger_canister_id self;
     bia_index_canister_id := bia_index_canister_id self;
     bia_evm_rpc_canister_id := bia_evm_rpc_canister_id self;
     bia_custom_evm_rpc_urls := bia_custom_evm_rpc_urls self;
     bia_base_chain_id := bia_base_chain_id self;
     bia_bridge_contract := bia_bridge_contract self;
     bia_expected_bridge_runtime_sha256 := bia_expected_bridge_runtime_sha256 self;
     bia_timelock_contract := bia_timelock_contract self;
     bia_expected_timelock_minimum_delay_seconds := bia_expected_timelock_minimum_delay_seconds self;
     bia_expected_bsns_runtime_sha256 := bia_expected_bsns_runtime_sha256 self;
     bia_expected_bsns_decimals := bia_expected_bsns_decimals self;
     bia_expected_minimum_service_fee := bia_expected_minimum_service_fee self;
     bia_deployment_instance_id := bia_deployment_instance_id self;
     bia_minimum_withdrawal_id := bia_minimum_withdrawal_id self;
     bia_ecdsa_key_name := bia_ecdsa_key_name self;
     bia_ecdsa_derivation_path := bia_ecdsa_derivation_path self;
     bia_governance_ecdsa_derivation_path := bia_governance_ecdsa_derivation_path self;
     bia_deposit_rate_limit_window_seconds := bia_deposit_rate_limit_window_seconds self;
     bia_deposit_rate_limit_global := bia_deposit_rate_limit_global self;
     bia_deposit_rate_limit_per_principal := bia_deposit_rate_limit_per_principal self;
     bia_notification_rate_limit_window_seconds := bia_notification_rate_limit_window_seconds self;
     bia_notification_rate_limit_global := bia_notification_rate_limit_global self;
     bia_notification_ingestion_rate_limit_global := bia_notification_ingestion_rate_limit_global self;
     bia_settlement_rate_limit_window_seconds := bia_settlement_rate_limit_window_seconds self;
     bia_settlement_rate_limit_global := bia_settlement_rate_limit_global self;
     bia_settlement_rate_limit_per_principal := bia_settlement_rate_limit_per_principal self;
     bia_settlement_rate_limit_per_record := bia_settlement_rate_limit_per_record self;
     bia_settlement_retry_interval_seconds := bia_settlement_retry_interval_seconds self;
     bia_governance_evm_fee := oca_governance_evm_fee value;
     bia_governance_replacement := bia_governance_replacement self;
     bia_cycles_floor := oca_cycles_floor value;
     bia_settlement_cycle_ceiling := oca_settlement_cycle_ceiling value;
     bia_governance_principal := bia_governance_principal self;
     bia_pause_principal := bia_pause_principal self;
     bia_confirmation_relayer_principal := bia_confirmation_relayer_principal self;
     bia_fee_recipient := bia_fee_recipient self |}.

Definition GovernanceReplacementPolicy_default : GovernanceReplacementPolicy :=
  {| grp_max_replacements := 3; grp_fee_bump_bps := 1250 |}.

Definition reserve_policy (self : BridgeInitArgs) : ReservePolicy :=
  {| rp_cycles_floor := bia_cycles_floor self;
     rp_settlement_cycle_ceiling := bia_settlement_cycle_ceiling self |}.

(** ** Operational limits *)

(** [(lo..=hi).contains(&x)] *)
Definition within (lo hi x : Z) : bool := (lo <=? x) && (x <=? hi).

Definition PRODUCTION_BOOTSTRAP_EVM_FEE : EvmFeePolicy :=
  {| efp_gas_limit_ceiling := 1; efp_max_fee_per_gas_ceiling := 1;
     efp_max_priority_fee_per_gas_ceiling := 0; efp_l1_fee_per_transaction_ceiling_wei := 1;
     efp_quote_validity_seconds := 30; efp_gas_limit_multiplier_bps := 10000;
     efp_base_fee_multiplier_bps := 10000; efp_l1_fee_multiplier_bps := 10000 |}.
Definition PRODUCTION_BOOTSTRAP_CYCLES_FLOOR : Z := 1.
Definition PRODUCTION_BOOTSTRAP_SETTLEMENT_CYCLE_CEILING : Z := u128_max.

Definition validate_operational (self : OperationalConfigArgs) : Result string unit :=
  let fee := oca_governance_evm_fee self in
  if (efp_gas_limit_ceiling fee =? 0) || (efp_max_fee_per_gas_ceiling fee =? 0)
     || (efp_max_fee_per_gas_ceiling fee <? efp_max_priority_fee_per_gas_ceiling fee)
     || (efp_l1_fee_per_transaction_ceiling_wei fee =? 0)
     || negb (within 30 300 (efp_quote_validity_seconds fee))
     || negb (within 10000 20000 (efp_gas_limit_multiplier_bps fee))
     || negb (within 10000 100000 (efp_base_fee_multiplier_bps fee))
     || negb (within 10000 30000 (efp_l1_fee_multiplier_bps fee))
  then Err "EVM fee policy is outside the supported safety bounds"%string
  else if (oca_cycles_floor self =? 0) || (oca_settlement_cycle_ceiling self =? 0)
  then Err "cycles limits must be non-zero"%string
  else Ok tt.

Definition is_bootstrap (fee : EvmFeePolicy) (floor ceiling : Z) : bool :=
  bool_decide (fee = PRODUCTION_BOOTSTRAP_EVM_FEE) && (floor =? PRODUCTION_BOOTSTRAP_CYCLES_FLOOR)
  && (ceiling =? PRODUCTION_BOOTSTRAP_SETTLEMENT_CYCLE_CEILING).

Definition validate_seal_candidate (self : OperationalConfigArgs) : Result string unit :=
  let? _ := validate_operational self in
  if is_bootstrap (oca_governance_evm_fee self) (oca_cycles_floor self)
       (oca_settlement_cycle_ceiling self)
  then Err "production bootstrap operational config cannot be sealed"%string
  else Ok tt.

Definition validate_production_bootstrap_operational_config (self : BridgeInitArgs)
    : Result string unit :=
  if negb (is_bootstrap (bia_governance_evm_fee self) (bia_cycles_floor self)
             (bia_settlement_cycle_ceiling self))
  then Err "production install must use the fixed bootstrap operational config"%string
  else Ok tt.

(** ** RPC URLs *)

Definition is_ascii (b : Z) : bool := b <? 128.
Definition is_ascii_whitespace (b : Z) : bool :=
  bool_decide (b ∈ [32; 9; 10; 12; 13]).
Definition is_ascii_control (b : Z) : bool := (b <? 32) || (b =? 127).
Definition is_ascii_uppercase (b : Z) : bool := within 65 90 b.
Definition is_ascii_alphabetic (b : Z) : bool := is_ascii_uppercase b || within 97 122 b.
Definition is_ascii_digit (b : Z) : bool := within 48 57 b.
Definition is_ascii_alphanumeric (b : Z) : bool := is_ascii_alphabetic b || is_ascii_digit b.
Definition to_ascii_lowercase (s : bytes) : bytes :=
  (fun b => if is_ascii_uppercase b then b + 32 else b) <$> s.

Definition starts_with (p s : bytes) : bool := bool_decide (take (length p) s = p).
Definition ends_with (b : Z) (s : bytes) : bool := bool_decide (last s = Some b).

(** [split_once] at the first occurrence, [rsplit_once] at the last one. *)
Fixpoint split_once (b : Z) (s : bytes) : option (bytes * bytes) :=
  match s with
  | [] => None
  | c :: s => if c =? b then Some ([], s) else prod_map (cons c) id <$> split_once b s
  end.

Fixpoint rsplit_once (b : Z) (s : bytes) : option (bytes * bytes) :=
  match s with
  | [] => None
  | c :: s =>
      match rsplit_once b s with
      | Some (l, r) => Some (c :: l, r)
      | None => if c =? b then Some ([], s) else None
      end
  end.

(** [split]: the pieces between the separators, at least one. *)
Fixpoint split (b : Z) (s : bytes) : list bytes :=
  match s with
  | [] => [[]]
  | c :: s =>
      if c =? b then [] :: split b s
      else match split b s with
           | piece :: pieces => (c :: piece) :: pieces
           | [] => [[c]]
           end
  end.

Fixpoint trim_end_matches (b : Z) (s : bytes) : bytes :=
  match s with
  | [] => []
  | c :: s =>
      match trim_end_matches b s with
      | [] => if c =? b then [] else [c]
      | s => c :: s
      end
  end.

(** [str::parse::<u16>]: decimal digits after an optional plus sign. *)
Fixpoint parse_digits (acc : Z) (s : bytes) : option Z :=
  match s with
  | [] => Some acc
  | c :: s =>
      if is_ascii_digit c then
        let acc := acc * 10 + (c - 48) in
        if acc <=? u16_max then parse_digits acc s else None
      else None
  end.

Definition parse_u16 (s : bytes) : option Z :=
  match s with
  | [] | [43] => None
  | 43 :: s => parse_digits 0 s
  | s => parse_digits 0 s
  end.

Definition PUBLIC_PATH_SEGMENTS : list bytes :=
  str <$> ["rpc"; "v1"; "v2"; "public"; "ethereum"; "base"; "base-mainnet"; "base-sepolia"]%string.

Definition valid_label (label : bytes) : bool :=
  negb (bool_decide (label = []) || starts_with (str "-") label || ends_with 45 label).

Definition valid_host (host : bytes) : bool :=
  negb (bool_decide (host = [])) && bool_decide (46 ∈ host) && existsb is_ascii_alphabetic host
  && forallb (fun b => is_ascii_alphanumeric b || bool_decide (b ∈ [46; 45])) host
  && forallb valid_label (split 46 host).

Definition valid_authority (authority : bytes) : bool :=
  if bool_decide (authority = []) || starts_with (str ".") authority || ends_with 46 authority
  then false
  else
    let '(host, port) := default (authority, []) (rsplit_once 58 authority) in
    valid_host host
    && negb (bool_decide (58 ∈ authority)
             && (bool_decide (port = []) || map_or true (fun value => value =? 0) (parse_u16 port))).

Definition credential_free_https (url : bytes) : bool :=
  if negb (forallb is_ascii url)
     || existsb (fun b => is_ascii_whitespace b || is_ascii_control b) url
     || negb (starts_with (str "https://") url)
     || existsb (fun b => bool_decide (b ∈ [64; 63; 35; 92])) url
  then false
  else
    let rest := drop 8 url in
    let '(authority, path) := default (rest, []) (split_once 47 rest) in
    if negb (valid_authority authority) then false
    else
      let path := trim_end_matches 47 path in
      bool_decide (path = [])
      || forallb (fun segment => bool_decide (to_ascii_lowercase segment ∈ PUBLIC_PATH_SEGMENTS))
           (split 47 path).

Definition rpc_host (url : bytes) : option bytes :=
  if credential_free_https url then
    let authority := hd [] (split 47 (drop 8 url)) in
    Some (to_ascii_lowercase (map_or authority fst (rsplit_once 58 authority)))
  else None.

(** ** Validation *)

Definition KINIC_LEDGER_CANISTER_ID : string := "73mez-iiaaa-aaaaq-aaasq-cai".
Definition KINIC_INDEX_CANISTER_ID : string := "7vojr-tyaaa-aaaaq-aaatq-cai".
Definition OFFICIAL_EVM_RPC_CANISTER_ID : string := "7hfb6-caaaa-aaaar-qadga-cai".
Definition BASE_MAINNET_CHAIN_ID : Z := 8453.
Definition Principal_anonymous : bytes := [4].

Definition all_zero (l : bytes) : bool := forallb (fun byte => byte =? 0) l.
Definition len (l : bytes) : Z := Z.of_nat (length l).

Section validate.
Context (test_deployment : bool) (principal_from_text : string -> option bytes).

Definition kinic_ledger_canister_id : option bytes := principal_from_text KINIC_LEDGER_CANISTER_ID.
Definition kinic_index_canister_id : option bytes := principal_from_text KINIC_INDEX_CANISTER_ID.
Definition official_evm_rpc_canister_id : option bytes :=
  principal_from_text OFFICIAL_EVM_RPC_CANISTER_ID.

Definition bad_lengths (self : BridgeInitArgs) : bool :=
  negb (len (bia_bridge_contract self) =? 20)
  || negb (len (bia_expected_bridge_runtime_sha256 self) =? 32)
  || negb (len (bia_expected_bsns_runtime_sha256 self) =? 32)
  || negb (len (bia_timelock_contract self) =? 20)
  || negb (len (bia_deployment_instance_id self) =? 32)
  || negb (len (bia_minimum_withdrawal_id self) =? 32).

Definition bad_identities (self : BridgeInitArgs) : bool :=
  all_zero (bia_bridge_contract self) || all_zero (bia_timelock_contract self)
  || all_zero (bia_deployment_instance_id self) || all_zero (bia_minimum_withdrawal_id self)
  || all_zero (bia_expected_bridge_runtime_sha256 self)
  || all_zero (bia_expected_bsns_runtime_sha256 self)
  || (bia_expected_timelock_minimum_delay_seconds self =? 0)
  || (bia_expected_minimum_service_fee self =? 0)
  || bool_decide (bia_bridge_contract self = bia_timelock_contract self).

Definition bad_keys (self : BridgeInitArgs) : bool :=
  (bia_base_chain_id self =? 0) || bool_decide (bia_ecdsa_key_name self = [])
  || bool_decide (bia_governance_ecdsa_derivation_path self = [])
  || bool_decide (bia_ecdsa_derivation_path self = bia_governance_ecdsa_derivation_path self).

Definition bad_bindings (self : BridgeInitArgs) : bool :=
  negb test_deployment
  && (negb (bia_base_chain_id self =? BASE_MAINNET_CHAIN_ID)
      || negb (bool_decide (Some (bia_ledger_canister_id self) = kinic_ledger_canister_id))
      || negb (bool_decide (Some (bia_index_canister_id self) = kinic_index_canister_id))
      || negb (bool_decide (Some (bia_evm_rpc_canister_id self) = official_evm_rpc_canister_id))).

Definition bad_provider_count (self : BridgeInitArgs) : bool :=
  let urls := bia_custom_evm_rpc_urls self in
  if test_deployment
  then bool_decide (urls = []) && negb (bia_base_chain_id self =? BASE_MAINNET_CHAIN_ID)
       || negb (bool_decide (urls = [])) && negb (Z.of_nat (length urls) =? 3)
  else negb (bool_decide (urls = [])).

Definition bad_providers (self : BridgeInitArgs) : bool :=
  let urls := bia_custom_evm_rpc_urls self in
  negb (Nat.eqb (length (remove_dups (omap rpc_host urls))) (length urls))
  || existsb (fun url => negb (credential_free_https url)) urls.

Definition bad_deposit_limits (self : BridgeInitArgs) : bool :=
  negb (within 60 300 (bia_deposit_rate_limit_window_seconds self))
  || (bia_deposit_rate_limit_per_principal self =? 0)
  || (bia_deposit_rate_limit_global self <? bia_deposit_rate_limit_per_principal self)
  || (100 <? bia_deposit_rate_limit_global self).

Definition bad_notification_limits (self : BridgeInitArgs) : bool :=
  negb (within 60 3600 (bia_notification_rate_limit_window_seconds self))
  || negb (within 1 100 (bia_notification_rate_limit_global self))
  || negb (within 1 100 (bia_notification_ingestion_rate_limit_global self)).

Definition bad_settlement_limits (self : BridgeInitArgs) : bool :=
  negb (within 60 3600 (bia_settlement_rate_limit_window_seconds self))
  || (bia_settlement_rate_limit_per_record self =? 0)
  || (bia_settlement_rate_limit_per_principal self <? bia_settlement_rate_limit_per_record self)
  || (bia_settlement_rate_limit_global self <? bia_settlement_rate_limit_per_principal self)
  || (100 <? bia_settlement_rate_limit_global self)
  || negb (within 1 900 (bia_settlement_retry_interval_seconds self)).

Definition bad_replacement (self : BridgeInitArgs) : bool :=
  negb (within 1 8 (grp_max_replacements (bia_governance_replacement self)))
  || negb (within 1000 5000 (grp_fee_bump_bps (bia_governance_replacement self))).

Definition bad_roles (self : BridgeInitArgs) : bool :=
  let owner := frc_owner (bia_fee_recipient self) in
  let subaccount := len (frc_subaccount (bia_fee_recipient self)) in
  bool_decide (bia_governance_principal self = Principal_anonymous)
  || bool_decide (bia_pause_principal self = Principal_anonymous)
  || bool_decide (bia_confirmation_relayer_principal self = Principal_anonymous)
  || negb (confirmation_roles_distinct
             (bool_decide (bia_confirmation_relayer_principal self = bia_governance_principal self))
             (bool_decide (bia_confirmation_relayer_principal self = bia_pause_principal self))
             (bool_decide (bia_governance_principal self = bia_pause_principal self))
             test_deployment)
  || bool_decide (owner = Principal_anonymous)
  || bool_decide (owner = bia_pause_principal self)
  || bool_decide (owner = bia_governance_principal self)
  || bool_decide (owner = bia_confirmation_relayer_principal self)
  || negb ((subaccount =? 0) || (subaccount =? 32)).

Definition operational_config (self : BridgeInitArgs) : OperationalConfigArgs :=
  {| oca_governance_evm_fee := bia_governance_evm_fee self;
     oca_cycles_floor := bia_cycles_floor self;
     oca_settlement_cycle_ceiling := bia_settlement_cycle_ceiling self |}.

(** The checks in the order of the source; each has its own message. *)
Definition validate (self : BridgeInitArgs) : Result string unit :=
  if bad_lengths self then
    Err "bridge and Timelock contracts must be 20 bytes; deployment instance ID and minimum withdrawal ID must be 32 bytes"%string
  else if bad_identities self then
    Err "bridge, Timelock, deployment instance ID, minimum withdrawal ID, and runtime hash must be nonzero, with distinct contracts"%string
  else if bad_keys self then
    Err "chain id and ECDSA key name must be configured"%string
  else if bad_bindings self then
    Err "production builds require Base mainnet and the fixed KINIC and EVM RPC canisters"%string
  else if bad_provider_count self then
    Err (if test_deployment
         then "test deployments require built-in Base mainnet or exactly three custom providers"
         else "production builds use the built-in Base mainnet EVM RPC providers")%string
  else if bad_providers self then
    Err "custom EVM RPC providers must use distinct credential-free HTTPS hosts"%string
  else if bad_deposit_limits self then
    Err "deposit rate limit must satisfy 60 <= window <= 300 and 1 <= per-principal <= global <= 100"%string
  else if bad_notification_limits self then
    Err "notification rate limit must satisfy 60 <= window <= 3600 and 1 <= global <= 100"%string
  else if bad_settlement_limits self then
    Err "settlement policy must satisfy 60 <= rate window <= 3600, 1 <= per-record <= per-principal <= global <= 100, and 1 <= retry interval <= 900"%string
  else
    let? _ := validate_operational (operational_config self) in
    if bad_replacement self then
      Err "governance replacement policy is outside the supported safety bounds"%string
    else if bad_roles self then
      Err "administrator principals and fee recipient must be valid"%string
    else Ok tt.
End validate.

(** ** What a validated configuration guarantees *)

Lemma within_true lo hi x : within lo hi x = true <-> lo <= x <= hi.
Proof. unfold within. rewrite andb_true_iff, !Z.leb_le. lia. Qed.

Lemma remove_dups_length {A} `{EqDecision A} (l : list A) :
  (length (remove_dups l) <= length l)%nat /\
  (length (remove_dups l) = length l -> NoDup l).
Proof.
  induction l as [|x l [IH1 IH2]]; simpl; [split; [lia|constructor]|].
  case_decide as Hx; simpl; (split; [lia|intros Hl; try lia]). apply NoDup_cons; auto with lia.
Qed.

Lemma omap_full {A B} (f : A -> option B) (l : list A) :
  (length (omap f l) <= length l)%nat /\
  (length (omap f l) = length l -> Forall2 (fun x y => f x = Some y) l (omap f l)).
Proof.
  induction l as [|x l [IH1 IH2]]; [split; [done|constructor]|].
  cbn [omap list_omap length]. change (list_omap _ _ f l) with (omap f l).
  destruct (f x) eqn:E; cbn [length]; (split; [lia|]); intros Hl; [|lia].
  constructor; [done|]. apply IH2. lia.
Qed.

Lemma distinct_providers self :
  bad_providers self = false ->
  NoDup (omap rpc_host (bia_custom_evm_rpc_urls self)) /\
  Forall2 (fun url host => rpc_host url = Some host) (bia_custom_evm_rpc_urls self)
    (omap rpc_host (bia_custom_evm_rpc_urls self)).
Proof.
  unfold bad_providers. rewrite orb_false_iff, negb_false_iff, Nat.eqb_eq. intros [Hl _].
  set (urls := bia_custom_evm_rpc_urls self) in *.
  destruct (remove_dups_length (omap rpc_host urls)) as [H1 H2].
  destruct (omap_full rpc_host urls) as [H3 H4]. split; [apply H2|apply H4]; lia.
Qed.

Lemma split_once_eq b s l r : split_once b s = Some (l, r) -> s = l ++ b :: r /\ b ∉ l.
Proof.
  revert l r. induction s as [|c s IH]; intros l r; simpl; [done|].
  destruct (Z.eqb_spec c b) as [->|Hc]; [intros [= <- <-]; split; [done|apply not_elem_of_nil]|].
  destruct (split_once b s) as [[l' r']|] eqn:E; simpl; [|done]. intros [= <- <-].
  destruct (IH _ _ eq_refl) as [-> Hn]. split; [done|].
  rewrite elem_of_cons. intros [->|?]; done.
Qed.

Lemma split_once_None b s : split_once b s = None -> b ∉ s.
Proof.
  induction s as [|c s IH]; simpl; [intros _; apply not_elem_of_nil|].
  destruct (Z.eqb_spec c b); [done|]. destruct (split_once b s); [done|].
  intros _. rewrite elem_of_cons. naive_solver.
Qed.

Lemma hd_split b s : hd [] (split b s) = map_or s fst (split_once b s).
Proof.
  induction s as [|c s IH]; simpl; [done|]. destruct (c =? b); [done|].
  destruct (split b s) eqn:E; simpl in *.
  - destruct s; simpl in E; [done|]. destruct (_ =? _) in E; [done|]. by destruct (split b s) in E.
  - destruct (split_once b s) as [[]|]; simpl in *; congruence.
Qed.

(** An accepted URL is [https://], an authority with a valid host, and a path
    that is empty or starts after a slash; none of the characters that could
    introduce credentials, a query or a fragment occurs in it. *)
Lemma credential_free_shape url :
  credential_free_https url = true ->
  exists authority path,
    url = str "https://" ++ authority ++ path /\ (path = [] \/ exists tail, path = 47 :: tail) /\
    (47 ∉ authority) /\ valid_authority authority = true /\ (forall b, b ∈ [64; 63; 35; 92] -> b ∉ url) /\
    rpc_host url = Some (to_ascii_lowercase (map_or authority fst (rsplit_once 58 authority))).
Proof.
  intros H. pose proof H as H'. unfold credential_free_https in H.
  destruct (_ || _) eqn:Eg in H; [done|]. rewrite !orb_false_iff, !negb_false_iff in Eg.
  destruct Eg as [[[_ _] Hs] Hc]. unfold starts_with in Hs. rewrite bool_decide_eq_true in Hs.
  assert (url = str "https://" ++ drop 8 url) as Hurl.
  { rewrite <- Hs at 1. symmetry. apply (take_drop 8). }
  assert (forall b, b ∈ [64; 63; 35; 92] -> b ∉ url) as Hno.
  { intros b Hb Hin. apply Bool.not_true_iff_false in Hc. apply Hc.
    apply existsb_exists. exists b. split; [by apply list_elem_of_In|by apply bool_decide_eq_true]. }
  assert (rpc_host url = Some (to_ascii_lowercase (let authority := hd [] (split 47 (drop 8 url)) in
    map_or authority fst (rsplit_once 58 authority)))) as Hhost by (unfold rpc_host; by rewrite H').
  cbv zeta in Hhost. rewrite hd_split in Hhost. cbv zeta in H.
  destruct (split_once 47 (drop 8 url)) as [[authority path]|] eqn:E; simpl in H, Hhost.
  - apply split_once_eq in E as [E Hn]. exists authority, (47 :: path).
    destruct (valid_authority authority) eqn:Ev; [|done].
    split_and!; eauto. by rewrite <- E.
  - exists (drop 8 url), []. destruct (valid_authority (drop 8 url)) eqn:Ev; [|done].
    apply split_once_None in E. split_and!; eauto. by rewrite app_nil_r.
Qed.

Lemma valid_authority_host authority :
  valid_authority authority = true ->
  valid_host (map_or authority fst (rsplit_once 58 authority)) = true.
Proof.
  unfold valid_authority. destruct (_ || _); [done|].
  destruct (rsplit_once 58 authority) as [[h p]|]; simpl; by intros [? _]%andb_true_iff.
Qed.

Record config_facts (test_deployment : bool) (c : BridgeInitArgs) : Prop := {
  cf_contract : length (bia_bridge_contract c) = 20%nat /\ all_zero (bia_bridge_contract c) = false;
  cf_instance : length (bia_deployment_instance_id c) = 32%nat;
  cf_deposit_window : 60 <= bia_deposit_rate_limit_window_seconds c <= 300;
  cf_deposit_quota :
    bia_deposit_rate_limit_per_principal c <> 0 /\
    bia_deposit_rate_limit_per_principal c <= bia_deposit_rate_limit_global c <= 100;
  cf_settlement_quota :
    bia_settlement_rate_limit_per_record c <> 0 /\
    bia_settlement_rate_limit_per_record c <= bia_settlement_rate_limit_per_principal c /\
    bia_settlement_rate_limit_per_principal c <= bia_settlement_rate_limit_global c <= 100;
  cf_cycles : bia_cycles_floor c <> 0 /\ bia_settlement_cycle_ceiling c <> 0;
  cf_roles :
    NoDup [bia_pause_principal c; bia_governance_principal c; frc_owner (bia_fee_recipient c)] /\
    (bia_confirmation_relayer_principal c
      ∉ [bia_pause_principal c; frc_owner (bia_fee_recipient c); Principal_anonymous]) /\
    (bia_confirmation_relayer_principal c = bia_governance_principal c -> test_deployment = true);
  cf_providers :
    Forall (fun url => forall b, b ∈ [64; 63; 35; 92] -> b ∉ url) (bia_custom_evm_rpc_urls c) /\
    exists hosts, NoDup hosts /\
      Forall2 (fun url host => rpc_host url = Some host) (bia_custom_evm_rpc_urls c) hosts;
  cf_production : test_deployment = false ->
    bia_base_chain_id c = 8453 /\ bia_custom_evm_rpc_urls c = [];
}.

Lemma refused {E A} (b : bool) (e : E) (r : Result E A) (a : A) :
  (if b then Err e else r) = Ok a <-> b = false /\ r = Ok a.
Proof. destruct b; naive_solver. Qed.

Lemma validate_operational_Ok c :
  validate_operational c = Ok tt -> oca_cycles_floor c <> 0 /\ oca_settlement_cycle_ceiling c <> 0.
Proof. unfold validate_operational. rewrite !refused, !orb_false_iff, !Z.eqb_neq. tauto. Qed.

Lemma roles_distinct test_deployment c :
  bad_roles test_deployment c = false ->
  NoDup [bia_pause_principal c; bia_governance_principal c; frc_owner (bia_fee_recipient c)] /\
  (bia_confirmation_relayer_principal c
    ∉ [bia_pause_principal c; frc_owner (bia_fee_recipient c); Principal_anonymous]) /\
  (bia_confirmation_relayer_principal c = bia_governance_principal c -> test_deployment = true).
Proof.
  unfold bad_roles, confirmation_roles_distinct, confirmation_roles_distinct_body. cbv zeta.
  rewrite !orb_false_iff, !negb_false_iff, !andb_true_iff, !negb_true_iff, !orb_true_iff, !negb_true_iff,
    !bool_decide_eq_false.
  intros [[[[[[[[_ _] Hra] [[Hgp Hrp] Hrg]] _] Hop] Hog] Hor] _].
  rewrite !NoDup_cons, !elem_of_cons, !elem_of_nil.
  pose proof (@NoDup_nil_2 bytes).
  split_and!; [intros [?|[?|[]]]; congruence|intros [?|[]]; congruence|tauto|done| |].
  - intros [?|[?|[?|[]]]]; congruence.
  - intros. by destruct Hrg.
Qed.

Ltac checks H :=
  rewrite ?orb_false_iff, ?negb_false_iff, ?within_true, ?Z.eqb_neq, ?Z.eqb_eq, ?Z.ltb_ge in H.


(** A staging configuration with three custom providers. *)
Definition staging_config : BridgeInitArgs :=
  {| bia_ledger_canister_id := [1]; bia_index_canister_id := [2]; bia_evm_rpc_canister_id := [3];
     bia_custom_evm_rpc_urls :=
       [str "https://base-sepolia-rpc.publicnode.com"; str "https://sepolia.base.org";
        str "https://base-sepolia.api.onfinality.io:443/public"];
     bia_base_chain_id := 84532; bia_bridge_contract := replicate 20 3;
     bia_expected_bridge_runtime_sha256 := replicate 32 1;
     bia_timelock_contract := replicate 20 8; bia_expected_timelock_minimum_delay_seconds := 3600;
     bia_expected_bsns_runtime_sha256 := replicate 32 2; bia_expected_bsns_decimals := 8;
     bia_expected_minimum_service_fee := 100000; bia_deployment_instance_id := replicate 32 3;
     bia_minimum_withdrawal_id := replicate 32 4; bia_ecdsa_key_name := str "test_key_1";
     bia_ecdsa_derivation_path := []; bia_governance_ecdsa_derivation_path := [str "governance"];
     bia_deposit_rate_limit_window_seconds := 60; bia_deposit_rate_limit_global := 20;
     bia_deposit_rate_limit_per_principal := 5; bia_notification_rate_limit_window_seconds := 60;
     bia_notification_rate_limit_global := 30; bia_notification_ingestion_rate_limit_global := 30;
     bia_settlement_rate_limit_window_seconds := 60; bia_settlement_rate_limit_global := 60;
     bia_settlement_rate_limit_per_principal := 20; bia_settlement_rate_limit_per_record := 5;
     bia_settlement_retry_interval_seconds := 30;
     bia_governance_evm_fee := PRODUCTION_BOOTSTRAP_EVM_FEE;
     bia_governance_replacement := GovernanceReplacementPolicy_default;
     bia_cycles_floor := 1000; bia_settlement_cycle_ceiling := 500;
     bia_governance_principal := [10]; bia_pause_principal := [11];
     bia_confirmation_relayer_principal := [10];
     bia_fee_recipient := {| frc_owner := [12]; frc_subaccount := [] |} |}.


Example credentials_refused :
  credential_free_https (str "https://user@rpc.example.org") = false /\
  credential_free_https (str "https://rpc.example.org/v2/secret-key") = false /\
  rpc_host (str "https://RPC.Example.org:8443/v2/") = Some (str "rpc.example.org").
Proof. by vm_compute. Qed.

(** Configuration round trip: the configuration a store is initialised with
    is the one it reads back, whatever activation attestation was attached in
    between, when the administrators and the fee recipient have not changed. *)
Theorem config_round_trip c attestation :
  ImmutableBridgeConfig_with_admin (with_activation_attestation (ImmutableBridgeConfig_from_init c) attestation)
    (bia_governance_principal c) (bia_pause_principal c) (bia_fee_recipient c) = c /\
  ImmutableBridgeConfig_with_admin (ImmutableBridgeConfig_from_init c)
    (bia_governance_principal c) (bia_pause_principal c) (bia_fee_recipient c) = c.
Proof. by destruct c. Qed.
