(* ===== verification/EvmRpc.v ===== *)
(** * Observing Base

    The asynchronous part of [canister/bridge-canister/src/evm_rpc.rs]: the questions
    the canister asks the EVM RPC canister about Base, and what it makes of the
    answers.

    A computation that awaits replies is a value of [Obs]: it is finished, or it asks
    a [Query] and continues with whatever reply arrives.  [runs] relates it to every
    result it can have when each reply satisfies a given condition, [run] evaluates it
    against a function that answers.  [futures::join!] asks in the order in which it
    polls and collects both results.

    The EVM RPC canister, its client crate, [serde_json] and the hash functions are not
    part of the repository: the types of the crate appear with the fields the code
    reads, provider identities and the JSON encoder are parameters, and a JSON document
    is the value [json!] builds.  Response size estimates and cycles are not modelled. *)

From S2P Require Import Prelude Types Authorization Eip712 BaseToken BaseBridge KernelWithdrawal External Config EvmDecode.
From stdpp Require Import pretty.
Open Scope Z_scope.

(** ** The types of the client *)

Class RpcTypes := {
  RpcService : Type;
  RpcService_eq_dec :: EqDecision RpcService;
}.

Inductive RpcError := ProviderError | HttpOutcallError | JsonRpcError | ValidationError.

#[export] Instance RpcError_eq_dec : EqDecision RpcError.
Proof. solve_decision. Defined.

(** [ic_canister_runtime::IcError]: one variant matters. *)
Inductive IcError := InsufficientLiquidCycleBalance | OtherIcError.

Inductive MultiRpcResult `{RpcTypes} (A : Type) :=
| MultiConsistent (result : Result RpcError A)
| MultiInconsistent (results : list (RpcService * Result RpcError A)).
Arguments MultiConsistent {_} {A} _.
Arguments MultiInconsistent {_} {A} _.

Definition CallResult `{RpcTypes} (A : Type) : Type := Result IcError (MultiRpcResult A).

(** [evm_rpc_types::Block], the fields the canister uses; a [Nat256] is a [Z]. *)
Record Block := {
  blk_number : Z;
  blk_hash : bytes;
}.

#[export] Instance Block_eq_dec : EqDecision Block.
Proof. solve_decision. Defined.

Record TransactionReceipt := {
  tr_block_hash : bytes;
  tr_block_number : Z;
  tr_effective_gas_price : Z;
  tr_gas_used : Z;
  tr_cumulative_gas_used : Z;
  tr_status : option Z;
  tr_root : option bytes;
  tr_transaction_hash : bytes;
  tr_contract_address : option bytes;
  tr_from : bytes;
  tr_logs : list LogEntry;
  tr_logs_bloom : bytes;
  tr_to : option bytes;
  tr_transaction_index : Z;
  tr_tx_type : bytes;
}.

#[export] Instance TransactionReceipt_eq_dec : EqDecision TransactionReceipt.
Proof. solve_decision. Defined.

(** [serde_json::Value]. *)
Inductive Json :=
| JNull
| JBool (b : bool)
| JNum (z : Z)
| JStr (s : bytes)
| JArr (l : list Json)
| JObj (fields : list (string * Json)).

Class SerdeJson := {
  json_to_vec : Json -> bytes;
  receipt_to_vec : TransactionReceipt -> bytes;
  logs_from_str : bytes -> option (list LogEntry);
  principal_to_text : bytes -> bytes;
}.

Class Sha256 := sha256 : bytes -> bytes.

Definition jstr (s : string) : Json := JStr (as_bytes s).

(** [format!("0x{}", hex(bytes))]. *)
Definition jhex (b : bytes) : Json := JStr ([48; 120] ++ hex b).

(** [to_string] of an unsigned integer. *)
Definition jdec (z : Z) : Json := jstr (pretty z).

Fixpoint lower_hex_digits (fuel : nat) (z : Z) (acc : bytes) : bytes :=
  match fuel with
  | O => acc
  | S fuel =>
      let acc := hex_char (z mod 16) :: acc in
      if z <? 16 then acc else lower_hex_digits fuel (z / 16) acc
  end.

(** [format!("0x{:x}", value)] of a [u64]: at most sixteen digits. *)
Definition jhex_u64 (z : Z) : Json := JStr ([48; 120] ++ lower_hex_digits 16 z []).

(** ** Questions and answers *)

Inductive Query :=
| Query_time
| Query_finalized_block
| Query_block_by_number (number : Z)
| Query_transaction_receipt (hash : bytes)
| Query_transaction_count (address : bytes)
| Query_multi_request (request : Json).

Section Observations.
Context `{RpcTypes}.

Definition Reply (q : Query) : Type :=
  match q with
  | Query_time => Z
  | Query_finalized_block | Query_block_by_number _ => CallResult Block
  | Query_transaction_receipt _ => CallResult (option TransactionReceipt)
  | Query_transaction_count _ => CallResult Z
  | Query_multi_request _ => CallResult bytes
  end.

Inductive Obs (A : Type) :=
| Done (r : Result ObservationError A)
| Ask (q : Query) (k : Reply q -> Obs A).
Arguments Done {A} r.
Arguments Ask {A} q k.

Fixpoint obs_bind {A B} (m : Obs A) (f : A -> Obs B) : Obs B :=
  match m with
  | Done (Ok a) => f a
  | Done (Err e) => Done (Err e)
  | Ask q k => Ask q (fun x => obs_bind (k x) f)
  end.

(** A branch of [futures::join!]: its failure is a value. *)
Fixpoint attempt {A} (m : Obs A) : Obs (Result ObservationError A) :=
  match m with
  | Done r => Done (Ok r)
  | Ask q k => Ask q (fun x => attempt (k x))
  end.

Definition ask (q : Query) : Obs (Reply q) := Ask q (fun x => Done (Ok x)).

(** The results of a computation whose replies all satisfy [ok]. *)
Fixpoint runs (ok : forall q, Reply q -> Prop) {A} (m : Obs A) (r : Result ObservationError A) : Prop :=
  match m with
  | Done r' => r = r'
  | Ask q k => exists x, ok q x /\ runs ok (k x) r
  end.

Fixpoint run (oracle : forall q, Reply q) {A} (m : Obs A) : Result ObservationError A :=
  match m with
  | Done r => r
  | Ask q k => run oracle (k (oracle q))
  end.

(** The questions a run asks, in order. *)
Fixpoint questions (oracle : forall q, Reply q) {A} (m : Obs A) : list Query :=
  match m with
  | Done _ => []
  | Ask q k => q :: questions oracle (k (oracle q))
  end.

Lemma run_runs ok oracle {A} (m : Obs A) :
  Forall (fun q => ok q (oracle q)) (questions oracle m) -> runs ok m (run oracle m).
Proof.
  induction m as [r|q k IH]; simpl; [done|]. intros Hq. apply Forall_cons in Hq as [Hq Hk]. eauto.
Qed.

Lemma runs_bind ok {A B} (m : Obs A) (f : A -> Obs B) r :
  runs ok (obs_bind m f) r <->
  exists r1, runs ok m r1 /\ match r1 with Ok a => runs ok (f a) r | Err e => r = Err e end.
Proof.
  induction m as [[a|e]|q k IH]; simpl; [naive_solver..|].
  setoid_rewrite IH. naive_solver.
Qed.

Lemma runs_bind_Ok ok {A B} (m : Obs A) (f : A -> Obs B) b :
  runs ok (obs_bind m f) (Ok b) -> exists a, runs ok m (Ok a) /\ runs ok (f a) (Ok b).
Proof. intros ([a|e] & H1 & H2)%runs_bind; [eauto|done]. Qed.

Lemma runs_attempt ok {A} (m : Obs A) r :
  runs ok (attempt m) r <-> exists r1, r = Ok r1 /\ runs ok m r1.
Proof. induction m as [r0|q k IH]; simpl; [naive_solver|]. setoid_rewrite IH. naive_solver. Qed.

Lemma runs_attempt_bind_Ok ok {A B} (m : Obs A) (f : Result ObservationError A -> Obs B) b :
  runs ok (obs_bind (attempt m) f) (Ok b) -> exists r, runs ok m r /\ runs ok (f r) (Ok b).
Proof.
  intros (r & Hr & Hf)%runs_bind_Ok. apply runs_attempt in Hr as (r1 & [= ->] & Hr). eauto.
Qed.

Lemma runs_lift_Ok ok {A B} (r : Result ObservationError A) (f : A -> Obs B) b :
  runs ok (obs_bind (Done r) f) (Ok b) -> exists a, r = Ok a /\ runs ok (f a) (Ok b).
Proof. destruct r as [a|e]; [eauto|done]. Qed.

Lemma runs_ask_Ok ok {B} q (f : Reply q -> Obs B) b :
  runs ok (obs_bind (ask q) f) (Ok b) -> exists x, ok q x /\ runs ok (f x) (Ok b).
Proof. done. Qed.
End Observations.

Arguments Done {_ A} r.
Arguments Ask {_ A} q k.

Declare Scope obs_scope.
Notation "'let!' x := c 'in' k" := (obs_bind c (fun x => k))
  (at level 10, x binder, c at level 200, k at level 200,
   format "'[v' 'let!'  x  :=  c  'in' '//' k ']'") : obs_scope.
Open Scope obs_scope.

(** ** Observations *)

Definition observation_call_error (error : IcError) : ObservationError :=
  match error with InsufficientLiquidCycleBalance => InsufficientCycles | OtherIcError => Rpc end.

(** [.await.map_err(observation_call_error)?]. *)
Definition awaited {A} (r : Result IcError A) : Result ObservationError A :=
  match r with Ok a => Ok a | Err e => Err (observation_call_error e) end.

Record FinalizedObservation := {
  fo_block_number : Z;
  fo_block_hash : bytes;
  fo_observed_at_ns : Z;
}.

#[export] Instance FinalizedObservation_eq_dec : EqDecision FinalizedObservation.
Proof. solve_decision. Defined.

Record ObservedBridgeIdentity := {
  obi_signer : bytes;
  obi_runtime_sha256 : bytes;
}.

Record RpcAuditEvidence := {
  rae_evm_rpc_canister_id : bytes;
  rae_call_method : string;
  rae_request_digest : bytes;
  rae_quorum_response_digest : bytes;
  rae_finalized_block_number : Z;
  rae_finalized_block_hash : bytes;
  rae_transaction_hash : option bytes;
}.

Inductive RpcDecisionKind := QuorumContinued | QuorumLoss.

Record RpcDecisionEvidence := {
  rde_kind : RpcDecisionKind;
  rde_operation : string;
  rde_configured_provider_count : Z;
  rde_required_threshold : Z;
  rde_stop_reason : option string;
  rde_ledger_call_performed : bool;
  rde_bridge_operation_continued : bool;
  rde_deposits_paused : bool;
  rde_automatically_resigned : bool;
  rde_transaction_hash : option bytes;
}.

Definition quorum_continued_decision (operation : string) (transaction_hash : option bytes)
    (ledger_call_performed : bool) : RpcDecisionEvidence :=
  {| rde_kind := QuorumContinued; rde_operation := operation;
     rde_configured_provider_count := 3; rde_required_threshold := 2; rde_stop_reason := None;
     rde_ledger_call_performed := ledger_call_performed; rde_bridge_operation_continued := true;
     rde_deposits_paused := false; rde_automatically_resigned := false;
     rde_transaction_hash := transaction_hash |}.

Definition quorum_loss_decision (operation : string) (transaction_hash : option bytes)
    : RpcDecisionEvidence :=
  {| rde_kind := QuorumLoss; rde_operation := operation;
     rde_configured_provider_count := 3; rde_required_threshold := 2;
     rde_stop_reason := Some "RpcInconsistent"%string;
     rde_ledger_call_performed := false; rde_bridge_operation_continued := false;
     rde_deposits_paused := false; rde_automatically_resigned := false;
     rde_transaction_hash := transaction_hash |}.

Record CompletedFinalizedObservation := {
  cfo_finalized : FinalizedObservation;
  cfo_snapshot : BridgeSnapshot;
  cfo_bridge_identity : ObservedBridgeIdentity;
  cfo_rpc_audit : RpcAuditEvidence;
}.

Definition stable_observation_parts (finalized : FinalizedObservation)
    (bridge_identity : ObservedBridgeIdentity) (configured_chain_id : Z) : FinalizedObservationRecord :=
  {| for_chain_id := configured_chain_id;
     for_block_number := fo_block_number finalized;
     for_block_hash := fo_block_hash finalized;
     for_observed_at_ns := fo_observed_at_ns finalized;
     for_bridge_signer := obi_signer bridge_identity;
     for_runtime_sha256 := obi_runtime_sha256 bridge_identity |}.

Definition stable_observation (observation : CompletedFinalizedObservation) (configured_chain_id : Z)
    : FinalizedObservationRecord :=
  stable_observation_parts (cfo_finalized observation) (cfo_bridge_identity observation)
    configured_chain_id.

Inductive RecoveryTarget := Target_Deposit (deposit_id : bytes).
Inductive RecoveryBaseState := DepositProcessed (processed : bool).

Record RecoveryObservation := {
  ro_finalized : FinalizedObservation;
  ro_snapshot : BridgeSnapshot;
  ro_bridge_identity : ObservedBridgeIdentity;
  ro_state : RecoveryBaseState;
  ro_rpc_audit : RpcAuditEvidence;
}.

Record DepositPreflightObservation := {
  dpo_finalized : FinalizedObservation;
  dpo_snapshot : BridgeSnapshot;
  dpo_bridge_identity : ObservedBridgeIdentity;
  dpo_processed : bool;
  dpo_runtime_attestation_refreshed : bool;
  dpo_rpc_audit : RpcAuditEvidence;
}.

Inductive NotifiedWithdrawalOutcome :=
| Notified_Missing
| Notified_Pending (receipt_block_number : Z)
| Notified_Reverted (receipt_block_number finalized_checkpoint_block_number : Z)
| Notified_Confirmed (withdrawal : ObservedWithdrawal) (snapshot : BridgeSnapshot)
    (rpc_audit : RpcAuditEvidence) (stable_observation : FinalizedObservationRecord)
    (receipt_block_number finalized_checkpoint_block_number : Z).

Inductive CanonicalFinalizedReceiptOutcome :=
| Receipt_Missing
| Receipt_Pending (receipt_block_number : Z)
| Receipt_Confirmed (receipt : TransactionReceipt)
    (finalized_observation receipt_observation : FinalizedObservation).

Inductive ConfirmedReceiptOutcome :=
| Confirmed_Missing
| Confirmed_Pending (receipt_block_number : Z)
| Confirmed_Succeeded (receipt_block_number finalized_head_block_number : Z)
    (finalized_observation : FinalizedObservation) (rpc_audit : RpcAuditEvidence)
| Confirmed_Reverted (receipt_block_number finalized_head_block_number : Z)
    (finalized_observation : FinalizedObservation) (rpc_audit : RpcAuditEvidence).

(** ** Two of three *)

Section Quorum.
Context `{RpcTypes}.

Definition has_duplicate_rpc_services {A} (entries : list (RpcService * A)) : bool :=
  existsb
    (fun index =>
       match entries !! index with
       | Some (service, _) => existsb (fun seen => bool_decide (seen.1 = service)) (take index entries)
       | None => false
       end)
    (seq 0 (length entries)).

Definition result_ok {E A} (r : Result E A) : option A :=
  match r with Ok a => Some a | Err _ => None end.

Definition exact_provider_response_quorum_by {E A} (results : list (RpcService * Result E A))
    (equivalent : A -> A -> bool) : Result ObservationError A :=
  if negb (length results =? 3)%nat || has_duplicate_rpc_services results then Err Inconsistent
  else
    let successes := omap (fun p => result_ok p.2) results in
    ok_or
      (List.find
         (fun candidate =>
            (2 <=? length (List.filter (fun value => equivalent value candidate) successes))%nat)
         successes)
      Inconsistent.

Definition exact_provider_response_quorum {E A} `{EqDecision A}
    (results : list (RpcService * Result E A)) : Result ObservationError A :=
  exact_provider_response_quorum_by results (fun x y => bool_decide (x = y)).

Definition exact_quorum_response {A} `{EqDecision A} (result : MultiRpcResult A)
    : Result ObservationError A :=
  match result with
  | MultiConsistent (Ok value) => Ok value
  | MultiConsistent (Err _) => Err Rpc
  | MultiInconsistent results => exact_provider_response_quorum results
  end.

Definition receipt_consensus_fields_match (one other : option TransactionReceipt) : bool :=
  match one, other with
  | None, None => true
  | Some one, Some other =>
      bool_decide (tr_block_hash one = tr_block_hash other)
      && (tr_block_number one =? tr_block_number other)
      && bool_decide (tr_status one = tr_status other)
      && bool_decide (tr_root one = tr_root other)
      && bool_decide (tr_transaction_hash one = tr_transaction_hash other)
      && bool_decide (tr_contract_address one = tr_contract_address other)
      && bool_decide (tr_from one = tr_from other)
      && bool_decide (tr_logs one = tr_logs other)
      && bool_decide (tr_to one = tr_to other)
      && (tr_transaction_index one =? tr_transaction_index other)
      && bool_decide (tr_tx_type one = tr_tx_type other)
  | _, _ => false
  end.

Definition quorum_transaction_receipt_response (result : MultiRpcResult (option TransactionReceipt))
    : Result ObservationError (option TransactionReceipt) :=
  match result with
  | MultiConsistent (Ok receipt) => Ok receipt
  | MultiConsistent (Err _) => Err Rpc
  | MultiInconsistent results =>
      exact_provider_response_quorum_by results receipt_consensus_fields_match
  end.

(** ** The finalized block *)

Definition withdrawal_finalized_identity (block : Block) : option WithdrawalFinalizedIdentity :=
  match try_u64 (blk_number block) with
  | Ok number => Some {| wfi_block_number := number; wfi_block_hash := blk_hash block |}
  | Err _ => None
  end.

Definition block_identity (result : Result RpcError Block) : option WithdrawalFinalizedIdentity :=
  match result_ok result with Some block => withdrawal_finalized_identity block | None => None end.

Definition provider_finalized_heads (results : list (RpcService * Result RpcError Block))
    : Result ObservationError (list (RpcService * option WithdrawalFinalizedIdentity)) :=
  if negb (length results =? 3)%nat || has_duplicate_rpc_services results then Err Inconsistent
  else Ok ((fun p => (p.1, block_identity p.2)) <$> results).

Fixpoint correlate {A B} (finalized_heads : list (RpcService * A)) (responses : list (RpcService * B))
    : Result ObservationError (list B) :=
  match finalized_heads with
  | [] => Ok []
  | (service, _) :: heads =>
      let? response :=
        ok_or (List.find (fun p => bool_decide (p.1 = service)) responses) Inconsistent in
      let? rest := correlate heads responses in
      Ok (response.2 :: rest)
  end.

Definition correlate_provider_responses {A B} (finalized_heads : list (RpcService * A))
    (responses : list (RpcService * B)) : Result ObservationError (list B) :=
  if negb (length finalized_heads =? 3)%nat
     || negb (length responses =? length finalized_heads)%nat
     || has_duplicate_rpc_services finalized_heads
     || has_duplicate_rpc_services responses
  then Err Inconsistent
  else correlate finalized_heads responses.

(** [v[0], v[1], v[2]] of a vector of three options. *)
Definition three {A} (l : list (option A)) : option A * option A * option A :=
  (nth 0 l None, nth 1 l None, nth 2 l None).

Definition exact_finalized_block
    (finalized_heads : list (RpcService * option WithdrawalFinalizedIdentity)) (checkpoint : Z)
    (result : MultiRpcResult Block) : Result ObservationError Block :=
  match result with
  | MultiConsistent (Ok block) =>
      if bool_decide (wfi_block_number <$> withdrawal_finalized_identity block <> Some checkpoint)
      then Err Inconsistent
      else Ok block
  | MultiConsistent (Err _) => Err Rpc
  | MultiInconsistent results =>
      let? correlated := correlate_provider_responses finalized_heads results in
      let? selected :=
        ok_or
          (withdrawal_finalized_checkpoint_quorum (three finalized_heads.*2)
             (three (block_identity <$> correlated)) checkpoint)
          Inconsistent in
      ok_or
        (List.find (fun block => bool_decide (withdrawal_finalized_identity block = Some selected))
           (omap result_ok correlated))
        Inconsistent
  end.

Definition finalized_block : Obs Block :=
  let! reply := ask Query_finalized_block in
  let! result := Done (awaited reply) in
  match result with
  | MultiConsistent (Ok block) => Done (Ok block)
  | MultiConsistent (Err _) => Done (Err Rpc)
  | MultiInconsistent results =>
      let! finalized_heads := Done (provider_finalized_heads results) in
      let '(first, second, third) := three finalized_heads.*2 in
      let! checkpoint := Done (ok_or (withdrawal_common_checkpoint first second third) Inconsistent) in
      let! checkpoint_reply := ask (Query_block_by_number checkpoint) in
      let! checkpoint_result := Done (awaited checkpoint_reply) in
      Done (exact_finalized_block finalized_heads checkpoint checkpoint_result)
  end.

Definition finalized_observation : Obs FinalizedObservation :=
  let! block := finalized_block in
  let! number := Done (try_u64 (blk_number block)) in
  let! now := ask Query_time in
  Done (Ok {| fo_block_number := number; fo_block_hash := blk_hash block; fo_observed_at_ns := now |}).

Definition withdrawal_finalized_observation : Obs FinalizedObservation := finalized_observation.
End Quorum.

(** ** Deployment postconditions *)

(** The check of [String::from_utf8]: no overlong form, no surrogate, nothing above U+10FFFF. *)
Definition utf8_tail (b : Z) : bool := (128 <=? b) && (b <=? 191).

Definition utf8_second (a b : Z) : bool :=
  let low := if a =? 224 then 160 else if a =? 240 then 144 else 128 in
  let high := if a =? 237 then 159 else if a =? 244 then 143 else 191 in
  (low <=? b) && (b <=? high).

Fixpoint utf8_valid (s : bytes) : bool :=
  match s with
  | [] => true
  | a :: s1 =>
      if a <? 128 then utf8_valid s1
      else match s1 with
      | [] => false
      | b :: s2 =>
          if (194 <=? a) && (a <=? 223) then utf8_tail b && utf8_valid s2
          else match s2 with
          | [] => false
          | c :: s3 =>
              if (224 <=? a) && (a <=? 239) then utf8_second a b && utf8_tail c && utf8_valid s3
              else match s3 with
              | [] => false
              | d :: s4 =>
                  (240 <=? a) && (a <=? 244)
                  && utf8_second a b && utf8_tail c && utf8_tail d && utf8_valid s4
              end
          end
      end
  end.

Definition observed_string (value : bytes) : Result ObservationError bytes :=
  let? data := decode_hex (default value (strip_0x (trim_matches QUOTE value))) in
  if (length data <? 64)%nat then Err InvalidResponse
  else
    let? offset := observed_u64 ([48; 120] ++ hex (take 32 data)) in
    if negb (offset =? 32) then Err InvalidResponse
    else
      let? len := observed_u64 ([48; 120] ++ hex (take 32 (drop 32 data))) in
      let len := len mod (usize_max + 1) in
      let? stop := ok_or (checked_add usize_max 64 len) InvalidResponse in
      if Z.of_nat (length data) <? stop then Err InvalidResponse
      else
        let text := take (Z.to_nat len) (drop 64 data) in
        if utf8_valid text then Ok text else Err InvalidResponse.

Record DeploymentPostconditionsObservation := {
  dp_bridge_timelock : bytes;
  dp_runtime_administrator : bytes;
  dp_timelock_admin : bytes;
  dp_timelock_proposer : bytes;
  dp_timelock_canceller : bytes;
  dp_timelock_executor : bytes;
  dp_timelock_runtime_code_hash : bytes;
  dp_bridge_approved_timelock_runtime_code_hash : bytes;
  dp_timelock_minimum_delay_seconds : Z;
  dp_bsns_address : bytes;
  dp_bsns_runtime_sha256 : bytes;
  dp_bsns_name : bytes;
  dp_bsns_symbol : bytes;
  dp_bsns_decimals : Z;
  dp_bsns_bridge : bytes;
  dp_minimum_service_fee : Z;
}.

(** ** Requests *)

Definition eth_call_request (to calldata : bytes) (observation : FinalizedObservation) : Json :=
  JObj [("jsonrpc", jstr "2.0"); ("id", JNum 1); ("method", jstr "eth_call");
        ("params", JArr
          [JObj [("to", jhex to); ("data", jhex calldata)];
           JObj [("blockHash", jhex (fo_block_hash observation)); ("requireCanonical", JBool true)]])]%string.

Definition bridge_runtime_request (to : bytes) (observation : FinalizedObservation) : Json :=
  JObj [("jsonrpc", jstr "2.0"); ("id", JNum 1); ("method", jstr "eth_getCode");
        ("params", JArr
          [jhex to;
           JObj [("blockHash", jhex (fo_block_hash observation)); ("requireCanonical", JBool true)]])]%string.

Definition get_logs_request (address : bytes) (from_block to_block : Z) (event_topic id : bytes) : Json :=
  JObj [("jsonrpc", jstr "2.0"); ("id", JNum 1); ("method", jstr "eth_getLogs");
        ("params", JArr
          [JObj [("address", jhex address); ("fromBlock", jhex_u64 from_block);
                 ("toBlock", jhex_u64 to_block);
                 ("topics", JArr [jhex event_topic; jhex id])]])]%string.

Definition balance_request (address : bytes) (block : Json) : Json :=
  JObj [("jsonrpc", jstr "2.0"); ("id", JNum 1); ("method", jstr "eth_getBalance");
        ("params", JArr [jhex address; block])]%string.

Definition jopt {A} (f : A -> Json) (o : option A) : Json :=
  match o with Some a => f a | None => JNull end.

Section Evidence.
Context `{Keccak} `{Sha256} `{SerdeJson}.

Definition selector (signature : string) : bytes := take 4 (keccak256 (as_bytes signature)).

Definition role_hash (name : string) : bytes := keccak256 (as_bytes name).

Definition signed_transaction_hash (raw : bytes) : bytes := keccak256 raw.

Definition MINTED_TOPIC : bytes :=
  keccak256 (as_bytes "DepositMinted(bytes32,address,bytes32,uint256,uint256,uint256)").
Definition COMMITTED_TOPIC : bytes :=
  keccak256 (as_bytes "WithdrawalCommitted(uint256,address,uint256,uint256,uint256,uint256,bytes,bytes32)").

Definition json_digest (value : Json) : bytes := sha256 (json_to_vec value).

Definition runtime_matches_expected (runtime expected_sha256 : bytes) : bool :=
  negb (length runtime =? 0)%nat && bool_decide (sha256 runtime = expected_sha256).

(** ** The audit evidence *)

Definition refreshed_calls (refreshed : bool) : list Json :=
  if refreshed then [jstr "eth_getCode(EIP-1898-finalized-hash)"] else [].

Definition audit_calls (transaction refreshed : bool) : list Json :=
  (if transaction
   then [jstr "eth_getBlockByNumber(finalized)"; jstr "eth_getTransactionReceipt";
         jstr "eth_call(bridgeSnapshot,EIP-1898-receipt-hash)";
         jstr "eth_call(getWithdrawal,EIP-1898-finalized-hash)";
         jstr "eth_call(bridgeSnapshot,EIP-1898-finalized-hash)"]
   else [jstr "eth_getBlockByNumber(finalized)";
         jstr "eth_call(bridgeSnapshot,EIP-1898-finalized-hash)"])
  ++ refreshed_calls refreshed.

(** [DEPOSIT_PREFLIGHT_RPC_CALLS], which the recovery observation also lists. *)
Definition deposit_calls (refreshed : bool) : list Json :=
  [jstr "eth_getBlockByNumber(finalized)";
   jstr "eth_call(isDepositProcessed,EIP-1898-finalized-hash)";
   jstr "eth_call(bridgeSnapshot,EIP-1898-finalized-hash)"] ++ refreshed_calls refreshed.

Definition withdrawal_response (value : ObservedWithdrawal) : Json :=
  JObj [("id", jhex (ow_id value)); ("requester", jhex (ow_requester value));
        ("amount", jdec (ow_amount value)); ("max_service_fee", jdec (ow_max_service_fee value));
        ("charged_service_fee", jdec (ow_charged_service_fee value));
        ("amount_out", jdec (ow_amount_out value)); ("owner", jhex (ow_owner value));
        ("subaccount", jhex (ow_subaccount value)); ("current_status", JNum 1)]%string.

Definition rpc_audit_evidence (args : BridgeInitArgs) (finalized : FinalizedObservation)
    (snapshot : BridgeSnapshot) (identity : ObservedBridgeIdentity) (transaction_hash : option bytes)
    (receipt_block_number : option Z) (withdrawal : option ObservedWithdrawal)
    (runtime_attestation_refreshed : bool) : RpcAuditEvidence :=
  let mint := obs_mint snapshot in
  let request :=
    JObj [("evm_rpc_canister_id", JStr (principal_to_text (bia_evm_rpc_canister_id args)));
          ("candid_method", jstr "multi_request");
          ("calls", JArr (audit_calls (is_some transaction_hash) runtime_attestation_refreshed));
          ("configured_chain_id", JNum (bia_base_chain_id args));
          ("bridge_contract", jhex (bia_bridge_contract args));
          ("finalized_block_hash", jhex (fo_block_hash finalized));
          ("transaction_hash", jopt jhex transaction_hash)]%string in
  let response :=
    JObj [("finalized_block_number", JNum (fo_block_number finalized));
          ("finalized_block_hash", jhex (fo_block_hash finalized));
          ("receipt_block_number", jopt JNum receipt_block_number);
          ("withdrawal", jopt withdrawal_response withdrawal);
          ("bridge_signer", jhex (obs_bridge_signer snapshot));
          ("bridge_runtime_sha256", jhex (obi_runtime_sha256 identity));
          ("snapshot_finalized_head_block_number", JNum (bms_finalized_head_block_number mint));
          ("snapshot_confirmed_block_timestamp", JNum (bms_confirmed_block_timestamp mint));
          ("snapshot_service_fee", jdec (bms_service_fee mint));
          ("snapshot_max_service_fee", jdec (bms_max_service_fee mint));
          ("snapshot_per_deposit_limit", jdec (bms_per_deposit_limit mint));
          ("snapshot_mint_window_limit", jdec (bms_mint_window_limit mint));
          ("snapshot_mint_window_duration", JNum (bms_mint_window_duration mint));
          ("snapshot_mint_window_started_at", JNum (bms_mint_window_started_at mint));
          ("snapshot_minted_in_window", jdec (bms_minted_in_window mint));
          ("deposits_paused", JBool (obs_deposits_paused snapshot));
          ("withdrawals_paused", JBool (obs_withdrawals_paused snapshot))]%string in
  {| rae_evm_rpc_canister_id := bia_evm_rpc_canister_id args;
     rae_call_method := "multi_request";
     rae_request_digest := json_digest request;
     rae_quorum_response_digest := json_digest response;
     rae_finalized_block_number := fo_block_number finalized;
     rae_finalized_block_hash := fo_block_hash finalized;
     rae_transaction_hash := transaction_hash |}.

Definition recovery_rpc_audit_evidence (args : BridgeInitArgs) (finalized : FinalizedObservation)
    (snapshot : BridgeSnapshot) (identity : ObservedBridgeIdentity) (target : RecoveryTarget)
    (state : RecoveryBaseState) (runtime_attestation_refreshed : bool) : RpcAuditEvidence :=
  let '(Target_Deposit id) := target in
  let '(DepositProcessed processed) := state in
  let request :=
    JObj [("evm_rpc_canister_id", JStr (principal_to_text (bia_evm_rpc_canister_id args)));
          ("candid_method", jstr "multi_request");
          ("calls", JArr (deposit_calls runtime_attestation_refreshed));
          ("configured_chain_id", JNum (bia_base_chain_id args));
          ("bridge_contract", jhex (bia_bridge_contract args));
          ("finalized_block_hash", jhex (fo_block_hash finalized));
          ("target", jhex id)]%string in
  let response :=
    JObj [("finalized_block_number", JNum (fo_block_number finalized));
          ("finalized_block_hash", jhex (fo_block_hash finalized));
          ("bridge_signer", jhex (obs_bridge_signer snapshot));
          ("bridge_runtime_sha256", jhex (obi_runtime_sha256 identity));
          ("state", JObj [("processed", JBool processed)])]%string in
  {| rae_evm_rpc_canister_id := bia_evm_rpc_canister_id args;
     rae_call_method := "multi_request:recovery_observation";
     rae_request_digest := json_digest request;
     rae_quorum_response_digest := json_digest response;
     rae_finalized_block_number := fo_block_number finalized;
     rae_finalized_block_hash := fo_block_hash finalized;
     rae_transaction_hash := None |}.

Definition deposit_preflight_rpc_audit_evidence (args : BridgeInitArgs)
    (finalized : FinalizedObservation) (snapshot : BridgeSnapshot) (deposit_id : bytes)
    (refresh_generation : Z) (processed runtime_attestation_refreshed : bool) : RpcAuditEvidence :=
  let mint := obs_mint snapshot in
  let request :=
    JObj [("evm_rpc_canister_id", JStr (principal_to_text (bia_evm_rpc_canister_id args)));
          ("candid_method", jstr "multi_request");
          ("calls", JArr (deposit_calls runtime_attestation_refreshed));
          ("configured_chain_id", JNum (bia_base_chain_id args));
          ("bridge_contract", jhex (bia_bridge_contract args));
          ("finalized_block_hash", jhex (fo_block_hash finalized));
          ("deposit_id", jhex deposit_id);
          ("refresh_generation", JNum refresh_generation)]%string in
  let response :=
    JObj [("finalized_block_number", JNum (fo_block_number finalized));
          ("finalized_block_hash", jhex (fo_block_hash finalized));
          ("refresh_generation", JNum refresh_generation);
          ("processed", JBool processed);
          ("bridge_signer", jhex (obs_bridge_signer snapshot));
          ("mint_authorization_epoch", JNum (obs_mint_authorization_epoch snapshot));
          ("snapshot_confirmed_block_timestamp", JNum (bms_confirmed_block_timestamp mint));
          ("snapshot_service_fee", jdec (bms_service_fee mint));
          ("snapshot_max_service_fee", jdec (bms_max_service_fee mint));
          ("snapshot_per_deposit_limit", jdec (bms_per_deposit_limit mint));
          ("snapshot_mint_window_limit", jdec (bms_mint_window_limit mint));
          ("snapshot_mint_window_duration", JNum (bms_mint_window_duration mint));
          ("snapshot_mint_window_started_at", JNum (bms_mint_window_started_at mint));
          ("snapshot_minted_in_window", jdec (bms_minted_in_window mint));
          ("deposits_paused", JBool (obs_deposits_paused snapshot));
          ("bridge_runtime_sha256", jhex (bia_expected_bridge_runtime_sha256 args));
          ("runtime_attestation_refreshed", JBool runtime_attestation_refreshed)]%string in
  {| rae_evm_rpc_canister_id := bia_evm_rpc_canister_id args;
     rae_call_method := "multi_request:deposit_preflight";
     rae_request_digest := json_digest request;
     rae_quorum_response_digest := json_digest response;
     rae_finalized_block_number := fo_block_number finalized;
     rae_finalized_block_hash := fo_block_hash finalized;
     rae_transaction_hash := None |}.

Definition transaction_rpc_audit_evidence (args : BridgeInitArgs) (call_method : string)
    (finalized : FinalizedObservation) (transaction_hash : bytes) (outcome : Json)
    : RpcAuditEvidence :=
  let request :=
    JObj [("evm_rpc_canister_id", JStr (principal_to_text (bia_evm_rpc_canister_id args)));
          ("call_method", jstr call_method);
          ("configured_chain_id", JNum (bia_base_chain_id args));
          ("finalized_block_number", JNum (fo_block_number finalized));
          ("finalized_block_hash", jhex (fo_block_hash finalized));
          ("transaction_hash", jhex transaction_hash)]%string in
  let response :=
    JObj [("finalized_block_number", JNum (fo_block_number finalized));
          ("finalized_block_hash", jhex (fo_block_hash finalized));
          ("transaction_hash", jhex transaction_hash);
          ("outcome", outcome)]%string in
  {| rae_evm_rpc_canister_id := bia_evm_rpc_canister_id args;
     rae_call_method := call_method;
     rae_request_digest := json_digest request;
     rae_quorum_response_digest := json_digest response;
     rae_finalized_block_number := fo_block_number finalized;
     rae_finalized_block_hash := fo_block_hash finalized;
     rae_transaction_hash := Some transaction_hash |}.

(** ** The evidence of a mint *)

(** The three words of [DepositMinted]; [net] is evaluated where the code evaluates it. *)
Definition minted_words_match (data : bytes) (gross fee : Z) (net : Result ObservationError Z)
    : Result ObservationError unit :=
  let mismatch := Err BaseStateMismatch in
  if negb (length data =? 3 * ABI_WORD_BYTES)%nat then mismatch
  else
    let? w0 := word_u128 (take 32 data) in
    if negb (w0 =? gross) then mismatch
    else
      let? w1 := word_u128 (take 32 (drop 32 data)) in
      if negb (w1 =? fee) then mismatch
      else
        let? w2 := word_u128 (drop 64 data) in
        let? n := net in
        if negb (w2 =? n) then mismatch else Ok tt.

Definition net_amount (authorization : MintAuthorization) : Result ObservationError Z :=
  ok_or (checked_sub (ma_gross_amount authorization) (ma_charged_service_fee authorization)) Overflow.

Definition log_index_of (log : LogEntry) : Result ObservationError Z :=
  let? value := ok_or (le_log_index log) InvalidResponse in try_u64 value.

Definition mint_evidence_from_receipt (chain_id : Z) (bridge_contract : bytes)
    (authorization : MintAuthorizationRecord) (finalized receipt_observation : FinalizedObservation)
    (receipt : TransactionReceipt) : Result ObservationError MintFinalizationEvidence :=
  let auth := mar_authorization authorization in
  if bool_decide (tr_status receipt = Some 0) then Err TransactionReverted
  else if bool_decide (tr_status receipt <> Some 1) then Err InvalidResponse
  else
    let candidates :=
      List.filter
        (fun log =>
           bool_decide (le_address log = bridge_contract)
           && bool_decide (le_topics log !! 0%nat = Some MINTED_TOPIC)
           && bool_decide (le_topics log !! 1%nat = Some (ma_deposit_id auth)))
        (tr_logs receipt) in
    match candidates with
    | [log] =>
        let? net := net_amount auth in
        if le_removed log
           || negb (length (le_topics log) =? 4)%nat
           || negb (all_zero (take 12 (topic log 2)))
           || bool_decide (drop 12 (topic log 2) <> ma_recipient auth)
           || bool_decide (topic log 3 <> mar_digest authorization)
           || bool_decide (le_transaction_hash log <> Some (tr_transaction_hash receipt))
           || bool_decide (le_block_hash log <> Some (tr_block_hash receipt))
           || bool_decide (le_block_number log <> Some (tr_block_number receipt))
           || (fo_block_number receipt_observation
               <? mao_finalized_block_number (mar_origin authorization))
           || (fo_block_number receipt_observation >? fo_block_number finalized)
        then Err BaseStateMismatch
        else
          let? _ := minted_words_match (le_data log) (ma_gross_amount auth)
                      (ma_charged_service_fee auth) (Ok net) in
          let transaction_hash := tr_transaction_hash receipt in
          let request :=
            JObj [("method", jstr "eth_getTransactionReceipt");
                  ("params", JArr [jhex transaction_hash]);
                  ("chainId", JNum chain_id);
                  ("finalizedBlockHash", jhex (fo_block_hash finalized))]%string in
          let? log_index := log_index_of log in
          Ok {| mfe_deposit_id := ma_deposit_id auth;
                mfe_recipient := ma_recipient auth;
                mfe_authorization_digest := mar_digest authorization;
                mfe_chain_id := chain_id;
                mfe_verifying_contract := mad_verifying_contract (mar_domain authorization);
                mfe_gross_amount := ma_gross_amount auth;
                mfe_charged_service_fee := ma_charged_service_fee auth;
                mfe_minted_amount := net;
                mfe_transaction_hash := transaction_hash;
                mfe_log_index := log_index;
                mfe_receipt_succeeded := true;
                mfe_receipt_block_number := fo_block_number receipt_observation;
                mfe_receipt_block_hash := fo_block_hash receipt_observation;
                mfe_finalized_block_number := fo_block_number finalized;
                mfe_finalized_block_hash := fo_block_hash finalized;
                mfe_rpc_request_digest := json_digest request;
                mfe_rpc_response_digest := sha256 (receipt_to_vec receipt) |}
    | _ => Err BaseStateMismatch
    end.

Definition exact_receipt_log_matches (candidate observed : LogEntry) : bool :=
  negb (le_removed candidate)
  && bool_decide (le_address candidate = le_address observed)
  && bool_decide (le_topics candidate = le_topics observed)
  && bool_decide (le_data candidate = le_data observed)
  && bool_decide (le_block_number candidate = le_block_number observed)
  && bool_decide (le_block_hash candidate = le_block_hash observed)
  && bool_decide (le_transaction_hash candidate = le_transaction_hash observed)
  && bool_decide (le_log_index candidate = le_log_index observed).
End Evidence.

(** ** The observations *)

Section Calls.
Context `{RpcTypes} `{Keccak} `{Sha256} `{SerdeJson}.

(** A JSON-RPC request whose answer two of three providers agree on. *)
Definition multi_request (request : Json) : Obs bytes :=
  let! reply := ask (Query_multi_request request) in
  let! result := Done (awaited reply) in
  Done (exact_quorum_response result).

Definition eth_call_target_at_observation (to calldata : bytes) (observation : FinalizedObservation)
    : Obs bytes :=
  multi_request (eth_call_request to calldata observation).

Definition eth_call_at_observation (args : BridgeInitArgs) (calldata : bytes)
    (observation : FinalizedObservation) : Obs bytes :=
  eth_call_target_at_observation (bia_bridge_contract args) calldata observation.

Definition runtime_at_observation (to : bytes) (observation : FinalizedObservation) : Obs bytes :=
  let! value := multi_request (bridge_runtime_request to observation) in
  Done (answer_bytes value).

Definition bridge_runtime_at_observation (args : BridgeInitArgs) (observation : FinalizedObservation)
    : Obs bytes :=
  runtime_at_observation (bia_bridge_contract args) observation.

Definition observe_bridge_snapshot_at (args : BridgeInitArgs) (observation : FinalizedObservation)
    : Obs BridgeSnapshot :=
  let! value := eth_call_at_observation args (selector "bridgeSnapshot()") observation in
  let! snapshot := Done (decode_bridge_snapshot value) in
  if negb (canonical_probe_matches (fo_block_number observation)
             (bms_finalized_head_block_number (obs_mint snapshot)))
  then Done (Err InvalidResponse)
  else Done (Ok snapshot).

Definition expected_runtime (args : BridgeInitArgs) : Result ObservationError bytes :=
  if (length (bia_expected_bridge_runtime_sha256 args) =? 32)%nat
  then Ok (bia_expected_bridge_runtime_sha256 args) else Err InvalidResponse.

Definition observe_bridge_at (args : BridgeInitArgs) (observation : FinalizedObservation)
    (runtime_attested : bool) : Obs (BridgeSnapshot * ObservedBridgeIdentity) :=
  let! expected := Done (expected_runtime args) in
  if runtime_attested then
    let! snapshot := observe_bridge_snapshot_at args observation in
    Done (Ok (snapshot, {| obi_signer := obs_bridge_signer snapshot; obi_runtime_sha256 := expected |}))
  else
    let! snapshot := attempt (observe_bridge_snapshot_at args observation) in
    let! runtime := attempt (bridge_runtime_at_observation args observation) in
    let! snapshot := Done snapshot in
    let! runtime := Done runtime in
    if (length runtime =? 0)%nat then Done (Err InvalidResponse)
    else if negb (runtime_matches_expected runtime expected) then Done (Err BaseStateMismatch)
    else Done (Ok (snapshot, {| obi_signer := obs_bridge_signer snapshot;
                                obi_runtime_sha256 := sha256 runtime |})).

Definition bridge_snapshot_at (args : BridgeInitArgs) (finalized : FinalizedObservation)
    (runtime_attested : bool) : Obs CompletedFinalizedObservation :=
  let! observed := observe_bridge_at args finalized runtime_attested in
  let '(snapshot, bridge_identity) := observed in
  Done (Ok {| cfo_finalized := finalized;
              cfo_snapshot := snapshot;
              cfo_bridge_identity := bridge_identity;
              cfo_rpc_audit := rpc_audit_evidence args finalized snapshot bridge_identity
                                 None None None (negb runtime_attested) |}).

Definition bridge_snapshot (args : BridgeInitArgs) (runtime_attested : bool)
    : Obs CompletedFinalizedObservation :=
  let! finalized := finalized_observation in
  bridge_snapshot_at args finalized runtime_attested.

Definition deposit_processed_at (args : BridgeInitArgs) (deposit_id : bytes)
    (finalized : FinalizedObservation) : Obs bytes :=
  eth_call_at_observation args (selector "isDepositProcessed(bytes32)" ++ deposit_id) finalized.

Definition recovery_observation (args : BridgeInitArgs) (target : RecoveryTarget)
    (runtime_attested : bool) : Obs RecoveryObservation :=
  let! finalized := finalized_observation in
  let state_call :=
    let '(Target_Deposit deposit_id) := target in
    let! value := deposit_processed_at args deposit_id finalized in
    let! processed := Done (decode_bool_word value) in
    Done (Ok (DepositProcessed processed)) in
  let! state := attempt state_call in
  let! bridge := attempt (observe_bridge_at args finalized runtime_attested) in
  let! state := Done state in
  let! bridge := Done bridge in
  let '(snapshot, bridge_identity) := bridge in
  Done (Ok {| ro_finalized := finalized;
              ro_snapshot := snapshot;
              ro_bridge_identity := bridge_identity;
              ro_state := state;
              ro_rpc_audit := recovery_rpc_audit_evidence args finalized snapshot bridge_identity
                                target state (negb runtime_attested) |}).

Definition deposit_preflight_observation (args : BridgeInitArgs) (deposit_id : bytes)
    (refresh_generation : Z) (runtime_attested : bool) : Obs DepositPreflightObservation :=
  let! finalized := finalized_observation in
  let! expected := Done (expected_runtime args) in
  let! observed :=
    (if runtime_attested then
       let! processed := attempt (deposit_processed_at args deposit_id finalized) in
       let! snapshot := attempt (observe_bridge_snapshot_at args finalized) in
       let! snapshot := Done snapshot in
       let! value := Done processed in
       let! processed := Done (decode_bool_word value) in
       Done (Ok (processed, snapshot, false))
     else
       let! processed := attempt (deposit_processed_at args deposit_id finalized) in
       let! snapshot := attempt (observe_bridge_snapshot_at args finalized) in
       let! runtime := attempt (bridge_runtime_at_observation args finalized) in
       let! snapshot := Done snapshot in
       let! runtime := Done runtime in
       if negb (runtime_matches_expected runtime expected) then Done (Err BaseStateMismatch)
       else
         let! value := Done processed in
         let! processed := Done (decode_bool_word value) in
         Done (Ok (processed, snapshot, true))) in
  let '(processed, snapshot, refreshed) := observed in
  Done (Ok {| dpo_finalized := finalized;
              dpo_snapshot := snapshot;
              dpo_bridge_identity := {| obi_signer := obs_bridge_signer snapshot;
                                        obi_runtime_sha256 := expected |};
              dpo_processed := processed;
              dpo_runtime_attestation_refreshed := refreshed;
              dpo_rpc_audit := deposit_preflight_rpc_audit_evidence args finalized snapshot deposit_id
                                 refresh_generation processed refreshed |}).

(** ** Receipts *)

Definition canonical_probe_error (error : RpcError) : ObservationError :=
  match error with
  | JsonRpcError | ValidationError => InvalidResponse
  | ProviderError | HttpOutcallError => Rpc
  end.

Definition validate_canonical_probe_response (observation : FinalizedObservation) (value : bytes)
    : Result ObservationError unit :=
  let? snapshot := decode_bridge_snapshot value in
  if negb (bms_finalized_head_block_number (obs_mint snapshot) =? fo_block_number observation)
  then Err InvalidResponse else Ok tt.

Definition canonical_finalized_receipt_with_hash (args : BridgeInitArgs) (hash : bytes)
    (finalized : FinalizedObservation) (receipt : option TransactionReceipt)
    : Obs CanonicalFinalizedReceiptOutcome :=
  match receipt with
  | None => Done (Ok Receipt_Missing)
  | Some receipt =>
      if bool_decide (tr_transaction_hash receipt <> hash) then Done (Err InvalidResponse)
      else
        let! receipt_block := Done (try_u64 (tr_block_number receipt)) in
        if receipt_block >? fo_block_number finalized then Done (Ok (Receipt_Pending receipt_block))
        else
          let receipt_observation :=
            {| fo_block_number := receipt_block;
               fo_block_hash := tr_block_hash receipt;
               fo_observed_at_ns := fo_observed_at_ns finalized |} in
          let probe :=
            eth_call_request (bia_bridge_contract args) (selector "bridgeSnapshot()") receipt_observation in
          let! reply := ask (Query_multi_request probe) in
          let! result := Done (awaited reply) in
          let! probe_value :=
            Done (match result with
                  | MultiConsistent (Ok value) => Ok value
                  | MultiConsistent (Err error) => Err (canonical_probe_error error)
                  | MultiInconsistent results => exact_provider_response_quorum results
                  end) in
          let! _ := Done (validate_canonical_probe_response receipt_observation probe_value) in
          Done (Ok (Receipt_Confirmed receipt finalized receipt_observation))
  end.

Definition transaction_receipt (hash : bytes) : Obs (option TransactionReceipt) :=
  let! reply := ask (Query_transaction_receipt hash) in
  let! result := Done (awaited reply) in
  Done (quorum_transaction_receipt_response result).

Definition canonical_finalized_receipt (args : BridgeInitArgs) (transaction_hash : bytes)
    : Obs CanonicalFinalizedReceiptOutcome :=
  let! finalized := attempt finalized_observation in
  let! receipt := attempt (transaction_receipt transaction_hash) in
  let! finalized := Done finalized in
  let! receipt := Done receipt in
  canonical_finalized_receipt_with_hash args transaction_hash finalized receipt.

Definition canonical_semantically_finalized_withdrawal_receipt (args : BridgeInitArgs)
    (transaction_hash : bytes) : Obs CanonicalFinalizedReceiptOutcome :=
  let! receipt := transaction_receipt transaction_hash in
  match receipt with
  | None => Done (Ok Receipt_Missing)
  | Some receipt =>
      if bool_decide (tr_transaction_hash receipt <> transaction_hash) then Done (Err InvalidResponse)
      else
        let! finalized := withdrawal_finalized_observation in
        canonical_finalized_receipt_with_hash args transaction_hash finalized (Some receipt)
  end.

Definition canonical_finalized_receipt_at (args : BridgeInitArgs) (transaction_hash : bytes)
    (finalized : FinalizedObservation) : Obs CanonicalFinalizedReceiptOutcome :=
  let! receipt := transaction_receipt transaction_hash in
  canonical_finalized_receipt_with_hash args transaction_hash finalized receipt.

(** [Hex20::from_str] of the configured contract. *)
Definition Hex20 (b : bytes) : Result ObservationError bytes :=
  if (length b =? 20)%nat then Ok b else Err InvalidResponse.

Definition confirmed_receipt_outcome (args : BridgeInitArgs) (transaction_hash : bytes)
    : Obs ConfirmedReceiptOutcome :=
  let! outcome := canonical_finalized_receipt args transaction_hash in
  match outcome with
  | Receipt_Missing => Done (Ok Confirmed_Missing)
  | Receipt_Pending receipt_block_number => Done (Ok (Confirmed_Pending receipt_block_number))
  | Receipt_Confirmed receipt finalized _ =>
      let! receipt_block := Done (try_u64 (tr_block_number receipt)) in
      let audit status :=
        transaction_rpc_audit_evidence args "eth_getTransactionReceipt+multi_request" finalized
          transaction_hash
          (JObj [("status", jstr status); ("receipt_block_number", JNum receipt_block);
                 ("receipt_block_hash", jhex (tr_block_hash receipt))]%string) in
      if bool_decide (tr_status receipt = Some 1) then
        Done (Ok (Confirmed_Succeeded receipt_block (fo_block_number finalized) finalized
                    (audit "succeeded"%string)))
      else if bool_decide (tr_status receipt = Some 0) then
        Done (Ok (Confirmed_Reverted receipt_block (fo_block_number finalized) finalized
                    (audit "reverted"%string)))
      else Done (Err InvalidResponse)
  end.

(** ** Mints and withdrawals *)

Definition exact_mint_evidence_inner (args : BridgeInitArgs) (authorization : MintAuthorizationRecord)
    (finalized : FinalizedObservation) (expected_transaction_hash : option bytes)
    : Obs MintFinalizationEvidence :=
  let auth := mar_authorization authorization in
  let request :=
    get_logs_request (bia_bridge_contract args) (mao_finalized_block_number (mar_origin authorization))
      (fo_block_number finalized) MINTED_TOPIC (ma_deposit_id auth) in
  let! value := multi_request request in
  let! logs := Done (ok_or (logs_from_str value) InvalidResponse) in
  match logs with
  | [log] =>
      let! bridge := Done (Hex20 (bia_bridge_contract args)) in
      if le_removed log
         || bool_decide (le_address log <> bridge)
         || negb (length (le_topics log) =? 4)%nat
         || bool_decide (topic log 0 <> MINTED_TOPIC)
         || bool_decide (topic log 1 <> ma_deposit_id auth)
         || negb (all_zero (take 12 (topic log 2)))
         || bool_decide (drop 12 (topic log 2) <> ma_recipient auth)
         || bool_decide (topic log 3 <> mar_digest authorization)
      then Done (Err BaseStateMismatch)
      else
        let! _ := Done (minted_words_match (le_data log) (ma_gross_amount auth)
                          (ma_charged_service_fee auth) (net_amount auth)) in
        let! transaction_hash := Done (ok_or (le_transaction_hash log) InvalidResponse) in
        if is_some_and expected_transaction_hash (fun e => bool_decide (e <> transaction_hash))
        then Done (Err BaseStateMismatch)
        else
          let! log_index := Done (log_index_of log) in
          let! outcome := canonical_finalized_receipt_at args transaction_hash finalized in
          match outcome with
          | Receipt_Missing | Receipt_Pending _ => Done (Err TransactionPending)
          | Receipt_Confirmed receipt finalized_observation receipt_observation =>
              if bool_decide (tr_status receipt = Some 0) then Done (Err TransactionReverted)
              else if bool_decide (tr_status receipt <> Some 1)
                      || negb (length (List.filter (fun candidate => exact_receipt_log_matches candidate log)
                                         (tr_logs receipt)) =? 1)%nat
              then Done (Err BaseStateMismatch)
              else
                let! net := Done (net_amount auth) in
                Done (Ok {| mfe_deposit_id := ma_deposit_id auth;
                            mfe_recipient := ma_recipient auth;
                            mfe_authorization_digest := mar_digest authorization;
                            mfe_chain_id := bia_base_chain_id args;
                            mfe_verifying_contract := mad_verifying_contract (mar_domain authorization);
                            mfe_gross_amount := ma_gross_amount auth;
                            mfe_charged_service_fee := ma_charged_service_fee auth;
                            mfe_minted_amount := net;
                            mfe_transaction_hash := transaction_hash;
                            mfe_log_index := log_index;
                            mfe_receipt_succeeded := true;
                            mfe_receipt_block_number := fo_block_number receipt_observation;
                            mfe_receipt_block_hash := fo_block_hash receipt_observation;
                            mfe_finalized_block_number := fo_block_number finalized_observation;
                            mfe_finalized_block_hash := fo_block_hash finalized_observation;
                            mfe_rpc_request_digest := json_digest request;
                            mfe_rpc_response_digest := sha256 value |})
          end
  | _ => Done (Err BaseStateMismatch)
  end.

Definition exact_mint_evidence (args : BridgeInitArgs) (authorization : MintAuthorizationRecord)
    (finalized : FinalizedObservation) : Obs MintFinalizationEvidence :=
  exact_mint_evidence_inner args authorization finalized None.

Definition exact_mint_receipt_evidence (args : BridgeInitArgs) (authorization : MintAuthorizationRecord)
    (finalized : FinalizedObservation) (transaction_hash : bytes) : Obs MintFinalizationEvidence :=
  let! outcome := canonical_finalized_receipt_at args transaction_hash finalized in
  match outcome with
  | Receipt_Confirmed receipt _ receipt_observation =>
      Done (mint_evidence_from_receipt (bia_base_chain_id args) (bia_bridge_contract args) authorization
              finalized receipt_observation receipt)
  | _ => Done (Err TransactionPending)
  end.

Definition committed_logs (bridge hash : bytes) (receipt : TransactionReceipt) : list LogEntry :=
  List.filter
    (fun log =>
       negb (le_removed log)
       && bool_decide (le_address log = bridge)
       && bool_decide (le_topics log !! 0%nat = Some COMMITTED_TOPIC)
       && bool_decide (le_transaction_hash log = Some hash)
       && bool_decide (le_block_hash log = Some (tr_block_hash receipt)))
    (tr_logs receipt).

Definition notified_withdrawal_outcome (args : BridgeInitArgs) (transaction_hash : bytes)
    (runtime_attested : bool) : Obs NotifiedWithdrawalOutcome :=
  let! outcome := canonical_semantically_finalized_withdrawal_receipt args transaction_hash in
  match outcome with
  | Receipt_Missing => Done (Ok Notified_Missing)
  | Receipt_Pending receipt_block_number => Done (Ok (Notified_Pending receipt_block_number))
  | Receipt_Confirmed receipt finalized_observation _ =>
      let! receipt_block_number := Done (try_u64 (tr_block_number receipt)) in
      if bool_decide (tr_status receipt = Some 0) then
        Done (Ok (Notified_Reverted receipt_block_number (fo_block_number finalized_observation)))
      else if bool_decide (tr_status receipt <> Some 1) then Done (Err InvalidResponse)
      else
        let! bridge_address := Done (Hex20 (bia_bridge_contract args)) in
        match committed_logs bridge_address transaction_hash receipt with
        | [log] =>
            if negb (length (le_topics log) =? 3)%nat || negb (all_zero (take 12 (topic log 2)))
            then Done (Err InvalidResponse)
            else
              let! withdrawal := Done (decode_withdrawal_created_log log) in
              let calldata := selector "getWithdrawal(uint256)" ++ ow_id withdrawal in
              let! current := attempt (eth_call_at_observation args calldata finalized_observation) in
              let! bridge := attempt (observe_bridge_at args finalized_observation runtime_attested) in
              let! value := Done current in
              let! current := Done (decode_current_withdrawal value) in
              if negb (is_same_committed_withdrawal current withdrawal)
              then Done (Err BaseStateMismatch)
              else
                let! observed := Done bridge in
                let '(snapshot, bridge_identity) := observed in
                Done (Ok (Notified_Confirmed withdrawal snapshot
                  (rpc_audit_evidence args finalized_observation snapshot bridge_identity
                     (Some transaction_hash) (Some receipt_block_number) (Some withdrawal)
                     (negb runtime_attested))
                  (stable_observation_parts finalized_observation bridge_identity (bia_base_chain_id args))
                  receipt_block_number (fo_block_number finalized_observation)))
        | _ => Done (Err InvalidResponse)
        end
  end.

(** ** Accounts *)

Definition transaction_count (address : bytes) : Obs Z :=
  let! reply := ask (Query_transaction_count address) in
  let! result := Done (awaited reply) in
  let! value := Done (exact_quorum_response result) in
  Done (try_u64 value).

Definition signer_eth_balance_safe (address : bytes) : Obs Z :=
  let! value := multi_request (balance_request address (jstr "safe")) in
  Done (parse_u128 value).

Definition signer_eth_balance_at (address : bytes) (observation : FinalizedObservation) : Obs Z :=
  let! value :=
    multi_request (balance_request address
      (JObj [("blockHash", jhex (fo_block_hash observation)); ("requireCanonical", JBool true)]%string)) in
  Done (parse_u128 value).

(** ** The deployment *)

Definition read_as {A} (decode : bytes -> Result ObservationError A) (m : Obs bytes) : Obs A :=
  let! value := m in Done (decode value).

Definition role_member_at (timelock role : bytes) (finalized : FinalizedObservation) : Obs bytes :=
  read_as observed_address
    (eth_call_target_at_observation timelock (selector "roleMember(bytes32)" ++ role) finalized).

Definition deployment_postconditions_at (args : BridgeInitArgs) (finalized : FinalizedObservation)
    : Obs DeploymentPostconditionsObservation :=
  let! timelock := Done (Hex20 (bia_timelock_contract args)) in
  let bridge_view signature := eth_call_at_observation args (selector signature) finalized in
  let view to signature := eth_call_target_at_observation to (selector signature) finalized in
  let! bridge_timelock := read_as observed_address (bridge_view "baseAdminTimelock()"%string) in
  let! runtime_admin := read_as observed_address (bridge_view "runtimeAdministrator()"%string) in
  let! approved := read_as observed_bytes32 (bridge_view "approvedTimelockRuntimeCodeHash()"%string) in
  let! admin := role_member_at timelock (zeros 32) finalized in
  let! proposer := role_member_at timelock (role_hash "PROPOSER_ROLE") finalized in
  let! canceller := role_member_at timelock (role_hash "CANCELLER_ROLE") finalized in
  let! executor := role_member_at timelock (role_hash "EXECUTOR_ROLE") finalized in
  let! timelock_runtime := runtime_at_observation timelock finalized in
  let! minimum_delay := read_as observed_u64 (view timelock "getMinDelay()"%string) in
  let! bsns_address := read_as observed_address (bridge_view "bsns()"%string) in
  let! bsns_runtime := runtime_at_observation bsns_address finalized in
  let! bsns_name := read_as observed_string (view bsns_address "name()"%string) in
  let! bsns_symbol := read_as observed_string (view bsns_address "symbol()"%string) in
  let! decimals := read_as observed_u64 (view bsns_address "decimals()"%string) in
  let! bsns_decimals := Done (if decimals <=? u8_max then Ok decimals else Err InvalidResponse) in
  let! bsns_bridge := read_as observed_address (view bsns_address "bridge()"%string) in
  let! minimum_service_fee := read_as observed_u128 (bridge_view "MIN_SERVICE_FEE()"%string) in
  Done (Ok {| dp_bridge_timelock := bridge_timelock;
              dp_runtime_administrator := runtime_admin;
              dp_timelock_admin := admin;
              dp_timelock_proposer := proposer;
              dp_timelock_canceller := canceller;
              dp_timelock_executor := executor;
              dp_timelock_runtime_code_hash := keccak256 timelock_runtime;
              dp_bridge_approved_timelock_runtime_code_hash := approved;
              dp_timelock_minimum_delay_seconds := minimum_delay;
              dp_bsns_address := bsns_address;
              dp_bsns_runtime_sha256 := sha256 bsns_runtime;
              dp_bsns_name := bsns_name;
              dp_bsns_symbol := bsns_symbol;
              dp_bsns_decimals := bsns_decimals;
              dp_bsns_bridge := bsns_bridge;
              dp_minimum_service_fee := minimum_service_fee |}).
End Calls.
