(* ===== verification/EvmTruth.v ===== *)
(** * What the observations are worth

    The canister believes what two of three JSON-RPC providers agree on.  Here is what
    that is worth when at most one of the providers that answer a question is faulty:
    [Chain] is the finalized part of Base with the state of the contracts after each
    block, [permitted] is what the EVM RPC canister may then reply, and the theorems
    say that every observation the canister completes describes one finalized block. *)

From S2P Require Import Prelude Types Authorization Eip712 BaseToken BaseBridge BasePolicy BaseCalls BaseHistory BaseTheorems KernelWithdrawal External Config EvmDecode EvmRpc.

(** ** Providers *)

Section Providers.
Context `{RpcTypes}.
Context {A : Type}.
Implicit Types (honest : A -> Prop) (replies : list (RpcService * Result RpcError A)).

(** At most one provider says something that is not so. *)
Definition trustworthy honest replies : Prop :=
  exists faulty, forall service a, (service, Ok a) ∈ replies -> service <> faulty -> honest a.

(** What the EVM RPC canister makes of the replies under a threshold of [min]. *)
Definition reported (min : nat) replies (m : MultiRpcResult A) : Prop :=
  match m with
  | MultiConsistent r =>
      exists agreeing, NoDup agreeing /\ (min <= length agreeing)%nat /\
        forall service, service ∈ agreeing -> (service, r) ∈ replies
  | MultiInconsistent results => results ≡ₚ replies
  end.

Definition from_providers (min : nat) honest (reply : CallResult A) : Prop :=
  match reply with
  | Err _ => True
  | Ok m => exists replies, trustworthy honest replies /\ reported min replies m
  end.

Lemma two_agree_honest honest replies agreeing a :
  trustworthy honest replies -> NoDup agreeing -> (2 <= length agreeing)%nat ->
  (forall service, service ∈ agreeing -> (service, Ok a) ∈ replies) -> honest a.
Proof.
  intros [faulty Hh] Hnd Hlen Ha. destruct agreeing as [|s1 [|s2 rest]]; simpl in Hlen; [lia..|].
  apply NoDup_cons in Hnd as [Hn _]. destruct (decide (s1 = faulty)) as [->|Hs].
  - apply (Hh s2); [apply Ha; set_solver|]. set_solver.
  - apply (Hh s1); [apply Ha; set_solver|done].
Qed.

Lemma consistent_honest (min : nat) honest replies a :
  (2 <= min)%nat -> trustworthy honest replies -> reported min replies (MultiConsistent (Ok a)) -> honest a.
Proof. intros Hm Ht (agreeing & Hnd & Hlen & Ha). eapply two_agree_honest; eauto. lia. Qed.

Lemma has_duplicate_NoDup {B} (l : list (RpcService * B)) :
  has_duplicate_rpc_services l = false -> NoDup l.*1.
Proof.
  intros Hd. apply NoDup_alt. intros i j s Hi Hj.
  rewrite list_lookup_fmap in Hi, Hj.
  destruct (l !! i) as [[si bi]|] eqn:Ei; [|done]. destruct (l !! j) as [[sj bj]|] eqn:Ej; [|done].
  simpl in Hi, Hj. simplify_eq.
  assert (forall i j bi bj, (i < j)%nat -> l !! i = Some (s, bi) -> l !! j = Some (s, bj) -> False) as Hlt.
  { clear -Hd. intros i j bi bj Hij Ei Ej. apply not_true_iff_false in Hd. apply Hd.
    apply existsb_exists. exists j. split; [apply in_seq; apply lookup_lt_Some in Ej; lia|].
    rewrite Ej. apply existsb_exists. exists (s, bi). split; [|by rewrite bool_decide_true].
    apply list_elem_of_In, list_elem_of_lookup. exists i. by rewrite lookup_take_lt. }
  destruct (Nat.lt_trichotomy i j) as [?|[?|?]]; [exfalso; eauto|done|exfalso; eauto].
Qed.

Lemma one_of {B} (P : B -> bool) (l : list (RpcService * B)) :
  (1 <= length (List.filter P l.*2))%nat -> exists service x, (service, x) ∈ l /\ P x = true.
Proof.
  induction l as [|[s x] l IH]; simpl; [lia|].
  destruct (P x) eqn:Ep; intros Hl; [exists s, x; split; [left|done]|].
  destruct (IH Hl) as (s' & x' & Hin & ?). exists s', x'. split; [by right|done].
Qed.

(** Of two that satisfy [P], one is not the faulty provider. *)
Lemma two_of {B} (P : B -> bool) (l : list (RpcService * B)) faulty :
  NoDup l.*1 -> (2 <= length (List.filter P l.*2))%nat ->
  exists service x, (service, x) ∈ l /\ service <> faulty /\ P x = true.
Proof.
  induction l as [|[s x] l IH]; simpl; intros Hnd Hl; [lia|]. apply NoDup_cons in Hnd as [Hn Hnd].
  destruct (P x) eqn:Ep.
  - destruct (decide (s = faulty)) as [->|Hs]; [|exists s, x; split; [left|done]].
    apply le_S_n in Hl. destruct (one_of P l Hl) as (s' & x' & Hin & ?). exists s', x'.
    split; [by right|]. split; [|done]. intros ->. by apply (list_elem_of_fmap_2 fst) in Hin.
  - destruct (IH Hnd Hl) as (s' & x' & Hin & ?). exists s', x'. split; [by right|done].
Qed.

Definition succeeds (P : A -> bool) (r : Result RpcError A) : bool := is_some_and (result_ok r) P.

Lemma successes_length (P : A -> bool) replies :
  length (List.filter P (omap (fun p => result_ok p.2) replies))
  = length (List.filter (succeeds P) replies.*2).
Proof.
  induction replies as [|[s [a|e]] l IH]; simpl; [done| |exact IH].
  change (succeeds P (Ok a)) with (P a). destruct (P a); simpl; [f_equal|]; exact IH.
Qed.

Lemma succeeds_true P r : succeeds P r = true -> exists a, r = Ok a /\ P a = true.
Proof. destruct r; [eauto|done]. Qed.

(** What a quorum of the replies accepts is equivalent to what an honest provider said. *)
Lemma quorum_by_honest honest replies results equivalent a :
  trustworthy honest replies -> results ≡ₚ replies ->
  exact_provider_response_quorum_by results equivalent = Ok a ->
  exists a', honest a' /\ equivalent a' a = true.
Proof.
  intros [faulty Hh] Hp. unfold exact_provider_response_quorum_by.
  destruct (negb _ || _) eqn:E; [done|]. apply orb_false_iff in E as [_ Hd].
  apply has_duplicate_NoDup in Hd. intros Hf%ok_or_Ok. apply List.find_some in Hf as [_ Hl].
  apply Nat.leb_le in Hl. rewrite successes_length in Hl.
  destruct (two_of _ results faulty Hd Hl) as (s & r & Hin & Hs & He).
  apply succeeds_true in He as (a' & -> & He).
  exists a'. split; [|done]. eapply Hh; [|done]. by rewrite <- Hp.
Qed.
End Providers.

Section Answers.
Context `{RpcTypes}.
Context {A : Type} `{EqDecision A}.

Lemma quorum_honest honest (m : MultiRpcResult A) replies a :
  trustworthy honest replies -> reported 2 replies m -> exact_quorum_response m = Ok a -> honest a.
Proof.
  intros Ht Hr. destruct m as [[v|]|results]; simpl; [|done|].
  - intros [= <-]. by eapply (consistent_honest 2).
  - intros Hq. destruct (quorum_by_honest honest replies results _ a Ht Hr Hq) as (a' & Hh & He).
    by apply bool_decide_eq_true in He as ->.
Qed.

(** How many providers answered [a]. *)
Definition answering (a : A) (replies : list (RpcService * Result RpcError A)) : nat :=
  length (List.filter (succeeds (fun v => bool_decide (v = a))) replies.*2).

Lemma filter_length_permutation {X} (P : X -> bool) l l' :
  l ≡ₚ l' -> length (List.filter P l) = length (List.filter P l').
Proof. induction 1; simpl; repeat case_match; simpl; lia. Qed.

Lemma answering_permutation a l l' : l ≡ₚ l' -> answering a l = answering a l'.
Proof. intros Hp. apply filter_length_permutation. by rewrite Hp. Qed.

Lemma NoDup_no_duplicate {B} (l : list (RpcService * B)) :
  NoDup l.*1 -> has_duplicate_rpc_services l = false.
Proof.
  intros Hnd. apply not_true_iff_false. intros Hd. apply existsb_exists in Hd as (j & _ & Hj).
  destruct (l !! j) as [[s b]|] eqn:Ej; [|done]. apply existsb_exists in Hj as ([s' b'] & Hin & Hs).
  apply bool_decide_eq_true in Hs. simpl in Hs. subst s'. apply list_elem_of_In, list_elem_of_lookup in Hin as (i & Hi).
  apply lookup_take_Some in Hi as [Hi Hlt]. rewrite NoDup_alt in Hnd.
  assert (i = j) as ->; [|lia]. apply (Hnd i j s); by rewrite list_lookup_fmap, ?Hi, ?Ej.
Qed.

(** Of three providers two cannot say one thing and two another. *)
Lemma quorums_meet {X} (P Q : X -> bool) (l : list X) :
  length l = 3%nat -> (2 <= length (List.filter P l))%nat -> (2 <= length (List.filter Q l))%nat ->
  exists x, P x = true /\ Q x = true.
Proof.
  destruct l as [|x0 [|x1 [|x2 [|]]]]; try done. intros _. cbn [List.filter].
  destruct (P x0) eqn:?, (P x1) eqn:?, (P x2) eqn:?, (Q x0) eqn:?, (Q x1) eqn:?, (Q x2) eqn:?;
    simpl; intros; try lia; eauto.
Qed.

Lemma agreeing_count {X} (P : X -> bool) (r : X) (replies : list (RpcService * X)) agreeing :
  P r = true -> NoDup replies.*1 -> NoDup agreeing -> (forall s, s ∈ agreeing -> (s, r) ∈ replies) ->
  (length agreeing <= length (List.filter P replies.*2))%nat.
Proof.
  intros HP. revert agreeing. induction replies as [|[s r'] l IH]; intros agreeing Hnd Ha Hs.
  - destruct agreeing as [|x]; [simpl; lia|]. destruct (not_elem_of_nil (x, r)). apply Hs. by left.
  - cbn [fmap list_fmap fst snd] in *. apply NoDup_cons in Hnd as [Hn Hnd].
    assert (forall x, x ∈ agreeing -> x <> s -> (x, r) ∈ l) as Hrest.
    { intros x Hx Hne. specialize (Hs x Hx). apply elem_of_cons in Hs as [[= -> _]|Hs]; done. }
    destruct (decide (s ∈ agreeing)) as [Hin|Hin].
    + assert (r' = r) as ->.
      { specialize (Hs s Hin). apply elem_of_cons in Hs as [[= ->]|Hs]; [done|].
        by apply (list_elem_of_fmap_2 fst) in Hs. }
      apply elem_of_Permutation in Hin as [rest Hp]. rewrite Hp in Ha |- *.
      apply NoDup_cons in Ha as [Hns Ha]. cbn [List.filter]. rewrite HP. cbn [length].
      apply le_n_S, (IH rest Hnd Ha). intros x Hx. apply Hrest; [rewrite Hp; by right|]. by intros ->.
    + transitivity (length (List.filter P l.*2)).
      { apply (IH agreeing Hnd Ha). intros x Hx. apply Hrest; [done|]. by intros ->. }
      cbn [List.filter]. case_match; simpl; lia.
Qed.

Lemma succeeds_value a (r : Result RpcError A) :
  succeeds (fun v => bool_decide (v = a)) r = true -> r = Ok a.
Proof. destruct r; [|done]. unfold succeeds. simpl. by rewrite bool_decide_eq_true; intros ->. Qed.

Lemma consistent_answering replies agreeing (r : Result RpcError A) a :
  length replies = 3%nat -> NoDup replies.*1 -> NoDup agreeing -> (2 <= length agreeing)%nat ->
  (forall s, s ∈ agreeing -> (s, r) ∈ replies) -> r = Ok a <-> (2 <= answering a replies)%nat.
Proof.
  intros Hl Hnd Ha Hlen Hs. unfold answering. split.
  - intros ->. etransitivity; [exact Hlen|]. eapply agreeing_count; [|done..]. by apply bool_decide_true.
  - intros Hq. set (Q := fun r' : Result RpcError A => bool_decide (r' = r)).
    destruct (quorums_meet (succeeds (fun v => bool_decide (v = a))) Q replies.*2) as (x & Hx & Hx');
      [by rewrite length_fmap|done| |].
    + etransitivity; [exact Hlen|]. eapply agreeing_count; [|done..]. by apply bool_decide_true.
    + apply succeeds_value in Hx. apply bool_decide_eq_true in Hx'. congruence.
Qed.

Lemma inconsistent_answering (results : list (RpcService * Result RpcError A)) a :
  length results = 3%nat -> NoDup results.*1 ->
  exact_provider_response_quorum results = Ok a <-> (2 <= answering a results)%nat.
Proof.
  intros Hl Hnd. unfold exact_provider_response_quorum, exact_provider_response_quorum_by.
  rewrite Hl, NoDup_no_duplicate by done. cbn [Nat.eqb negb orb].
  assert (forall c, (2 <=? length (List.filter (fun v => bool_decide (v = c))
    (omap (fun p => result_ok p.2) results)))%nat = true <-> (2 <= answering c results)%nat) as Hc.
  { intros c. rewrite Nat.leb_le. by rewrite successes_length. }
  split.
  - intros Hf%ok_or_Ok. apply List.find_some in Hf as [_ Hf]. by apply Hc.
  - intros Hq. destruct (List.find _ _) as [c|] eqn:Ef.
    + apply List.find_some in Ef as [_ Ef]. apply Hc in Ef. simpl. f_equal.
      destruct (quorums_meet _ _ results.*2 ltac:(by rewrite length_fmap) Ef Hq) as (x & Hx & Hx').
      apply succeeds_value in Hx, Hx'. congruence.
    + exfalso. assert (exists s r, (s, r) ∈ results /\ succeeds (fun v => bool_decide (v = a)) r = true)
        as (s & r & Hin & Hr) by (apply one_of; unfold answering in Hq; lia).
      apply succeeds_value in Hr as ->.
      apply (List.find_none _ _) with (x := a) in Ef; [pose proof (proj2 (Hc a) Hq); simpl in *; congruence|].
      apply list_elem_of_In, list_elem_of_omap. by exists (s, Ok a).
Qed.

(** C34 (the quorum).  Of the replies of three providers, as the EVM RPC canister reports
    them, the canister accepts exactly the answer that two of them gave: one provider can
    neither bring in another answer nor, by an error or a lie, keep that one out. *)
Theorem quorum_exact replies (m : MultiRpcResult A) a :
  length replies = 3%nat -> NoDup replies.*1 -> reported 2 replies m ->
  exact_quorum_response m = Ok a <-> (2 <= answering a replies)%nat.
Proof.
  intros Hl Hnd Hr. destruct m as [r|results]; cbn [reported exact_quorum_response] in *.
  - destruct Hr as (agreeing & Ha & Hlen & Hs).
    rewrite <- (consistent_answering replies agreeing r a) by done. destruct r; split; congruence.
  - rewrite <- (answering_permutation _ _ _ Hr). apply inconsistent_answering.
    + by rewrite Hr.
    + by rewrite Hr.
Qed.
End Answers.

(** Follow a question whose call succeeded: name the result and what is known of it. *)
Ltac asked Hr m Hp :=
  let reply := fresh "reply" in
  let E := fresh "E" in
  apply runs_ask_Ok in Hr as (reply & Hp & Hr); apply runs_lift_Ok in Hr as (m & E & Hr);
  destruct reply; simpl in E; [|discriminate E]; injection E as ->; simpl in Hp.

(** ** Base *)

(** The events of the contract as a receipt shows them. *)
Definition event_signature (e : BridgeEvent) : string :=
  match e with
  | DepositMinted _ _ _ _ _ _ => "DepositMinted(bytes32,address,bytes32,uint256,uint256,uint256)"
  | WithdrawalCommitted _ _ _ _ _ _ _ _ =>
      "WithdrawalCommitted(uint256,address,uint256,uint256,uint256,uint256,bytes,bytes32)"
  | ServiceFeeChanged _ _ _ => "ServiceFeeChanged(address,uint256,uint256)"
  | DepositMintsPaused _ => "DepositMintsPaused(address)"
  | DepositMintsUnpaused _ => "DepositMintsUnpaused(address)"
  | WithdrawalsPaused _ => "WithdrawalsPaused(address)"
  | WithdrawalsUnpaused _ => "WithdrawalsUnpaused(address)"
  | BridgeSignerChanged _ _ => "BridgeSignerChanged(address,address)"
  | MintAuthorizationEpochChanged _ _ _ => "MintAuthorizationEpochChanged(address,uint256,uint256)"
  | RuntimeAdministratorChanged _ _ => "RuntimeAdministratorChanged(address,address)"
  end%string.

(** Indexed arguments, then the data. *)
Definition event_arguments (e : BridgeEvent) : list bytes * bytes :=
  match e with
  | DepositMinted id recipient digest gross fee minted =>
      ([id; abi_address recipient; digest], Encoding.minted_data gross fee minted)
  | WithdrawalCommitted id requester amount max_fee fee out owner subaccount =>
      ([abi_uint256 id; abi_address requester],
       Encoding.committed_data amount max_fee fee out owner subaccount)
  | ServiceFeeChanged caller previous next => ([abi_address caller], abi_uint256 previous ++ abi_uint256 next)
  | DepositMintsPaused caller | DepositMintsUnpaused caller
  | WithdrawalsPaused caller | WithdrawalsUnpaused caller => ([abi_address caller], [])
  | BridgeSignerChanged previous next | RuntimeAdministratorChanged previous next =>
      ([abi_address previous; abi_address next], [])
  | MintAuthorizationEpochChanged caller previous next =>
      ([abi_address caller], abi_uint256 previous ++ abi_uint256 next)
  end.

Section Base.
Context `{Keccak} `{RpcTypes} {T : Type} `{ERC20 T}.

(** A block with the state of the contracts after it and its receipts. *)
Record ChainBlock := {
  cb_number : Z;
  cb_timestamp : Z;
  cb_hash : bytes;
  cb_world : World T;
  cb_receipts : list TransactionReceipt;
}.

Implicit Types (F V : list ChainBlock) (b : ChainBlock).

Definition cb_bridge b : Bridge.State := w_bridge (cb_world b).

(** The context of an [eth_call] at a block. *)
Definition cb_context (chainid : Z) b : CallContext :=
  {| msg_sender := address_zero; block_timestamp := cb_timestamp b; block_number := cb_number b;
     block_chainid := chainid |}.

Definition cb_snapshot b : Bridge.BridgeSnapshot := Bridge.bridgeSnapshot (cb_context 0 b) (cb_bridge b).

Fixpoint strip_bytes (prefix data : bytes) : option bytes :=
  match prefix, data with
  | [], _ => Some data
  | p :: prefix, d :: data => if p =? d then strip_bytes prefix data else None
  | _, _ => None
  end.

Definition word_argument (signature : string) (data : bytes) : option bytes :=
  match strip_bytes (selector signature) data with
  | Some word => if (length word =? 32)%nat then Some word else None
  | None => None
  end.

(** The views the canister calls, as the contract dispatches them; [None] is a call
    that reverts. *)
Definition view_answer b (data : bytes) : option bytes :=
  if bool_decide (data = selector "bridgeSnapshot()")
  then Some (concat (Encoding.snapshot_words (cb_snapshot b)))
  else
    match word_argument "isDepositProcessed(bytes32)" data with
    | Some id => Some (Encoding.abi_bool (Bridge.isDepositProcessed (cb_bridge b) id))
    | None =>
        match word_argument "getWithdrawal(uint256)" data with
        | Some id =>
            match Bridge.getWithdrawal (cb_bridge b) (be_value id) with
            | Ok r => Some (Encoding.withdrawal_bytes r)
            | Err _ => None
            end
        | None => None
        end
    end.

(** Solidity compiles no contract in which two functions share their selector, and a
    selector has four bytes. *)
Record selectors_ok : Prop := {
  so_length signature : length (selector signature) = 4%nat;
  so_distinct : selector "isDepositProcessed(bytes32)" <> selector "getWithdrawal(uint256)";
}.

(** [MINTED_TOPIC] and [COMMITTED_TOPIC] are topics of no other event. *)
Definition topics_ok : Prop :=
  forall e,
    (keccak256 (as_bytes (event_signature e)) = MINTED_TOPIC ->
     exists id recipient digest gross fee minted, e = DepositMinted id recipient digest gross fee minted) /\
    (keccak256 (as_bytes (event_signature e)) = COMMITTED_TOPIC ->
     exists id requester amount max_fee fee out owner subaccount,
       e = WithdrawalCommitted id requester amount max_fee fee out owner subaccount).

(** A log of the contract that shows [e]. *)
Definition shows (log : LogEntry) (e : BridgeEvent) : Prop :=
  le_topics log = keccak256 (as_bytes (event_signature e)) :: (event_arguments e).1 /\
  le_data log = (event_arguments e).2.

Definition address_typed (a : address) : Prop := length a = 20%nat /\ Forall is_byte a.

(** Topics are words and data are bytes. *)
Definition log_typed (log : LogEntry) : Prop :=
  Forall (fun t => is_word t /\ Forall is_byte t) (le_topics log) /\ Forall is_byte (le_data log).

Record request_typed (r : Bridge.StoredWithdrawal) : Prop := {
  rt_requester : address_typed (Bridge.requester r);
  rt_owner : Forall is_byte (Bridge.owner r);
  rt_subaccount : is_word (Bridge.subaccount r) /\ Forall is_byte (Bridge.subaccount r);
}.

(** The values of a block have the widths of their Solidity types, its receipts name
    it, and a log of the bridge in a receipt shows an event the bridge emitted. *)
Record block_wf (bridge : address) b : Prop := {
  bw_this : Bridge.this (Bridge.immutables (cb_bridge b)) = bridge;
  bw_number : is_u64 (cb_number b);
  bw_timestamp : is_u64 (cb_timestamp b);
  bw_world : world_wf (cb_timestamp b) (cb_world b);
  bw_signer : address_typed (Bridge.bridgeSigner (Bridge.control (cb_bridge b)));
  bw_epoch : is_u64 (Bridge.mintAuthorizationEpoch (Bridge.control (cb_bridge b)));
  bw_requests id r :
      Bridge.withdrawals (Bridge.requests (cb_bridge b)) !! id = Some r -> request_typed r;
  bw_receipts r : r ∈ cb_receipts b ->
      tr_block_number r = cb_number b /\ tr_block_hash r = cb_hash b;
  bw_typed r log : r ∈ cb_receipts b -> log ∈ tr_logs r -> log_typed log;
  bw_logs r log : r ∈ cb_receipts b -> log ∈ tr_logs r -> le_address log = bridge ->
      exists l, l ∈ w_logs (cb_world b) /\ shows log (log_event l);
}.

(** The finalized chain: one block of each height, one of each hash. *)
Record chain_wf (bridge : address) F : Prop := {
  ch_blocks b : b ∈ F -> block_wf bridge b;
  ch_height b b' : b ∈ F -> b' ∈ F -> cb_number b = cb_number b' -> b = b';
  ch_hash b b' : b ∈ F -> b' ∈ F -> cb_hash b = cb_hash b' -> b = b';
}.

(** A height that is finalized. *)
Definition final F (n : Z) : Prop := exists b, b ∈ F /\ n <= cb_number b.

(** The chain as one provider sees it: below the finalized height it is the finalized
    chain, of which the provider may not have everything; above it anything goes. *)
Record view_of F V : Prop := {
  vo_final b : b ∈ V -> final F (cb_number b) -> b ∈ F;
  vo_hash b f : b ∈ V -> f ∈ F -> cb_hash b = cb_hash f -> b = f;
  vo_receipts b r : b ∈ V -> r ∈ cb_receipts b -> tr_block_number r = cb_number b;
  vo_logs b r log : b ∈ V -> r ∈ cb_receipts b -> log ∈ tr_logs r -> log_typed log;
}.

(** ** Honest replies *)

Definition names (block : Block) b : Prop := blk_number block = cb_number b /\ blk_hash block = cb_hash b.

Definition honest_finalized F (block : Block) : Prop := exists b, b ∈ F /\ names block b.

Definition honest_block F (number : Z) (block : Block) : Prop :=
  exists V b, view_of F V /\ b ∈ V /\ cb_number b = number /\ names block b.

Definition honest_receipt F (receipt : option TransactionReceipt) : Prop :=
  match receipt with
  | None => True
  | Some r => exists V b, view_of F V /\ b ∈ V /\ r ∈ cb_receipts b
  end.

(** The answer to an [eth_call] of the bridge; other requests are not constrained. *)
Definition honest_answer F (bridge : address) (request : Json) (value : bytes) : Prop :=
  forall data observation, request = eth_call_request bridge data observation ->
    exists V b answer, view_of F V /\ b ∈ V /\ cb_hash b = fo_block_hash observation /\
      view_answer b data = Some answer /\ value = Encoding.answer answer.

(** What may be replied to each question. *)
Definition permitted F (bridge : address) (q : Query) : Reply q -> Prop :=
  match q with
  | Query_time => fun now => is_u64 now
  | Query_finalized_block => from_providers 2 (honest_finalized F)
  | Query_block_by_number number => from_providers 3 (honest_block F number)
  | Query_transaction_receipt _ => from_providers 2 (honest_receipt F)
  | Query_transaction_count _ => fun _ => True
  | Query_multi_request request => from_providers 2 (honest_answer F bridge request)
  end.

(** ** The finalized block *)

(** An observation that is about the finalized block [b]. *)
Definition observes (o : FinalizedObservation) b : Prop :=
  fo_block_number o = cb_number b /\ fo_block_hash o = cb_hash b.

Lemma filter_fmap_length {X Y} (f : X -> Y) (P : Y -> bool) (l : list X) :
  length (List.filter P (f <$> l)) = length (List.filter (fun x => P (f x)) l).
Proof. induction l as [|x l IH]; [done|]. simpl. destruct (P (f x)); simpl; by rewrite <- IH. Qed.

Lemma identity_names (block : Block) x :
  withdrawal_finalized_identity block = Some x ->
  wfi_block_number x = blk_number block /\ wfi_block_hash x = blk_hash block.
Proof.
  unfold withdrawal_finalized_identity, try_u64. destruct (_ <=? _); [|done]. by intros [= <-].
Qed.

Lemma block_identity_Some r x :
  block_identity r = Some x -> exists block, r = Ok block /\ withdrawal_finalized_identity block = Some x.
Proof. unfold block_identity. destruct r; [eauto|done]. Qed.

Lemma provider_heads_Ok results heads :
  provider_finalized_heads results = Ok heads ->
  NoDup results.*1 /\ length results = 3%nat /\ heads = (fun p => (p.1, block_identity p.2)) <$> results.
Proof.
  unfold provider_finalized_heads. destruct (negb _ || _) eqn:E; [done|]. intros [= <-].
  apply orb_false_iff in E as [El Ed]. apply negb_false_iff, Nat.eqb_eq in El.
  split_and!; [by apply has_duplicate_NoDup|done..].
Qed.

(** A height two of three providers call finalized is finalized. *)
Lemma checkpoint_final F results replies heads a c d cp :
  trustworthy (honest_finalized F) replies -> results ≡ₚ replies ->
  provider_finalized_heads results = Ok heads -> three heads.*2 = (a, c, d) ->
  withdrawal_common_checkpoint a c d = Some cp -> final F cp.
Proof.
  intros [faulty Hh] Hp (Hnd & Hl & ->)%provider_heads_Ok Ht [Hr _]%common_checkpoint_Some.
  unfold reached in Hr.
  assert ([a; c; d] = block_identity <$> results.*2) as Heq.
  { destruct results as [|[] [|[] [|[] [|]]]]; try done. injection Ht as <- <- <-. done. }
  rewrite Heq, filter_fmap_length in Hr.
  apply (two_of _ _ faulty) in Hr as (s & r & Hin & Hs & Ho); [|done].
  apply is_some_and_true in Ho as (x & Hx & Hle). apply Z.leb_le in Hle.
  apply block_identity_Some in Hx as (block & -> & Hx). apply identity_names in Hx as [Hn _].
  destruct (Hh s block) as (b & Hb & Hbn & _); [by rewrite <- Hp|done|]. exists b. split; [done|]. lia.
Qed.

Lemma correlate_zip {X Y} (heads : list (RpcService * X)) (responses : list (RpcService * Y)) l :
  correlate heads responses = Ok l ->
  length l = length heads /\ forall p, p ∈ zip heads.*1 l -> p ∈ responses.
Proof.
  revert l. induction heads as [|[s x] heads IH]; simpl; intros l Hc.
  - injection Hc as <-. split; [done|]. intros p Hp. by apply elem_of_nil in Hp.
  - bind Hc as [s' y] Ef. bind Hc as rest Er. injection Hc as <-.
    apply ok_or_Ok, List.find_some in Ef as [Hin Hs]. apply bool_decide_eq_true in Hs. simpl in Hs. subst s'.
    destruct (IH rest eq_refl) as [Hl Hz]. simpl. split; [by rewrite Hl|].
    intros p Hp. apply elem_of_cons in Hp as [->|Hp]; [by apply list_elem_of_In|by apply Hz].
Qed.

Lemma honest_block_final F number (block : Block) :
  honest_block F number block -> final F number -> exists b, b ∈ F /\ names block b.
Proof. intros (V & b & HV & Hb & <- & Hn) Hf. exists b. split; [by apply (vo_final F V HV)|done]. Qed.

Lemma attesters_observe h0 h1 h2 o0 o1 o2 cp x :
  let attested := withdrawal_finalized_checkpoint_attestation_body in
  (2 <= attesters x [attested h0 o0 cp; attested h1 o1 cp; attested h2 o2 cp])%nat ->
  (2 <= length (List.filter (fun o => bool_decide (o = Some x)) [o0; o1; o2]))%nat.
Proof.
  assert (forall h o, withdrawal_finalized_checkpoint_attestation_body h o cp = Some x ->
    bool_decide (o = Some x) = true) as Ha
    by (intros h o (-> & _)%attestation_body_Some; by apply bool_decide_true).
  cbv zeta. unfold attesters. rewrite !filter_cons, filter_nil. cbn [List.filter].
  pose proof (Ha h0 o0) as H0'. pose proof (Ha h1 o1) as H1'. pose proof (Ha h2 o2) as H2'.
  destruct (bool_decide (o0 = _)), (bool_decide (o1 = _)), (bool_decide (o2 = _));
    repeat case_decide; simpl; naive_solver lia.
Qed.

(** The block accepted at a finalized checkpoint is the finalized one. *)
Lemma exact_finalized_block_true F heads cp m replies block :
  final F cp -> trustworthy (honest_block F cp) replies -> reported 3 replies m ->
  exact_finalized_block heads cp m = Ok block -> exists b, b ∈ F /\ names block b.
Proof.
  intros Hf Ht Hr. destruct m as [[v|]|results]; simpl; [|done|].
  - case_bool_decide; [done|]. intros [= <-]. eapply honest_block_final; [|done].
    by eapply (consistent_honest 3); [lia|..].
  - destruct Ht as [faulty Hh]. intros Hx. bind Hx as correlated Ec. bind Hx as x Es.
    unfold correlate_provider_responses in Ec.
    destruct (_ || has_duplicate_rpc_services results) eqn:E; [done|].
    apply orb_false_iff in E as [E _]. apply orb_false_iff in E as [E Hd].
    apply orb_false_iff in E as [El _]. apply negb_false_iff, Nat.eqb_eq in El.
    apply has_duplicate_NoDup in Hd. apply correlate_zip in Ec as [Hlen Hz].
    apply ok_or_Ok in Es, Hx. apply List.find_some in Hx as [_ Hid]. apply bool_decide_eq_true in Hid.
    assert (2 <= length (List.filter (fun r => bool_decide (block_identity r = Some x))
                           (zip heads.*1 correlated).*2))%nat as Hq.
    { rewrite snd_zip by (rewrite length_fmap; lia).
      destruct correlated as [|r0 [|r1 [|r2 [|]]]]; simpl in Hlen; try lia.
      cbn [three nth fmap list_fmap] in Es. unfold withdrawal_finalized_checkpoint_quorum in Es.
      apply identity_quorum_attesters, attesters_observe in Es.
      change [block_identity r0; block_identity r1; block_identity r2]
        with (block_identity <$> [r0; r1; r2]) in Es. by rewrite filter_fmap_length in Es. }
    apply (two_of _ _ faulty) in Hq as (s & r & Hin & Hs & Ho);
      [|rewrite fst_zip by (rewrite length_fmap; lia); done].
    apply bool_decide_eq_true, block_identity_Some in Ho as (block' & -> & Hx').
    apply Hz in Hin. rewrite Hr in Hin.
    destruct (honest_block_final F cp block') as (b & Hb & Hn & Hh'); [by eapply Hh|done|].
    apply identity_names in Hx' as [? ?], Hid as [? ?]. exists b. split; [done|]. split; congruence.
Qed.


Lemma finalized_block_true F bridge (block : Block) :
  runs (permitted F bridge) finalized_block (Ok block) -> exists b, b ∈ F /\ names block b.
Proof.
  unfold finalized_block. intros Hr. asked Hr m Hp. destruct Hp as (replies & Ht & Hm).
  destruct m as [[v|]|results]; [|done|].
  - injection Hr as ->. by eapply (consistent_honest 2 (honest_finalized F)).
  - apply runs_lift_Ok in Hr as (heads & Hh & Hr).
    destruct (three heads.*2) as [[a c] d] eqn:E3.
    apply runs_lift_Ok in Hr as (cp & Hcp%ok_or_Ok & Hr).
    assert (final F cp) as Hf by (by eapply checkpoint_final).
    asked Hr m Hp. destruct Hp as (replies' & Ht' & Hm'). simpl in Hr. symmetry in Hr.
    by eapply exact_finalized_block_true.
Qed.

Lemma try_u64_Ok x y : try_u64 x = Ok y -> y = x /\ x <= u64_max.
Proof. unfold try_u64. destruct (Z.leb_spec x u64_max); [|done]. intros [= <-]. split; [done|lia]. Qed.

Lemma finalized_observation_true F bridge o :
  runs (permitted F bridge) finalized_observation (Ok o) -> exists b, b ∈ F /\ observes o b.
Proof.
  unfold finalized_observation. intros (block & (b & Hb & Hn & Hh)%finalized_block_true & Hr)%runs_bind_Ok.
  apply runs_lift_Ok in Hr as (number & [-> _]%try_u64_Ok & Hr).
  apply runs_ask_Ok in Hr as (now & _ & Hr). injection Hr as ->.
  exists b. by repeat split.
Qed.

(** ** Views *)

Lemma view_at F bridge o b data value :
  chain_wf bridge F -> b ∈ F -> observes o b ->
  honest_answer F bridge (eth_call_request bridge data o) value ->
  exists answer, view_answer b data = Some answer /\ value = Encoding.answer answer.
Proof.
  intros Hc Hb [_ Hh] Hv. destruct (Hv data o eq_refl) as (V & b' & answer & HV & Hb' & Heq & Ha & ->).
  rewrite Hh in Heq. rewrite (vo_hash F V HV b' b Hb' Hb Heq) in Ha. eauto.
Qed.

Lemma multi_request_true F bridge request value :
  runs (permitted F bridge) (multi_request request) (Ok value) -> honest_answer F bridge request value.
Proof.
  unfold multi_request. intros Hr. asked Hr m Hp. destruct Hp as (replies & Ht & Hm).
  simpl in Hr. symmetry in Hr. by eapply (quorum_honest (honest_answer F bridge request)).
Qed.
End Base.

(** ** Observations *)

Section Observed.
Context `{Keccak} `{RpcTypes} `{Sha256} `{SerdeJson} {T : Type} `{ERC20 T}.
Context (F : list (ChainBlock (T := T))) (args : BridgeInitArgs).

Abbreviation bridge := (bia_bridge_contract args).
Abbreviation seen := (runs (permitted F bridge)).

Context (chain : chain_wf bridge F) (selectors : selectors_ok).
Implicit Types b : ChainBlock (T := T).

Lemma cb_snapshot_fits b : b ∈ F -> snapshot_fits (cb_snapshot b).
Proof.
  intros Hb. destruct (ch_blocks bridge F chain b Hb) as [_ Hn Ht Hw Hs He _ _ _ _].
  destruct Hw as [[Hfees Hlim Hwin Hdur] [Hfee _ _ _ _] _ [Hstart Hcons _ _ _ _] _ _ _ _ _ _].
  unfold cb_bridge in *. split; simpl; unfold cb_bridge; try done; ranges; lia.
Qed.

Lemma call_at o b data value :
  b ∈ F -> observes o b -> seen (eth_call_at_observation args data o) (Ok value) ->
  exists answer, view_answer b data = Some answer /\ value = Encoding.answer answer.
Proof. intros Hb Ho Hr%multi_request_true. by eapply view_at. Qed.

Lemma strip_bytes_app p d : strip_bytes p (p ++ d) = Some d.
Proof. induction p as [|x p IH]; [done|]. simpl. by rewrite Z.eqb_refl. Qed.

Lemma strip_bytes_other p q d : length p = length q -> p <> q -> strip_bytes p (q ++ d) = None.
Proof.
  revert q. induction p as [|x p IH]; intros [|y q] Hl Hne; try done. simpl.
  destruct (Z.eqb_spec x y) as [->|]; [|done]. apply IH; [by injection Hl|congruence].
Qed.

Lemma view_processed b id :
  length id = 32%nat ->
  view_answer b (selector "isDepositProcessed(bytes32)" ++ id)
  = Some (Encoding.abi_bool (Bridge.isDepositProcessed (cb_bridge b) id)).
Proof.
  intros Hl. unfold view_answer, word_argument.
  rewrite bool_decide_false by (intros Heq%(f_equal length); rewrite length_app, !(so_length selectors) in Heq; lia).
  by rewrite strip_bytes_app, Hl.
Qed.

Lemma view_withdrawal b id :
  length id = 32%nat ->
  view_answer b (selector "getWithdrawal(uint256)" ++ id)
  = match Bridge.getWithdrawal (cb_bridge b) (be_value id) with
    | Ok r => Some (Encoding.withdrawal_bytes r)
    | Err _ => None
    end.
Proof.
  intros Hl. unfold view_answer, word_argument.
  rewrite bool_decide_false by (intros Heq%(f_equal length); rewrite length_app, !(so_length selectors) in Heq; lia).
  rewrite strip_bytes_other; [|by rewrite !(so_length selectors)|apply (so_distinct selectors)].
  by rewrite strip_bytes_app, Hl.
Qed.

Lemma view_snapshot b :
  view_answer b (selector "bridgeSnapshot()") = Some (concat (Encoding.snapshot_words (cb_snapshot b))).
Proof. unfold view_answer. by rewrite bool_decide_true. Qed.

Lemma snapshot_at_true o b snapshot :
  b ∈ F -> observes o b -> seen (observe_bridge_snapshot_at args o) (Ok snapshot) ->
  snapshot = observed_snapshot (cb_snapshot b).
Proof.
  intros Hb Ho (value & Hc & Hr)%runs_bind_Ok. apply (call_at o b) in Hc as (a & Ha & ->); [|done..].
  rewrite view_snapshot in Ha. apply (inj Some) in Ha as <-.
  apply runs_lift_Ok in Hr as (s' & Hd & Hr). rewrite snapshot_round_trip in Hd by (by apply cb_snapshot_fits).
  injection Hd as <-. destruct (negb _); [done|]. by injection Hr as ->.
Qed.

Lemma bridge_at_true o b attested snapshot identity :
  b ∈ F -> observes o b -> seen (observe_bridge_at args o attested) (Ok (snapshot, identity)) ->
  snapshot = observed_snapshot (cb_snapshot b) /\
  identity = {| obi_signer := Bridge.bridgeSigner (Bridge.control (cb_bridge b));
                obi_runtime_sha256 := bia_expected_bridge_runtime_sha256 args |}.
Proof.
  intros Hb Ho (expected & He & Hr)%runs_lift_Ok.
  assert (expected = bia_expected_bridge_runtime_sha256 args) as ->.
  { unfold expected_runtime in He. by destruct (length _ =? 32)%nat; simplify_eq. }
  destruct attested.
  - apply runs_bind_Ok in Hr as (s & Hs & Hr). apply (snapshot_at_true o b) in Hs as ->; [|done..].
    by injection Hr as -> ->.
  - apply runs_attempt_bind_Ok in Hr as (rs & Hs & Hr). apply runs_attempt_bind_Ok in Hr as (rr & _ & Hr).
    apply runs_lift_Ok in Hr as (s & -> & Hr). apply runs_lift_Ok in Hr as (runtime & -> & Hr).
    apply (snapshot_at_true o b) in Hs as ->; [|done..].
    destruct (length runtime =? 0)%nat; [done|]. destruct (runtime_matches_expected _ _) eqn:Em; [|done].
    unfold runtime_matches_expected in Em. apply andb_true_iff in Em as [_ Em].
    apply bool_decide_eq_true in Em as <-. by injection Hr as -> ->.
Qed.

(** C9 (recovery observations).  With at most one faulty provider behind every reply, a
    completed recovery observation describes one finalized block of Base: its number and
    hash, the contract's snapshot there, and whether the deposit was processed there. *)
Theorem recovery_observation_true id attested ro :
  length id = 32%nat ->
  seen (recovery_observation args (Target_Deposit id) attested) (Ok ro) ->
  exists b, b ∈ F /\ observes (ro_finalized ro) b /\
    ro_snapshot ro = observed_snapshot (cb_snapshot b) /\
    obi_signer (ro_bridge_identity ro) = Bridge.bridgeSigner (Bridge.control (cb_bridge b)) /\
    ro_state ro = DepositProcessed (Bridge.isDepositProcessed (cb_bridge b) id).
Proof.
  intros Hl (o & (b & Hb & Ho)%finalized_observation_true & Hr)%runs_bind_Ok.
  apply runs_attempt_bind_Ok in Hr as (rs & Hs & Hr). apply runs_attempt_bind_Ok in Hr as (rb & Hbr & Hr).
  apply runs_lift_Ok in Hr as (st & -> & Hr). apply runs_lift_Ok in Hr as ([s i] & -> & Hr).
  injection Hr as ->. simpl. exists b. split; [done|]. split; [done|].
  apply (bridge_at_true o b) in Hbr as [-> ->]; [|done..]. split; [done|]. split; [done|].
  apply runs_bind_Ok in Hs as (value & Hv & Hs). apply (call_at o b) in Hv as (a & Ha & ->); [|done..].
  rewrite view_processed in Ha by done. apply (inj Some) in Ha as <-.
  apply runs_lift_Ok in Hs as (p & Hp & Hs). rewrite decode_bool_word_abi in Hp. injection Hp as <-.
  by injection Hs as ->.
Qed.

(** ** Receipts *)

Lemma consensus_fields (one other : TransactionReceipt) :
  receipt_consensus_fields_match (Some one) (Some other) = true ->
  tr_block_number one = tr_block_number other /\ tr_block_hash one = tr_block_hash other /\
  tr_logs one = tr_logs other.
Proof. cbn [receipt_consensus_fields_match]. intros Hm. reflect. rewrite ?bool_decide_eq_true in *. tauto. Qed.

(** An accepted receipt has the block and the logs of a receipt of the chain, as some
    provider sees it. *)
Definition receipt_seen (receipt : TransactionReceipt) : Prop :=
  exists V b r, view_of F V /\ b ∈ V /\ r ∈ cb_receipts b /\
    tr_block_number receipt = tr_block_number r /\ tr_block_hash receipt = tr_block_hash r /\
    tr_logs receipt = tr_logs r.

Lemma transaction_receipt_true hash receipt :
  seen (transaction_receipt hash) (Ok (Some receipt)) -> receipt_seen receipt.
Proof.
  unfold transaction_receipt. intros Hr. asked Hr m Hp. destruct Hp as (replies & Ht & Hm).
  simpl in Hr. symmetry in Hr. destruct m as [[v|]|results]; simpl in Hr; [|done|].
  - injection Hr as ->. apply (consistent_honest 2 (honest_receipt F)) in Hm as (V & b & HV & Hb & Hin); [|lia|done].
    exists V, b, receipt. tauto.
  - eapply (quorum_by_honest (honest_receipt F)) in Hr as ([r|] & Hh & He); [|done..].
    destruct Hh as (V & b & HV & Hb & Hin). apply consensus_fields in He as (? & ? & ?).
    exists V, b, r. done.
Qed.

Lemma receipt_final o f receipt :
  f ∈ F -> observes o f -> receipt_seen receipt -> tr_block_number receipt <= fo_block_number o ->
  exists b r, b ∈ F /\ r ∈ cb_receipts b /\ tr_logs receipt = tr_logs r /\
    tr_block_number receipt = cb_number b /\
    forall log, log ∈ tr_logs receipt -> log_typed log.
Proof.
  intros Hf [Hn _] (V & b & r & HV & Hb & Hin & Hnum & _ & Hlogs) Hle.
  pose proof (vo_receipts F V HV b r Hb Hin) as Hbn.
  exists b, r. split; [apply (vo_final F V HV b Hb); exists f; split; [done|lia]|].
  split_and!; [done..|congruence|]. intros log Hlog. rewrite Hlogs in Hlog. by eapply (vo_logs F V HV b r).
Qed.

Lemma canonical_receipt_true o hash found receipt o1 o2 :
  seen (canonical_finalized_receipt_with_hash args hash o found) (Ok (Receipt_Confirmed receipt o1 o2)) ->
  found = Some receipt /\ o1 = o /\ fo_block_number o2 = tr_block_number receipt /\
  tr_block_number receipt <= fo_block_number o.
Proof.
  unfold canonical_finalized_receipt_with_hash. destruct found as [r|]; [|done].
  destruct (bool_decide _); [done|]. intros (n & [-> _]%try_u64_Ok & Hr)%runs_lift_Ok.
  destruct (tr_block_number r >? fo_block_number o) eqn:E; [done|]. asked Hr m Hp. clear Hp.
  apply runs_lift_Ok in Hr as (v & _ & Hr). apply runs_lift_Ok in Hr as (u & _ & Hr).
  injection Hr as -> -> ->. rewrite Z.gtb_ltb in E. apply Z.ltb_ge in E. done.
Qed.

(** The receipt of [canonical_finalized_receipt_at] is one of a finalized block. *)
Lemma receipt_at_true o f hash receipt o1 o2 :
  f ∈ F -> observes o f ->
  seen (canonical_finalized_receipt_at args hash o) (Ok (Receipt_Confirmed receipt o1 o2)) ->
  o1 = o /\ fo_block_number o2 = tr_block_number receipt /\ tr_block_number receipt <= fo_block_number o /\
  exists b r, b ∈ F /\ r ∈ cb_receipts b /\ tr_logs receipt = tr_logs r /\
    tr_block_number receipt = cb_number b /\ forall log, log ∈ tr_logs receipt -> log_typed log.
Proof.
  intros Hf Ho (found & Hfound & Hr)%runs_bind_Ok.
  apply canonical_receipt_true in Hr as (-> & -> & Hn & Hle). split_and!; [done..|].
  eapply receipt_final; [done..| |done]. by eapply transaction_receipt_true.
Qed.

(** ** Withdrawals *)

Lemma none_unreadable :
  decode_current_withdrawal (Encoding.answer (Encoding.withdrawal_bytes
    {| Bridge.wd_requester := address_zero; Bridge.wd_amount := 0; Bridge.wd_maxServiceFee := 0;
       Bridge.wd_chargedServiceFee := 0; Bridge.wd_amountOut := 0; Bridge.wd_owner := [];
       Bridge.wd_subaccount := zeros 32; Bridge.wd_status := Bridge.Status_None |}))
  = Err InvalidResponse.
Proof. by vm_compute. Qed.

Lemma principal_length owner : is_principal owner = true -> (1 <= length owner <= 29)%nat.
Proof.
  unfold is_principal. rewrite negb_true_iff, !orb_false_iff, negb_false_iff, Nat.eqb_neq, Nat.leb_le. lia.
Qed.

(** The event of the withdrawal [w]. *)
Definition committed_event (w : ObservedWithdrawal) : BridgeEvent :=
  WithdrawalCommitted (be_value (ow_id w)) (ow_requester w) (ow_amount w) (ow_max_service_fee w)
    (ow_charged_service_fee w) (ow_amount_out w) (ow_owner w) (ow_subaccount w).

Lemma stored_withdrawal b id answer current :
  b ∈ F ->
  match Bridge.getWithdrawal (cb_bridge b) id with
  | Ok r => Some (Encoding.withdrawal_bytes r)
  | Err _ => None
  end = Some answer ->
  decode_current_withdrawal (Encoding.answer answer) = Ok current ->
  exists l, l ∈ w_logs (cb_world b) /\
    log_event l = WithdrawalCommitted id (cur_requester current) (cur_amount current)
      (cur_max_service_fee current) (cur_charged_service_fee current) (cur_amount_out current)
      (cur_owner current) (cur_subaccount current).
Proof.
  intros Hb. destruct (ch_blocks bridge F chain b Hb) as [_ _ _ Hw _ _ Ht _ _ _].
  unfold Bridge.getWithdrawal, cb_bridge in *.
  destruct (Bridge.withdrawals _ !! id) as [r|] eqn:Er.
  - destruct (rw_stored _ _ (ww_requests _ _ Hw) id r Er)
      as (l & Hl & He & Hx & Hfee & Hamount & Hmax & Hprincipal).
    rewrite Hx. cbn [negb]. unfold sol_sub, checked_sub. rewrite (proj2 (Z.leb_le _ _)) by lia.
    cbn [ok_or]. intros [= <-]. destruct (Ht id r Er) as [[Hrl Hrb] Hob [Hsl Hsb]].
    apply principal_length in Hprincipal. rewrite current_withdrawal_round_trip.
    + intros [= <-]. exists l. split; [done|exact He].
    + split; simpl; try done; ranges; lia.
  - intros Ha Hd. apply (inj Some) in Ha as <-. discriminate (eq_trans (eq_sym none_unreadable) Hd).
Qed.

Lemma same_committed_fields current w :
  is_same_committed_withdrawal current w = true ->
  cur_requester current = ow_requester w /\ cur_amount current = ow_amount w /\
  cur_max_service_fee current = ow_max_service_fee w /\
  cur_charged_service_fee current = ow_charged_service_fee w /\
  cur_amount_out current = ow_amount_out w /\ cur_owner current = ow_owner w /\
  cur_subaccount current = ow_subaccount w.
Proof.
  unfold is_same_committed_withdrawal. intros Hs. reflect. rewrite ?bool_decide_eq_true in *. tauto.
Qed.

Lemma topic_typed log i :
  log_typed log -> (i < length (le_topics log))%nat -> is_word (topic log i) /\ Forall is_byte (topic log i).
Proof.
  intros [Ht _] Hi. unfold topic. destruct (lookup_lt_is_Some_2 _ _ Hi) as [t Et].
  rewrite (nth_lookup_Some _ _ _ _ Et). by apply (Forall_lookup_1 _ _ _ _ Ht Et).
Qed.

Lemma committed_id receipt address hash log w :
  (forall log, log ∈ tr_logs receipt -> log_typed log) ->
  committed_logs address hash receipt = [log] ->
  negb (length (le_topics log) =? 3)%nat || negb (all_zero (take 12 (topic log 2))) = false ->
  decode_withdrawal_created_log log = Ok w -> length (ow_id w) = 32%nat.
Proof.
  intros Ht El Hlen Hd.
  assert (log ∈ tr_logs receipt) as Hin.
  { assert (List.In log (committed_logs address hash receipt)) as Hin by (rewrite El; by left).
    apply filter_In in Hin as [Hin _]. by apply list_elem_of_In. }
  apply Ht in Hin. apply orb_false_iff in Hlen as [Hlen _]. apply negb_false_iff, Nat.eqb_eq in Hlen.
  apply decode_log_decoded in Hd as (_ & _ & -> & _); [|apply Hin].
  apply topic_typed; [done|lia].
Qed.

(** C7 (withdrawals come from Base).  With at most one faulty provider behind every
    reply, a withdrawal the canister takes as confirmed is one the bridge contract has
    committed: its event, field by field, is in the history of a finalized block, whose
    snapshot is the one recorded with it. *)
Theorem notified_withdrawal_true hash attested w snapshot audit stable receipt_block checkpoint :
  seen (notified_withdrawal_outcome args hash attested)
    (Ok (Notified_Confirmed w snapshot audit stable receipt_block checkpoint)) ->
  exists b l, b ∈ F /\ l ∈ w_logs (cb_world b) /\ log_event l = committed_event w /\
    length (ow_id w) = 32%nat /\ receipt_block <= checkpoint /\ checkpoint = cb_number b /\
    for_block_number stable = cb_number b /\ for_block_hash stable = cb_hash b /\
    snapshot = observed_snapshot (cb_snapshot b).
Proof.
  intros (outcome & Hcanon & Hr)%runs_bind_Ok. destruct outcome as [| |receipt o o2]; [done..|].
  apply runs_bind_Ok in Hcanon as (found & Hfound & Hcanon). destruct found as [r0|]; [|done].
  destruct (bool_decide (tr_transaction_hash r0 <> hash)); [done|].
  apply runs_bind_Ok in Hcanon as (o' & Ho' & Hcanon).
  apply canonical_receipt_true in Hcanon as ([= ->] & -> & _ & Hle).
  apply finalized_observation_true in Ho' as (b & Hb & Ho).
  apply transaction_receipt_true in Hfound.
  destruct (receipt_final o' b receipt Hb Ho Hfound Hle) as (_ & _ & _ & _ & _ & _ & Htyped).
  apply runs_lift_Ok in Hr as (n & [-> _]%try_u64_Ok & Hr).
  destruct (bool_decide (tr_status receipt = Some 0)); [done|].
  destruct (bool_decide (tr_status receipt <> Some 1)); [done|].
  apply runs_lift_Ok in Hr as (address & _ & Hr).
  destruct (committed_logs _ hash receipt) as [|log [|]] eqn:El; [done| |done].
  destruct (negb _ || negb _) eqn:Et; [done|].
  apply runs_lift_Ok in Hr as (w' & Hw' & Hr).
  apply runs_attempt_bind_Ok in Hr as (rc & Hc & Hr). apply runs_attempt_bind_Ok in Hr as (rb & Hbr & Hr).
  apply runs_lift_Ok in Hr as (value & -> & Hr). apply runs_lift_Ok in Hr as (current & Hd & Hr).
  destruct (is_same_committed_withdrawal current w') eqn:Es; [|done].
  apply runs_lift_Ok in Hr as ([s i] & -> & Hr). injection Hr as -> -> _ -> -> ->.
  apply (bridge_at_true o' b) in Hbr as [-> ->]; [|done..].
  assert (length (ow_id w') = 32%nat) as Hid by (by eapply committed_id).
  apply (call_at o' b) in Hc as (answer & Ha & ->); [|done..]. rewrite view_withdrawal in Ha by done.
  destruct (stored_withdrawal b _ answer current Hb Ha Hd) as (l & Hl & He).
  apply same_committed_fields in Es as (E1 & E2 & E3 & E4 & E5 & E6 & E7). destruct Ho as [Hn Hh].
  exists b, l. rewrite He, E1, E2, E3, E4, E5, E6, E7. split_and!; done.
Qed.

(** ** Mints *)

Lemma minted_words_Ok data gross fee net :
  Forall is_byte data -> minted_words_match data gross fee (Ok net) = Ok tt ->
  data = Encoding.minted_data gross fee net /\ is_u128 gross /\ is_u128 fee /\ is_u128 net.
Proof.
  intros Hb. unfold minted_words_match. destruct (Nat.eqb_spec (length data) (3 * ABI_WORD_BYTES)) as [Hl|]; [|done].
  cbn [negb]. intros Hm. bind Hm as w0 E0. destruct (Z.eqb_spec w0 gross) as [->|]; [|done].
  cbn [negb] in Hm. bind Hm as w1 E1. destruct (Z.eqb_spec w1 fee) as [->|]; [|done].
  cbn [negb] in Hm. bind Hm as w2 E2. destruct (Z.eqb_spec w2 net) as [->|]; [|done].
  apply word_u128_Ok in E0 as [? E0], E1 as [? E1], E2 as [? E2];
    [|by repeat first [apply Forall_take|apply Forall_drop]..].
  split; [|done]. unfold Encoding.minted_data. rewrite <- E0, <- E1, <- E2.
  rewrite <- (take_drop 32 data) at 1. f_equal. rewrite <- (take_drop 32 (drop 32 data)) at 1.
  by rewrite drop_drop.
Qed.

Lemma minted_data_inj gross fee net gross' fee' net' :
  is_u128 gross -> is_u128 fee -> is_u128 net -> is_u256 gross' -> is_u256 fee' -> is_u256 net' ->
  Encoding.minted_data gross fee net = Encoding.minted_data gross' fee' net' ->
  gross = gross' /\ fee = fee' /\ net = net'.
Proof.
  intros ?%u128_u256 ?%u128_u256 ?%u128_u256 ? ? ?. unfold Encoding.minted_data.
  intros [-> [-> ->%abi_uint256_inj]%abi_uint256_app_inj]%abi_uint256_app_inj; done.
Qed.

Context (topics : topics_ok).

(** The event an evidence record stands for. *)
Definition minted_event (ev : MintFinalizationEvidence) : BridgeEvent :=
  DepositMinted (mfe_deposit_id ev) (mfe_recipient ev) (mfe_authorization_digest ev)
    (mfe_gross_amount ev) (mfe_charged_service_fee ev) (mfe_minted_amount ev).

Definition evidence_of (record : MintAuthorizationRecord) (ev : MintFinalizationEvidence) : Prop :=
  mfe_deposit_id ev = ma_deposit_id (mar_authorization record) /\
  mfe_recipient ev = ma_recipient (mar_authorization record) /\
  mfe_authorization_digest ev = mar_digest record /\
  mfe_gross_amount ev = ma_gross_amount (mar_authorization record) /\
  mfe_charged_service_fee ev = ma_charged_service_fee (mar_authorization record).

(** What both readers of a mint check of the log they accept. *)
Record mint_log (log : LogEntry) (ev : MintFinalizationEvidence) : Prop := {
  ml_address : le_address log = bridge;
  ml_topics : length (le_topics log) = 4%nat /\ topic log 0 = MINTED_TOPIC;
  ml_id : topic log 1 = mfe_deposit_id ev;
  ml_recipient : drop 12 (topic log 2) = mfe_recipient ev;
  ml_digest : topic log 3 = mfe_authorization_digest ev;
  ml_words : minted_words_match (le_data log) (mfe_gross_amount ev) (mfe_charged_service_fee ev)
    (Ok (mfe_minted_amount ev)) = Ok tt;
}.

(** A log of the bridge with the topics and data of a mint shows that mint. *)
Lemma shown_mint b r log ev :
  b ∈ F -> r ∈ cb_receipts b -> log ∈ tr_logs r -> log_typed log -> mint_log log ev ->
  exists l, l ∈ w_logs (cb_world b) /\ log_event l = minted_event ev.
Proof.
  intros Hb Hr Hlog [_ Hd] [Ha [Hl Ht] Hid Hrec Hdig Hm].
  pose proof (ch_blocks bridge F chain b Hb) as Hwf.
  destruct (bw_logs bridge b Hwf r log Hr Hlog Ha) as (l & Hin & Htop & Hdata).
  exists l. split; [done|]. unfold topic in *. rewrite Htop in *.
  destruct (topics (log_event l)) as [Hmint _].
  destruct (Hmint Ht) as (id & recipient & digest & gross & fee & minted & He).
  rewrite He in *. simpl in *. unfold minted_event. rewrite <- Hid, <- Hrec, <- Hdig.
  apply minted_words_Ok in Hm as (Hm & ? & ? & ?); [|done]. rewrite Hdata in Hm.
  pose proof (ww_mints _ _ (bw_world bridge b Hwf)) as Hmints. rewrite Forall_forall in Hmints.
  specialize (Hmints l Hin). unfold mint_log_wf in Hmints. rewrite He in Hmints.
  destruct (ww_immutables _ _ (bw_world bridge b Hwf)) as [? ? _ _].
  symmetry in Hm. apply minted_data_inj in Hm as (-> & -> & ->); [done..| | |]; unfold is_u256, u256_max; lia.
Qed.

Lemma topic_lookup log i t : le_topics log !! i = Some t -> topic log i = t.
Proof. intros Hi. unfold topic. by apply nth_lookup_Some. Qed.

Lemma single_match {A} (P : A -> bool) l x : List.filter P l = [x] -> x ∈ l /\ P x = true.
Proof.
  intros El. assert (List.In x (List.filter P l)) as Hin by (rewrite El; by left).
  apply filter_In in Hin as [? ?]. by rewrite list_elem_of_In.
Qed.

Lemma from_receipt_Ok record o o2 receipt ev :
  mint_evidence_from_receipt (bia_base_chain_id args) bridge record o o2 receipt = Ok ev ->
  evidence_of record ev /\ mfe_receipt_block_number ev = fo_block_number o2 /\
  exists log, log ∈ tr_logs receipt /\ mint_log log ev.
Proof.
  unfold mint_evidence_from_receipt. intros Hr. destruct (bool_decide (tr_status receipt = Some 0)); [done|].
  destruct (bool_decide (tr_status receipt <> Some 1)); [done|].
  destruct (List.filter _ _) as [|log [|]] eqn:El; [done| |done].
  apply single_match in El as [Hlog Hcand].
  bind Hr as net En. destruct (_ || (_ >? _)) eqn:Eg; [done|]. bind Hr as u Em. destruct u.
  bind Hr as index Ei. injection Hr as <-. reflect. rewrite ?bool_decide_eq_true, ?bool_decide_eq_false in *.
  destruct Hcand as [[Ha Ht0] Ht1], Eg as [[[[[[[[[_ Hl] _] Hrec] Hdig] _] _] _] _] _].
  apply Nat.eqb_eq in Hl. apply dec_stable in Hrec, Hdig.
  split; [done|]. split; [done|]. exists log. split; [done|].
  split; simpl; auto using topic_lookup.
Qed.

Lemma minted_words_net data gross fee net :
  minted_words_match data gross fee net = Ok tt ->
  exists n, net = Ok n /\ minted_words_match data gross fee (Ok n) = Ok tt.
Proof.
  unfold minted_words_match. destruct net as [n|]; [eauto|]. intros Hm.
  destruct (negb _); [done|]. bind Hm as w0 E0. destruct (negb _); [done|].
  bind Hm as w1 E1. destruct (negb _); [done|]. by bind Hm as w2 E2.
Qed.

Lemma mint_log_same candidate log ev :
  exact_receipt_log_matches candidate log = true -> mint_log log ev -> mint_log candidate ev.
Proof.
  unfold exact_receipt_log_matches. intros Hm [Ha [Hl Ht] Hid Hrec Hdig Hw]. reflect.
  rewrite ?bool_decide_eq_true in *. destruct Hm as [[[[[[[_ Ea] Et] Ed] _] _] _] _].
  unfold topic in *. by split; unfold topic; rewrite ?Ea, ?Et, ?Ed.
Qed.

Lemma one_match {A} (P : A -> bool) l :
  negb (length (List.filter P l) =? 1)%nat = false -> exists x, x ∈ l /\ P x = true.
Proof.
  intros Hl. apply negb_false_iff, Nat.eqb_eq in Hl. destruct (List.filter P l) as [|x [|]] eqn:E; try done.
  exists x. by apply single_match.
Qed.

(** The receipt a completed [exact_mint_evidence] rests on. *)
Lemma exact_evidence_receipt record o ev :
  seen (exact_mint_evidence args record o) (Ok ev) ->
  evidence_of record ev /\ exists hash receipt o1 o2 log,
    seen (canonical_finalized_receipt_at args hash o) (Ok (Receipt_Confirmed receipt o1 o2)) /\
    mfe_receipt_block_number ev = fo_block_number o2 /\ log ∈ tr_logs receipt /\ mint_log log ev.
Proof.
  intros (value & _ & Hr)%runs_bind_Ok. apply runs_lift_Ok in Hr as (logs & _ & Hr).
  destruct logs as [|log [|]]; [done| |done]. apply runs_lift_Ok in Hr as (address & Ha & Hr).
  assert (address = bridge) as -> by (unfold Hex20 in Ha; by destruct (_ =? _)%nat; simplify_eq).
  destruct (_ || bool_decide (topic log 3 <> _)) eqn:Eg; [done|].
  apply runs_lift_Ok in Hr as ([] & (net & En & Em)%minted_words_net & Hr).
  apply runs_lift_Ok in Hr as (hash & _ & Hr). cbn [is_some_and] in Hr.
  apply runs_lift_Ok in Hr as (index & _ & Hr).
  apply runs_bind_Ok in Hr as (outcome & Hc & Hr). destruct outcome as [| |receipt o1 o2]; [done..|].
  destruct (bool_decide (tr_status receipt = Some 0)); [done|].
  destruct (bool_decide (tr_status receipt <> Some 1) || _) eqn:Es; [done|].
  apply orb_false_iff in Es as [_ (candidate & Hin & Hm)%one_match].
  apply runs_lift_Ok in Hr as (net' & En' & Hr). rewrite En in En'. injection En' as <-.
  injection Hr as ->. split; [done|].
  exists hash, receipt, o1, o2, candidate. split_and!; [done..|].
  apply (mint_log_same candidate log); [done|]. reflect. rewrite ?bool_decide_eq_false in *.
  destruct Eg as [[[[[[[_ Haddr] Hl] Ht0] Ht1] _] Hrec] Hdig]. apply Nat.eqb_eq in Hl.
  apply dec_stable in Haddr, Ht0, Ht1, Hrec, Hdig. by split.
Qed.

(** C8 (mints come from Base).  With at most one faulty provider behind every reply, the
    evidence that closes a signed deposit, read from the logs or from the receipt of a
    transaction, names a mint the bridge contract has made: the event with that deposit,
    recipient, digest and amounts is in the history of a finalized block, and the amounts
    and the digest are those of the authorization. *)
Theorem mint_evidence_true record o f ev :
  f ∈ F -> observes o f ->
  seen (exact_mint_evidence args record o) (Ok ev) \/
  (exists hash, seen (exact_mint_receipt_evidence args record o hash) (Ok ev)) ->
  evidence_of record ev /\
  exists b l, b ∈ F /\ cb_number b = mfe_receipt_block_number ev /\ cb_number b <= cb_number f /\
    l ∈ w_logs (cb_world b) /\ log_event l = minted_event ev.
Proof.
  intros Hf Ho Hr.
  assert (evidence_of record ev /\ exists hash receipt o1 o2 log,
    seen (canonical_finalized_receipt_at args hash o) (Ok (Receipt_Confirmed receipt o1 o2)) /\
    mfe_receipt_block_number ev = fo_block_number o2 /\ log ∈ tr_logs receipt /\ mint_log log ev)
    as (Hev & hash & receipt & o1 & o2 & log & Hc & Hn & Hlog & Hm).
  { destruct Hr as [Hr|[hash Hr]]; [by apply exact_evidence_receipt|].
    apply runs_bind_Ok in Hr as (outcome & Hc & Hr). destruct outcome as [| |receipt o1 o2]; [done..|].
    simpl in Hr. symmetry in Hr. apply from_receipt_Ok in Hr as (? & ? & log & ? & ?).
    split; [done|]. by exists hash, receipt, o1, o2, log. }
  split; [done|]. destruct (receipt_at_true o f hash receipt o1 o2 Hf Ho Hc)
    as (_ & Hn2 & Hle & b & r & Hb & Hin & Hlogs & Hbn & Htyped).
  rewrite Hlogs in Hlog. destruct (shown_mint b r log ev Hb Hin Hlog) as (l & Hl & He);
    [apply Htyped; by rewrite Hlogs|done|].
  exists b, l. destruct Ho as [Ho _]. split_and!; [done|lia|lia|done..].
Qed.
End Observed.

(** ** Runs that complete *)

Lemma hex_char_inj d d' : hex_char d = hex_char d' -> d = d'.
Proof. unfold hex_char. destruct (Z.ltb_spec d 10), (Z.ltb_spec d' 10); lia. Qed.

Lemma hex_inj b b' : hex b = hex b' -> b = b'.
Proof.
  revert b'. induction b as [|x b IH]; intros [|y b']; [done|by rewrite hex_cons..|].
  rewrite !hex_cons. intros [= Hh%hex_char_inj Hl%hex_char_inj Hb%IH]. subst b'. f_equal.
  rewrite (Z_div_mod_eq_full x 16), (Z_div_mod_eq_full y 16). congruence.
Qed.

Lemma jhex_inj b b' : jhex b = jhex b' -> b = b'.
Proof. unfold jhex. intros [= Hb]. by apply hex_inj. Qed.

Lemma eth_call_request_inj to data o to' data' o' :
  eth_call_request to data o = eth_call_request to' data' o' ->
  to = to' /\ data = data' /\ fo_block_hash o = fo_block_hash o'.
Proof.
  unfold eth_call_request. intros Heq. injection Heq as Ht Hd Hh. auto using hex_inj.
Qed.

Section Completing.
Context `{Keccak} `{RpcTypes} `{Sha256} `{SerdeJson} {T : Type} `{ERC20 T}.
Context (F : list (ChainBlock (T := T))) (args : BridgeInitArgs).
Context (one other : RpcService) (distinct : one <> other).

Abbreviation bridge := (bia_bridge_contract args).
Abbreviation seen := (runs (permitted F bridge)).

Context (chain : chain_wf bridge F) (selectors : selectors_ok).
Implicit Types b : ChainBlock (T := T).

Lemma seen_bind {A B} (m : Obs A) (f : A -> Obs B) a r :
  seen m (Ok a) -> seen (f a) r -> seen (obs_bind m f) r.
Proof. intros Hm Hf. apply runs_bind. by exists (Ok a). Qed.

Lemma seen_attempt {A B} (m : Obs A) (f : Result ObservationError A -> Obs B) a r :
  seen m (Ok a) -> seen (f (Ok a)) r -> seen (obs_bind (attempt m) f) r.
Proof. intros Hm Hf. eapply seen_bind; [|done]. apply runs_attempt. eauto. Qed.

Lemma seen_lift {A B} (x : Result ObservationError A) (f : A -> Obs B) a r :
  x = Ok a -> seen (f a) r -> seen (obs_bind (Done x) f) r.
Proof. by intros ->. Qed.

(** Two providers agree on the truth, the third does not answer. *)
Lemma agreed {A} (honest : A -> Prop) a :
  honest a -> from_providers 2 honest (Ok (MultiConsistent (Ok a))).
Proof.
  intros Ha. exists [(one, Ok a); (other, Ok a)]. split.
  - exists one. intros s v Hin _. rewrite !elem_of_cons, elem_of_nil in Hin. by destruct Hin as [|[|]]; simplify_eq.
  - exists [one; other]. split; [|split; [done|]].
    + apply NoDup_cons. split; [by rewrite list_elem_of_singleton|]. apply NoDup_singleton.
    + intros s [->|[->|[]%elem_of_nil]%elem_of_cons]%elem_of_cons; [left|right; left].
Qed.

Lemma chain_views : view_of F F.
Proof.
  split; [done| | |].
  - intros b f Hb Hf. by apply (ch_hash bridge F chain).
  - intros b r Hb Hr. by apply (bw_receipts bridge b (ch_blocks bridge F chain b Hb)).
  - intros b r log Hb. by apply (bw_typed bridge b (ch_blocks bridge F chain b Hb)).
Qed.

Lemma seen_block b : b ∈ F -> seen finalized_block (Ok {| blk_number := cb_number b; blk_hash := cb_hash b |}).
Proof.
  intros Hb. exists (Ok (MultiConsistent (Ok {| blk_number := cb_number b; blk_hash := cb_hash b |}))).
  split; [apply agreed; by exists b|done].
Qed.

Lemma seen_observation b now :
  b ∈ F -> is_u64 now ->
  seen finalized_observation
    (Ok {| fo_block_number := cb_number b; fo_block_hash := cb_hash b; fo_observed_at_ns := now |}).
Proof.
  intros Hb Hnow. eapply seen_bind; [by apply seen_block|]. simpl.
  pose proof (bw_number bridge b (ch_blocks bridge F chain b Hb)) as Hn. unfold try_u64. ranges.
  rewrite (proj2 (Z.leb_le _ _)) by lia. exists now. done.
Qed.

Lemma seen_call b o data answer :
  b ∈ F -> observes o b -> view_answer b data = Some answer ->
  seen (eth_call_at_observation args data o) (Ok (Encoding.answer answer)).
Proof.
  intros Hb [_ Hh] Ha. exists (Ok (MultiConsistent (Ok (Encoding.answer answer)))). split; [|done].
  apply agreed. intros data' o' Heq.
  apply eth_call_request_inj in Heq as (_ & <- & Ho). exists F, b, answer.
  split; [apply chain_views|]. split_and!; [done|congruence|done|done].
Qed.

Lemma seen_snapshot b o :
  b ∈ F -> observes o b ->
  seen (observe_bridge_snapshot_at args o) (Ok (observed_snapshot (cb_snapshot b))).
Proof.
  intros Hb Ho. eapply seen_bind; [by apply (seen_call b), view_snapshot|].
  eapply seen_lift; [apply snapshot_round_trip; by apply (cb_snapshot_fits F args)|].
  unfold canonical_probe_matches, canonical_probe_matches_body. simpl. destruct Ho as [-> _].
  by rewrite Z.eqb_refl.
Qed.

Lemma seen_bridge b o :
  b ∈ F -> observes o b -> length (bia_expected_bridge_runtime_sha256 args) = 32%nat ->
  seen (observe_bridge_at args o true)
    (Ok (observed_snapshot (cb_snapshot b),
         {| obi_signer := Bridge.bridgeSigner (Bridge.control (cb_bridge b));
            obi_runtime_sha256 := bia_expected_bridge_runtime_sha256 args |})).
Proof.
  intros Hb Ho Hlen. eapply seen_lift; [unfold expected_runtime; by rewrite Hlen|].
  eapply seen_bind; [by apply (seen_snapshot b)|reflexivity].
Qed.

(** Any finalized block can be the one an observation describes. *)
Lemma recovery_observation_completes b id now :
  b ∈ F -> is_u64 now -> length id = 32%nat -> length (bia_expected_bridge_runtime_sha256 args) = 32%nat ->
  exists ro, seen (recovery_observation args (Target_Deposit id) true) (Ok ro) /\
    fo_block_number (ro_finalized ro) = cb_number b.
Proof.
  intros Hb Hnow Hid Hlen. eexists. split.
  - eapply seen_bind; [by apply (seen_observation b now)|]. eapply seen_attempt.
    { eapply seen_bind; [apply (seen_call b); [done|done|by apply view_processed]|].
      eapply seen_lift; [apply decode_bool_word_abi|reflexivity]. }
    eapply seen_attempt; [by apply (seen_bridge b)|reflexivity].
  - done.
Qed.

Lemma seen_receipt b r hash :
  b ∈ F -> r ∈ cb_receipts b -> seen (transaction_receipt hash) (Ok (Some r)).
Proof.
  intros Hb Hr. exists (Ok (MultiConsistent (Ok (Some r)))). split; [|done].
  apply agreed. exists F, b. split; [apply chain_views|done].
Qed.

Lemma seen_canonical b r hash o :
  b ∈ F -> r ∈ cb_receipts b -> tr_transaction_hash r = hash -> cb_number b <= fo_block_number o ->
  seen (canonical_finalized_receipt_with_hash args hash o (Some r))
    (Ok (Receipt_Confirmed r o {| fo_block_number := cb_number b; fo_block_hash := cb_hash b;
                                  fo_observed_at_ns := fo_observed_at_ns o |})).
Proof.
  intros Hb Hr <- Hle. pose proof (ch_blocks bridge F chain b Hb) as Hwf.
  destruct (bw_receipts bridge b Hwf r Hr) as [Hn Hh]. pose proof (bw_number bridge b Hwf) as Hu.
  unfold canonical_finalized_receipt_with_hash. rewrite bool_decide_false by tauto.
  eapply seen_lift; [unfold try_u64; rewrite Hn; ranges; by rewrite (proj2 (Z.leb_le _ _)) by lia|].
  rewrite Z.gtb_ltb, (proj2 (Z.ltb_ge _ _)) by lia. rewrite Hh. cbv zeta.
  set (o' := {| fo_block_number := cb_number b; fo_block_hash := cb_hash b; fo_observed_at_ns := _ |}).
  exists (Ok (MultiConsistent (Ok (Encoding.answer (concat (Encoding.snapshot_words (cb_snapshot b))))))).
  split.
  { apply agreed. intros data' o'' Heq. apply eth_call_request_inj in Heq as (_ & <- & Ho).
    eexists F, b, _. split; [apply chain_views|]. split_and!; [done|exact Ho|apply view_snapshot|done]. }
  do 3 (eapply seen_lift; [reflexivity|]). eapply seen_lift; [|reflexivity]. unfold validate_canonical_probe_response.
  rewrite snapshot_round_trip by (by apply (cb_snapshot_fits F args)). simpl. by rewrite Z.eqb_refl.
Qed.
End Completing.

(** ** A chain of two blocks *)

#[local] Existing Instance sample_Keccak.
#[local] Existing Instance sample_EIP712.
#[local] Existing Instance sample_ECDSA.

Definition demo_rpc : RpcTypes := {| RpcService := Z |}.
Definition demo_serde : SerdeJson :=
  {| json_to_vec := fun _ => []; receipt_to_vec := fun _ => []; logs_from_str := fun _ => None;
     principal_to_text := fun p => p |}.
Definition demo_sha256 : Sha256 := sample_keccak.

#[local] Existing Instance demo_rpc.
#[local] Existing Instance demo_serde.
#[local] Existing Instance demo_sha256.

Definition demo_entry (block : Z) (hash : bytes) (e : BridgeEvent) : LogEntry :=
  {| le_address := demo_this;
     le_topics := sample_keccak (as_bytes (event_signature e)) :: (event_arguments e).1;
     le_data := (event_arguments e).2; le_block_number := Some block;
     le_transaction_hash := Some hash; le_block_hash := Some (replicate 32 block);
     le_log_index := Some 0; le_removed := false |}.

Definition demo_receipt (block : Z) (hash : bytes) (logs : list LogEntry) : TransactionReceipt :=
  {| tr_block_hash := replicate 32 block; tr_block_number := block; tr_effective_gas_price := 1;
     tr_gas_used := 1; tr_cumulative_gas_used := 1; tr_status := Some 1; tr_root := None;
     tr_transaction_hash := hash; tr_contract_address := None; tr_from := demo_address 30;
     tr_logs := logs; tr_logs_bloom := []; tr_to := Some demo_this; tr_transaction_index := 0;
     tr_tx_type := [2] |}.

Definition demo_events : list BridgeEvent := log_event <$> w_logs demo_after.

Definition demo_no_event : BridgeEvent := DepositMintsPaused [].
Definition demo_mint_event : BridgeEvent := nth 3 demo_events demo_no_event.
Definition demo_withdrawal_event : BridgeEvent := nth 4 demo_events demo_no_event.

Definition demo_mint_hash : bytes := replicate 32 61.
Definition demo_withdrawal_hash : bytes := replicate 32 62.

Definition demo_block (number now : Z) (w : World PlainToken.State) (receipts : list TransactionReceipt)
    : ChainBlock :=
  {| cb_number := number; cb_timestamp := now; cb_hash := replicate 32 number; cb_world := w;
     cb_receipts := receipts |}.

Definition demo_block_1 : ChainBlock :=
  demo_block 51 1000200 (base_run 8453 demo_world demo_first_txs)
    [demo_receipt 51 demo_mint_hash [demo_entry 51 demo_mint_hash demo_mint_event]].
Definition demo_block_2 : ChainBlock :=
  demo_block 52 1000250 demo_after
    [demo_receipt 52 demo_withdrawal_hash [demo_entry 52 demo_withdrawal_hash demo_withdrawal_event]].

Definition demo_chain : list ChainBlock := [demo_block_1; demo_block_2].

Lemma demo_first_includable : includable demo_this 1000000 demo_first_txs.
Proof.
  destruct demo_txs_includable as [Ho Hf]. unfold demo_txs in *.
  apply in_order_app in Ho as [Ho _]. apply Forall_app in Hf as [Hf _]. by split.
Qed.

Lemma demo_log_typed number hash e :
  e = demo_mint_event \/ e = demo_withdrawal_event -> log_typed (demo_entry number hash e).
Proof. intros [-> | ->]; split; apply (bool_decide_unpack _); vm_compute; exact I. Qed.

Lemma demo_requests id r :
  Bridge.withdrawals (Bridge.requests (w_bridge demo_after)) !! id = Some r -> request_typed r.
Proof.
  assert (Bridge.withdrawals (Bridge.requests (w_bridge demo_after)) =
    {[1 := {| Bridge.requester := demo_address 30; Bridge.exists_ := true; Bridge.amount := 100;
              Bridge.maxServiceFee := 10; Bridge.chargedServiceFee := 10; Bridge.owner := [1; 2; 3];
              Bridge.subaccount := zeros 32 |}]}) as -> by (vm_compute; reflexivity).
  intros [_ <-]%lookup_singleton_Some. split; simpl.
  - split; [done|]. by repeat constructor.
  - by repeat constructor.
  - split; [done|]. by repeat constructor.
Qed.

Lemma demo_block_wf number now w receipt :
  is_u64 number -> is_u64 now -> world_wf now w ->
  Bridge.this (Bridge.immutables (w_bridge w)) = demo_this ->
  Bridge.bridgeSigner (Bridge.control (w_bridge w)) = demo_address 10 ->
  Bridge.mintAuthorizationEpoch (Bridge.control (w_bridge w)) = 2 ->
  (forall id r, Bridge.withdrawals (Bridge.requests (w_bridge w)) !! id = Some r -> request_typed r) ->
  (exists hash e, receipt = demo_receipt number hash [demo_entry number hash e] /\
     (e = demo_mint_event \/ e = demo_withdrawal_event) /\ exists l, l ∈ w_logs w /\ log_event l = e) ->
  block_wf demo_this (demo_block number now w [receipt]).
Proof.
  intros Hn Ht Hw Hthis Hs He Hreq (hash & e & -> & Hev & l & Hl & Hle).
  assert (forall r log, r ∈ [demo_receipt number hash [demo_entry number hash e]] -> log ∈ tr_logs r ->
    log = demo_entry number hash e) as Hone.
  { intros r log Hr Hlog. apply list_elem_of_singleton in Hr as ->. by apply list_elem_of_singleton in Hlog. }
  split; try done; unfold cb_bridge; simpl.
  - rewrite Hs. split; [done|]. by repeat constructor.
  - rewrite He. ranges. lia.
  - intros r Hr. by apply list_elem_of_singleton in Hr as ->.
  - intros r log Hr Hlog. rewrite (Hone r log Hr Hlog). by apply demo_log_typed.
  - intros r log Hr Hlog _. rewrite (Hone r log Hr Hlog). exists l. split; [done|]. rewrite Hle. by split.
Qed.

Lemma demo_emitted (w : World PlainToken.State) e :
  bool_decide (e ∈ log_event <$> w_logs w) = true -> exists l, l ∈ w_logs w /\ log_event l = e.
Proof. intros Hin%bool_decide_eq_true. apply list_elem_of_fmap in Hin as (l & -> & Hl). eauto. Qed.

Lemma demo_chain_wf : chain_wf (bia_bridge_contract staging_config) demo_chain.
Proof.
  split.
  - intros b Hb. unfold demo_chain in Hb.
    apply elem_of_cons in Hb as [->|Hb]; [|apply list_elem_of_singleton in Hb as ->].
    + apply demo_block_wf; [ranges; lia..| | | | | |].
      * apply (deployed_evolves 8453 _ _ _ _ _ _ _ _ demo_deployed demo_first_includable).
      * vm_compute. reflexivity.
      * vm_compute. reflexivity.
      * vm_compute. reflexivity.
      * intros id r Hr. exfalso. revert Hr. 
        replace (Bridge.withdrawals (Bridge.requests (w_bridge (base_run 8453 demo_world demo_first_txs))))
          with (∅ : gmap Z Bridge.StoredWithdrawal) by (vm_compute; reflexivity).
        by rewrite lookup_empty.
      * exists demo_mint_hash, demo_mint_event. split; [done|]. split; [by left|].
        apply demo_emitted. vm_compute. reflexivity.
    + apply demo_block_wf; [ranges; lia..| | | | | |].
      * apply (deployed_evolves 8453 _ _ _ _ _ _ _ _ demo_deployed demo_txs_includable).
      * vm_compute. reflexivity.
      * vm_compute. reflexivity.
      * vm_compute. reflexivity.
      * apply demo_requests.
      * exists demo_withdrawal_hash, demo_withdrawal_event. split; [done|]. split; [by right|].
        apply demo_emitted. vm_compute. reflexivity.
  - intros b b' Hb Hb' Hn. unfold demo_chain in *. set_unfold. naive_solver.
  - intros b b' Hb Hb' Hn. unfold demo_chain in *. set_unfold. naive_solver.
Qed.

Lemma demo_selectors : selectors_ok.
Proof.
  split; [|intros Heq; vm_compute in Heq; discriminate Heq]. intros signature. unfold selector. rewrite length_take.
  unfold keccak256, sample_Keccak. rewrite sample_keccak_length. done.
Qed.

Lemma demo_topics : topics_ok.
Proof.
  intros e. split; intros Hk; destruct e; try (by eauto 10); vm_compute in Hk; discriminate Hk.
Qed.

Lemma recovery_observation_true_witness :
  exists ro, runs (permitted demo_chain demo_this)
    (recovery_observation staging_config (Target_Deposit (replicate 32 1)) true) (Ok ro) /\
    fo_block_number (ro_finalized ro) = 52 /\ ro_state ro = DepositProcessed true.
Proof.
  destruct (recovery_observation_completes demo_chain staging_config (0 : @RpcService demo_rpc) (1 : @RpcService demo_rpc)
    ltac:(done) demo_chain_wf
    demo_selectors demo_block_2 (replicate 32 1) 5) as (ro & Hro & Hn); [set_solver|ranges; lia|done|done|].
  exists ro. split; [exact Hro|]. split; [exact Hn|].
  destruct (recovery_observation_true demo_chain staging_config demo_chain_wf demo_selectors
    (replicate 32 1) true ro eq_refl Hro) as (b & Hb & Ho & _ & _ & ->).
  assert (b = demo_block_2) as ->.
  { apply (ch_height _ _ demo_chain_wf); [done|set_solver|]. destruct Ho as [Ho _]. rewrite <- Ho. exact Hn. }
  vm_compute. reflexivity.
Defined.

Abbreviation demo_seen := (runs (permitted demo_chain demo_this)).

Lemma demo_providers : (0 : @RpcService demo_rpc) <> (1 : @RpcService demo_rpc).
Proof. done. Qed.

Definition demo_observation : FinalizedObservation :=
  {| fo_block_number := 52; fo_block_hash := replicate 32 52; fo_observed_at_ns := 5 |}.

Definition demo_withdrawal_receipt : TransactionReceipt :=
  demo_receipt 52 demo_withdrawal_hash [demo_entry 52 demo_withdrawal_hash demo_withdrawal_event].

Definition demo_withdrawal : ObservedWithdrawal :=
  {| ow_id := abi_uint256 1; ow_amount := 100; ow_max_service_fee := 10; ow_charged_service_fee := 10;
     ow_amount_out := 90; ow_owner := [1; 2; 3]; ow_subaccount := zeros 32; ow_requester := demo_address 30 |}.

Definition demo_current : CurrentWithdrawal :=
  {| cur_requester := demo_address 30; cur_amount := 100; cur_max_service_fee := 10;
     cur_charged_service_fee := 10; cur_amount_out := 90; cur_owner := [1; 2; 3];
     cur_subaccount := zeros 32; cur_status := 1 |}.

Lemma demo_canonical :
  demo_seen (canonical_semantically_finalized_withdrawal_receipt staging_config demo_withdrawal_hash)
    (Ok (Receipt_Confirmed demo_withdrawal_receipt demo_observation demo_observation)).
Proof.
  eapply (seen_bind demo_chain staging_config);
    [apply (seen_receipt demo_chain staging_config _ _ demo_providers demo_chain_wf demo_block_2 demo_withdrawal_receipt);
       [set_solver|by left]|].
  cbv beta iota. rewrite bool_decide_false by (intros Hn; by apply Hn).
  eapply (seen_bind demo_chain staging_config);
    [apply (seen_observation demo_chain staging_config _ _ demo_providers demo_chain_wf demo_block_2 5);
       [set_solver|ranges; lia]|].
  apply (seen_canonical demo_chain staging_config _ _ demo_providers demo_chain_wf demo_block_2);
    [set_solver|by left|done|simpl; lia].
Qed.

Lemma demo_notified :
  exists snapshot audit stable,
    demo_seen (notified_withdrawal_outcome staging_config demo_withdrawal_hash true)
      (Ok (Notified_Confirmed demo_withdrawal snapshot audit stable 52 52)).
Proof.
  do 3 eexists. eapply (seen_bind demo_chain staging_config); [apply demo_canonical|].
  cbv beta iota. eapply (seen_lift demo_chain staging_config); [reflexivity|].
  rewrite bool_decide_false, bool_decide_false by (simpl; congruence).
  eapply (seen_lift demo_chain staging_config) with (a := demo_this); [reflexivity|].
  assert (committed_logs demo_this demo_withdrawal_hash demo_withdrawal_receipt
    = [demo_entry 52 demo_withdrawal_hash demo_withdrawal_event]) as -> by (vm_compute; reflexivity).
  assert (negb (length (le_topics (demo_entry 52 demo_withdrawal_hash demo_withdrawal_event)) =? 3)%nat
    || negb (all_zero (take 12 (topic (demo_entry 52 demo_withdrawal_hash demo_withdrawal_event) 2))) = false)
    as -> by (vm_compute; reflexivity).
  eapply (seen_lift demo_chain staging_config) with (a := demo_withdrawal); [vm_compute; reflexivity|].
  eapply (seen_attempt demo_chain staging_config).
  { apply (seen_call demo_chain staging_config _ _ demo_providers demo_chain_wf demo_block_2);
      [set_solver|done|].
    rewrite (view_withdrawal demo_selectors) by done. vm_compute. reflexivity. }
  eapply (seen_attempt demo_chain staging_config);
    [apply (seen_bridge demo_chain staging_config _ _ demo_providers demo_chain_wf demo_block_2);
       [set_solver|done|done]|].
  eapply (seen_lift demo_chain staging_config); [reflexivity|].
  eapply (seen_lift demo_chain staging_config) with (a := demo_current); [vm_compute; reflexivity|].
  assert (is_same_committed_withdrawal demo_current demo_withdrawal = true) as -> by (vm_compute; reflexivity).
  reflexivity.
Qed.

Lemma notified_withdrawal_true_witness :
  exists b l, b ∈ demo_chain /\ l ∈ w_logs (cb_world b) /\
    log_event l = WithdrawalCommitted 1 (demo_address 30) 100 10 10 90 [1; 2; 3] (zeros 32).
Proof.
  destruct demo_notified as (snapshot & audit & stable & Hseen).
  destruct (notified_withdrawal_true demo_chain staging_config demo_chain_wf demo_selectors
    demo_withdrawal_hash true demo_withdrawal snapshot audit stable 52 52 Hseen) as (b & l & Hb & Hl & He & _).
  exists b, l. split; [exact Hb|]. split; [exact Hl|]. rewrite He. vm_compute. reflexivity.
Defined.

Definition demo_record : MintAuthorizationRecord :=
  {| mar_authorization :=
       {| ma_deposit_id := replicate 32 1; ma_recipient := demo_address 30; ma_gross_amount := 510;
          ma_max_service_fee := 20; ma_charged_service_fee := 10; ma_deadline := 1000300;
          ma_authorization_epoch := 2 |};
     mar_domain := MintAuthorizationDomain_bridge 84532 demo_this;
     mar_digest := match demo_mint_event with DepositMinted _ _ digest _ _ _ => digest | _ => [] end;
     mar_origin := {| mao_finalized_block_number := 50; mao_finalized_block_hash := replicate 32 50;
                      mao_finalized_block_timestamp := 1000000; mao_issued_at_timestamp := 1000000 |};
     mar_signature_dispatch_attempt := 1; mar_signature_dispatched := true;
     mar_signature := Some (demo_signature 10) |}.

Definition demo_mint_receipt : TransactionReceipt :=
  demo_receipt 51 demo_mint_hash [demo_entry 51 demo_mint_hash demo_mint_event].

Lemma demo_evidence :
  exists ev, demo_seen (exact_mint_receipt_evidence staging_config demo_record demo_observation demo_mint_hash)
    (Ok ev) /\ mfe_minted_amount ev = 500 /\ mfe_receipt_block_number ev = 51.
Proof.
  assert (demo_seen (canonical_finalized_receipt_at staging_config demo_mint_hash demo_observation)
    (Ok (Receipt_Confirmed demo_mint_receipt demo_observation
           {| fo_block_number := 51; fo_block_hash := replicate 32 51; fo_observed_at_ns := 5 |}))) as Hc.
  { eapply (seen_bind demo_chain staging_config);
      [apply (seen_receipt demo_chain staging_config _ _ demo_providers demo_chain_wf demo_block_1 demo_mint_receipt);
         [set_solver|by left]|].
    apply (seen_canonical demo_chain staging_config _ _ demo_providers demo_chain_wf demo_block_1);
      [set_solver|by left|done|simpl; lia]. }
  destruct (mint_evidence_from_receipt 84532 demo_this demo_record demo_observation
    {| fo_block_number := 51; fo_block_hash := replicate 32 51; fo_observed_at_ns := 5 |} demo_mint_receipt)
    as [ev|] eqn:E; [|vm_compute in E; discriminate E].
  exists ev. split.
  - eapply (seen_bind demo_chain staging_config); [exact Hc|]. symmetry. exact E.
  - vm_compute in E. injection E as <-. done.
Qed.

Lemma mint_evidence_true_witness :
  exists b l, b ∈ demo_chain /\ cb_number b = 51 /\ l ∈ w_logs (cb_world b) /\
    exists digest, log_event l = DepositMinted (replicate 32 1) (demo_address 30) digest 510 10 500.
Proof.
  destruct demo_evidence as (ev & Hseen & Hm & Hn).
  destruct (mint_evidence_true demo_chain staging_config demo_chain_wf demo_topics demo_record demo_observation
    demo_block_2 ev ltac:(set_solver) (conj eq_refl eq_refl) (or_intror (ex_intro _ demo_mint_hash Hseen)))
    as ((Hid & Hr & _ & Hg & Hf) & b & l & Hb & Hbn & _ & Hl & He).
  exists b, l. split; [exact Hb|]. split; [by rewrite Hbn|]. split; [exact Hl|].
  exists (mfe_authorization_digest ev). rewrite He. unfold minted_event. by rewrite Hid, Hr, Hg, Hf, Hm.
Defined.

Lemma quorum_exact_witness :
  exact_quorum_response (MultiInconsistent [(0 : @RpcService demo_rpc, Ok 7); (1, Ok 8); (2, Ok 7)]) = Ok 7.
Proof.
  apply (quorum_exact [(0 : @RpcService demo_rpc, Ok 7); (1, Ok 8); (2, Ok 7)]
    (MultiInconsistent [(0 : @RpcService demo_rpc, Ok 7); (1, Ok 8); (2, Ok 7)]) 7).
  - reflexivity.
  - apply (bool_decide_unpack _). vm_compute. exact I.
  - simpl. reflexivity.
  - vm_compute. lia.
Defined.
