(* ===== verification/Admission.v ===== *)
(** * Deposit admission

    [canister/bridge-canister/src/storage/admission.rs]: the per-window deposit
    quota, the funding reservations taken before a ledger pull, and their release
    and rollback.  [DepositAdmissionControl] carries the four fields these
    functions read and write.  The window length is at least sixty seconds
    ([config.rs] refuses other configurations), so the divisions are by a
    positive number. *)

From S2P Require Import Prelude Types StorageTypes.

Record DepositCallerQuota := {
  dcq_caller : bytes;
  dcq_count : Z;
}.

Record DepositFundingReservation := {
  dfr_deposit_id : bytes;
  dfr_caller : bytes;
  dfr_mint_amount : Z;
  dfr_quota_window_id : Z;
  dfr_releases_quota_on_failure : bool;
}.

Record DepositAdmissionControl := {
  dac_window_id : Z;
  dac_global_count : Z;
  dac_caller_counts : list DepositCallerQuota;
  dac_funding_reservations : list DepositFundingReservation;
}.

Definition DepositAdmissionControl_default : DepositAdmissionControl :=
  {| dac_window_id := 0; dac_global_count := 0; dac_caller_counts := [];
     dac_funding_reservations := [] |}.

Record DepositQuotaAdmission := {
  dqa_now_ns : Z;
  dqa_window_seconds : Z;
  dqa_global_limit : Z;
  dqa_per_principal_limit : Z;
}.

(** [iter().find(..).map_or(0, ..)] on the caller counts. *)
Fixpoint caller_count (owner : bytes) (counts : list DepositCallerQuota) : Z :=
  match counts with
  | [] => 0
  | entry :: counts =>
      if bool_decide (dcq_caller entry = owner) then dcq_count entry else caller_count owner counts
  end.

(** [iter_mut().find(..)]: count the entry found, or push a new one. *)
Fixpoint count_caller (owner : bytes) (counts : list DepositCallerQuota)
    : Result StorageError (list DepositCallerQuota) :=
  match counts with
  | [] => Ok [{| dcq_caller := owner; dcq_count := 1 |}]
  | entry :: counts =>
      if bool_decide (dcq_caller entry = owner) then
        let? count := ok_or (checked_add u16_max (dcq_count entry) 1) CounterOverflow in
        Ok ({| dcq_caller := dcq_caller entry; dcq_count := count |} :: counts)
      else
        let? counts := count_caller owner counts in
        Ok (entry :: counts)
  end.

Definition quota_window_ns (quota : DepositQuotaAdmission) : Z :=
  saturating_mul u64_max (dqa_window_seconds quota) 1000000000.

Definition quota_window_id (quota : DepositQuotaAdmission) : Z :=
  dqa_now_ns quota / quota_window_ns quota.

Definition quota_retry_after_seconds (quota : DepositQuotaAdmission) : Z :=
  let window_ns := quota_window_ns quota in
  Z.max
    (saturating_add u64_max
       (saturating_sub (saturating_mul u64_max (quota_window_id quota +u64 1) window_ns)
          (dqa_now_ns quota))
       999999999 / 1000000000)
    1.

(** The counts as the current window sees them. *)
Definition enter_window (admission : DepositAdmissionControl) (window_id : Z)
    : DepositAdmissionControl :=
  if dac_window_id admission =? window_id then admission
  else {| dac_window_id := window_id; dac_global_count := 0; dac_caller_counts := [];
          dac_funding_reservations := dac_funding_reservations admission |}.

Definition consume_deposit_quota
    (admission : DepositAdmissionControl) (owner : bytes) (quota : DepositQuotaAdmission)
    : Result StorageError DepositAdmissionControl :=
  let admission := enter_window admission (quota_window_id quota) in
  if (dac_global_count admission >=? dqa_global_limit quota)
     || (caller_count owner (dac_caller_counts admission) >=? dqa_per_principal_limit quota)
  then Err (DepositRateLimited (quota_retry_after_seconds quota))
  else
    let? global_count :=
      ok_or (checked_add u16_max (dac_global_count admission) 1) CounterOverflow in
    let? caller_counts := count_caller owner (dac_caller_counts admission) in
    Ok {| dac_window_id := dac_window_id admission;
          dac_global_count := global_count;
          dac_caller_counts := caller_counts;
          dac_funding_reservations := dac_funding_reservations admission |}.

Definition u16_try_from (n : nat) : Result StorageError Z :=
  if Z.of_nat n <=? u16_max then Ok (Z.of_nat n) else Err CounterOverflow.

Definition consume_deposit_quota_and_reserve_funding
    (admission : DepositAdmissionControl) (owner deposit_id : bytes) (mint_amount : Z)
    (quota : DepositQuotaAdmission) : Result StorageError DepositAdmissionControl :=
  if existsb (fun reservation => bool_decide (dfr_deposit_id reservation = deposit_id))
       (dac_funding_reservations admission)
  then Ok admission
  else
    let? active_global := u16_try_from (length (dac_funding_reservations admission)) in
    let? active_caller :=
      u16_try_from (length (filter (fun entry => dfr_caller entry = owner)
                              (dac_funding_reservations admission))) in
    if (active_global >=? 16) || (active_caller >=? 1) then Err (DepositRateLimited 1)
    else
      let? admission := consume_deposit_quota admission owner quota in
      Ok {| dac_window_id := dac_window_id admission;
            dac_global_count := dac_global_count admission;
            dac_caller_counts := dac_caller_counts admission;
            dac_funding_reservations :=
              dac_funding_reservations admission ++
              [{| dfr_deposit_id := deposit_id; dfr_caller := owner;
                  dfr_mint_amount := mint_amount;
                  dfr_quota_window_id := dac_window_id admission;
                  dfr_releases_quota_on_failure := true |}] |}.

(** [iter().position(..)] and [Vec::remove]: the reservation found and the others. *)
Fixpoint take_reservation
    (owner deposit_id : bytes) (reservations : list DepositFundingReservation)
    : option (DepositFundingReservation * list DepositFundingReservation) :=
  match reservations with
  | [] => None
  | reservation :: reservations =>
      if bool_decide (dfr_deposit_id reservation = deposit_id)
         && bool_decide (dfr_caller reservation = owner)
      then Some (reservation, reservations)
      else
        match take_reservation owner deposit_id reservations with
        | None => None
        | Some (found, others) => Some (found, reservation :: others)
        end
  end.

Definition with_reservations
    (admission : DepositAdmissionControl) (reservations : list DepositFundingReservation)
    : DepositAdmissionControl :=
  {| dac_window_id := dac_window_id admission;
     dac_global_count := dac_global_count admission;
     dac_caller_counts := dac_caller_counts admission;
     dac_funding_reservations := reservations |}.

Definition release_deposit_funding_reservation
    (admission : DepositAdmissionControl) (owner deposit_id : bytes)
    : Result StorageError DepositAdmissionControl :=
  match take_reservation owner deposit_id (dac_funding_reservations admission) with
  | None => Err RecordNotFound
  | Some (_, others) => Ok (with_reservations admission others)
  end.

(** [position], [checked_sub] and [Vec::remove] of an exhausted entry. *)
Fixpoint uncount_caller (owner : bytes) (counts : list DepositCallerQuota)
    : Result StorageError (list DepositCallerQuota) :=
  match counts with
  | [] => Err DatabaseFailure
  | entry :: counts =>
      if bool_decide (dcq_caller entry = owner) then
        let? count := ok_or (checked_sub (dcq_count entry) 1) DatabaseFailure in
        Ok (if count =? 0 then counts
            else {| dcq_caller := dcq_caller entry; dcq_count := count |} :: counts)
      else
        let? counts := uncount_caller owner counts in
        Ok (entry :: counts)
  end.

Definition rollback_failed_deposit_admission
    (admission : DepositAdmissionControl) (owner deposit_id : bytes)
    : Result StorageError DepositAdmissionControl :=
  let? (reservation, others) :=
    ok_or (take_reservation owner deposit_id (dac_funding_reservations admission))
      RecordNotFound in
  if negb (dfr_releases_quota_on_failure reservation)
     || negb (dfr_quota_window_id reservation =? dac_window_id admission)
  then Ok (with_reservations admission others)
  else
    let? global_count := ok_or (checked_sub (dac_global_count admission) 1) DatabaseFailure in
    let? caller_counts := uncount_caller owner (dac_caller_counts admission) in
    Ok {| dac_window_id := dac_window_id admission;
          dac_global_count := global_count;
          dac_caller_counts := caller_counts;
          dac_funding_reservations := others |}.

(** ** Counting callers *)

Fixpoint counted (counts : list DepositCallerQuota) : Z :=
  match counts with [] => 0 | entry :: counts => dcq_count entry + counted counts end.

Section counting.
Context (P : Z).
Implicit Types counts : list DepositCallerQuota.

Definition counts_wf counts : Prop :=
  NoDup (dcq_caller <$> counts) /\ Forall (fun entry => 1 <= dcq_count entry <= P) counts.

Lemma counts_wf_cons e counts :
  counts_wf (e :: counts) <->
  (dcq_caller e ∉ dcq_caller <$> counts) /\ 1 <= dcq_count e <= P /\ counts_wf counts.
Proof. unfold counts_wf. rewrite fmap_cons, NoDup_cons, Forall_cons. naive_solver. Qed.

Lemma counted_nonneg counts : counts_wf counts -> 0 <= counted counts.
Proof.
  induction counts as [|e counts IH]; simpl; [lia|]. rewrite counts_wf_cons.
  intros (_ & ? & ?). specialize (IH ltac:(done)). lia.
Qed.

Lemma caller_count_nonneg owner counts : counts_wf counts -> 0 <= caller_count owner counts.
Proof.
  induction counts as [|e counts IH]; simpl; [lia|]. rewrite counts_wf_cons.
  intros (_ & ? & ?). case_bool_decide; [lia|auto].
Qed.

Lemma count_caller_callers owner counts counts' :
  count_caller owner counts = Ok counts' ->
  forall c, c ∈ dcq_caller <$> counts' <-> c = owner \/ c ∈ dcq_caller <$> counts.
Proof.
  revert counts'. induction counts as [|e counts IH]; intros counts'; simpl.
  - intros [= <-] c. simpl. set_solver.
  - case_bool_decide as He.
    + destruct (ok_or _ _) as [n|]; [|done]. intros [= <-] c. simpl. set_solver.
    + destruct (count_caller owner counts) as [rest|]; [|done]. intros [= <-] c. simpl.
      rewrite !elem_of_cons, (IH rest eq_refl c). naive_solver.
Qed.

Lemma count_caller_wf owner counts counts' :
  counts_wf counts -> caller_count owner counts < P -> 1 <= P ->
  count_caller owner counts = Ok counts' ->
  counts_wf counts' /\ counted counts' = counted counts + 1.
Proof.
  revert counts'. induction counts as [|e counts IH]; intros counts'; simpl.
  - intros _ _ HP [= <-]. rewrite counts_wf_cons. simpl. split; [|lia].
    split_and!; [set_solver|lia|lia|split; constructor].
  - rewrite counts_wf_cons. intros (Hnew & He & Hwf) Hc HP. case_bool_decide as Hb.
    + destruct (ok_or _ _) as [n|] eqn:Hn; [|done]. reflect.
      apply checked_add_Some in Hn as [_ ->]. intros [= <-]. rewrite counts_wf_cons. simpl.
      split; [|lia]. split_and!; [done|lia|lia|done].
    + destruct (count_caller owner counts) as [rest|] eqn:Hrest; [|done]. intros [= <-].
      destruct (IH rest Hwf Hc HP eq_refl) as [IHwf IHsum]. rewrite counts_wf_cons. simpl.
      rewrite (count_caller_callers _ _ _ Hrest (dcq_caller e)).
      split; [|lia]. split_and!; [naive_solver|lia|lia|done].
Qed.

Lemma uncount_caller_wf owner counts :
  counts_wf counts -> owner ∈ dcq_caller <$> counts ->
  exists counts', uncount_caller owner counts = Ok counts' /\
    counts_wf counts' /\ counted counts' = counted counts - 1 /\
    (forall c, c ∈ dcq_caller <$> counts' -> c ∈ dcq_caller <$> counts) /\
    (forall c, c <> owner -> c ∈ dcq_caller <$> counts -> c ∈ dcq_caller <$> counts').
Proof.
  induction counts as [|e counts IH]; simpl; [set_solver|].
  rewrite counts_wf_cons. intros (Hnew & He & Hwf) Hin. case_bool_decide as Hb.
  - rewrite (proj2 (checked_sub_Some (dcq_count e) 1 _)) by (split; [lia|reflexivity]). simpl.
    eexists. split; [reflexivity|]. destruct (Z.eqb_spec (dcq_count e - 1) 0).
    + split_and!; [done|simpl; lia|set_solver|set_solver].
    + rewrite counts_wf_cons. simpl. split_and!; [done|lia|lia|done|simpl; lia|set_solver|set_solver].
  - destruct IH as (rest & -> & IHwf & IHsum & IHsub & IHsup); [done|set_solver|].
    eexists. split; [reflexivity|]. rewrite counts_wf_cons. simpl.
    split_and!; [naive_solver|lia|lia|done|lia|set_solver|set_solver].
Qed.

Lemma uncount_count_caller owner counts counts' :
  counts_wf counts -> count_caller owner counts = Ok counts' ->
  uncount_caller owner counts' = Ok counts.
Proof.
  revert counts'. induction counts as [|e counts IH]; intros counts'; simpl.
  - intros _ [= <-]. simpl. by rewrite bool_decide_eq_true_2.
  - rewrite counts_wf_cons. intros (_ & He & Hwf). case_bool_decide as Hb.
    + destruct (ok_or _ _) as [n|] eqn:Hn; [|done]. reflect.
      apply checked_add_Some in Hn as [_ ->]. intros [= <-]. simpl.
      rewrite bool_decide_eq_true_2 by done.
      rewrite (proj2 (checked_sub_Some _ _ (dcq_count e))) by lia. simpl.
      destruct (Z.eqb_spec (dcq_count e) 0); [lia|]. by destruct e.
    + destruct (count_caller owner counts) as [rest|]; [|done]. intros [= <-]. simpl.
      rewrite bool_decide_eq_false_2 by done. by rewrite (IH rest Hwf eq_refl).
Qed.

End counting.

(** ** The invariant

    Every caller of the window has one positive count, their sum is the global
    count, and both respect the limits.  There are at most sixteen reservations,
    one per caller and per deposit, and one taken in the current window is still
    counted there. *)
Record admission_wf (G P : Z) (adm : DepositAdmissionControl) : Prop := {
  aw_counts : counts_wf P (dac_caller_counts adm);
  aw_global : dac_global_count adm = counted (dac_caller_counts adm);
  aw_limit : dac_global_count adm <= G;
  aw_bounded : (length (dac_funding_reservations adm) <= 16)%nat;
  aw_callers : NoDup (dfr_caller <$> dac_funding_reservations adm);
  aw_ids : NoDup (dfr_deposit_id <$> dac_funding_reservations adm);
  aw_windows : Forall (fun r => dfr_quota_window_id r <= dac_window_id adm)
                 (dac_funding_reservations adm);
  aw_counted : Forall (fun r => dfr_quota_window_id r = dac_window_id adm ->
                 dfr_caller r ∈ dcq_caller <$> dac_caller_counts adm)
                 (dac_funding_reservations adm);
}.

Lemma take_reservation_Some owner id l r others :
  take_reservation owner id l = Some (r, others) ->
  l ≡ₚ r :: others /\ dfr_deposit_id r = id /\ dfr_caller r = owner.
Proof.
  revert others. induction l as [|x l IH]; intros others; simpl; [done|].
  destruct (bool_decide _ && bool_decide _) eqn:Hx.
  - intros [= -> ->]. reflect. naive_solver.
  - destruct (take_reservation owner id l) as [[found rest]|]; [|done]. intros [= -> <-].
    destruct (IH rest eq_refl) as (Hp & ? & ?). split_and!; [|done|done]. rewrite Hp. constructor.
Qed.

Lemma take_reservation_is_Some owner id l r :
  r ∈ l -> dfr_deposit_id r = id -> dfr_caller r = owner -> is_Some (take_reservation owner id l).
Proof.
  intros Hin Hid Hown. induction l as [|x l IH]; simpl; [set_solver|].
  destruct (bool_decide _ && bool_decide _) eqn:Hx; [done|].
  apply elem_of_cons in Hin as [->|Hin].
  - rewrite !bool_decide_eq_true_2 in Hx by done. done.
  - destruct (IH Hin) as [[found rest] ->]. done.
Qed.

Lemma enter_window_wf G P adm w :
  0 <= G -> dac_window_id adm <= w -> admission_wf G P adm -> admission_wf G P (enter_window adm w).
Proof.
  intros HG Hw []. unfold enter_window. destruct (Z.eqb_spec (dac_window_id adm) w); [done|].
  constructor; simpl; try done.
  - split; constructor.
  - eapply Forall_impl; [exact aw_windows0|]. simpl. lia.
  - eapply Forall_impl; [exact aw_windows0|]. simpl. lia.
Qed.

Lemma enter_window_id adm w : dac_window_id (enter_window adm w) = w.
Proof. unfold enter_window. by destruct (Z.eqb_spec (dac_window_id adm) w). Qed.

Lemma enter_window_reservations adm w :
  dac_funding_reservations (enter_window adm w) = dac_funding_reservations adm.
Proof. unfold enter_window. by case_match. Qed.

(** What a consumed unit of quota changes. *)
Lemma consume_deposit_quota_Ok adm owner q adm' :
  consume_deposit_quota adm owner q = Ok adm' <->
  let entered := enter_window adm (quota_window_id q) in
  dac_global_count entered < dqa_global_limit q /\
  caller_count owner (dac_caller_counts entered) < dqa_per_principal_limit q /\
  dac_global_count entered < u16_max /\
  exists counts, count_caller owner (dac_caller_counts entered) = Ok counts /\
    adm' = {| dac_window_id := quota_window_id q;
              dac_global_count := dac_global_count entered + 1;
              dac_caller_counts := counts;
              dac_funding_reservations := dac_funding_reservations adm |}.
Proof.
  unfold consume_deposit_quota. simpl.
  rewrite enter_window_id, enter_window_reservations. unfold checked_add.
  destruct (_ || _) eqn:Hlim; reflect; [naive_solver lia|].
  destruct (Z.leb_spec (dac_global_count (enter_window adm (quota_window_id q)) + 1) u16_max);
    simpl; [|naive_solver lia].
  destruct (count_caller _ _) as [counts|]; naive_solver lia.
Qed.

Lemma consume_deposit_quota_wf adm owner q adm' :
  0 <= dqa_global_limit q -> dac_window_id adm <= quota_window_id q ->
  admission_wf (dqa_global_limit q) (dqa_per_principal_limit q) adm ->
  consume_deposit_quota adm owner q = Ok adm' ->
  admission_wf (dqa_global_limit q) (dqa_per_principal_limit q) adm' /\
  owner ∈ dcq_caller <$> dac_caller_counts adm'.
Proof.
  intros HG Hw Hwf. rewrite consume_deposit_quota_Ok. cbv zeta.
  apply (enter_window_wf _ _ _ _ HG Hw) in Hwf.
  pose proof (enter_window_id adm (quota_window_id q)) as Hid.
  pose proof (enter_window_reservations adm (quota_window_id q)) as Hres.
  set (entered := enter_window adm (quota_window_id q)) in *. clearbody entered.
  intros (Hg & Hc & _ & counts & Hcount & ->). destruct Hwf.
  assert (0 <= caller_count owner (dac_caller_counts entered)) by (by eapply caller_count_nonneg).
  destruct (count_caller_wf _ _ _ _ aw_counts0 Hc ltac:(lia) Hcount) as [Hcw Hsum].
  pose proof (count_caller_callers _ _ _ Hcount) as Hcallers.
  rewrite Hid, Hres in *. split; [|apply Hcallers; by left].
  constructor; simpl; try done; try lia.
  eapply Forall_impl; [exact aw_counted0|]. simpl. intros r Hr Heq. apply Hcallers. right. auto.
Qed.

Lemma existsb_reserved (id : bytes) l :
  existsb (fun r => bool_decide (dfr_deposit_id r = id)) l = false <->
  id ∉ dfr_deposit_id <$> l.
Proof.
  induction l as [|r l IH]; simpl; [set_solver|].
  rewrite orb_false_iff, IH, bool_decide_eq_false, not_elem_of_cons. naive_solver.
Qed.

Lemma filter_caller_none (owner : bytes) l :
  length (filter (fun r => dfr_caller r = owner) l) = 0%nat <-> owner ∉ dfr_caller <$> l.
Proof.
  induction l as [|r l IH]; simpl; [set_solver|]. rewrite filter_cons, not_elem_of_cons.
  case_decide; simpl; [|naive_solver]. split; [lia|naive_solver].
Qed.

(** The reservation a successful request adds. *)
Definition reserve (adm : DepositAdmissionControl) (owner id : bytes) (amount : Z)
    : DepositAdmissionControl :=
  with_reservations adm
    (dac_funding_reservations adm ++
     [{| dfr_deposit_id := id; dfr_caller := owner; dfr_mint_amount := amount;
         dfr_quota_window_id := dac_window_id adm;
         dfr_releases_quota_on_failure := true |}]).

Lemma reserve_funding_Ok adm owner id amount q adm' :
  (length (dac_funding_reservations adm) <= 16)%nat ->
  consume_deposit_quota_and_reserve_funding adm owner id amount q = Ok adm' <->
  ((id ∈ dfr_deposit_id <$> dac_funding_reservations adm) /\ adm' = adm) \/
  ((id ∉ dfr_deposit_id <$> dac_funding_reservations adm) /\
   (owner ∉ dfr_caller <$> dac_funding_reservations adm) /\
   (length (dac_funding_reservations adm) < 16)%nat /\
   exists consumed, consume_deposit_quota adm owner q = Ok consumed /\
     adm' = reserve consumed owner id amount).
Proof.
  intros Hlen. unfold consume_deposit_quota_and_reserve_funding, u16_try_from.
  pose proof (existsb_reserved id (dac_funding_reservations adm)) as Hid.
  pose proof (filter_caller_none owner (dac_funding_reservations adm)) as Hown.
  assert (length (filter (fun r => dfr_caller r = owner) (dac_funding_reservations adm))
          <= length (dac_funding_reservations adm))%nat by apply length_filter.
  destruct (existsb _ _) eqn:He.
  { assert (id ∈ dfr_deposit_id <$> dac_funding_reservations adm) by
      (destruct (decide (id ∈ dfr_deposit_id <$> dac_funding_reservations adm)); naive_solver).
    naive_solver. }
  set (n := length (filter _ _)) in *. clearbody n.
  destruct (Z.leb_spec (Z.of_nat (length (dac_funding_reservations adm))) u16_max); [|lia].
  destruct (Z.leb_spec (Z.of_nat n) u16_max); [|lia].
  destruct (_ || _) eqn:Hfull; reflect.
  - destruct Hfull; [split; [done|naive_solver lia]|].
    assert (~ (owner ∉ dfr_caller <$> dac_funding_reservations adm)) by (rewrite <- Hown; lia).
    naive_solver.
  - destruct Hfull as [? Hn]. assert (n = 0%nat) as Hn0 by lia. apply Hown in Hn0.
    destruct (consume_deposit_quota adm owner q) as [consumed|]; [|naive_solver].
    split; [intros [= <-]; right; split_and!; [naive_solver|done|lia|naive_solver]|].
    intros [[? ->]|(? & ? & ? & c & [= ->] & ->)]; [naive_solver|done].
Qed.

Lemma reserve_funding_wf adm owner id amount q adm' :
  0 <= dqa_global_limit q -> dac_window_id adm <= quota_window_id q ->
  admission_wf (dqa_global_limit q) (dqa_per_principal_limit q) adm ->
  consume_deposit_quota_and_reserve_funding adm owner id amount q = Ok adm' ->
  admission_wf (dqa_global_limit q) (dqa_per_principal_limit q) adm'.
Proof.
  intros HG Hw Hwf H. apply reserve_funding_Ok in H; [|by apply Hwf].
  destruct H as [[? ->]|(Hid & Hown & Hlen & c & Hc & ->)]; [done|].
  destruct (consume_deposit_quota_wf _ _ _ _ HG Hw Hwf Hc) as [Hcw Hin].
  apply consume_deposit_quota_Ok in Hc as (_ & _ & _ & counts & _ & Hc). subst c.
  destruct Hcw. simpl in *. constructor; simpl; try done.
  - rewrite length_app. simpl. lia.
  - rewrite fmap_app. apply NoDup_app. simpl.
    split_and!; [done|set_solver|apply NoDup_singleton].
  - rewrite fmap_app. apply NoDup_app. simpl.
    split_and!; [done|set_solver|apply NoDup_singleton].
  - apply Forall_app. split; [done|]. constructor; [simpl; lia|done].
  - apply Forall_app. split; [done|]. constructor; [done|done].
Qed.

Lemma with_others_wf G P adm r others :
  admission_wf G P adm -> dac_funding_reservations adm ≡ₚ r :: others ->
  admission_wf G P (with_reservations adm others).
Proof.
  intros [] Hp. rewrite Hp in aw_callers0, aw_ids0, aw_windows0, aw_counted0, aw_bounded0.
  simpl in *. apply NoDup_cons in aw_callers0 as [_ ?], aw_ids0 as [_ ?].
  apply Forall_cons in aw_windows0 as [_ ?], aw_counted0 as [_ ?].
  constructor; simpl; done || lia.
Qed.

(** A reservation that exists can always be rolled back. *)
Lemma rollback_wf G P adm r owner id others :
  admission_wf G P adm ->
  take_reservation owner id (dac_funding_reservations adm) = Some (r, others) ->
  exists adm', rollback_failed_deposit_admission adm owner id = Ok adm' /\
    admission_wf G P adm' /\ dac_funding_reservations adm' = others.
Proof.
  intros Hwf Ht. pose proof (take_reservation_Some _ _ _ _ _ Ht) as (Hp & Hid & Hown).
  pose proof (with_others_wf _ _ _ _ _ Hwf Hp) as Hwf'.
  unfold rollback_failed_deposit_admission. rewrite Ht. simpl.
  destruct (negb _ || negb _) eqn:Hq; [by eexists|]. reflect. destruct Hq as [_ Hwin].
  destruct Hwf. rewrite Hp in aw_counted0, aw_callers0. simpl in *.
  apply Forall_cons in aw_counted0 as [Hin Hothers]. specialize (Hin Hwin). rewrite Hown in Hin.
  destruct (uncount_caller_wf P owner _ aw_counts0 Hin)
    as (counts' & Hun & Hcw & Hsum & Hsub & Hsup).
  pose proof (counted_nonneg _ _ Hcw).
  rewrite (proj2 (checked_sub_Some (dac_global_count adm) 1 _)) by (split; [lia|reflexivity]).
  simpl. rewrite Hun. eexists. split; [reflexivity|]. split; [|done].
  destruct Hwf'. simpl in *. constructor; simpl; try done; try lia.
  apply NoDup_cons in aw_callers0 as [Hfresh _].
  apply Forall_forall. intros x Hx Heq. apply Hsup.
  - intros Hox. apply Hfresh. rewrite Hown, <- Hox. by apply list_elem_of_fmap_2.
  - rewrite Forall_forall in Hothers. by apply Hothers.
Qed.

(** ** Histories of calls *)

Inductive AdmissionOp :=
| Adm_consume (owner : bytes)
| Adm_reserve (owner deposit_id : bytes) (mint_amount : Z)
| Adm_release (owner deposit_id : bytes)
| Adm_rollback (owner deposit_id : bytes).

Section history.
Context (window_seconds global_limit per_principal_limit : Z).

Definition quota_at (now : Z) : DepositQuotaAdmission :=
  {| dqa_now_ns := now; dqa_window_seconds := window_seconds;
     dqa_global_limit := global_limit; dqa_per_principal_limit := per_principal_limit |}.

Definition admission_call (adm : DepositAdmissionControl) (call : Z * AdmissionOp)
    : Result StorageError DepositAdmissionControl :=
  match call.2 with
  | Adm_consume owner => consume_deposit_quota adm owner (quota_at call.1)
  | Adm_reserve owner id amount =>
      consume_deposit_quota_and_reserve_funding adm owner id amount (quota_at call.1)
  | Adm_release owner id => release_deposit_funding_reservation adm owner id
  | Adm_rollback owner id => rollback_failed_deposit_admission adm owner id
  end.

(** A refused call stores nothing. *)
Fixpoint admission_history (adm : DepositAdmissionControl) (calls : list (Z * AdmissionOp))
    : DepositAdmissionControl :=
  match calls with
  | [] => adm
  | call :: calls =>
      match admission_call adm call with
      | Ok next => admission_history next calls
      | Err _ => admission_history adm calls
      end
  end.

(** The clock does not run backwards. *)
Fixpoint timed (since : Z) (calls : list (Z * AdmissionOp)) : Prop :=
  match calls with
  | [] => True
  | call :: calls => since <= call.1 /\ timed call.1 calls
  end.

Hypothesis window_positive : 1 <= window_seconds.
Hypothesis limit_nonneg : 0 <= global_limit.
#[local] Abbreviation wf := (admission_wf global_limit per_principal_limit).

Lemma quota_window_mono t now : t <= now -> quota_window_id (quota_at t) <= quota_window_id (quota_at now).
Proof.
  intros. unfold quota_window_id, quota_window_ns, saturating_mul. simpl.
  apply Z.div_le_mono; lia.
Qed.

Lemma admission_call_wf adm call adm' :
  wf adm -> dac_window_id adm <= quota_window_id (quota_at call.1) ->
  admission_call adm call = Ok adm' ->
  wf adm' /\ dac_window_id adm' <= quota_window_id (quota_at call.1).
Proof.
  intros Hwf Hw. destruct call as [now []]; unfold admission_call; simpl in *; intros H.
  - split; [by eapply (consume_deposit_quota_wf adm owner (quota_at now))|].
    apply consume_deposit_quota_Ok in H as (_ & _ & _ & counts & _ & ->). done.
  - split; [by eapply (reserve_funding_wf adm _ _ _ (quota_at now))|].
    apply reserve_funding_Ok in H; [|by apply Hwf].
    destruct H as [[_ ->]|(_ & _ & _ & c & Hc & ->)]; [done|].
    apply consume_deposit_quota_Ok in Hc as (_ & _ & _ & counts & _ & ->). done.
  - unfold release_deposit_funding_reservation in H.
    destruct (take_reservation _ _ _) as [[r others]|] eqn:Ht; [|done]. simplify_eq.
    split; [|done]. eapply with_others_wf; [done|by eapply take_reservation_Some].
  - pose proof H as Hrun. unfold rollback_failed_deposit_admission in H.
    destruct (take_reservation _ _ _) as [[r others]|] eqn:Ht; [|done]. simpl in H.
    destruct (rollback_wf _ _ _ _ _ _ _ Hwf Ht) as (a & Ha & Hwfa & _).
    rewrite Ha in Hrun. injection Hrun as ->. split; [done|].
    repeat case_match; simplify_eq; done.
Qed.

Lemma admission_history_wf adm t calls :
  wf adm -> dac_window_id adm <= quota_window_id (quota_at t) -> timed t calls ->
  wf (admission_history adm calls).
Proof.
  revert adm t. induction calls as [|call calls IH]; intros adm t Hwf Hw; simpl; [done|].
  intros [Ht Htimed]. pose proof (quota_window_mono _ _ Ht).
  destruct (admission_call adm call) as [next|] eqn:Hc.
  - destruct (admission_call_wf adm call next Hwf ltac:(lia) Hc). by eapply IH.
  - eapply IH; [done| |done]. lia.
Qed.

(** Deposit quotas.  Whatever deposits are admitted, reserved, promoted or
    rolled back, as long as the clock does not run backwards: the window's
    global count is the sum of the callers' counts and within the global limit,
    every caller's count is within the caller's limit, there are at most sixteen
    funding reservations with one per caller and one per deposit, and the
    rollback of any of them succeeds and removes it. *)
Theorem deposit_admission_bounded calls :
  timed 0 calls ->
  let adm := admission_history DepositAdmissionControl_default calls in
  wf adm /\
  forall r, r ∈ dac_funding_reservations adm ->
    exists adm',
      rollback_failed_deposit_admission adm (dfr_caller r) (dfr_deposit_id r) = Ok adm' /\
      wf adm' /\ dfr_deposit_id r ∉ dfr_deposit_id <$> dac_funding_reservations adm'.
Proof.
  intros Ht adm. assert (wf adm) as Hwf.
  { apply (admission_history_wf _ 0); [|done..].
    constructor; simpl; try done; try lia; by constructor || constructor; constructor. }
  split; [done|]. intros r Hr.
  destruct (take_reservation_is_Some _ _ _ r Hr eq_refl eq_refl) as [[r' others] Htake].
  destruct (rollback_wf _ _ _ _ _ _ _ Hwf Htake) as (adm' & Hroll & Hwf' & Hres).
  exists adm'. split_and!; [done|done|]. rewrite Hres.
  apply take_reservation_Some in Htake as (Hp & Hid & _).
  pose proof (aw_ids _ _ _ Hwf) as Hids. rewrite Hp in Hids. simpl in Hids.
  apply NoDup_cons in Hids as [Hids _]. by rewrite Hid in Hids.
Qed.

End history.

Lemma deposit_admission_bounded_witness :
  let calls := [(1, Adm_reserve [1] [11] 500); (2, Adm_reserve [2] [12] 700);
                (3, Adm_reserve [3] [13] 900); (4, Adm_release [1] [11])] in
  let adm := admission_history 60 2 1 DepositAdmissionControl_default calls in
  admission_wf 2 1 adm /\ dac_global_count adm = 2 /\ length (dac_funding_reservations adm) = 1%nat /\
  exists adm', rollback_failed_deposit_admission adm [2] [12] = Ok adm' /\ admission_wf 2 1 adm'.
Proof.
  intros calls adm.
  destruct (deposit_admission_bounded 60 2 1 ltac:(lia) ltac:(lia) calls) as [Hwf Hroll];
    [simpl; lia|].
  split_and!; [exact Hwf|reflexivity|reflexivity|].
  destruct (Hroll {| dfr_deposit_id := [12]; dfr_caller := [2]; dfr_mint_amount := 700;
                     dfr_quota_window_id := 0; dfr_releases_quota_on_failure := true |})
    as (adm' & ? & ? & _); [apply list_elem_of_here|eauto].
Defined.

Lemma take_reservation_snoc owner id l r :
  dfr_deposit_id r = id -> dfr_caller r = owner -> id ∉ dfr_deposit_id <$> l ->
  take_reservation owner id (l ++ [r]) = Some (r, l).
Proof.
  intros Hid Hown. induction l as [|x l IH]; simpl.
  - intros _. by rewrite !bool_decide_eq_true_2 by done.
  - rewrite not_elem_of_cons. intros [? ?]. rewrite bool_decide_eq_false_2 by done. simpl.
    by rewrite IH.
Qed.

(** Failed deposits.  Rolling back the admission of a deposit whose funding
    failed gives back exactly the quota and the reservation it took: the result
    is the state before the request, seen in the request's window. *)
Theorem deposit_rollback_restores adm owner id amount q adm' :
  admission_wf (dqa_global_limit q) (dqa_per_principal_limit q) adm ->
  0 <= dqa_global_limit q -> dac_window_id adm <= quota_window_id q ->
  id ∉ dfr_deposit_id <$> dac_funding_reservations adm ->
  consume_deposit_quota_and_reserve_funding adm owner id amount q = Ok adm' ->
  rollback_failed_deposit_admission adm' owner id = Ok (enter_window adm (quota_window_id q)).
Proof.
  intros Hwf HG Hw Hid H. apply reserve_funding_Ok in H; [|by apply Hwf].
  destruct H as [[? _]|(_ & _ & _ & c & Hc & ->)]; [done|].
  apply (enter_window_wf _ _ _ _ HG Hw) in Hwf. destruct Hwf as [Hcounts Hglobal _ _ _ _ _ _].
  pose proof (counted_nonneg _ _ Hcounts).
  apply consume_deposit_quota_Ok in Hc as (_ & _ & _ & counts & Hcount & ->).
  unfold rollback_failed_deposit_admission, reserve, with_reservations. simpl.
  rewrite take_reservation_snoc by done. simpl. rewrite Z.eqb_refl. simpl.
  rewrite (proj2 (checked_sub_Some _ 1 (dac_global_count (enter_window adm (quota_window_id q)))))
    by lia. simpl.
  rewrite (uncount_count_caller _ _ _ _ Hcounts Hcount).
  rewrite <- (enter_window_reservations adm (quota_window_id q)) at 1.
  pose proof (enter_window_id adm (quota_window_id q)) as Hq.
  destruct (enter_window adm (quota_window_id q)). simpl in *. by rewrite Hq.
Qed.

Lemma deposit_rollback_restores_witness :
  let q := {| dqa_now_ns := 60000000005; dqa_window_seconds := 60; dqa_global_limit := 3;
              dqa_per_principal_limit := 2 |} in
  let adm := {| dac_window_id := 1; dac_global_count := 1;
                dac_caller_counts := [{| dcq_caller := [7]; dcq_count := 1 |}];
                dac_funding_reservations := [] |} in
  exists adm', consume_deposit_quota_and_reserve_funding adm [7] [21] 400 q = Ok adm' /\
    rollback_failed_deposit_admission adm' [7] [21] = Ok adm.
Proof.
  intros q adm. eexists. split; [vm_compute; reflexivity|].
  apply (deposit_rollback_restores adm [7] [21] 400 q);
    [|simpl; lia|vm_compute; discriminate|apply not_elem_of_nil|vm_compute; reflexivity].
  constructor; simpl; try lia; try constructor; simpl.
  - apply NoDup_singleton.
  - repeat constructor; simpl; lia.
Defined.
