(* ===== verification/Jobs.v ===== *)
(** * Settlement jobs and their leases

    The [settlement_jobs] table of [canister/bridge-canister/src/storage/mod.rs]
    with the operations that enqueue, claim, renew and finish a job, the quota of
    manual claims, and the counters its triggers keep.  A row is a
    [SettlementJob] under its primary key (kind, identifier); instants and
    generations are stored as fixed-width big-endian blobs, whose order is the
    order of the integers. *)

From S2P Require Import Prelude KernelArith KernelPolicy KernelWithdrawal Types StorageTypes Tables.

Inductive SettlementJobStatus := Job_Scheduled | Job_Leased | Job_Stopped.

#[export] Instance SettlementJobStatus_eq_dec : EqDecision SettlementJobStatus.
Proof. solve_decision. Defined.

Definition SettlementJobStatus_sql (self : SettlementJobStatus) : Z :=
  match self with Job_Scheduled => 0 | Job_Leased => 1 | Job_Stopped => 2 end.

Inductive SettlementLeaseLane := Lane_Automatic | Lane_PublicManual | Lane_GovernanceRecovery.

#[export] Instance SettlementLeaseLane_eq_dec : EqDecision SettlementLeaseLane.
Proof. solve_decision. Defined.

Definition SettlementLeaseLane_capacity (self : SettlementLeaseLane) : Z :=
  match self with
  | Lane_Automatic | Lane_PublicManual => 4
  | Lane_GovernanceRecovery => 1
  end.

Record SettlementJob := {
  sj_kind : SettlementJobKind;
  sj_settlement_id : bytes;
  sj_status : SettlementJobStatus;
  sj_next_run_at_ns : option Z;
  sj_attempts : Z;
  sj_lease_generation : Z;
  sj_lease_until_ns : option Z;
  sj_lease_lane : SettlementLeaseLane;
  sj_last_error_code : option string;
  sj_last_error_detail : option string;
  sj_updated_at_ns : Z;
}.

#[export] Instance SettlementJob_eq_dec : EqDecision SettlementJob.
Proof. solve_decision. Defined.

Abbreviation JobKey := (Z * bytes)%type.
Abbreviation Jobs := (gmap JobKey SettlementJob).

Definition job_key (kind : SettlementJobKind) (settlement_id : bytes) : JobKey :=
  (SettlementJobKind_sql kind, settlement_id).

(** [INSERT ... ON CONFLICT DO UPDATE]: a job that exists is scheduled again and
    keeps its generation. *)
Definition enqueue_settlement_job
    (jobs : Jobs) (kind : SettlementJobKind) (settlement_id : bytes) (now_ns : Z) : Jobs :=
  let generation :=
    map_or 0 sj_lease_generation (jobs !! job_key kind settlement_id) in
  <[job_key kind settlement_id :=
      {| sj_kind := kind; sj_settlement_id := settlement_id; sj_status := Job_Scheduled;
         sj_next_run_at_ns := Some now_ns; sj_attempts := 0;
         sj_lease_generation := generation; sj_lease_until_ns := None;
         sj_lease_lane := Lane_Automatic; sj_last_error_code := None;
         sj_last_error_detail := None; sj_updated_at_ns := now_ns |}]> jobs.

(** [SELECT COUNT] of the leases of a lane that have not run out. *)
Definition lease_active (now_ns : Z) (job : SettlementJob) : bool :=
  bool_decide (sj_status job = Job_Leased)
  && is_some_and (sj_lease_until_ns job) (fun deadline => deadline >? now_ns).

Definition active_leases (jobs : Jobs) (now_ns : Z) (lane : SettlementLeaseLane) : Z :=
  Z.of_nat (size (filter (fun '(_, job) =>
    lease_active now_ns job = true /\ sj_lease_lane job = lane) jobs)).

(** ** Automatic claims *)

Inductive SettlementJobClaim :=
| Claim_Claimed (job : SettlementJob)
| Claim_ActiveLease (lease_until_ns : Z)
| Claim_None.

Record DueSettlementCandidate := {
  dsc_deadline_ns : Z;
  dsc_kind : SettlementJobKind;
  dsc_settlement_id : bytes;
  dsc_attempts : Z;
  dsc_lease_generation : Z;
}.

(** [ORDER BY deadline, settlement_kind, settlement_id]. *)
Definition due_le (a b : DueSettlementCandidate) : bool :=
  if dsc_deadline_ns a =? dsc_deadline_ns b then
    if SettlementJobKind_sql (dsc_kind a) =? SettlementJobKind_sql (dsc_kind b)
    then bytes_geb (dsc_settlement_id b) (dsc_settlement_id a)
    else SettlementJobKind_sql (dsc_kind a) <? SettlementJobKind_sql (dsc_kind b)
  else dsc_deadline_ns a <? dsc_deadline_ns b.

Definition due_min (a : DueSettlementCandidate) (b : option DueSettlementCandidate)
    : option DueSettlementCandidate :=
  match b with
  | Some b => Some (if due_le a b then a else b)
  | None => Some a
  end.

(** The rows of a due query: a status, and the column that holds the deadline. *)
Definition due_candidate
    (status : SettlementJobStatus) (deadline : SettlementJob -> option Z) (now_ns : Z)
    (job : SettlementJob) : option DueSettlementCandidate :=
  if bool_decide (sj_status job = status) then
    deadline job ≫= fun deadline_ns =>
      if deadline_ns <=? now_ns then
        Some {| dsc_deadline_ns := deadline_ns; dsc_kind := sj_kind job;
                dsc_settlement_id := sj_settlement_id job; dsc_attempts := sj_attempts job;
                dsc_lease_generation := sj_lease_generation job |}
      else None
  else None.

Definition query_due_settlement_candidate
    (status : SettlementJobStatus) (deadline : SettlementJob -> option Z)
    (jobs : Jobs) (now_ns : Z) : option DueSettlementCandidate :=
  foldr due_min None
    (omap (fun '(_, job) => due_candidate status deadline now_ns job) (map_to_list jobs)).

(** The lease written by an automatic claim: the error columns are kept. *)
Definition lease_automatic (job : SettlementJob) (generation lease_until_ns now_ns : Z)
    : SettlementJob :=
  {| sj_kind := sj_kind job; sj_settlement_id := sj_settlement_id job;
     sj_status := Job_Leased; sj_next_run_at_ns := None; sj_attempts := sj_attempts job;
     sj_lease_generation := generation; sj_lease_until_ns := Some lease_until_ns;
     sj_lease_lane := Lane_Automatic; sj_last_error_code := sj_last_error_code job;
     sj_last_error_detail := sj_last_error_detail job; sj_updated_at_ns := now_ns |}.

(** The job handed to the caller of a claim. *)
Definition claimed_job
    (kind : SettlementJobKind) (settlement_id : bytes) (attempts generation : Z)
    (lane : SettlementLeaseLane) (lease_until_ns now_ns : Z) : SettlementJob :=
  {| sj_kind := kind; sj_settlement_id := settlement_id; sj_status := Job_Leased;
     sj_next_run_at_ns := None; sj_attempts := attempts;
     sj_lease_generation := generation; sj_lease_until_ns := Some lease_until_ns;
     sj_lease_lane := lane; sj_last_error_code := None; sj_last_error_detail := None;
     sj_updated_at_ns := now_ns |}.

Definition lease_deadline_min (jobs : Jobs) (now_ns : Z) : Result DbError Z :=
  ok_or
    (foldr (fun d acc => Some (map_or d (Z.min d) acc)) None
       (omap (fun '(_, job) =>
                if lease_active now_ns job && bool_decide (sj_lease_lane job = Lane_Automatic)
                then sj_lease_until_ns job else None)
          (map_to_list jobs)))
    NotFound.

Definition claim_due_settlement_job
    (jobs : Jobs) (now_ns lease_until_ns max_active_leases : Z)
    : Result DbError (SettlementJobClaim * Jobs) :=
  if max_active_leases =? 0
  then Err (Constraint "automatic settlement concurrency must be positive")
  else if active_leases jobs now_ns Lane_Automatic >=? max_active_leases then
    let? lease_until_ns := lease_deadline_min jobs now_ns in
    Ok (Claim_ActiveLease lease_until_ns, jobs)
  else
    let scheduled := query_due_settlement_candidate Job_Scheduled sj_next_run_at_ns jobs now_ns in
    let expired := query_due_settlement_candidate Job_Leased sj_lease_until_ns jobs now_ns in
    match map_or expired (fun scheduled => due_min scheduled expired) scheduled with
    | None => Ok (Claim_None, jobs)
    | Some candidate =>
        let? generation :=
          ok_or (lease_generation_next (dsc_lease_generation candidate))
            (Constraint "lease generation overflow") in
        let key := job_key (dsc_kind candidate) (dsc_settlement_id candidate) in
        Ok (Claim_Claimed (claimed_job (dsc_kind candidate) (dsc_settlement_id candidate)
                             (dsc_attempts candidate) generation Lane_Automatic
                             lease_until_ns now_ns),
            alter (fun job => lease_automatic job generation lease_until_ns now_ns) key jobs)
    end.

Definition claim_specific_due_settlement_job
    (jobs : Jobs) (kind : SettlementJobKind) (settlement_id : bytes)
    (now_ns lease_until_ns : Z) : Result DbError (SettlementJobClaim * Jobs) :=
  match jobs !! job_key kind settlement_id with
  | None => Ok (Claim_None, jobs)
  | Some job =>
      if lease_active now_ns job
      then Ok (Claim_ActiveLease (default 0 (sj_lease_until_ns job)), jobs)
      else if (bool_decide (sj_status job = Job_Scheduled)
               && is_some_and (sj_next_run_at_ns job) (fun next => next <=? now_ns))
              || (bool_decide (sj_status job = Job_Leased)
                  && is_some_and (sj_lease_until_ns job) (fun until => until <=? now_ns))
      then
        let? generation :=
          ok_or (lease_generation_next (sj_lease_generation job))
            (Constraint "lease generation overflow") in
        Ok (Claim_Claimed (claimed_job kind settlement_id (sj_attempts job) generation
                             Lane_Automatic lease_until_ns now_ns),
            alter (fun job => lease_automatic job generation lease_until_ns now_ns)
              (job_key kind settlement_id) jobs)
      else Ok (Claim_None, jobs)
  end.

(** ** Manual claims *)

Record SettlementQuotaLimits := {
  sql_window_seconds : Z;
  sql_global : Z;
  sql_per_principal : Z;
  sql_per_record : Z;
}.

(** A list of counts by key, as [caller_counts] and [record_counts] are. *)
Abbreviation QuotaCounts := (list (bytes * Z)).

Record SettlementAdmissionControl := {
  sac_window_id : Z;
  sac_global_count : Z;
  sac_caller_counts : QuotaCounts;
  sac_record_counts : QuotaCounts;
}.

Definition SettlementAdmissionControl_default : SettlementAdmissionControl :=
  {| sac_window_id := 0; sac_global_count := 0; sac_caller_counts := [];
     sac_record_counts := [] |}.

Fixpoint quota_count (key : bytes) (counts : QuotaCounts) : Z :=
  match counts with
  | [] => 0
  | (k, n) :: counts => if bool_decide (k = key) then n else quota_count key counts
  end.

Fixpoint quota_bump (key : bytes) (message : string) (counts : QuotaCounts)
    : Result DbError QuotaCounts :=
  match counts with
  | [] => Ok [(key, 1)]
  | (k, n) :: counts =>
      if bool_decide (k = key) then
        let? n := ok_or (checked_add u16_max n 1) (Constraint message) in
        Ok ((k, n) :: counts)
      else
        let? counts := quota_bump key message counts in
        Ok ((k, n) :: counts)
  end.

Inductive ManualClaimTransaction :=
| Manual_Claimed (job : SettlementJob)
| Manual_AutomaticProgressPending (next_run_at_ns : option Z)
| Manual_Busy
| Manual_RateLimited (retry_after_seconds : Z).

(** The quota of a metered claim: the next state, or the seconds to wait. *)
Definition charge_settlement_quota
    (admission : SettlementAdmissionControl) (limits : SettlementQuotaLimits)
    (caller record_key : bytes) (now_ns : Z)
    : Result DbError (SettlementAdmissionControl + Z) :=
  let window_ns := saturating_mul u64_max (sql_window_seconds limits) 1000000000 in
  let window_id := now_ns / window_ns in
  let admission :=
    if sac_window_id admission =? window_id then admission
    else {| sac_window_id := window_id; sac_global_count := 0; sac_caller_counts := [];
            sac_record_counts := [] |} in
  let caller_count := quota_count caller (sac_caller_counts admission) in
  let record_count := quota_count record_key (sac_record_counts admission) in
  let retry_after_seconds :=
    Z.max
      (saturating_add u64_max
         (saturating_sub (saturating_mul u64_max (window_id +u64 1) window_ns) now_ns)
         999999999 / 1000000000)
      1 in
  if (sac_global_count admission >=? sql_global limits)
     || (caller_count >=? sql_per_principal limits)
     || (record_count >=? sql_per_record limits)
  then Ok (inr retry_after_seconds)
  else
    let? global_count :=
      ok_or (checked_add u16_max (sac_global_count admission) 1)
        (Constraint "settlement quota overflow") in
    let? caller_counts :=
      quota_bump caller "caller quota overflow" (sac_caller_counts admission) in
    let? record_counts :=
      quota_bump record_key "record quota overflow" (sac_record_counts admission) in
    Ok (inl {| sac_window_id := sac_window_id admission; sac_global_count := global_count;
               sac_caller_counts := caller_counts; sac_record_counts := record_counts |}).

(** Why a row that exists may refuse a manual claim. *)
Definition manual_claim_refusal
    (kind : SettlementJobKind) (lane : SettlementLeaseLane) (now_ns overdue_after_ns : Z)
    (job : SettlementJob) : option ManualClaimTransaction :=
  let next := sj_next_run_at_ns job in
  let lease_until := sj_lease_until_ns job in
  let scheduled := bool_decide (sj_status job = Job_Scheduled) in
  let active := lease_active now_ns job in
  match lease_lane_claim_decision active
          (bool_decide (sj_lease_lane job = Lane_Automatic)) 0
          (SettlementLeaseLane_capacity lane) with
  | LaneClaim_AutomaticProgressPending =>
      Some (if bool_decide (kind = Job_Withdrawal) then Manual_Busy
            else Manual_AutomaticProgressPending None)
  | LaneClaim_Busy => Some Manual_Busy
  | LaneClaim_Allow =>
      let stopped := bool_decide (sj_status job = Job_Stopped) in
      let overdue :=
        scheduled
        && is_some_and next (fun deadline =>
             now_ns >=? saturating_add u64_max deadline overdue_after_ns) in
      let expired :=
        bool_decide (sj_status job = Job_Leased)
        && is_some_and lease_until (fun deadline => deadline <=? now_ns) in
      let automatic_schedule_is_authoritative :=
        scheduled && negb (bool_decide (kind = Job_Withdrawal)) in
      match manual_claim_decision automatic_schedule_is_authoritative active stopped
              overdue expired with
      | ManualClaim_Allow => None
      | ManualClaim_AutomaticProgressPending => Some (Manual_AutomaticProgressPending next)
      end
  end.

Section manual.
(** The encoder of the quota record, which is bounded in size. *)
Context (admission_encodes : SettlementAdmissionControl -> bool).

Definition claim_settlement_job_transaction
    (jobs : Jobs) (settlement_admission : SettlementAdmissionControl)
    (kind : SettlementJobKind) (settlement_id caller : bytes)
    (now_ns lease_until_ns overdue_after_ns : Z) (limits : option SettlementQuotaLimits)
    (lane : SettlementLeaseLane)
    : Result DbError (ManualClaimTransaction * Jobs * SettlementAdmissionControl) :=
  let unchanged outcome := Ok (outcome, jobs, settlement_admission) in
  let target := jobs !! job_key kind settlement_id in
  match target ≫= manual_claim_refusal kind lane now_ns overdue_after_ns with
  | Some outcome => unchanged outcome
  | None =>
      match lease_lane_claim_decision false false (active_leases jobs now_ns lane)
              (SettlementLeaseLane_capacity lane) with
      | LaneClaim_Busy => unchanged Manual_Busy
      | _ =>
          let? charged :=
            match limits with
            | Some limits =>
                charge_settlement_quota settlement_admission limits caller
                  (settlement_record_key kind settlement_id) now_ns
            | None => Ok (inl settlement_admission)
            end in
          match charged with
          | inr retry_after_seconds => unchanged (Manual_RateLimited retry_after_seconds)
          | inl admission =>
              let? generation :=
                ok_or (checked_add u64_max (map_or 0 sj_lease_generation target) 1)
                  (Constraint "lease generation overflow") in
              let attempts := map_or 0 sj_attempts target in
              let job := claimed_job kind settlement_id attempts generation lane
                           lease_until_ns now_ns in
              if is_some limits && negb (admission_encodes admission)
              then Err (Constraint "settlement quota encoding failed")
              else Ok (Manual_Claimed job, <[job_key kind settlement_id := job]> jobs, admission)
          end
      end
  end.

End manual.

(** ** Using and ending a lease *)

(** The generation of the row when it is leased, as the fences read it. *)
Definition leased_generation (jobs : Jobs) (kind : SettlementJobKind) (settlement_id : bytes)
    : option Z :=
  jobs !! job_key kind settlement_id ≫= fun job =>
    if bool_decide (sj_status job = Job_Leased) then Some (sj_lease_generation job) else None.

Definition holds_lease (jobs : Jobs) (job : SettlementJob) : bool :=
  bool_decide (leased_generation jobs (sj_kind job) (sj_settlement_id job)
               = Some (sj_lease_generation job)).

Definition with_lease_until (job : SettlementJob) (lease_until_ns now_ns : Z) : SettlementJob :=
  {| sj_kind := sj_kind job; sj_settlement_id := sj_settlement_id job;
     sj_status := sj_status job; sj_next_run_at_ns := sj_next_run_at_ns job;
     sj_attempts := sj_attempts job; sj_lease_generation := sj_lease_generation job;
     sj_lease_until_ns := Some lease_until_ns; sj_lease_lane := sj_lease_lane job;
     sj_last_error_code := sj_last_error_code job;
     sj_last_error_detail := sj_last_error_detail job; sj_updated_at_ns := now_ns |}.

Definition renew_settlement_lease
    (jobs : Jobs) (job : SettlementJob) (now_ns lease_until_ns : Z)
    : bool * SettlementJob * Jobs :=
  if holds_lease jobs job then
    (true, with_lease_until job lease_until_ns now_ns,
     alter (fun row => with_lease_until row lease_until_ns now_ns)
       (job_key (sj_kind job) (sj_settlement_id job)) jobs)
  else (false, job, jobs).

Definition settlement_lease_is_current (jobs : Jobs) (job : SettlementJob) : bool :=
  is_some_and (leased_generation jobs (sj_kind job) (sj_settlement_id job)) (fun current =>
    match lease_outcome_decision current (sj_lease_generation job) true with
    | LeaseOutcome_Accept => true
    | LeaseOutcome_Reject => false
    end).

(** The row after an accepted outcome: stopped with an error, scheduled again, or
    gone. *)
Definition finished_row
    (row : SettlementJob) (next_run_at_ns : option Z) (attempts : Z)
    (stop_error : option (string * string)) (now_ns : Z) : option SettlementJob :=
  match stop_error, next_run_at_ns with
  | Some (code, detail), _ =>
      Some {| sj_kind := sj_kind row; sj_settlement_id := sj_settlement_id row;
              sj_status := Job_Stopped; sj_next_run_at_ns := None; sj_attempts := attempts;
              sj_lease_generation := sj_lease_generation row; sj_lease_until_ns := None;
              sj_lease_lane := sj_lease_lane row; sj_last_error_code := Some code;
              sj_last_error_detail := Some detail; sj_updated_at_ns := now_ns |}
  | None, Some next =>
      Some {| sj_kind := sj_kind row; sj_settlement_id := sj_settlement_id row;
              sj_status := Job_Scheduled; sj_next_run_at_ns := Some next;
              sj_attempts := attempts; sj_lease_generation := sj_lease_generation row;
              sj_lease_until_ns := None; sj_lease_lane := Lane_Automatic;
              sj_last_error_code := None; sj_last_error_detail := None;
              sj_updated_at_ns := now_ns |}
  | None, None => None
  end.

(** The job side of [finish_settlement_job]; the record's stop reason is written
    by the store in the same transaction. *)
Definition finish_job_row
    (jobs : Jobs) (job : SettlementJob) (next_run_at_ns : option Z) (attempts : Z)
    (stop_error : option (string * string)) (now_ns : Z) : option Jobs :=
  if holds_lease jobs job then
    Some (partial_alter
            (fun row => row ≫= fun row => finished_row row next_run_at_ns attempts stop_error now_ns)
            (job_key (sj_kind job) (sj_settlement_id job)) jobs)
  else None.

(** ** The table's constraints *)

(** The [CHECK] clauses of the schema. *)
Definition job_row_wf (key : JobKey) (job : SettlementJob) : Prop :=
  key = job_key (sj_kind job) (sj_settlement_id job) /\
  is_u64 (sj_lease_generation job) /\
  match sj_status job with
  | Job_Scheduled => is_Some (sj_next_run_at_ns job) /\ sj_lease_until_ns job = None
  | Job_Leased => sj_next_run_at_ns job = None /\ is_Some (sj_lease_until_ns job)
  | Job_Stopped => sj_next_run_at_ns job = None /\ sj_lease_until_ns job = None
  end.

Definition jobs_wf (jobs : Jobs) : Prop := map_Forall job_row_wf jobs.

Lemma job_key_inj kind id kind' id' : job_key kind id = job_key kind' id' -> kind = kind' /\ id = id'.
Proof. intros [= H ->]. by destruct kind, kind'. Qed.

Lemma lease_generation_next_Some g g' :
  is_u64 g -> lease_generation_next g = Some g' <-> g' = g + 1 /\ g < u64_max.
Proof.
  intros. unfold lease_generation_next, next_attempt_body. ranges.
  destruct (Z.eqb_spec g u64_max); [naive_solver lia|].
  rewrite wrapping_add_exact by lia. naive_solver lia.
Qed.

Lemma alter_present (f : SettlementJob -> SettlementJob) (jobs : Jobs) key job :
  jobs !! key = Some job -> alter f key jobs = <[key := f job]> jobs.
Proof.
  intros Hkey. apply map_eq. intros k. destruct (decide (k = key)) as [->|].
  - by rewrite lookup_alter_eq, lookup_insert_eq, Hkey.
  - by rewrite lookup_alter_ne, lookup_insert_ne.
Qed.

(** Every candidate of a due query comes from a row. *)
Lemma query_due_Some status deadline jobs now c :
  query_due_settlement_candidate status deadline jobs now = Some c ->
  exists key job, jobs !! key = Some job /\ due_candidate status deadline now job = Some c.
Proof.
  unfold query_due_settlement_candidate. intros H.
  assert (c ∈ omap (fun '(_, job) => due_candidate status deadline now job) (map_to_list jobs)) as Hin.
  { revert H. generalize (omap (fun '(_, job) => due_candidate status deadline now job)
      (map_to_list jobs)) as l. intros l. revert c.
    induction l as [|x l IH]; intros c; simpl; [done|].
    destruct (foldr due_min None l) as [m|] eqn:Hm; simpl.
    - destruct (due_le x m); intros [= ->]; [left|right; by apply IH].
    - intros [= ->]. left. }
  apply list_elem_of_omap in Hin as ([key job] & Hin & Hc).
  apply elem_of_map_to_list in Hin. eauto.
Qed.

Lemma due_candidate_Some status deadline now job c :
  due_candidate status deadline now job = Some c <->
  sj_status job = status /\
  exists d, deadline job = Some d /\ d <= now /\
    c = {| dsc_deadline_ns := d; dsc_kind := sj_kind job; dsc_settlement_id := sj_settlement_id job;
           dsc_attempts := sj_attempts job; dsc_lease_generation := sj_lease_generation job |}.
Proof.
  unfold due_candidate. case_bool_decide; [|naive_solver].
  destruct (deadline job) as [d|]; simpl; [|naive_solver].
  destruct (Z.leb_spec d now); naive_solver lia.
Qed.

(** ** What a claim takes *)

(** A job may be taken when it is scheduled and due, its lease has run out, or
    (by hand) it was stopped or is overdue; never while its lease is active. *)
Definition claims_row (jobs : Jobs) (now until : Z) (lane : SettlementLeaseLane)
    (j : SettlementJob) (jobs' : Jobs) : Prop :=
  let key := job_key (sj_kind j) (sj_settlement_id j) in
  sj_lease_generation j = map_or 0 sj_lease_generation (jobs !! key) + 1 /\
  sj_lease_generation j <= u64_max /\
  sj_lease_lane j = lane /\ sj_lease_until_ns j = Some until /\ sj_status j = Job_Leased /\
  is_some_and (jobs !! key) (lease_active now) = false /\
  exists row, jobs' = <[key := row]> jobs /\ job_row_wf key row /\ sj_status row = Job_Leased /\
    sj_lease_generation row = sj_lease_generation j /\ sj_lease_until_ns row = Some until /\
    sj_lease_lane row = lane.

Lemma due_candidate_claims jobs now until status deadline key job c g :
  jobs_wf jobs -> jobs !! key = Some job ->
  due_candidate status deadline now job = Some c ->
  (status = Job_Scheduled /\ deadline = sj_next_run_at_ns) \/
  (status = Job_Leased /\ deadline = sj_lease_until_ns) ->
  lease_generation_next (dsc_lease_generation c) = Some g ->
  claims_row jobs now until Lane_Automatic
    (claimed_job (dsc_kind c) (dsc_settlement_id c) (dsc_attempts c) g Lane_Automatic until now)
    (alter (fun job => lease_automatic job g until now)
       (job_key (dsc_kind c) (dsc_settlement_id c)) jobs).
Proof.
  intros Hwf Hkey Hc Hst Hg. destruct (Hwf _ _ Hkey) as (-> & Hgen & Hstatus).
  apply due_candidate_Some in Hc as (Hs & d & Hd & Hdue & ->). simpl in *.
  apply lease_generation_next_Some in Hg as [-> Hlt]; [|done]. unfold claims_row. simpl.
  rewrite Hkey. simpl. split_and!; try done; try lia.
  - unfold lease_active. destruct Hst as [[-> ->]|[-> ->]]; rewrite Hs; simpl; [done|].
    rewrite Hd. simpl. reflect. lia.
  - exists (lease_automatic job (sj_lease_generation job + 1) until now).
    split_and!; try done.
    + by rewrite (alter_present _ _ _ _ Hkey).
    + unfold job_row_wf. simpl. split_and!; try done. ranges. lia.
Qed.

Lemma claim_due_claims jobs now until max j jobs' :
  jobs_wf jobs ->
  claim_due_settlement_job jobs now until max = Ok (Claim_Claimed j, jobs') ->
  claims_row jobs now until Lane_Automatic j jobs'.
Proof.
  intros Hwf. unfold claim_due_settlement_job. case_match; [done|].
  case_match; [by case_match|].
  destruct (map_or _ _ _) as [c|] eqn:Hc; [|done].
  destruct (lease_generation_next (dsc_lease_generation c)) as [g|] eqn:Hg; [|done].
  intros [= <- <-].
  assert (exists key job status deadline, jobs !! key = Some job /\
    due_candidate status deadline now job = Some c /\
    ((status = Job_Scheduled /\ deadline = sj_next_run_at_ns) \/
     (status = Job_Leased /\ deadline = sj_lease_until_ns)))
    as (key & job & status & deadline & Hkey & Hcand & Hst).
  { destruct (query_due_settlement_candidate Job_Scheduled sj_next_run_at_ns jobs now)
      as [s|] eqn:Hs; simpl in Hc;
    [apply query_due_Some in Hs as (ks & js & Hks & Hjs)|];
    (destruct (query_due_settlement_candidate Job_Leased sj_lease_until_ns jobs now)
      as [e|] eqn:He; simpl in Hc;
    [apply query_due_Some in He as (ke & je & Hke & Hje)|]);
    try (destruct (due_le _ _)); simplify_eq; do 4 eexists;
    (split; [|split; [eassumption|]]; [eassumption|]; tauto). }
  by eapply due_candidate_claims.
Qed.

Lemma claim_specific_claims jobs kind id now until j jobs' :
  jobs_wf jobs ->
  claim_specific_due_settlement_job jobs kind id now until = Ok (Claim_Claimed j, jobs') ->
  claims_row jobs now until Lane_Automatic j jobs'.
Proof.
  intros Hwf. unfold claim_specific_due_settlement_job.
  destruct (jobs !! job_key kind id) as [job|] eqn:Hkey; [|done].
  destruct (lease_active now job) eqn:Hact; [done|].
  destruct (_ || _) eqn:Hdue; [|done].
  destruct (lease_generation_next (sj_lease_generation job)) as [g|] eqn:Hg; [|done].
  intros [= <- <-]. destruct (Hwf _ _ Hkey) as (Hk & Hgen & Hstatus).
  apply lease_generation_next_Some in Hg as [-> Hlt]; [|done]. unfold claims_row. simpl.
  rewrite Hkey. simpl. split_and!; try done; try lia.
  rewrite (alter_present _ _ _ _ Hkey). eexists. split_and!; try done.
  unfold job_row_wf. simpl. split_and!; try done. ranges. lia.
Qed.

Lemma manual_claim_refusal_None kind lane now overdue job :
  manual_claim_refusal kind lane now overdue job = None -> lease_active now job = false.
Proof.
  unfold manual_claim_refusal, lease_lane_claim_decision, lease_lane_claim_body.
  destruct (lease_active now job); [|done]. by case_bool_decide.
Qed.

Lemma claim_manual_claims enc jobs adm kind id caller now until overdue limits lane j jobs' adm' :
  jobs_wf jobs ->
  claim_settlement_job_transaction enc jobs adm kind id caller now until overdue limits lane
    = Ok (Manual_Claimed j, jobs', adm') ->
  claims_row jobs now until lane j jobs' /\
  active_leases jobs now lane < SettlementLeaseLane_capacity lane.
Proof.
  intros Hwf. unfold claim_settlement_job_transaction.
  destruct (jobs !! job_key kind id ≫= _) as [o|] eqn:Href.
  { unfold manual_claim_refusal in Href. destruct (jobs !! _); simplify_eq/=.
    repeat case_match; simplify_eq; done. }
  unfold lease_lane_claim_decision, lease_lane_claim_body. rewrite Z.geb_leb.
  destruct (Z.leb_spec (SettlementLeaseLane_capacity lane) (active_leases jobs now lane)); [done|].
  destruct (match limits with Some _ => _ | None => _ end) as [[admission|retry]|]; [|done..].
  destruct (checked_add _ _ _) as [g|] eqn:Hg; [|done]. simpl. case_match; [done|].
  intros [= <- <- <-]. split; [|done]. apply checked_add_Some in Hg as [Hle ->].
  unfold claims_row. simpl. split_and!; try done; try lia.
  - destruct (jobs !! job_key kind id) as [job|]; [|done]. simpl in *.
    by eapply manual_claim_refusal_None.
  - eexists. split_and!; try done. unfold job_row_wf. simpl. split_and!; try done. ranges.
    split; [|done]. destruct (jobs !! job_key kind id) as [job|] eqn:Hkey; simpl; [|lia].
    destruct (Hwf _ _ Hkey) as (_ & ? & _). ranges. lia.
Qed.

(** ** Capacity *)

Lemma active_leases_insert jobs now lane key row :
  active_leases (<[key := row]> jobs) now lane <= active_leases jobs now lane + 1.
Proof.
  unfold active_leases. set (P := fun '(_, job) => _).
  assert (size (filter P (<[key := row]> jobs)) <= S (size (filter P jobs)))%nat; [|lia].
  destruct (decide (P (key, row))) as [HP|HP].
  - rewrite map_filter_insert_True by done. rewrite map_size_insert.
    destruct (filter P jobs !! key); unfold id; lia.
  - rewrite map_filter_insert_False by done.
    etrans; [|apply Nat.le_succ_diag_r]. apply map_subseteq_size.
    apply map_filter_subseteq_mono, delete_subseteq.
Qed.

(** C37 (exclusive claims).  Every way of claiming a job, automatic, for one
    record, or by hand in either lane, takes only a job whose lease is not
    active, gives it the next generation and the requested deadline in the
    claim's own lane, changes no other row, and leaves at most the lane's
    capacity of active leases (the configured maximum for the automatic one). *)
Theorem claims_exclusive enc jobs adm now until max kind id caller overdue limits lane :
  jobs_wf jobs ->
  (forall j jobs',
     claim_due_settlement_job jobs now until max = Ok (Claim_Claimed j, jobs') ->
     claims_row jobs now until Lane_Automatic j jobs' /\
     active_leases jobs' now Lane_Automatic <= max) /\
  (forall j jobs',
     claim_specific_due_settlement_job jobs kind id now until = Ok (Claim_Claimed j, jobs') ->
     claims_row jobs now until Lane_Automatic j jobs') /\
  (forall j jobs' adm',
     claim_settlement_job_transaction enc jobs adm kind id caller now until overdue limits lane
       = Ok (Manual_Claimed j, jobs', adm') ->
     claims_row jobs now until lane j jobs' /\
     active_leases jobs' now lane <= SettlementLeaseLane_capacity lane).
Proof.
  intros Hwf. split_and!; intros j jobs'.
  - intros H. pose proof (claim_due_claims _ _ _ _ _ _ Hwf H) as Hc. split; [done|].
    destruct Hc as (_ & _ & _ & _ & _ & _ & row & -> & _).
    pose proof (active_leases_insert jobs now Lane_Automatic
                  (job_key (sj_kind j) (sj_settlement_id j)) row).
    unfold claim_due_settlement_job in H. case_match; [done|].
    destruct (_ >=? max) eqn:Hmax; [by case_match|]. reflect. lia.
  - by apply claim_specific_claims.
  - intros adm' H. destruct (claim_manual_claims _ _ _ _ _ _ _ _ _ _ _ _ _ _ Hwf H) as [Hc Hlt].
    split; [done|]. destruct Hc as (_ & _ & _ & _ & _ & _ & row & -> & _).
    pose proof (active_leases_insert jobs now lane
                  (job_key (sj_kind j) (sj_settlement_id j)) row). lia.
Qed.

(** ** Histories *)

Inductive JobOp :=
| J_enqueue (kind : SettlementJobKind) (id : bytes) (now : Z)
| J_claim_due (now until max : Z)
| J_claim_specific (kind : SettlementJobKind) (id : bytes) (now until : Z)
| J_claim_manual (kind : SettlementJobKind) (id caller : bytes) (now until overdue : Z)
    (limits : option SettlementQuotaLimits) (lane : SettlementLeaseLane)
| J_renew (job : SettlementJob) (now until : Z)
| J_finish (job : SettlementJob) (next : option Z) (attempts : Z)
    (stop : option (string * string)) (now : Z).

Record JobState := {
  js_jobs : Jobs;
  js_admission : SettlementAdmissionControl;
}.

Section history.
Context (enc : SettlementAdmissionControl -> bool).

(** One call: the claimed job, if any, and the next state. *)
Definition job_call (s : JobState) (op : JobOp) : option SettlementJob * JobState :=
  let to jobs := {| js_jobs := jobs; js_admission := js_admission s |} in
  match op with
  | J_enqueue kind id now => (None, to (enqueue_settlement_job (js_jobs s) kind id now))
  | J_claim_due now until max =>
      match claim_due_settlement_job (js_jobs s) now until max with
      | Ok (Claim_Claimed j, jobs) => (Some j, to jobs)
      | _ => (None, s)
      end
  | J_claim_specific kind id now until =>
      match claim_specific_due_settlement_job (js_jobs s) kind id now until with
      | Ok (Claim_Claimed j, jobs) => (Some j, to jobs)
      | _ => (None, s)
      end
  | J_claim_manual kind id caller now until overdue limits lane =>
      match claim_settlement_job_transaction enc (js_jobs s) (js_admission s) kind id caller
              now until overdue limits lane with
      | Ok (Manual_Claimed j, jobs, admission) =>
          (Some j, {| js_jobs := jobs; js_admission := admission |})
      | _ => (None, s)
      end
  | J_renew job now until => (None, to (renew_settlement_lease (js_jobs s) job now until).2)
  | J_finish job next attempts stop now =>
      (None, to (default (js_jobs s) (finish_job_row (js_jobs s) job next attempts stop now)))
  end.

Fixpoint job_history (s : JobState) (ops : list JobOp) : list SettlementJob * JobState :=
  match ops with
  | [] => ([], s)
  | op :: ops =>
      let '(claim, s') := job_call s op in
      let '(claims, s'') := job_history s' ops in
      (map_or claims (fun j => j :: claims) claim, s'')
  end.

(** The row of a job is there after every call. *)
Fixpoint row_kept (key : JobKey) (s : JobState) (ops : list JobOp) : Prop :=
  match ops with
  | [] => True
  | op :: ops => is_Some (js_jobs (job_call s op).2 !! key) /\ row_kept key (job_call s op).2 ops
  end.

End history.

(** ** Generations *)

Definition key_of (job : SettlementJob) : JobKey := job_key (sj_kind job) (sj_settlement_id job).

(** The number of claims of one job. *)
Definition claims_of (key : JobKey) (claims : list SettlementJob) : Z :=
  Z.of_nat (length (filter (fun j => key_of j = key) claims)).

Lemma claims_row_wf jobs now until lane j jobs' :
  jobs_wf jobs -> claims_row jobs now until lane j jobs' -> jobs_wf jobs'.
Proof.
  intros Hwf (_ & _ & _ & _ & _ & _ & row & -> & Hrow & _). by apply map_Forall_insert_2.
Qed.

Lemma claims_row_generation jobs now until lane j jobs' key row row' :
  claims_row jobs now until lane j jobs' -> jobs !! key = Some row -> jobs' !! key = Some row' ->
  sj_lease_generation row' = sj_lease_generation row + claims_of key [j].
Proof.
  intros (Hg & _ & _ & _ & _ & _ & new & -> & _ & _ & Hnew & _) Hkey. unfold claims_of.
  rewrite filter_cons. destruct (decide (key_of j = key)) as [<-|Hne]; simpl.
  - unfold key_of in *. rewrite lookup_insert_eq. rewrite Hkey in Hg. simpl in Hg.
    intros [= <-]. lia.
  - rewrite lookup_insert_ne, Hkey by done. intros [= ->]. lia.
Qed.

Lemma with_lease_until_wf key row until now :
  job_row_wf key row -> sj_status row = Job_Leased -> job_row_wf key (with_lease_until row until now).
Proof. intros (? & ? & Hst) Hs. rewrite Hs in Hst. unfold job_row_wf. simpl. rewrite Hs. naive_solver. Qed.

Lemma finished_row_wf key row next attempts stop now row' :
  job_row_wf key row -> finished_row row next attempts stop now = Some row' ->
  job_row_wf key row' /\ sj_lease_generation row' = sj_lease_generation row.
Proof.
  intros (? & ? & _) Hfin. unfold finished_row in Hfin.
  repeat case_match; simplify_eq; unfold job_row_wf; simpl; split_and!; eauto.
Qed.

(** The row a fence has just accepted. *)
Lemma holds_lease_true jobs job :
  holds_lease jobs job = true <->
  exists row, jobs !! key_of job = Some row /\ sj_status row = Job_Leased /\
    sj_lease_generation row = sj_lease_generation job.
Proof.
  unfold holds_lease, leased_generation, key_of. rewrite bool_decide_eq_true.
  destruct (jobs !! _) as [row|]; simpl; [|split; [done|by intros (? & ? & _)]].
  case_bool_decide; split.
  - intros [= ?]. eauto.
  - intros (? & [= <-] & _ & ->). done.
  - done.
  - by intros (? & [= <-] & ? & _).
Qed.

(** What a call may do to the row of [key]: it gains one generation per claim. *)
Definition row_steps (key : JobKey) (row : SettlementJob) (claims : list SettlementJob)
    (jobs' : Jobs) : Prop :=
  jobs_wf jobs' /\
  forall row', jobs' !! key = Some row' ->
    sj_lease_generation row' = sj_lease_generation row + claims_of key claims.

Lemma row_steps_same key row jobs :
  jobs_wf jobs -> jobs !! key = Some row -> row_steps key row [] jobs.
Proof. intros Hwf Hrow. split; [done|]. intros row'. rewrite Hrow. intros [= ->]. unfold claims_of. simpl. lia. Qed.

Lemma row_steps_update key row jobs k new :
  jobs_wf jobs -> jobs !! key = Some row -> job_row_wf k new ->
  (forall old, jobs !! k = Some old -> sj_lease_generation new = sj_lease_generation old) ->
  row_steps key row [] (<[k := new]> jobs).
Proof.
  intros Hwf Hrow Hnew Hgen. split; [by apply map_Forall_insert_2|]. intros row'.
  unfold claims_of. simpl. destruct (decide (k = key)) as [->|].
  - rewrite lookup_insert_eq. intros [= <-]. rewrite (Hgen _ Hrow). lia.
  - rewrite lookup_insert_ne, Hrow by done. intros [= ->]. lia.
Qed.

Lemma row_steps_delete key row jobs k :
  jobs_wf jobs -> jobs !! key = Some row -> row_steps key row [] (delete k jobs).
Proof.
  intros Hwf Hrow. split; [by apply map_Forall_delete|]. intros row' Hr.
  apply lookup_delete_Some in Hr as [_ Hr]. unfold claims_of. simpl. simplify_map_eq. lia.
Qed.

Lemma row_steps_claim key row jobs now until lane j jobs' :
  jobs_wf jobs -> jobs !! key = Some row -> claims_row jobs now until lane j jobs' ->
  row_steps key row [j] jobs'.
Proof.
  intros Hwf Hrow Hc. split; [by eapply claims_row_wf|]. intros row'.
  by eapply claims_row_generation.
Qed.

Lemma row_steps_finish key row jobs job next attempts stop now jobs' :
  jobs_wf jobs -> jobs !! key = Some row ->
  finish_job_row jobs job next attempts stop now = Some jobs' -> row_steps key row [] jobs'.
Proof.
  intros Hwf Hrow. unfold finish_job_row. destruct (holds_lease jobs job) eqn:Hh; [|done].
  apply holds_lease_true in Hh as (old & Hold & _). intros [= <-]. unfold key_of in Hold.
  destruct (finished_row old next attempts stop now) as [new|] eqn:Hfin.
  - pose proof (finished_row_wf _ _ _ _ _ _ _ (Hwf _ _ Hold) Hfin) as [Hnew Hgen].
    replace (partial_alter _ _ jobs) with (<[job_key (sj_kind job) (sj_settlement_id job) := new]> jobs).
    + apply row_steps_update; try done. intros o. rewrite Hold. by intros [= <-].
    + apply partial_alter_ext. intros o. rewrite Hold. intros <-. simpl. by rewrite Hfin.
  - replace (partial_alter _ _ jobs) with (delete (job_key (sj_kind job) (sj_settlement_id job)) jobs).
    + by apply row_steps_delete.
    + apply partial_alter_ext. intros o. rewrite Hold. intros <-. simpl. by rewrite Hfin.
Qed.

Lemma job_call_row enc s op key row :
  jobs_wf (js_jobs s) -> js_jobs s !! key = Some row ->
  row_steps key row (option_list (job_call enc s op).1) (js_jobs (job_call enc s op).2).
Proof.
  intros Hwf Hrow. pose proof (row_steps_same _ _ _ Hwf Hrow) as Hsame.
  destruct op as [kind id now|now until max|kind id now until
    |kind id caller now until overdue limits lane|job now until|job next attempts stop now]; simpl.
  - apply row_steps_update; try done.
    + unfold job_row_wf. simpl. split_and!; try done.
      destruct (js_jobs s !! job_key kind id) as [old|] eqn:Hold; simpl; [|ranges; lia].
      by destruct (Hwf _ _ Hold) as (_ & ? & _).
    + simpl. by intros old ->.
  - destruct (claim_due_settlement_job _ _ _ _) as [[[j| |] jobs']|] eqn:Hc; try done.
    eapply row_steps_claim; try done. by eapply claim_due_claims.
  - destruct (claim_specific_due_settlement_job _ _ _ _ _) as [[[j| |] jobs']|] eqn:Hc; try done.
    eapply row_steps_claim; try done. by eapply claim_specific_claims.
  - destruct (claim_settlement_job_transaction _ _ _ _ _ _ _ _ _ _ _)
      as [[[[j| | |] jobs'] adm']|] eqn:Hc; try done.
    eapply row_steps_claim; try done. by eapply claim_manual_claims.
  - unfold renew_settlement_lease. destruct (holds_lease (js_jobs s) job) eqn:Hh; [|done]. simpl.
    apply holds_lease_true in Hh as (old & Hold & Hst & _). unfold key_of in Hold.
    rewrite (alter_present _ _ _ _ Hold). apply row_steps_update; try done.
    + apply with_lease_until_wf; [by apply Hwf|done].
    + intros o. rewrite Hold. by intros [= <-].
  - destruct (finish_job_row _ _ _ _ _ _) as [jobs'|] eqn:Hfin; [|done].
    by eapply row_steps_finish.
Qed.

Lemma job_history_generation enc s ops key row :
  jobs_wf (js_jobs s) -> js_jobs s !! key = Some row -> row_kept enc key s ops ->
  exists row', js_jobs (job_history enc s ops).2 !! key = Some row' /\
    sj_lease_generation row' =
      sj_lease_generation row + claims_of key (job_history enc s ops).1.
Proof.
  revert s row. induction ops as [|op ops IH]; intros s row Hwf Hrow; simpl.
  - intros _. exists row. unfold claims_of. simpl. split; [done|lia].
  - intros [[mid Hmid] Hkept].
    destruct (job_call_row enc s op key row Hwf Hrow) as [Hwf' Hgen]. specialize (Hgen _ Hmid).
    destruct (IH _ _ Hwf' Hmid Hkept) as (row' & Hrow' & Hgen').
    destruct (job_call enc s op) as [claim s']. simpl in *.
    destruct (job_history enc s' ops) as [claims s'']. simpl in *.
    exists row'. split; [done|]. rewrite Hgen', Hgen. unfold claims_of.
    destruct claim as [j|]; simpl; [|lia]. rewrite !filter_cons. case_decide; simpl; lia.
Qed.

(** C38 (fencing).  Once a job has been claimed again, the earlier holder can do
    nothing with it, whatever happened in between, as long as the job's row was
    not removed: its lease is not current, renewing it changes nothing and its
    outcome is not recorded. *)
Theorem stale_lease_fenced enc s job ops next attempts stop now until :
  jobs_wf (js_jobs s) -> holds_lease (js_jobs s) job = true ->
  row_kept enc (key_of job) s ops ->
  0 < claims_of (key_of job) (job_history enc s ops).1 ->
  let jobs := js_jobs (job_history enc s ops).2 in
  settlement_lease_is_current jobs job = false /\
  renew_settlement_lease jobs job now until = (false, job, jobs) /\
  finish_job_row jobs job next attempts stop now = None.
Proof.
  intros Hwf Hhold Hkept Hclaimed jobs.
  apply holds_lease_true in Hhold as (row & Hrow & _ & Hgen).
  destruct (job_history_generation _ _ _ _ _ Hwf Hrow Hkept) as (row' & Hrow' & Hgen').
  fold jobs in Hrow'. clearbody jobs.
  assert (holds_lease jobs job = false) as Hno.
  { destruct (holds_lease jobs job) eqn:Hh; [|done].
    apply holds_lease_true in Hh as (r & Hr & _ & Heq). rewrite Hrow' in Hr. simplify_eq. lia. }
  unfold renew_settlement_lease, finish_job_row. rewrite Hno. split_and!; try done.
  unfold settlement_lease_is_current, leased_generation, lease_outcome_decision, key_of in *.
  rewrite Hrow'. simpl. case_bool_decide; simpl; [|done].
  destruct (Z.eqb_spec (sj_lease_generation row') (sj_lease_generation job)); [lia|done].
Qed.

(** A deposit job due at 5, claimed at 10 until 40. *)
Definition ex_job_state : JobState :=
  (job_history (fun _ => true) {| js_jobs := ∅; js_admission := SettlementAdmissionControl_default |}
     [J_enqueue Job_Deposit [7] 5; J_claim_due 10 40 4]).2.

Definition ex_first_claim : SettlementJob := claimed_job Job_Deposit [7] 0 1 Lane_Automatic 40 10.

Lemma ex_job_state_wf : jobs_wf (js_jobs ex_job_state).
Proof.
  assert (js_jobs ex_job_state = {[ (0, [7]) := ex_first_claim ]}) as -> by (vm_compute; reflexivity).
  apply map_Forall_singleton. unfold job_row_wf. simpl. ranges.
  split_and!; [reflexivity|lia|lia|done|eauto].
Qed.

Lemma stale_lease_fenced_witness :
  let ops := [J_claim_due 50 80 4] in
  let jobs := js_jobs (job_history (fun _ => true) ex_job_state ops).2 in
  settlement_lease_is_current jobs ex_first_claim = false /\
  finish_job_row jobs ex_first_claim None 0 None 60 = None.
Proof.
  intros ops jobs.
  destruct (stale_lease_fenced (fun _ => true) ex_job_state ex_first_claim ops None 0 None 60 0)
    as (H1 & _ & H3); [apply ex_job_state_wf|vm_compute; reflexivity| |vm_compute; reflexivity|].
  - split; [|exact I]. vm_compute. eauto.
  - split; [exact H1|exact H3].
Defined.

Lemma claims_exclusive_witness :
  exists j jobs', claim_due_settlement_job (js_jobs ex_job_state) 50 80 4
                  = Ok (Claim_Claimed j, jobs') /\
    sj_lease_generation j = 2 /\ active_leases jobs' 50 Lane_Automatic <= 4.
Proof.
  destruct (claims_exclusive (fun _ => true) (js_jobs ex_job_state)
    SettlementAdmissionControl_default 50 80 4 Job_Deposit [7] [1] 0 None Lane_PublicManual
    ex_job_state_wf) as (Hdue & _ & _).
  do 2 eexists. split; [vm_compute; reflexivity|]. split; [vm_compute; reflexivity|].
  eapply Hdue. vm_compute. reflexivity.
Defined.


(** ** The order of due jobs *)

Lemma bytes_geb_refl a : bytes_geb a a = true.
Proof. induction a as [|x a IH]; simpl; [done|]. by rewrite Z.eqb_refl. Qed.

Lemma bytes_geb_total a b : bytes_geb a b = true \/ bytes_geb b a = true.
Proof.
  revert b. induction a as [|x a IH]; intros [|y b]; simpl; auto.
  destruct (Z.eqb_spec x y) as [->|]; [rewrite Z.eqb_refl; apply IH|].
  destruct (Z.eqb_spec y x); [lia|]. reflect. lia.
Qed.

Lemma bytes_geb_trans a b c : bytes_geb a b = true -> bytes_geb b c = true -> bytes_geb a c = true.
Proof.
  revert b c. induction a as [|x a IH]; intros [|y b] [|z c]; simpl; try done.
  destruct (Z.eqb_spec x y), (Z.eqb_spec y z), (Z.eqb_spec x z); reflect; try lia; eauto.
Qed.

Lemma due_le_total a b : due_le a b = true \/ due_le b a = true.
Proof.
  unfold due_le. rewrite (Z.eqb_sym (dsc_deadline_ns b)).
  rewrite (Z.eqb_sym (SettlementJobKind_sql (dsc_kind b))).
  destruct (Z.eqb_spec (dsc_deadline_ns a) (dsc_deadline_ns b)); [|reflect; lia].
  destruct (Z.eqb_spec (SettlementJobKind_sql (dsc_kind a)) (SettlementJobKind_sql (dsc_kind b)));
    [apply bytes_geb_total|reflect; lia].
Qed.

Lemma due_le_trans a b c : due_le a b = true -> due_le b c = true -> due_le a c = true.
Proof.
  unfold due_le.
  set (ka := SettlementJobKind_sql (dsc_kind a)). set (kb := SettlementJobKind_sql (dsc_kind b)).
  set (kc := SettlementJobKind_sql (dsc_kind c)).
  destruct (Z.eqb_spec (dsc_deadline_ns a) (dsc_deadline_ns b)),
    (Z.eqb_spec (dsc_deadline_ns b) (dsc_deadline_ns c)),
    (Z.eqb_spec (dsc_deadline_ns a) (dsc_deadline_ns c)); reflect; try lia.
  destruct (Z.eqb_spec ka kb), (Z.eqb_spec kb kc), (Z.eqb_spec ka kc); reflect; try lia.
  intros. by eapply bytes_geb_trans.
Qed.

Lemma due_le_refl a : due_le a a = true.
Proof. by destruct (due_le_total a a). Qed.

Lemma due_min_Some a b : exists m, due_min a b = Some m /\ due_le m a = true /\
  (forall x, b = Some x -> due_le m x = true) /\ (m = a \/ b = Some m).
Proof.
  destruct b as [b|]; simpl.
  - destruct (due_le a b) eqn:Hab.
    + exists a. split_and!; auto using due_le_refl. by intros ? [= <-].
    + exists b. destruct (due_le_total a b); [congruence|].
      split_and!; auto. intros ? [= <-]. apply due_le_refl.
  - exists a. split_and!; auto using due_le_refl. done.
Qed.

Lemma foldr_due_min l :
  match foldr due_min None l with
  | Some m => m ∈ l /\ forall x, x ∈ l -> due_le m x = true
  | None => l = []
  end.
Proof.
  induction l as [|a l IH]; simpl; [done|].
  destruct (due_min_Some a (foldr due_min None l)) as (m & -> & Hma & Hmb & Hin).
  destruct (foldr due_min None l) as [b|].
  - destruct IH as [Hb IH]. split; [destruct Hin as [->|[= ->]]; set_solver|].
    intros x [->|Hx]%elem_of_cons; [done|]. eapply due_le_trans; [by apply Hmb|auto].
  - subst l. split; [destruct Hin as [->|]; [set_solver|done]|].
    intros x [->|Hx]%elem_of_cons; [done|set_solver].
Qed.

(** The due jobs: scheduled ones whose time has come and leases that ran out. *)
Definition is_due (jobs : Jobs) (now : Z) (c : DueSettlementCandidate) : Prop :=
  exists key job, jobs !! key = Some job /\
    (due_candidate Job_Scheduled sj_next_run_at_ns now job = Some c \/
     due_candidate Job_Leased sj_lease_until_ns now job = Some c).

Lemma query_due_min status deadline jobs now :
  match query_due_settlement_candidate status deadline jobs now with
  | Some m => forall key job c, jobs !! key = Some job ->
      due_candidate status deadline now job = Some c -> due_le m c = true
  | None => forall key job, jobs !! key = Some job -> due_candidate status deadline now job = None
  end.
Proof.
  unfold query_due_settlement_candidate.
  pose proof (foldr_due_min
    (omap (fun '(_, job) => due_candidate status deadline now job) (map_to_list jobs))) as H.
  destruct (foldr _ _ _) as [m|].
  - intros key job c Hkey Hc. apply H. apply list_elem_of_omap.
    exists (key, job). by rewrite elem_of_map_to_list.
  - intros key job Hkey. destruct (due_candidate _ _ _ _) as [c|] eqn:Hc; [|done].
    assert (c ∈ (@nil DueSettlementCandidate)); [|set_solver]. rewrite <- H.
    apply list_elem_of_omap. exists (key, job). by rewrite elem_of_map_to_list.
Qed.

Lemma due_choice_min jobs now :
  match map_or (query_due_settlement_candidate Job_Leased sj_lease_until_ns jobs now)
          (fun scheduled => due_min scheduled
             (query_due_settlement_candidate Job_Leased sj_lease_until_ns jobs now))
          (query_due_settlement_candidate Job_Scheduled sj_next_run_at_ns jobs now) with
  | Some m => is_due jobs now m /\ forall c, is_due jobs now c -> due_le m c = true
  | None => forall c, ~ is_due jobs now c
  end.
Proof.
  pose proof (query_due_min Job_Scheduled sj_next_run_at_ns jobs now) as Hs.
  pose proof (query_due_min Job_Leased sj_lease_until_ns jobs now) as He.
  pose proof (query_due_Some Job_Scheduled sj_next_run_at_ns jobs now) as Is.
  pose proof (query_due_Some Job_Leased sj_lease_until_ns jobs now) as Ie.
  destruct (query_due_settlement_candidate Job_Scheduled _ _ _) as [s|]; simpl.
  - destruct (due_min_Some s (query_due_settlement_candidate Job_Leased sj_lease_until_ns jobs now))
      as (m & -> & Hms & Hme & Hin).
    split; [destruct Hin as [->|Hin]; [destruct (Is _ eq_refl)|destruct (Ie _ Hin)];
      open_hyps; do 2 eexists; eauto|].
    intros c (key & job & Hkey & [Hc|Hc]); [apply (due_le_trans m s c); eauto|].
    destruct (query_due_settlement_candidate Job_Leased _ _ _) as [e|];
      [apply (due_le_trans m e c); eauto|by rewrite (He _ _ Hkey) in Hc].
  - destruct (query_due_settlement_candidate Job_Leased _ _ _) as [e|].
    + split; [destruct (Ie _ eq_refl); open_hyps; do 2 eexists; eauto|].
      intros c (key & job & Hkey & [Hc|Hc]); [by rewrite (Hs _ _ Hkey) in Hc|eauto].
    + intros c (key & job & Hkey & [Hc|Hc]);
        [by rewrite (Hs _ _ Hkey) in Hc|by rewrite (He _ _ Hkey) in Hc].
Qed.

(** Due order.  Below the configured number of active leases the automatic
    claim takes the earliest due job (by deadline, then kind, then identifier),
    and it finds nothing exactly when no job is due. *)
Theorem claim_due_earliest jobs now until max :
  max <> 0 -> active_leases jobs now Lane_Automatic < max ->
  (claim_due_settlement_job jobs now until max = Ok (Claim_None, jobs) <->
   forall c, ~ is_due jobs now c) /\
  (forall j jobs',
     claim_due_settlement_job jobs now until max = Ok (Claim_Claimed j, jobs') ->
     exists m, is_due jobs now m /\ key_of j = job_key (dsc_kind m) (dsc_settlement_id m) /\
       forall c, is_due jobs now c -> due_le m c = true).
Proof.
  intros Hmax Hlt. unfold claim_due_settlement_job.
  destruct (Z.eqb_spec max 0); [done|]. rewrite Z.geb_leb.
  destruct (Z.leb_spec max (active_leases jobs now Lane_Automatic)); [lia|].
  pose proof (due_choice_min jobs now) as Hmin. cbv zeta.
  destruct (map_or _ _ _) as [m|]; [|split; done].
  destruct Hmin as [Hm Hmin]. split.
  - split; [by destruct (ok_or _ _)|]. intros H'. exfalso. by apply (H' m).
  - intros j jobs'. destruct (ok_or _ _); [|done]. intros [= <- _]. eauto.
Qed.

Lemma claim_due_earliest_witness :
  let jobs :=
    enqueue_settlement_job (enqueue_settlement_job ∅ Job_Deposit [7] 9) Job_FeePayout [3] 5 in
  exists j jobs', claim_due_settlement_job jobs 10 40 4 = Ok (Claim_Claimed j, jobs') /\
    sj_kind j = Job_FeePayout /\
    exists m, key_of j = job_key (dsc_kind m) (dsc_settlement_id m) /\
      forall c, is_due jobs 10 c -> due_le m c = true.
Proof.
  intros jobs. do 2 eexists. split; [vm_compute; reflexivity|]. split; [reflexivity|].
  destruct (claim_due_earliest jobs 10 40 4) as [_ H]; [lia|vm_compute; reflexivity|].
  edestruct H as (m & _ & Hkey & Hmin); [vm_compute; reflexivity|].
  exists m. split; [exact Hkey|exact Hmin].
Defined.
