(* ===== verification/Notifications.v ===== *)
(** * Notification admission

    The quotas [storage/mod.rs] keeps for withdrawal notifications and owner
    consents ([consume_notification_verification_quota],
    [prepare_notification_ingestion_quota], [consume_consent_quota]) and the
    cooldown of transactions that failed verification.  [encode] says whether a
    value can be written. *)

From S2P Require Import Prelude KernelArith StorageTypes Jobs.

Record NotificationFailureCooldown := {
  nfc_transaction_hash : bytes;
  nfc_retry_after_ns : Z;
}.

#[export] Instance NotificationFailureCooldown_eq_dec : EqDecision NotificationFailureCooldown.
Proof. solve_decision. Defined.

Record NotificationAdmissionControl := {
  nac_window_id : Z;
  nac_public_verification_count : Z;
  nac_protected_verification_count : Z;
  nac_ingestion_count : Z;
  nac_consent_count : Z;
  nac_failed_transactions : list NotificationFailureCooldown;
}.

Definition NotificationAdmissionControl_default : NotificationAdmissionControl :=
  {| nac_window_id := 0; nac_public_verification_count := 0;
     nac_protected_verification_count := 0; nac_ingestion_count := 0; nac_consent_count := 0;
     nac_failed_transactions := [] |}.

Record ConsentAdmissionControl := {
  cac_window_id : Z;
  cac_caller_counts : QuotaCounts;
}.

(** The counts as the window sees them; cooldowns outlive the window. *)
Definition enter_notification_window (admission : NotificationAdmissionControl) (window_id : Z)
    : NotificationAdmissionControl :=
  if nac_window_id admission =? window_id then admission
  else {| nac_window_id := window_id; nac_public_verification_count := 0;
          nac_protected_verification_count := 0; nac_ingestion_count := 0;
          nac_consent_count := 0;
          nac_failed_transactions := nac_failed_transactions admission |}.

Definition notification_window_ns (window_seconds : Z) : Z :=
  saturating_mul u64_max window_seconds 1000000000.

Definition u16_increment (n : Z) : Result StorageError Z :=
  ok_or (checked_add u16_max n 1) CounterOverflow.

Section quotas.
Context (encode : NotificationAdmissionControl -> Result StorageError unit).

Definition encoded (admission : NotificationAdmissionControl)
    : Result StorageError NotificationAdmissionControl :=
  let? _ := encode admission in Ok admission.

Definition consume_notification_verification_quota
    (admission : NotificationAdmissionControl) (now_ns window_seconds global_limit caller_count
      caller_limit : Z) (protected_lane : bool)
    : Result StorageError (bool * NotificationAdmissionControl) :=
  let window_ns := notification_window_ns window_seconds in
  if (window_ns =? 0) || (global_limit =? 0) || (caller_limit =? 0) then Err DecodeFailed
  else
    let current := enter_notification_window admission (now_ns / window_ns) in
    let protected_limit := Z.min global_limit 6 in
    let public_limit := saturating_sub global_limit protected_limit in
    let '(lane_count, lane_limit) :=
      if protected_lane then (nac_protected_verification_count current, protected_limit)
      else (nac_public_verification_count current, public_limit) in
    if negb (notification_admission_allowed lane_count caller_count lane_limit caller_limit)
    then Ok (false, admission)
    else
      let? count := u16_increment lane_count in
      let? next :=
        encoded
          {| nac_window_id := nac_window_id current;
             nac_public_verification_count :=
               if protected_lane then nac_public_verification_count current else count;
             nac_protected_verification_count :=
               if protected_lane then count else nac_protected_verification_count current;
             nac_ingestion_count := nac_ingestion_count current;
             nac_consent_count := nac_consent_count current;
             nac_failed_transactions := nac_failed_transactions current |} in
      Ok (true, next).

Definition prepare_notification_ingestion_quota
    (admission : NotificationAdmissionControl) (now_ns window_seconds ingestion_limit : Z)
    : Result StorageError NotificationAdmissionControl :=
  let window_ns := notification_window_ns window_seconds in
  if (window_ns =? 0) || (ingestion_limit =? 0) then Err DecodeFailed
  else
    let current := enter_notification_window admission (now_ns / window_ns) in
    if negb (notification_ingestion_allowed (nac_ingestion_count current) ingestion_limit)
    then Err NotificationRateLimited
    else
      let? count := u16_increment (nac_ingestion_count current) in
      encoded
        {| nac_window_id := nac_window_id current;
           nac_public_verification_count := nac_public_verification_count current;
           nac_protected_verification_count := nac_protected_verification_count current;
           nac_ingestion_count := count;
           nac_consent_count := nac_consent_count current;
           nac_failed_transactions := nac_failed_transactions current |}.

Definition consume_notification_ingestion_quota
    (admission : NotificationAdmissionControl) (now_ns window_seconds ingestion_limit : Z)
    : Result StorageError (bool * NotificationAdmissionControl) :=
  let window_ns := notification_window_ns window_seconds in
  if (window_ns =? 0) || (ingestion_limit =? 0) then Err DecodeFailed
  else
    match prepare_notification_ingestion_quota admission now_ns window_seconds ingestion_limit with
    | Ok next => Ok (true, next)
    | Err NotificationRateLimited => Ok (false, admission)
    | Err error => Err error
    end.

(** [iter().position(..)]: count the entry found, or push a new one. *)
Fixpoint consent_bump (caller : bytes) (counts : QuotaCounts)
    : Result StorageError QuotaCounts :=
  match counts with
  | [] => Ok [(caller, 1)]
  | (key, count) :: counts =>
      if bool_decide (key = caller) then
        let? count := u16_increment count in Ok ((key, count) :: counts)
      else
        let? counts := consent_bump caller counts in Ok ((key, count) :: counts)
  end.

Definition consume_consent_quota
    (encode_consent : ConsentAdmissionControl -> Result StorageError unit)
    (admission : NotificationAdmissionControl) (consent : ConsentAdmissionControl)
    (caller : bytes) (now_ns window_seconds limit caller_limit : Z)
    : Result StorageError
        (bool * NotificationAdmissionControl * ConsentAdmissionControl) :=
  let window_ns := notification_window_ns window_seconds in
  if (window_ns =? 0) || (limit =? 0) || (limit >? 200) || (caller_limit =? 0)
  then Err DecodeFailed
  else
    let window_id := now_ns / window_ns in
    let current := enter_notification_window admission window_id in
    let callers :=
      if cac_window_id consent =? window_id then cac_caller_counts consent else [] in
    if negb (notification_admission_allowed (nac_consent_count current)
               (quota_count caller callers) limit caller_limit)
    then Ok (false, admission, consent)
    else
      let? callers :=
        if negb (existsb (fun '(key, _) => bool_decide (key = caller)) callers)
           && (Z.of_nat (length callers) >=? limit)
        then Err CounterOverflow
        else consent_bump caller callers in
      let? count := u16_increment (nac_consent_count current) in
      let? next :=
        encoded
          {| nac_window_id := nac_window_id current;
             nac_public_verification_count := nac_public_verification_count current;
             nac_protected_verification_count := nac_protected_verification_count current;
             nac_ingestion_count := nac_ingestion_count current;
             nac_consent_count := count;
             nac_failed_transactions := nac_failed_transactions current |} in
      let next_consent := {| cac_window_id := window_id; cac_caller_counts := callers |} in
      let? _ := encode_consent next_consent in
      Ok (true, next, next_consent).

(** ** Cooldowns *)

Definition notification_cooldown_active
    (admission : NotificationAdmissionControl) (transaction_hash : bytes) (now_ns : Z) : bool :=
  existsb (fun entry =>
    notification_failure_cooldown_active
      (bool_decide (nfc_transaction_hash entry = transaction_hash)) now_ns
      (nfc_retry_after_ns entry)) (nac_failed_transactions admission).

Definition MAX_FAILURE_COOLDOWNS : Z := 4096.

(** [iter_mut().find(..)] with its update; [None] when no entry matches. *)
Fixpoint extend_cooldown (transaction_hash : bytes) (retry_after_ns : Z)
    (entries : list NotificationFailureCooldown) : option (list NotificationFailureCooldown) :=
  match entries with
  | [] => None
  | entry :: entries =>
      if bool_decide (nfc_transaction_hash entry = transaction_hash) then
        Some ({| nfc_transaction_hash := nfc_transaction_hash entry;
                 nfc_retry_after_ns := Z.max (nfc_retry_after_ns entry) retry_after_ns |}
              :: entries)
      else
        (fun entries => entry :: entries)
          <$> extend_cooldown transaction_hash retry_after_ns entries
  end.

(** [enumerate().min_by_key(..)]: the first entry with the least deadline. *)
Fixpoint oldest_cooldown (entries : list NotificationFailureCooldown) : option (nat * Z) :=
  match entries with
  | [] => None
  | entry :: entries =>
      match oldest_cooldown entries with
      | Some (index, least) =>
          if nfc_retry_after_ns entry <=? least then Some (0%nat, nfc_retry_after_ns entry)
          else Some (S index, least)
      | None => Some (0%nat, nfc_retry_after_ns entry)
      end
  end.

(** [Vec::swap_remove]: the last element takes the place of the removed one. *)
Definition swap_remove (index : nat) (entries : list NotificationFailureCooldown)
    : list NotificationFailureCooldown :=
  match last entries with
  | Some entry => take (length entries - 1) (<[index := entry]> entries)
  | None => entries
  end.

Definition record_notification_failure_cooldown
    (admission : NotificationAdmissionControl) (transaction_hash : bytes)
    (now_ns cooldown_ns : Z) : Result StorageError NotificationAdmissionControl :=
  let kept :=
    List.filter (fun entry => now_ns <? nfc_retry_after_ns entry)
      (nac_failed_transactions admission) in
  let retry_after_ns := saturating_add u64_max now_ns cooldown_ns in
  let? entries :=
    match extend_cooldown transaction_hash retry_after_ns kept with
    | Some entries => Ok entries
    | None =>
        let? room :=
          if Z.of_nat (length kept) >=? MAX_FAILURE_COOLDOWNS then
            let? oldest := ok_or (oldest_cooldown kept) DatabaseFailure in
            Ok (swap_remove oldest.1 kept)
          else Ok kept in
        Ok (room ++ [{| nfc_transaction_hash := transaction_hash;
                        nfc_retry_after_ns := retry_after_ns |}])
    end in
  encoded
    {| nac_window_id := nac_window_id admission;
       nac_public_verification_count := nac_public_verification_count admission;
       nac_protected_verification_count := nac_protected_verification_count admission;
       nac_ingestion_count := nac_ingestion_count admission;
       nac_consent_count := nac_consent_count admission;
       nac_failed_transactions := entries |}.
End quotas.
