(* ===== verification/EventLog.v ===== *)
(** * The audit log

    [prepare_audit_batch], [commit_audit_batch] and [append_audit_event_at] of
    the storage layer ([storage/mod.rs], [storage/transaction.rs]).  Events are
    appended under consecutive sequence numbers; beyond a fixed number the oldest
    ones are dropped into a running digest.  The encoder of an event and SHA-256
    are parameters; the log does not inspect the kind of an event, so the
    theorems hold for any type of kinds. *)

From stdpp Require Import sorting.
From S2P Require Import Prelude KernelArith Types StorageTypes Tables.

Definition MAX_AUDIT_EVENTS : Z := 100000.
Definition MAX_AUDIT_BATCH : Z := 32.

(** [b"KINIC_BRIDGE_AUDIT_V1"]. *)
Definition AUDIT_DIGEST_DOMAIN : bytes :=
  [75; 73; 78; 73; 67; 95; 66; 82; 73; 68; 71; 69; 95; 65; 85; 68; 73; 84; 95; 86; 49].

Record AuditEvent (Kind : Type) := {
  ae_sequence : Z;
  ae_timestamp_ns : Z;
  ae_caller : bytes;
  ae_kind : Kind;
}.
Arguments Build_AuditEvent {Kind} _ _ _ _.

(** The kinds of event the canister records. *)
Inductive AuditEventKind :=
| Audit_DepositsPaused
| Audit_DepositsPauseRepeated
| Audit_DepositsResumed
| Audit_WithdrawalFeeGuardTripped (ledger_fee charged_service_fee : Z)
| Audit_WithdrawalFeeGuardCleared
| Audit_PausePrincipalRotated
| Audit_FeeRecipientRotated (previous_sha256 current_sha256 : bytes)
| Audit_FeePayoutRequested (amount : Z)
| Audit_EvmRpcObservation (evm_rpc_canister_id : bytes) (call_method : string)
    (request_digest quorum_response_digest : bytes) (finalized_block_number : Z)
    (finalized_block_hash : bytes) (transaction_hash : option bytes)
| Audit_EvmRpcDecision (kind operation : string)
    (configured_provider_count required_threshold : Z) (stop_reason : option string)
    (ledger_call_performed bridge_operation_continued deposits_paused
     automatically_resigned : bool) (transaction_hash : option bytes).

Record AuditRetentionState := {
  ars_pruned_count : Z;
  ars_pruned_through_sequence : option Z;
  ars_pruned_digest : bytes;
}.

Definition AuditRetentionState_default : AuditRetentionState :=
  {| ars_pruned_count := 0; ars_pruned_through_sequence := None;
     ars_pruned_digest := zeros 32 |}.

Record PreparedAuditBatch := {
  pab_events : list (Z * bytes);
  pab_retention : AuditRetentionState;
  pab_pruned_sequences : list Z;
}.

(** The first rows of the table in the order of their sequence numbers. *)
Definition oldest_events (events : gmap Z bytes) (limit : nat) : list (Z * bytes) :=
  omap (fun sequence => pair sequence <$> events !! sequence)
    (take limit (merge_sort Z.le (elements (dom events)))).

Section log.
Context {Kind : Type}.
Context (encode_event : AuditEvent Kind -> Result StorageError bytes).
Context (retention_encodes : AuditRetentionState -> bool).
Context (sha256 : bytes -> bytes).

(** The sequence numbers and blobs of a batch, and the next sequence number. *)
Fixpoint number_events (sequence timestamp_ns : Z) (caller : bytes) (kinds : list Kind)
    : Result StorageError (list (Z * bytes) * Z) :=
  match kinds with
  | [] => Ok ([], sequence)
  | kind :: kinds =>
      let? next := ok_or (audit_next sequence) CounterOverflow in
      let? blob := encode_event {| ae_sequence := sequence; ae_timestamp_ns := timestamp_ns;
                                   ae_caller := caller; ae_kind := kind |} in
      let? (events, last) := number_events next timestamp_ns caller kinds in
      Ok ((sequence, blob) :: events, last)
  end.

Definition audit_digest (digest : bytes) (sequence : Z) (blob : bytes) : bytes :=
  sha256 (AUDIT_DIGEST_DOMAIN ++ digest ++ to_be_bytes 8 sequence
            ++ to_be_bytes 8 (Z.of_nat (length blob)) ++ blob).

Definition prune_event (retention : AuditRetentionState) (event : Z * bytes)
    : Result StorageError AuditRetentionState :=
  let '(sequence, blob) := event in
  if negb (sequence =? ars_pruned_count retention)
  then Err (SequenceMismatch (ars_pruned_count retention))
  else
    let? pruned_count :=
      ok_or (checked_add u64_max (ars_pruned_count retention) 1) CounterOverflow in
    Ok {| ars_pruned_count := pruned_count;
          ars_pruned_through_sequence := Some sequence;
          ars_pruned_digest := audit_digest (ars_pruned_digest retention) sequence blob |}.

Fixpoint prune_events (retention : AuditRetentionState) (events : list (Z * bytes))
    : Result StorageError AuditRetentionState :=
  match events with
  | [] => Ok retention
  | event :: events =>
      let? retention := prune_event retention event in
      prune_events retention events
  end.

Definition prepare_audit_batch
    (audit_events : Table Z bytes) (retention : AuditRetentionState) (next_audit_sequence : Z)
    (caller : bytes) (timestamp_ns : Z) (kinds : list Kind)
    : Result StorageError (PreparedAuditBatch * Z) :=
  if Z.of_nat (length kinds) >? MAX_AUDIT_BATCH
  then Err (ValueTooLarge (Z.of_nat (length kinds)) MAX_AUDIT_BATCH)
  else
    let? (events, next_audit_sequence) :=
      number_events next_audit_sequence timestamp_ns caller kinds in
    let prune_count :=
      saturating_sub (t_count audit_events + Z.of_nat (length events)) MAX_AUDIT_EVENTS in
    let oldest := oldest_events (t_rows audit_events) (Z.to_nat prune_count) in
    if negb (Z.of_nat (length oldest) =? prune_count) then Err RecordNotFound
    else
      let? retention := prune_events retention oldest in
      if negb (retention_encodes retention) then Err EncodeFailed
      else Ok ({| pab_events := events; pab_retention := retention;
                  pab_pruned_sequences := oldest.*1 |}, next_audit_sequence).

Fixpoint insert_events (table : Table Z bytes) (events : list (Z * bytes))
    : Result DbError (Table Z bytes) :=
  match events with
  | [] => Ok table
  | (sequence, blob) :: events =>
      let? table := insert_tracked_entry table sequence blob in
      insert_events table events
  end.

Fixpoint delete_events (table : Table Z bytes) (sequences : list Z)
    : Result DbError (Table Z bytes) :=
  match sequences with
  | [] => Ok table
  | sequence :: sequences =>
      let? table := delete_tracked_entry table sequence in
      delete_events table sequences
  end.

Definition commit_audit_batch (table : Table Z bytes) (batch : PreparedAuditBatch)
    : Result DbError (Table Z bytes) :=
  let? table := insert_events table (pab_events batch) in
  delete_events table (pab_pruned_sequences batch).

(** ** The log as one state *)

Record AuditLog := {
  al_events : Table Z bytes;
  al_retention : AuditRetentionState;
  al_next_sequence : Z;
}.

(** A batch prepared and committed, as every bundle with an audit record does. *)
Definition append_audit_batch
    (log : AuditLog) (caller : bytes) (timestamp_ns : Z) (kinds : list Kind)
    : Result StorageError AuditLog :=
  let? (batch, next) :=
    prepare_audit_batch (al_events log) (al_retention log) (al_next_sequence log)
      caller timestamp_ns kinds in
  let? events := db (commit_audit_batch (al_events log) batch) in
  Ok {| al_events := events; al_retention := pab_retention batch; al_next_sequence := next |}.

(** Before one event is added to a full log, the oldest one leaves it. *)
Definition prune_oldest (log : AuditLog)
    : Result StorageError (AuditRetentionState * option Z) :=
  if t_count (al_events log) >=? MAX_AUDIT_EVENTS then
    let? oldest :=
      ok_or (head (oldest_events (t_rows (al_events log)) 1)) RecordNotFound in
    let? retention := prune_event (al_retention log) oldest in
    Ok (retention, Some oldest.1)
  else Ok (al_retention log, None).

Definition append_audit_event_at
    (log : AuditLog) (caller : bytes) (kind : Kind) (timestamp_ns : Z)
    : Result StorageError (AuditEvent Kind * AuditLog) :=
  let sequence := al_next_sequence log in
  let? next_audit_sequence := ok_or (audit_next sequence) CounterOverflow in
  let event := {| ae_sequence := sequence; ae_timestamp_ns := timestamp_ns;
                  ae_caller := caller; ae_kind := kind |} in
  let? event_blob := encode_event event in
  let? (retention, pruned) := prune_oldest log in
  if negb (retention_encodes retention) then Err EncodeFailed
  else
    let? inserted := db (insert_tracked_entry (al_events log) sequence event_blob) in
    let? events :=
      match pruned with
      | Some oldest_sequence => db (delete_tracked_entry inserted oldest_sequence)
      | None => Ok inserted
      end in
    Ok (event, {| al_events := events; al_retention := retention;
                  al_next_sequence := next_audit_sequence |}).
End log.

(** ** Contiguous tables *)

Abbreviation seq_table p l := (tabled (map_seqZ p l : gmap Z bytes)).

Lemma size_map_seqZ p (l : list bytes) : size (map_seqZ p l : gmap Z bytes) = length l.
Proof.
  rewrite <- length_map_to_list, map_to_list_seqZ, length_zip_with, length_seqZ. lia.
Qed.

Lemma seq_table_wf p l : Z.of_nat (length l) <= u64_max -> table_wf (seq_table p l).
Proof. intros. split; simpl; rewrite size_map_seqZ; done. Qed.

Lemma seqZ_StronglySorted p n : StronglySorted Z.le (seqZ p n).
Proof.
  unfold seqZ. generalize (Z.to_nat n) as k, 0%nat as s. induction k as [|k IH]; intros s; simpl;
    constructor; [apply IH|]. apply Forall_fmap, Forall_seq. intros. simpl. lia.
Qed.

Lemma sorted_keys_seq p (l : list bytes) :
  merge_sort Z.le (elements (dom (map_seqZ p l : gmap Z bytes))) = seqZ p (Z.of_nat (length l)).
Proof.
  apply (StronglySorted_unique Z.le).
  - apply StronglySorted_merge_sort; intros x y; lia.
  - apply seqZ_StronglySorted.
  - rewrite merge_sort_Permutation. apply NoDup_Permutation.
    + apply NoDup_elements.
    + apply NoDup_seqZ.
    + intros k. rewrite elem_of_elements, elem_of_dom, lookup_map_seqZ_is_Some, elem_of_seqZ. lia.
Qed.

Lemma seqZ_take p n k : (k <= Z.to_nat n)%nat -> take k (seqZ p n) = seqZ p (Z.of_nat k).
Proof.
  intros Hk. unfold seqZ. rewrite <- fmap_take, take_seq, Nat2Z.id.
  by rewrite Nat.min_l by lia.
Qed.

Lemma omap_lookup_zip (m : gmap Z bytes) ks vs :
  Forall2 (fun k v => m !! k = Some v) ks vs ->
  omap (fun k => pair k <$> m !! k) ks = zip ks vs.
Proof. induction 1 as [|k v ks vs Hkv _ IH]; csimpl; [done|]. rewrite Hkv. csimpl. by rewrite IH. Qed.

Lemma oldest_events_seq p l n :
  (n <= length l)%nat ->
  oldest_events (map_seqZ p l) n = zip (seqZ p (Z.of_nat n)) (take n l).
Proof.
  intros Hn. unfold oldest_events. rewrite sorted_keys_seq, seqZ_take by lia.
  apply omap_lookup_zip, Forall2_same_length_lookup_2.
  - rewrite length_seqZ, length_take. lia.
  - intros i k v Hk Hv. apply lookup_seqZ in Hk as [-> Hi].
    apply lookup_take_Some in Hv as [Hv _]. apply lookup_map_seqZ_Some. split; [lia|].
    by replace (Z.to_nat (p + Z.of_nat i - p)) with i by lia.
Qed.

Lemma insert_events_seq p l blobs :
  Z.of_nat (length l + length blobs) <= u64_max ->
  insert_events (seq_table p l)
    (zip (seqZ (p + Z.of_nat (length l)) (Z.of_nat (length blobs))) blobs)
  = Ok (seq_table p (l ++ blobs)).
Proof.
  revert l. induction blobs as [|b blobs IH]; intros l Hlen; simpl; [by rewrite app_nil_r|].
  rewrite seqZ_cons by lia. simpl.
  rewrite (proj2 (insert_tracked_entry_Ok (seq_table p l) (p + Z.of_nat (length l)) b
                    (seq_table p (l ++ [b])) (seq_table_wf p l ltac:(simpl in *; lia)))).
  - replace (Z.succ (p + Z.of_nat (length l))) with (p + Z.of_nat (length (l ++ [b])))
      by (rewrite length_app; simpl; lia).
    replace (Z.pred (Z.of_nat (S (length blobs)))) with (Z.of_nat (length blobs)) by lia.
    rewrite IH by (rewrite length_app; simpl in *; lia). by rewrite <- app_assoc.
  - simpl in *. rewrite size_map_seqZ. split_and!; [|lia|].
    + apply lookup_map_seqZ_None. lia.
    + by rewrite map_seqZ_snoc.
Qed.

Lemma delete_events_seq p l n :
  (n <= length l)%nat -> Z.of_nat (length l) <= u64_max ->
  delete_events (seq_table p l) (seqZ p (Z.of_nat n)) = Ok (seq_table (p + Z.of_nat n) (drop n l)).
Proof.
  revert p l. induction n as [|n IH]; intros p l Hn Hlen; simpl; [by rewrite Z.add_0_r|].
  destruct l as [|b l]; [simpl in *; lia|]. rewrite seqZ_cons by lia.
  change (delete_events ?t (?a :: ?k)) with
    (let? t' := delete_tracked_entry t a in delete_events t' k).
  rewrite (proj2 (delete_tracked_entry_Ok (seq_table p (b :: l)) p
                    (seq_table (Z.succ p) l) (seq_table_wf p (b :: l) ltac:(done)))).
  - replace (Z.pred (Z.of_nat (S n))) with (Z.of_nat n) by lia.
    rewrite IH by (simpl in *; lia).
    by replace (Z.succ p + Z.of_nat n) with (p + Z.of_nat (S n)) by lia.
  - cbn [t_rows tabled]. rewrite map_seqZ_cons. split; [by rewrite lookup_insert_eq|].
    rewrite delete_insert_id; [done|]. apply lookup_map_seqZ_None. lia.
Qed.

(** ** The log as a history *)

Section history.
Context {Kind : Type}.
Context (encode_event : AuditEvent Kind -> Result StorageError bytes).
Context (retention_encodes : AuditRetentionState -> bool).
Context (sha256 : bytes -> bytes).

(** The running digest of consecutive events. *)
Fixpoint digest_chain (sequence : Z) (digest : bytes) (blobs : list bytes) : bytes :=
  match blobs with
  | [] => digest
  | blob :: blobs => digest_chain (sequence + 1) (audit_digest sha256 digest sequence blob) blobs
  end.

(** Of the events ever appended, the number that are no longer kept. *)
Definition pruned (h : list bytes) : Z := Z.max 0 (Z.of_nat (length h) - MAX_AUDIT_EVENTS).

Definition retention_of (h : list bytes) : AuditRetentionState :=
  {| ars_pruned_count := pruned h;
     ars_pruned_through_sequence := if pruned h =? 0 then None else Some (pruned h - 1);
     ars_pruned_digest := digest_chain 0 (zeros 32) (take (Z.to_nat (pruned h)) h) |}.

(** The log of the history [h]: the last events under their sequence numbers, and
    the digest of the others. *)
Definition log_of (h : list bytes) : AuditLog :=
  {| al_events := seq_table (pruned h) (drop (Z.to_nat (pruned h)) h);
     al_retention := retention_of h;
     al_next_sequence := Z.of_nat (length h) |}.

(** The encoded events of a batch that starts at a sequence number. *)
Fixpoint encoded (sequence timestamp_ns : Z) (caller : bytes) (kinds : list Kind)
    (blobs : list bytes) : Prop :=
  match kinds, blobs with
  | [], [] => True
  | kind :: kinds, blob :: blobs =>
      encode_event {| ae_sequence := sequence; ae_timestamp_ns := timestamp_ns;
                      ae_caller := caller; ae_kind := kind |} = Ok blob /\
      encoded (sequence + 1) timestamp_ns caller kinds blobs
  | _, _ => False
  end.

Lemma encoded_length s ts caller kinds blobs :
  encoded s ts caller kinds blobs -> length blobs = length kinds.
Proof. revert s blobs. induction kinds; intros s []; simpl; naive_solver. Qed.

Lemma audit_next_Some s n : 0 <= s <= u64_max -> audit_next s = Some n <-> n = s + 1 /\ s < u64_max.
Proof.
  intros. unfold audit_next, next_attempt_body. destruct (Z.eqb_spec s u64_max); [naive_solver lia|].
  rewrite wrapping_add_exact by lia. naive_solver lia.
Qed.

Lemma seqZ_S s n : seqZ s (Z.of_nat (S n)) = s :: seqZ (s + 1) (Z.of_nat n).
Proof. rewrite seqZ_cons, Z.add_1_r by lia. do 2 f_equal. lia. Qed.

Lemma number_events_sound s ts caller kinds events last :
  0 <= s <= u64_max ->
  number_events encode_event s ts caller kinds = Ok (events, last) ->
  s + Z.of_nat (length kinds) <= u64_max /\
  exists blobs, encoded s ts caller kinds blobs.
Proof.
  revert s events last. induction kinds as [|kind kinds IH]; intros s events last Hs; simpl.
  - intros _. split; [lia|by exists []].
  - destruct (audit_next s) as [n|] eqn:Hn; [|done]. simpl.
    apply audit_next_Some in Hn as [-> Hlt]; [|done].
    destruct (encode_event _) as [blob|] eqn:He; [|done].
    destruct (number_events _ _ _ _ _) as [[evs l]|] eqn:Hnum; [|done]. intros _.
    apply IH in Hnum as (Hfit & blobs & Hb); [|lia]. split; [lia|].
    by exists (blob :: blobs).
Qed.

Lemma number_events_complete s ts caller kinds blobs :
  0 <= s -> s + Z.of_nat (length kinds) <= u64_max -> encoded s ts caller kinds blobs ->
  number_events encode_event s ts caller kinds
  = Ok (zip (seqZ s (Z.of_nat (length kinds))) blobs, s + Z.of_nat (length kinds)).
Proof.
  revert s blobs. induction kinds as [|kind kinds IH]; intros s [|blob blobs] Hs Hfit; try done.
  - intros _. simpl. by rewrite Z.add_0_r.
  - intros [He Hb]. cbn [length number_events] in *.
    rewrite (proj2 (audit_next_Some s (s + 1) ltac:(lia))) by lia. simpl. rewrite He.
    rewrite (IH (s + 1) blobs) by (done || lia). rewrite seqZ_S. simpl. do 2 f_equal. lia.
Qed.

Lemma prune_events_chain p thr d n blobs :
  0 <= p -> p + Z.of_nat n <= u64_max -> length blobs = n ->
  prune_events sha256
    {| ars_pruned_count := p; ars_pruned_through_sequence := thr; ars_pruned_digest := d |}
    (zip (seqZ p (Z.of_nat n)) blobs)
  = Ok {| ars_pruned_count := p + Z.of_nat n;
          ars_pruned_through_sequence := if (n =? 0)%nat then thr else Some (p + Z.of_nat n - 1);
          ars_pruned_digest := digest_chain p d blobs |}.
Proof.
  revert p thr d blobs. induction n as [|n IH]; intros p thr d [|b blobs] Hp Hfit Hlen; try done.
  - simpl. by rewrite Z.add_0_r.
  - rewrite seqZ_S. cbn [zip zip_with prune_events prune_event ars_pruned_count].
    rewrite Z.eqb_refl. cbn [negb].
    rewrite (proj2 (checked_add_Some u64_max p 1 (p + 1))) by lia. cbn [ok_or].
    rewrite IH by (simpl in *; lia). do 2 f_equal; [lia|].
    destruct (n =? 0)%nat eqn:Hn; [|simpl; f_equal; lia].
    apply Nat.eqb_eq in Hn as ->. simpl. f_equal. lia.
Qed.
Lemma digest_chain_app s d a b :
  digest_chain s d (a ++ b) = digest_chain (s + Z.of_nat (length a)) (digest_chain s d a) b.
Proof.
  revert s d. induction a as [|x a IH]; intros s d; simpl; [by rewrite Z.add_0_r|].
  rewrite IH. f_equal. lia.
Qed.

(** The number of events a batch of [n] pushes out. *)
Definition pushed (h : list bytes) (n : nat) : nat :=
  Z.to_nat (saturating_sub (Z.of_nat (length h - Z.to_nat (pruned h)) + Z.of_nat n)
              MAX_AUDIT_EVENTS).

Lemma pushed_spec h n :
  Z.of_nat n <= MAX_AUDIT_BATCH ->
  (Z.to_nat (pruned h) + pushed h n <= length h)%nat /\
  forall blobs, length blobs = n -> pruned (h ++ blobs) = pruned h + Z.of_nat (pushed h n).
Proof.
  unfold pushed, pruned, saturating_sub, MAX_AUDIT_EVENTS, MAX_AUDIT_BATCH. intros Hn.
  split; [lia|]. intros blobs Hb. rewrite length_app. lia.
Qed.

Lemma retention_of_app h blobs :
  Z.of_nat (length blobs) <= MAX_AUDIT_BATCH -> Z.of_nat (length h) <= u64_max ->
  prune_events sha256 (retention_of h)
    (zip (seqZ (pruned h) (Z.of_nat (pushed h (length blobs))))
         (take (pushed h (length blobs)) (drop (Z.to_nat (pruned h)) h)))
  = Ok (retention_of (h ++ blobs)).
Proof.
  intros Hn Hlen. destruct (pushed_spec h _ Hn) as [Hfit Happ]. specialize (Happ blobs eq_refl).
  set (k := pushed h (length blobs)) in *. clearbody k. assert (0 <= pruned h) by (unfold pruned; lia).
  unfold retention_of at 1. rewrite prune_events_chain; [|lia|lia|].
  2: { rewrite length_take, length_drop. lia. }
  unfold retention_of. rewrite Happ. do 2 f_equal.
  - destruct (Nat.eqb_spec k 0) as [->|]; [by rewrite Z.add_0_r|].
    by destruct (Z.eqb_spec (pruned h + Z.of_nat k) 0); [lia|].
  - rewrite take_app_le by lia.
    replace (Z.to_nat (pruned h + Z.of_nat k)) with (Z.to_nat (pruned h) + k)%nat by lia.
    rewrite <- take_take_drop, digest_chain_app, length_take. f_equal. lia.
Qed.

Lemma log_of_app h blobs :
  Z.of_nat (length blobs) <= MAX_AUDIT_BATCH ->
  log_of (h ++ blobs) =
  {| al_events := seq_table (pruned h + Z.of_nat (pushed h (length blobs)))
                    (drop (pushed h (length blobs)) (drop (Z.to_nat (pruned h)) h ++ blobs));
     al_retention := retention_of (h ++ blobs);
     al_next_sequence := Z.of_nat (length h) + Z.of_nat (length blobs) |}.
Proof.
  intros Hn. destruct (pushed_spec h _ Hn) as [Hfit Happ]. specialize (Happ blobs eq_refl).
  assert (0 <= pruned h) by (unfold pruned; lia).
  unfold log_of. rewrite Happ, length_app. f_equal; [|lia].
  rewrite (drop_app_le (drop _ h)) by (rewrite length_drop; lia).
  rewrite drop_drop, (drop_app_le h) by lia.
  by rewrite Z2Nat.inj_add, Nat2Z.id by lia.
Qed.

Lemma append_audit_batch_eq h caller ts kinds blobs :
  Z.of_nat (length kinds) <= MAX_AUDIT_BATCH ->
  Z.of_nat (length h) + Z.of_nat (length kinds) <= u64_max ->
  encoded (Z.of_nat (length h)) ts caller kinds blobs ->
  append_audit_batch encode_event retention_encodes sha256 (log_of h) caller ts kinds
  = if retention_encodes (retention_of (h ++ blobs)) then Ok (log_of (h ++ blobs))
    else Err EncodeFailed.
Proof.
  intros Hn Hlen Henc. pose proof (encoded_length _ _ _ _ _ Henc) as Hb.
  destruct (pushed_spec h (length blobs) ltac:(by rewrite Hb)) as [Hfit Happ].
  specialize (Happ blobs eq_refl). assert (0 <= pruned h) by (unfold pruned; lia).
  unfold append_audit_batch, prepare_audit_batch. simpl.
  destruct (Z.gtb_spec (Z.of_nat (length kinds)) MAX_AUDIT_BATCH); [lia|].
  rewrite (number_events_complete _ _ _ _ blobs) by (done || lia).
  rewrite length_zip_with, length_seqZ, <- Hb, Nat2Z.id, Nat.min_id, size_map_seqZ, length_drop.
  fold (pushed h (length blobs)). rewrite oldest_events_seq by (rewrite length_drop; lia).
  rewrite length_zip_with, length_seqZ, length_take, length_drop.
  assert (Z.of_nat (Nat.min (Z.to_nat (Z.of_nat (pushed h (length blobs))))
            (Nat.min (pushed h (length blobs)) (length h - Z.to_nat (pruned h))))
          = saturating_sub (Z.of_nat (length h - Z.to_nat (pruned h)) + Z.of_nat (length blobs))
              MAX_AUDIT_EVENTS) as -> by (unfold pushed in *; unfold saturating_sub in *; lia).
  rewrite Z.eqb_refl. cbn [negb]. rewrite retention_of_app by (rewrite ?Hb; lia).
  destruct (retention_encodes _); [|done]. cbn [negb pab_events pab_pruned_sequences].
  rewrite fst_zip by (rewrite length_seqZ, length_take, length_drop; lia).
  unfold commit_audit_batch. cbn [pab_events pab_pruned_sequences].
  replace (Z.of_nat (length h)) with
    (pruned h + Z.of_nat (length (drop (Z.to_nat (pruned h)) h))) at 1
    by (rewrite length_drop; lia).
  rewrite insert_events_seq by (rewrite length_drop; lia).
  rewrite delete_events_seq by (rewrite length_app, length_drop; lia).
  by rewrite log_of_app by (rewrite Hb; done).
Qed.

(** Audit log.  A log that holds a history of events accepts a batch
    exactly when it has at most thirty-two events, every event encodes under its
    own sequence number, the numbers fit and the retention record encodes; the
    log then holds that history extended by the batch: the last hundred thousand
    events under consecutive numbers, and the digest chain of all earlier
    ones. *)
Theorem audit_log_appends h caller ts kinds log' :
  Z.of_nat (length h) <= u64_max ->
  append_audit_batch encode_event retention_encodes sha256 (log_of h) caller ts kinds = Ok log' <->
  Z.of_nat (length kinds) <= MAX_AUDIT_BATCH /\
  Z.of_nat (length h) + Z.of_nat (length kinds) <= u64_max /\
  exists blobs, encoded (Z.of_nat (length h)) ts caller kinds blobs /\
    retention_encodes (retention_of (h ++ blobs)) = true /\ log' = log_of (h ++ blobs).
Proof.
  intros Hlen. split.
  - intros Hok. pose proof Hok as Hrun.
    unfold append_audit_batch, prepare_audit_batch in Hok. simpl in Hok.
    destruct (Z.gtb_spec (Z.of_nat (length kinds)) MAX_AUDIT_BATCH); [done|].
    destruct (number_events _ _ _ _ _) as [[evs last]|] eqn:Hnum; [|done].
    apply number_events_sound in Hnum as (Hfit & blobs & Hb); [|lia].
    rewrite (append_audit_batch_eq _ _ _ _ _ ltac:(done) Hfit Hb) in Hrun.
    split_and!; [done|done|]. exists blobs.
    destruct (retention_encodes _); [|done]. injection Hrun as <-. done.
  - intros (Hn & Hfit & blobs & Hb & Henc & ->).
    by rewrite (append_audit_batch_eq _ _ _ _ _ Hn Hfit Hb), Henc.
Qed.

Lemma prune_oldest_eq h blob :
  Z.of_nat (length h) <= u64_max ->
  prune_oldest sha256 (log_of h)
  = Ok (retention_of (h ++ [blob]), if (pushed h 1 =? 0)%nat then None else Some (pruned h)).
Proof.
  intros Hlen. unfold prune_oldest. assert (0 <= pruned h) by (unfold pruned; lia).
  pose proof (retention_of_app h [blob] ltac:(unfold MAX_AUDIT_BATCH; simpl; lia) Hlen) as Hret.
  cbn [length al_events al_retention log_of t_count t_rows tabled] in *.
  rewrite size_map_seqZ, length_drop, Z.geb_leb.
  destruct (Z.leb_spec MAX_AUDIT_EVENTS (Z.of_nat (length h - Z.to_nat (pruned h)))).
  - assert (pushed h 1 = 1%nat) as Hk.
    { unfold pushed, pruned, saturating_sub, MAX_AUDIT_EVENTS in *. lia. }
    assert (0 < MAX_AUDIT_EVENTS) by done.
    rewrite Hk in *. rewrite oldest_events_seq by (rewrite length_drop; lia).
    destruct (drop (Z.to_nat (pruned h)) h) as [|b rest] eqn:Hdrop.
    { apply (f_equal length) in Hdrop. rewrite length_drop in Hdrop. simpl in Hdrop. lia. }
    change (zip (seqZ (pruned h) (Z.of_nat 1)) (take 1 (b :: rest))) with [(pruned h, b)] in *.
    cbn [head ok_or prune_events fst] in *.
    destruct (prune_event _ _ _) as [r|]; [|done]. by apply Ok_inj in Hret as ->.
  - assert (pushed h 1 = 0%nat) as Hk by (unfold pushed, saturating_sub in *; lia).
    rewrite Hk in *.
    change (@Ok StorageError _ (retention_of h) = Ok (retention_of (h ++ [blob]))) in Hret.
    by apply Ok_inj in Hret as <-.
Qed.

(** The table after the event is inserted and the oldest one deleted. *)
Lemma append_event_rows h blob :
  Z.of_nat (length h) < u64_max ->
  exists inserted,
    insert_tracked_entry (al_events (log_of h)) (Z.of_nat (length h)) blob = Ok inserted /\
    (if (pushed h 1 =? 0)%nat then Ok inserted else delete_tracked_entry inserted (pruned h))
    = Ok (al_events (log_of (h ++ [blob]))).
Proof.
  intros Hlen. rewrite log_of_app by (unfold MAX_AUDIT_BATCH; simpl; lia).
  destruct (pushed_spec h 1) as [Hfit _]; [unfold MAX_AUDIT_BATCH; lia|].
  assert (0 <= pruned h) by (unfold pruned; lia).
  pose proof (insert_events_seq (pruned h) (drop (Z.to_nat (pruned h)) h) [blob]) as Hins.
  pose proof (delete_events_seq (pruned h) (drop (Z.to_nat (pruned h)) h ++ [blob])
                (pushed h 1)) as Hdel.
  rewrite !length_app, !length_drop in *.
  specialize (Hins ltac:(simpl; lia)). specialize (Hdel ltac:(simpl; lia) ltac:(simpl; lia)).
  replace (pruned h + Z.of_nat (length h - Z.to_nat (pruned h))) with (Z.of_nat (length h))
    in Hins by lia.
  change (zip _ [blob]) with [(Z.of_nat (length h), blob)] in Hins.
  cbn [insert_events al_events log_of length] in *.
  destruct (insert_tracked_entry _ _ _) as [t|]; [|done]. apply Ok_inj in Hins as ->.
  eexists. split; [reflexivity|].
  assert (pushed h 1 <= 1)%nat by (unfold pushed, pruned, saturating_sub, MAX_AUDIT_EVENTS; lia).
  destruct (Nat.eqb_spec (pushed h 1) 0) as [->|]; [cbn [drop]; by rewrite Z.add_0_r|].
  replace (pushed h 1) with 1%nat in * by lia.
  change (seqZ (pruned h) (Z.of_nat 1)) with [pruned h] in Hdel. cbn [delete_events] in Hdel.
  destruct (delete_tracked_entry _ _); [|done]. by apply Ok_inj in Hdel as ->.
Qed.

(** Single events.  Appending one event outside a bundle is appending the
    batch of that event, errors included. *)
Theorem append_event_is_batch h caller kind ts :
  Z.of_nat (length h) <= u64_max ->
  append_audit_event_at encode_event retention_encodes sha256 (log_of h) caller kind ts =
  (let? log := append_audit_batch encode_event retention_encodes sha256 (log_of h) caller ts [kind] in
   Ok ({| ae_sequence := Z.of_nat (length h); ae_timestamp_ns := ts; ae_caller := caller;
          ae_kind := kind |}, log)).
Proof.
  intros Hlen. unfold append_audit_event_at. cbn [al_next_sequence log_of].
  destruct (audit_next (Z.of_nat (length h))) as [next|] eqn:Hnext.
  2: { unfold append_audit_batch, prepare_audit_batch. simpl. by rewrite Hnext. }
  pose proof Hnext as Hn. apply audit_next_Some in Hn as [-> Hlt]; [|lia]. cbn [ok_or].
  destruct (encode_event _) as [blob|e] eqn:He.
  2: { unfold append_audit_batch, prepare_audit_batch. simpl. by rewrite Hnext, He. }
  rewrite (append_audit_batch_eq h caller ts [kind] [blob]);
    [|unfold MAX_AUDIT_BATCH; simpl; lia|simpl; lia|done].
  rewrite (prune_oldest_eq h blob Hlen). destruct (retention_encodes _); [|done]. cbn [negb].
  destruct (append_event_rows h blob Hlt) as (inserted & -> & Hrows). cbn [db map_err].
  rewrite log_of_app in * by (unfold MAX_AUDIT_BATCH; simpl; lia).
  destruct (pushed h 1 =? 0)%nat; [by apply Ok_inj in Hrows as ->|].
  rewrite Hrows. done.
Qed.
End history.

(** A toy encoder and digest for the examples. *)
Definition ex_encode_event (e : AuditEvent Z) : Result StorageError bytes :=
  Ok [ae_sequence _ e; ae_kind _ e].
Definition ex_sha256 (b : bytes) : bytes := take 32 (rev b ++ zeros 32).

Lemma audit_log_appends_witness :
  append_audit_batch ex_encode_event (fun _ => true) ex_sha256 (log_of ex_sha256 [[0; 4]; [1; 5]])
    [9] 100 [6; 7]
  = Ok (log_of ex_sha256 [[0; 4]; [1; 5]; [2; 6]; [3; 7]]).
Proof.
  apply (audit_log_appends ex_encode_event (fun _ => true) ex_sha256 [[0; 4]; [1; 5]] [9] 100 [6; 7]).
  - simpl. lia.
  - split_and!; [vm_compute; discriminate|simpl; lia|]. exists [[2; 6]; [3; 7]].
    split_and!; [simpl; done|reflexivity|reflexivity].
Defined.

Lemma append_event_is_batch_witness :
  append_audit_event_at ex_encode_event (fun _ => true) ex_sha256 (log_of ex_sha256 [[0; 4]]) [9] 6 100
  = Ok ({| ae_sequence := 1; ae_timestamp_ns := 100; ae_caller := [9]; ae_kind := 6 |},
        log_of ex_sha256 [[0; 4]; [1; 6]]).
Proof.
  pose proof (append_event_is_batch ex_encode_event (fun _ => true) ex_sha256 [[0; 4]] [9] 6 100) as H.
  rewrite H by (simpl; lia). vm_compute. reflexivity.
Defined.
