(* ===== verification/Store.v ===== *)
(** * The store and its record writes

    The tables and singletons of [storage/mod.rs] that hold deposits,
    withdrawals, reconciliation holds, fee payouts and the intake of new
    requests, and the transactions that write a deposit or a withdrawal ([put_deposit_with_audit], [put_withdrawal],
    [replace_withdrawal_row] and what they call).

    A transaction is a function from the store to the next store; an error
    anywhere leaves the store as it was.  Values are kept decoded: [encode] only
    says whether a value can be written, and the comparison of a row with the
    value read from it in the same call ([expect_blob]) is not repeated. *)

From S2P Require Import Prelude KernelArith KernelPolicy Types Accounting External Authorization.
From S2P Require Import Withdrawal Deposit Reconciliation Tables StorageTypes Admission Jobs Notifications EventLog.

Record DepositTables := {
  dt_deposits : Table bytes StoredDeposit;
  dt_pull_pending : Table bytes unit;
  dt_deadlines : Table bytes bytes;
  dt_nonterminal : Table bytes bytes;
}.

Record WithdrawalTables := {
  wt_withdrawals : Table bytes WithdrawalRecord;
  wt_release_pending : Table bytes unit;
  wt_liability : Table bytes bytes;
  wt_requester : Table bytes bytes;
  wt_stop_reasons : Table string Z;
  wt_liability_amount : Z;
}.

Record HoldTables := {
  ht_holds : Table Z ReconciliationHoldRecord;
  ht_open : Table Z unit;
  ht_scans : Table bytes ReconciliationScanProgress;
}.

(** What admits new deposits and withdrawals: the funding attempts with their
    recovery time, the deposits and the next sequence of an owner, the quotas, the
    administrative state, and the notifications that were ingested. *)
Record IntakeState := {
  in_attempts : Table bytes (DepositFundingAttempt * Z);
  in_owner_index : Table bytes bytes;
  in_owner_sequences : Table bytes Z;
  in_deposit_admission : DepositAdmissionControl;
  in_admin : option AdminState;
  in_external_progress : ExternalProgress;
  in_notification_admission : NotificationAdmissionControl;
  in_notifications : Table bytes bytes;
  in_transactions : Table bytes bytes;
}.

Record Store := {
  st_deposits : DepositTables;
  st_withdrawals : WithdrawalTables;
  st_holds : HoldTables;
  st_payouts : Table Z FeePayoutRecord;
  st_jobs : Jobs;
  st_settlement_admission : SettlementAdmissionControl;
  st_counters : CounterState;
  st_accounting : AccountingState;
  st_audit_events : Table Z bytes;
  st_audit_retention : AuditRetentionState;
  st_intake : IntakeState;
}.

(** ** Field updates *)

Definition with_deposits (s : Store) (d : DepositTables) : Store :=
  {| st_deposits := d; st_withdrawals := st_withdrawals s; st_holds := st_holds s;
     st_payouts := st_payouts s; st_jobs := st_jobs s;
     st_settlement_admission := st_settlement_admission s;
     st_counters := st_counters s; st_accounting := st_accounting s;
     st_audit_events := st_audit_events s; st_audit_retention := st_audit_retention s;
     st_intake := st_intake s |}.

Definition with_withdrawals (s : Store) (w : WithdrawalTables) : Store :=
  {| st_deposits := st_deposits s; st_withdrawals := w; st_holds := st_holds s;
     st_payouts := st_payouts s; st_jobs := st_jobs s;
     st_settlement_admission := st_settlement_admission s;
     st_counters := st_counters s; st_accounting := st_accounting s;
     st_audit_events := st_audit_events s; st_audit_retention := st_audit_retention s;
     st_intake := st_intake s |}.

Definition with_holds (s : Store) (h : HoldTables) : Store :=
  {| st_deposits := st_deposits s; st_withdrawals := st_withdrawals s; st_holds := h;
     st_payouts := st_payouts s; st_jobs := st_jobs s;
     st_settlement_admission := st_settlement_admission s;
     st_counters := st_counters s; st_accounting := st_accounting s;
     st_audit_events := st_audit_events s; st_audit_retention := st_audit_retention s;
     st_intake := st_intake s |}.

Definition with_jobs (s : Store) (jobs : Jobs) (admission : SettlementAdmissionControl) : Store :=
  {| st_deposits := st_deposits s; st_withdrawals := st_withdrawals s; st_holds := st_holds s;
     st_payouts := st_payouts s; st_jobs := jobs; st_settlement_admission := admission;
     st_counters := st_counters s; st_accounting := st_accounting s;
     st_audit_events := st_audit_events s; st_audit_retention := st_audit_retention s;
     st_intake := st_intake s |}.

Definition with_payouts (s : Store) (payouts : Table Z FeePayoutRecord) : Store :=
  {| st_deposits := st_deposits s; st_withdrawals := st_withdrawals s; st_holds := st_holds s;
     st_payouts := payouts; st_jobs := st_jobs s;
     st_settlement_admission := st_settlement_admission s;
     st_counters := st_counters s; st_accounting := st_accounting s;
     st_audit_events := st_audit_events s; st_audit_retention := st_audit_retention s;
     st_intake := st_intake s |}.

(** [UPDATE singleton_state SET counters = .., accounting = ..]. *)
Definition with_singletons (s : Store) (counters : CounterState) (accounting : AccountingState)
    : Store :=
  {| st_deposits := st_deposits s; st_withdrawals := st_withdrawals s; st_holds := st_holds s;
     st_payouts := st_payouts s; st_jobs := st_jobs s;
     st_settlement_admission := st_settlement_admission s;
     st_counters := counters; st_accounting := accounting;
     st_audit_events := st_audit_events s; st_audit_retention := st_audit_retention s;
     st_intake := st_intake s |}.

Definition with_audit (s : Store) (events : Table Z bytes) (retention : AuditRetentionState)
    : Store :=
  {| st_deposits := st_deposits s; st_withdrawals := st_withdrawals s; st_holds := st_holds s;
     st_payouts := st_payouts s; st_jobs := st_jobs s;
     st_settlement_admission := st_settlement_admission s;
     st_counters := st_counters s; st_accounting := st_accounting s;
     st_audit_events := events; st_audit_retention := retention;
     st_intake := st_intake s |}.

Definition with_intake (s : Store) (intake : IntakeState) : Store :=
  {| st_deposits := st_deposits s; st_withdrawals := st_withdrawals s; st_holds := st_holds s;
     st_payouts := st_payouts s; st_jobs := st_jobs s;
     st_settlement_admission := st_settlement_admission s;
     st_counters := st_counters s; st_accounting := st_accounting s;
     st_audit_events := st_audit_events s; st_audit_retention := st_audit_retention s;
     st_intake := intake |}.

Definition with_pending (c : CounterState) (pending : Z) : CounterState :=
  {| cs_next_hold_id := cs_next_hold_id c; cs_pending_ledger_operations := pending;
     cs_next_audit_sequence := cs_next_audit_sequence c;
     cs_next_fee_payout_id := cs_next_fee_payout_id c;
     cs_next_deposit_index_sequence := cs_next_deposit_index_sequence c;
     cs_reserved_deposit_mint_amount := cs_reserved_deposit_mint_amount c;
     cs_reserved_deposit_mint_operations := cs_reserved_deposit_mint_operations c;
     cs_pending_fee_payout_debit := cs_pending_fee_payout_debit c |}.

Definition with_reserved (c : CounterState) (amount operations : Z) : CounterState :=
  {| cs_next_hold_id := cs_next_hold_id c;
     cs_pending_ledger_operations := cs_pending_ledger_operations c;
     cs_next_audit_sequence := cs_next_audit_sequence c;
     cs_next_fee_payout_id := cs_next_fee_payout_id c;
     cs_next_deposit_index_sequence := cs_next_deposit_index_sequence c;
     cs_reserved_deposit_mint_amount := amount;
     cs_reserved_deposit_mint_operations := operations;
     cs_pending_fee_payout_debit := cs_pending_fee_payout_debit c |}.

Definition with_next_hold (c : CounterState) (id : Z) : CounterState :=
  {| cs_next_hold_id := id; cs_pending_ledger_operations := cs_pending_ledger_operations c;
     cs_next_audit_sequence := cs_next_audit_sequence c;
     cs_next_fee_payout_id := cs_next_fee_payout_id c;
     cs_next_deposit_index_sequence := cs_next_deposit_index_sequence c;
     cs_reserved_deposit_mint_amount := cs_reserved_deposit_mint_amount c;
     cs_reserved_deposit_mint_operations := cs_reserved_deposit_mint_operations c;
     cs_pending_fee_payout_debit := cs_pending_fee_payout_debit c |}.

Definition with_payout_debit (c : CounterState) (debit : Z) : CounterState :=
  {| cs_next_hold_id := cs_next_hold_id c;
     cs_pending_ledger_operations := cs_pending_ledger_operations c;
     cs_next_audit_sequence := cs_next_audit_sequence c;
     cs_next_fee_payout_id := cs_next_fee_payout_id c;
     cs_next_deposit_index_sequence := cs_next_deposit_index_sequence c;
     cs_reserved_deposit_mint_amount := cs_reserved_deposit_mint_amount c;
     cs_reserved_deposit_mint_operations := cs_reserved_deposit_mint_operations c;
     cs_pending_fee_payout_debit := debit |}.

Definition with_next_deposit (c : CounterState) (sequence : Z) : CounterState :=
  {| cs_next_hold_id := cs_next_hold_id c;
     cs_pending_ledger_operations := cs_pending_ledger_operations c;
     cs_next_audit_sequence := cs_next_audit_sequence c;
     cs_next_fee_payout_id := cs_next_fee_payout_id c;
     cs_next_deposit_index_sequence := sequence;
     cs_reserved_deposit_mint_amount := cs_reserved_deposit_mint_amount c;
     cs_reserved_deposit_mint_operations := cs_reserved_deposit_mint_operations c;
     cs_pending_fee_payout_debit := cs_pending_fee_payout_debit c |}.

Definition with_next_payout (c : CounterState) (id : Z) : CounterState :=
  {| cs_next_hold_id := cs_next_hold_id c;
     cs_pending_ledger_operations := cs_pending_ledger_operations c;
     cs_next_audit_sequence := cs_next_audit_sequence c; cs_next_fee_payout_id := id;
     cs_next_deposit_index_sequence := cs_next_deposit_index_sequence c;
     cs_reserved_deposit_mint_amount := cs_reserved_deposit_mint_amount c;
     cs_reserved_deposit_mint_operations := cs_reserved_deposit_mint_operations c;
     cs_pending_fee_payout_debit := cs_pending_fee_payout_debit c |}.

Definition with_next_audit (c : CounterState) (sequence : Z) : CounterState :=
  {| cs_next_hold_id := cs_next_hold_id c;
     cs_pending_ledger_operations := cs_pending_ledger_operations c;
     cs_next_audit_sequence := sequence; cs_next_fee_payout_id := cs_next_fee_payout_id c;
     cs_next_deposit_index_sequence := cs_next_deposit_index_sequence c;
     cs_reserved_deposit_mint_amount := cs_reserved_deposit_mint_amount c;
     cs_reserved_deposit_mint_operations := cs_reserved_deposit_mint_operations c;
     cs_pending_fee_payout_debit := cs_pending_fee_payout_debit c |}.

(** ** What is encoded *)

Inductive StoredValue :=
| SV_Deposit (value : StoredDeposit)
| SV_Withdrawal (value : WithdrawalRecord)
| SV_Hold (value : ReconciliationHoldRecord)
| SV_Payout (value : FeePayoutRecord)
| SV_Scan (value : ReconciliationScanProgress)
| SV_Transfer (value : LedgerTransferIdentity)
| SV_Counters (value : CounterState)
| SV_Accounting (value : AccountingState)
| SV_SettlementAdmission (value : SettlementAdmissionControl)
| SV_FundingAttempt (value : DepositFundingAttempt)
| SV_DepositAdmission (value : DepositAdmissionControl)
| SV_Admin (value : AdminState)
| SV_ExternalProgress (value : ExternalProgress)
| SV_NotificationAdmission (value : NotificationAdmissionControl).

Record SettlementCallbackToken := {
  sct_kind : SettlementJobKind;
  sct_settlement_id : bytes;
  sct_lease_generation : Z;
  sct_transfer_identity_hash : bytes;
}.

Inductive SettlementClaimQuota :=
| Quota_Charge (limits : SettlementQuotaLimits)
| Quota_Prepaid (kind : SettlementJobKind) (settlement_id caller : bytes)
| Quota_Unmetered.

(** A prepaid quota serves the claim it was bought for. *)
Definition SettlementClaimQuota_into_limits
    (self : SettlementClaimQuota) (kind : SettlementJobKind) (settlement_id caller : bytes)
    : Result DbError (option SettlementQuotaLimits) :=
  match self with
  | Quota_Charge limits => Ok (Some limits)
  | Quota_Prepaid k i c =>
      if bool_decide (k = kind) && bool_decide (i = settlement_id) && bool_decide (c = caller)
      then Ok None else Err (Constraint "invalid prepaid settlement quota")
  | Quota_Unmetered => Ok None
  end.

Record ManualSettlementClaimContext := {
  msc_kind : SettlementJobKind;
  msc_settlement_id : bytes;
  msc_caller : bytes;
  msc_now_ns : Z;
  msc_lease_until_ns : Z;
  msc_overdue_after_ns : Z;
  msc_quota : SettlementClaimQuota;
}.

(** ** Writing a deposit *)

Definition storage_mismatch (event : string) : StorageError :=
  StorageError_Core (InvalidTransition "deposit" event).

(** The fee the write itself sees: the quote's, when the signature arrives. *)
Definition derived_fee_delta (previous : option DepositRecord) (value : DepositRecord)
    : Result StorageError Z :=
  match previous, dr_state value with
  | Some previous, AuthorizationAvailable _ =>
      match dr_state previous with
      | AuthorizationAvailable _ => Ok 0
      | _ =>
          let? quote := ok_or (dr_quote value) (StorageError_Core InvalidAmount) in
          Ok (q_service_fee quote)
      end
  | _, _ => Ok 0
  end.

Definition is_minted (value : DepositRecord) : bool :=
  match dr_state value with Minted _ => true | _ => false end.

Definition is_refunded (value : DepositRecord) : bool :=
  match dr_state value with Refunded _ _ _ _ _ => true | _ => false end.

(** The effects a transition reports, compared with the ones the write derives
    from the two records; the fee credit is returned. *)
Definition checked_transition_fee
    (previous : option DepositRecord) (value : DepositRecord) (derived : Z)
    (result : ApplyResult) : Result StorageError Z :=
  let? effects := ok_or (ar_deposit_effects result) (storage_mismatch "missing_transition_effects") in
  let? previous_reserved :=
    match previous with
    | Some previous => core (DepositRecord_reserved_mint_amount previous)
    | None => Ok 0
    end in
  let? next_reserved := core (DepositRecord_reserved_mint_amount value) in
  let expected_add := if previous_reserved =? 0 then next_reserved else 0 in
  let expected_release := if next_reserved =? 0 then previous_reserved else 0 in
  let mint_completed := is_minted value && negb (is_some_and previous is_minted) in
  let refund_completed := is_refunded value && negb (is_some_and previous is_refunded) in
  let expected_net := map_or 0 q_net_amount (dr_quote value) in
  let charged_service_fee :=
    if is_some_and (dr_mint_authorization value)
         (fun authorization => is_some (mar_signature authorization))
    then map_or 0 q_service_fee (dr_quote value) else 0 in
  let? expected_terminal_debit :=
    if mint_completed || refund_completed
    then core (Amount_checked_sub (dr_gross_amount value) charged_service_fee)
    else Ok derived in
  if bool_decide (ar_outcome result <> Applied)
     || negb (dae_reservation_after effects =? next_reserved)
     || negb (dae_reservation_add effects =? expected_add)
     || negb (dae_reservation_release effects =? expected_release)
     || negb (dae_fee_credit effects =? derived)
     || negb (dae_pending_liability_debit effects =? expected_terminal_debit)
     || negb (dae_escrow_debit effects =? if refund_completed then expected_terminal_debit else 0)
     || negb (dae_mint_supply_increase effects =? if mint_completed then expected_net else 0)
  then Err (storage_mismatch "storage_effect_mismatch")
  else Ok (dae_fee_credit effects).

(** The index rows of a deposit: pending ledger calls, authorization deadlines,
    open deposits of an owner, and the record itself. *)
Definition write_deposit_rows
    (t : DepositTables) (previous : option DepositRecord) (next : StoredDeposit)
    (previous_deadline next_deadline : option bytes) (nonterminal_key : bytes)
    : Result DbError DepositTables :=
  let value := sd_record next in
  let key := dr_id value in
  let? pull_pending :=
    if is_some_and previous is_pending_deposit_ledger
    then remove_table_entry (dt_pull_pending t) key else Ok (dt_pull_pending t) in
  let? deadlines :=
    match previous_deadline with
    | Some deadline_key => remove_table_entry (dt_deadlines t) deadline_key
    | None => Ok (dt_deadlines t)
    end in
  let? pull_pending :=
    if is_pending_deposit_ledger value
    then upsert_table_entry pull_pending key tt else Ok pull_pending in
  let? deadlines :=
    match next_deadline with
    | Some deadline_key => upsert_table_entry deadlines deadline_key key
    | None => Ok deadlines
    end in
  let? nonterminal :=
    if is_terminal_deposit value
    then remove_table_entry (dt_nonterminal t) nonterminal_key
    else upsert_table_entry (dt_nonterminal t) nonterminal_key key in
  let? deposits := upsert_table_entry (dt_deposits t) key next in
  Ok {| dt_deposits := deposits; dt_pull_pending := pull_pending; dt_deadlines := deadlines;
        dt_nonterminal := nonterminal |}.

Definition deadline_key (value : DepositRecord) : Result StorageError (option bytes) :=
  match deposit_authorization_deadline value with
  | Some deadline =>
      let? key := deposit_authorization_deadline_index_key deadline (dr_id value) in
      Ok (Some key)
  | None => Ok None
  end.

Section writes.
Context (encode : StoredValue -> Result StorageError unit).
Context (transfer_identity_hash : LedgerTransferIdentity -> bytes).

Definition SettlementCallbackToken_matches_deposit
    (self : SettlementCallbackToken) (record : DepositRecord) : Result StorageError bool :=
  let? _ := encode (SV_Transfer (dr_transfer record)) in
  Ok (bool_decide (sct_kind self = Job_Deposit)
      && bool_decide (sct_settlement_id self = dr_id record)
      && bool_decide (sct_transfer_identity_hash self
                      = transfer_identity_hash (dr_transfer record))).

(** The lease a callback was issued under is still the current one. *)
Definition callback_current (s : Store) (token : option SettlementCallbackToken)
    : Result DbError unit :=
  match token with
  | None => Ok tt
  | Some token =>
      if bool_decide (leased_generation (st_jobs s) (sct_kind token) (sct_settlement_id token)
                      <> Some (sct_lease_generation token))
      then Err (Constraint "stale settlement callback") else Ok tt
  end.

Definition token_matches
    (token : option SettlementCallbackToken) (previous : option DepositRecord)
    : Result StorageError unit :=
  match token with
  | None => Ok tt
  | Some token =>
      let? previous := ok_or previous RecordNotFound in
      let? matches := SettlementCallbackToken_matches_deposit token previous in
      if matches then Ok tt else Err (StorageError_Core ConflictingReplay)
  end.

(** The claim a manual request makes in the same transaction. *)
Definition claim_for (s : Store) (context : ManualSettlementClaimContext)
    : Result DbError (ManualClaimTransaction * Store) :=
  let? limits :=
    SettlementClaimQuota_into_limits (msc_quota context) (msc_kind context)
      (msc_settlement_id context) (msc_caller context) in
  let? (outcome, jobs, admission) :=
    claim_settlement_job_transaction
      (fun admission => is_ok (encode (SV_SettlementAdmission admission)))
      (st_jobs s) (st_settlement_admission s) (msc_kind context) (msc_settlement_id context)
      (msc_caller context) (msc_now_ns context) (msc_lease_until_ns context)
      (msc_overdue_after_ns context) limits Lane_PublicManual in
  Ok (outcome, with_jobs s jobs admission).

(** The counters of a deposit that is replaced. *)
Definition adjust_deposit_counters
    (counters : CounterState) (previous : option DepositRecord) (value : DepositRecord)
    : Result StorageError CounterState :=
  let? pending :=
    adjust_active_count (cs_pending_ledger_operations counters)
      (is_some_and previous is_pending_deposit_ledger) (is_pending_deposit_ledger value) in
  let? amount :=
    adjust_reserved_mint_amount (cs_reserved_deposit_mint_amount counters) previous value in
  let? operations :=
    adjust_reserved_mint_operations (cs_reserved_deposit_mint_operations counters)
      previous value in
  Ok (with_reserved (with_pending counters pending) amount operations).

(** Every caller passes no audit event, so the log is not touched here. *)
Definition put_deposit_with_audit
    (s : Store) (value : DepositRecord) (callback_token : option SettlementCallbackToken)
    (transition_result : option ApplyResult)
    (manual_claim : option ManualSettlementClaimContext)
    : Result StorageError (option ManualClaimTransaction * Store) :=
  let previous_stored := t_rows (dt_deposits (st_deposits s)) !! dr_id value in
  let previous := sd_record <$> previous_stored in
  let? _ := token_matches callback_token previous in
  let? stored := ok_or previous_stored RecordNotFound in
  let next_stored :=
    {| sd_record := value; sd_owner_sequence := sd_owner_sequence stored;
       sd_base_recipient := sd_base_recipient stored |} in
  let? counters := adjust_deposit_counters (st_counters s) previous value in
  let? derived := derived_fee_delta previous value in
  let? fee_delta :=
    match transition_result with
    | Some result => checked_transition_fee previous value derived result
    | None => Ok derived
    end in
  let? accounting :=
    if fee_delta =? 0 then Ok (st_accounting s)
    else core (AccountingState_confirm_fee (st_accounting s) FeeKind_Deposit fee_delta) in
  let? _ := encode (SV_Deposit next_stored) in
  let? _ := encode (SV_Counters counters) in
  let? _ := encode (SV_Accounting accounting) in
  let? nonterminal_index_key :=
    deposit_owner_index_key (a_owner (lti_from (dr_transfer value))) (sd_owner_sequence stored) in
  let? previous_deadline_key :=
    match previous with Some previous => deadline_key previous | None => Ok None end in
  let? next_deadline_key := deadline_key value in
  let? (claim, s) :=
    match manual_claim with
    | Some context =>
        let? (outcome, s) := db (claim_for s context) in
        Ok (Some outcome, s)
    | None => Ok (None, s)
    end in
  match claim with
  | Some (Manual_Claimed _) | None =>
      let? _ := db (callback_current s callback_token) in
      let? deposits :=
        db (write_deposit_rows (st_deposits s) previous next_stored previous_deadline_key
              next_deadline_key nonterminal_index_key) in
      Ok (claim, with_singletons (with_deposits s deposits) counters accounting)
  | Some outcome => Ok (Some outcome, s)
  end.

Definition put_deposit (s : Store) (value : DepositRecord) : Result StorageError Store :=
  let? (_, s) := put_deposit_with_audit s value None None None in Ok s.

Definition put_deposit_transition (s : Store) (value : DepositRecord) (result : ApplyResult)
    : Result StorageError Store :=
  let? (_, s) := put_deposit_with_audit s value None (Some result) None in Ok s.

Definition put_deposit_funding_callback
    (s : Store) (value : DepositRecord) (token : SettlementCallbackToken)
    : Result StorageError Store :=
  let? (_, s) := put_deposit_with_audit s value (Some token) None None in Ok s.

Definition put_deposit_transition_funding_callback
    (s : Store) (value : DepositRecord) (token : SettlementCallbackToken) (result : ApplyResult)
    : Result StorageError Store :=
  let? (_, s) := put_deposit_with_audit s value (Some token) (Some result) None in Ok s.

(** [SettlementAdmissionError] of a manual claim. *)
Inductive ManualClaimError := Claim_RateLimited (retry_after_seconds : Z) | Claim_Storage.

Inductive ManualSettlementClaim :=
| ManualClaim_Claimed (job : SettlementJob)
| ManualClaim_Pending (next_run_at_ns : option Z)
| ManualClaim_Busy.

Definition manual_claim_outcome (outcome : ManualClaimTransaction)
    : Result ManualClaimError ManualSettlementClaim :=
  match outcome with
  | Manual_Claimed job => Ok (ManualClaim_Claimed job)
  | Manual_AutomaticProgressPending next => Ok (ManualClaim_Pending next)
  | Manual_Busy => Ok ManualClaim_Busy
  | Manual_RateLimited retry => Err (Claim_RateLimited retry)
  end.

Definition put_deposit_transition_and_claim_manual_job
    (s : Store) (value : DepositRecord) (result : ApplyResult)
    (context : ManualSettlementClaimContext)
    : Result ManualClaimError ManualSettlementClaim * Store :=
  match put_deposit_with_audit s value None (Some result) (Some context) with
  | Ok (Some outcome, s') => (manual_claim_outcome outcome, s')
  | _ => (Err Claim_Storage, s)
  end.
End writes.

(** ** Writing a withdrawal *)

Definition adjust_stop_reason_count (t : Table string Z) (reason : string) (add : bool)
    : Result DbError (Table string Z) :=
  let count := default 0 (t_rows t !! reason) in
  if add then
    let? next :=
      ok_or (checked_add u64_max count 1) (Constraint "withdrawal stop reason count overflow") in
    let t := {| t_rows := <[reason := next]> (t_rows t); t_count := t_count t |} in
    if count =? 0 then increment_table_count t else Ok t
  else
    let? next :=
      ok_or (checked_sub count 1) (Constraint "withdrawal stop reason count underflow") in
    if next =? 0
    then decrement_table_count {| t_rows := delete reason (t_rows t); t_count := t_count t |}
    else Ok (update_entry t reason next).

(** The running liability and stop reasons of one record. *)
Definition adjust_withdrawal_liability_record
    (reasons : Table string Z) (record : WithdrawalRecord) (add : bool) (amount : Z)
    : Result DbError (Table string Z * Z) :=
  if negb (is_nonterminal_withdrawal record) then Ok (reasons, amount)
  else
    let? amount :=
      if add
      then ok_or (checked_add u128_max amount (wr_amount_out record))
             (Constraint "withdrawal liability overflow")
      else ok_or (checked_sub amount (wr_amount_out record))
             (Constraint "withdrawal liability underflow") in
    let? reasons :=
      match wr_last_settlement_stop_reason record with
      | Some reason => adjust_stop_reason_count reasons reason add
      | None => Ok reasons
      end in
    Ok (reasons, amount).

Definition write_withdrawal_history (t : Table bytes bytes) (record : WithdrawalRecord)
    : Result DbError (Table bytes bytes) :=
  upsert_table_entry t (withdrawal_history_key record) (wr_id record).

Definition replace_withdrawal_row
    (t : WithdrawalTables) (key : bytes) (expected : option WithdrawalRecord)
    (next_record : WithdrawalRecord) : Result DbError WithdrawalTables :=
  let old_record := t_rows (wt_withdrawals t) !! key in
  if bool_decide (old_record <> expected) then Err (Constraint "stale withdrawal write")
  else if is_some_and old_record (fun old =>
            bool_decide (withdrawal_history_key old <> withdrawal_history_key next_record))
  then Err (Constraint "withdrawal history identity changed")
  else
    let previous_liability_key :=
      old_record ≫= fun record =>
        if is_nonterminal_withdrawal record then Some (withdrawal_liability_key record) else None in
    let next_liability :=
      if is_nonterminal_withdrawal next_record
      then Some (withdrawal_liability_key next_record, wr_id next_record) else None in
    let? liability :=
      transition_tracked_entry (wt_liability t) previous_liability_key next_liability in
    let? (withdrawals, reasons, amount) :=
      match old_record with
      | Some old =>
          let? (reasons, amount) :=
            adjust_withdrawal_liability_record (wt_stop_reasons t) old false
              (wt_liability_amount t) in
          Ok (update_entry (wt_withdrawals t) key next_record, reasons, amount)
      | None =>
          let? withdrawals := insert_tracked_entry (wt_withdrawals t) key next_record in
          Ok (withdrawals, wt_stop_reasons t, wt_liability_amount t)
      end in
    let? requester := write_withdrawal_history (wt_requester t) next_record in
    let? (reasons, amount) :=
      adjust_withdrawal_liability_record reasons next_record true amount in
    Ok {| wt_withdrawals := withdrawals; wt_release_pending := wt_release_pending t;
          wt_liability := liability; wt_requester := requester; wt_stop_reasons := reasons;
          wt_liability_amount := amount |}.

Definition with_release_pending (t : WithdrawalTables) (pending : Table bytes unit)
    : WithdrawalTables :=
  {| wt_withdrawals := wt_withdrawals t; wt_release_pending := pending;
     wt_liability := wt_liability t; wt_requester := wt_requester t;
     wt_stop_reasons := wt_stop_reasons t; wt_liability_amount := wt_liability_amount t |}.

(** The net fee a write finds in a release that is recorded as paid. *)
Definition released_fee (previous : option WithdrawalRecord) (value : WithdrawalRecord)
    : Result StorageError Z :=
  match wr_state <$> previous, wr_state value with
  | Some (ReleasePending _ _), Paid _ settlement _ _ =>
      core (Settlement_net_service_fee settlement)
  | _, _ => Ok 0
  end.

Section withdrawal_writes.
Context (encode : StoredValue -> Result StorageError unit).

Definition put_withdrawal (s : Store) (value : WithdrawalRecord) : Result StorageError Store :=
  let key := wr_id value in
  let previous := t_rows (wt_withdrawals (st_withdrawals s)) !! key in
  let? fee_delta := released_fee previous value in
  let? accounting :=
    if fee_delta =? 0 then Ok (st_accounting s)
    else core (AccountingState_confirm_fee (st_accounting s) FeeKind_Withdrawal fee_delta) in
  let? pending :=
    adjust_active_count (cs_pending_ledger_operations (st_counters s))
      (is_some_and previous is_pending_withdrawal_ledger) (is_pending_withdrawal_ledger value) in
  let counters := with_pending (st_counters s) pending in
  let? _ := encode (SV_Withdrawal value) in
  let? _ := encode (SV_Counters counters) in
  let? _ := encode (SV_Accounting accounting) in
  let t := st_withdrawals s in
  let? release_pending :=
    db (if is_some_and previous is_pending_withdrawal_ledger
        then remove_table_entry (wt_release_pending t) key else Ok (wt_release_pending t)) in
  let? release_pending :=
    db (if is_pending_withdrawal_ledger value
        then upsert_table_entry release_pending key tt else Ok release_pending) in
  let? withdrawals :=
    db (replace_withdrawal_row (with_release_pending t release_pending) key previous value) in
  Ok (with_singletons (with_withdrawals s withdrawals) counters accounting).

End withdrawal_writes.
