(* ===== verification/Bundles.v ===== *)
(** * Bundled transactions

    The transactions of [storage/mod.rs] that move a record together with its
    reconciliation hold ([commit_hold_bundle], [persist_resolved_hold_bundle] and
    their callers), the fee payouts, the outcome of a settlement job, and the
    sweep of expired deposit authorizations. *)

From stdpp Require Import sorting.
From S2P Require Import Prelude KernelArith KernelPolicy Types Accounting External Authorization.
From S2P Require Import Withdrawal Deposit Reconciliation Tables StorageTypes Jobs EventLog KernelWithdrawal Store.

(** [&mut self] of the record's [apply] and the [?] on its error. *)
Definition apply_deposit (record : DepositRecord) (event : DepositEvent)
    : Result StorageError DepositRecord :=
  let? (_, record) := core (DepositRecord_apply record event) in Ok record.

Definition apply_withdrawal (record : WithdrawalRecord) (event : WithdrawalEvent)
    : Result StorageError WithdrawalRecord :=
  let? (_, record) := core (WithdrawalRecord_apply record event) in Ok record.

Inductive HoldBundleParent :=
| Parent_Deposit (previous next : DepositRecord)
| Parent_Withdrawal (previous next : WithdrawalRecord).

Definition deposit_row (s : Store) (id : bytes) : option StoredDeposit :=
  t_rows (dt_deposits (st_deposits s)) !! id.

Definition withdrawal_row (s : Store) (id : bytes) : option WithdrawalRecord :=
  t_rows (wt_withdrawals (st_withdrawals s)) !! id.

Definition hold_row (s : Store) (id : Z) : option ReconciliationHoldRecord :=
  t_rows (ht_holds (st_holds s)) !! id.

(** The membership of a record in its pending index: [DELETE] and [INSERT] with
    the counter, as the bundles write it. *)
Definition move_pending (t : Table bytes unit) (key : bytes) (was is_ : bool)
    : Result DbError (Table bytes unit) :=
  let? t :=
    if was
    then decrement_table_count {| t_rows := delete key (t_rows t); t_count := t_count t |}
    else Ok t in
  if is_ then insert_tracked_entry t key tt else Ok t.

Section bundles.
Context (encode : StoredValue -> Result StorageError unit).
Context (transfer_identity_hash : LedgerTransferIdentity -> bytes).
Context (scan_key : ReconciliationTarget -> bytes).
Context (encode_event : AuditEvent AuditEventKind -> Result StorageError bytes).
Context (retention_encodes : AuditRetentionState -> bool).
Context (sha256 : bytes -> bytes).

(** [deposit_record_blobs]: the stored row with its record replaced. *)
Definition replaced_deposit (s : Store) (previous next : DepositRecord)
    : Result StorageError StoredDeposit :=
  if bool_decide (dr_id previous <> dr_id next) then Err (StorageError_Core PayloadConflict)
  else
    let? stored := ok_or (deposit_row s (dr_id previous)) RecordNotFound in
    if bool_decide (sd_record stored <> previous) then Err (StorageError_Core ConflictingReplay)
    else
      let next_stored :=
        {| sd_record := next; sd_owner_sequence := sd_owner_sequence stored;
           sd_base_recipient := sd_base_recipient stored |} in
      let? _ := encode (SV_Deposit next_stored) in
      Ok next_stored.

(** ** The record a bundle writes beside the hold

    The bundles work on the tuple (table, key, blobs, previous and next index
    membership) of their parent; the functions below are its components. *)

Definition parent_was_pending (parent : HoldBundleParent) : bool :=
  match parent with
  | Parent_Deposit previous _ => is_pending_deposit_ledger previous
  | Parent_Withdrawal previous _ => is_pending_withdrawal_ledger previous
  end.

Definition parent_is_pending (parent : HoldBundleParent) : bool :=
  match parent with
  | Parent_Deposit _ next => is_pending_deposit_ledger next
  | Parent_Withdrawal _ next => is_pending_withdrawal_ledger next
  end.

Definition parent_index_present (s : Store) (parent : HoldBundleParent) : bool :=
  match parent with
  | Parent_Deposit _ next => is_some (t_rows (dt_pull_pending (st_deposits s)) !! dr_id next)
  | Parent_Withdrawal _ next =>
      is_some (t_rows (wt_release_pending (st_withdrawals s)) !! wr_id next)
  end.

Inductive ParentBlob :=
| Blob_Deposit (next : StoredDeposit)
| Blob_Withdrawal (previous next : WithdrawalRecord).

Definition parent_blob (s : Store) (parent : HoldBundleParent) : Result StorageError ParentBlob :=
  match parent with
  | Parent_Deposit previous next =>
      let? stored := replaced_deposit s previous next in Ok (Blob_Deposit stored)
  | Parent_Withdrawal previous next =>
      let? _ := encode (SV_Withdrawal next) in Ok (Blob_Withdrawal previous next)
  end.

(** The row, then its membership in the pending index. *)
Definition write_parent (s : Store) (blob : ParentBlob) (was is_ : bool)
    : Result DbError Store :=
  match blob with
  | Blob_Deposit next =>
      let t := st_deposits s in
      let key := dr_id (sd_record next) in
      let? pull_pending := move_pending (dt_pull_pending t) key was is_ in
      Ok (with_deposits s
            {| dt_deposits := update_entry (dt_deposits t) key next;
               dt_pull_pending := pull_pending; dt_deadlines := dt_deadlines t;
               dt_nonterminal := dt_nonterminal t |})
  | Blob_Withdrawal previous next =>
      let? t := replace_withdrawal_row (st_withdrawals s) (wr_id next) (Some previous) next in
      let? release_pending := move_pending (wt_release_pending t) (wr_id next) was is_ in
      Ok (with_withdrawals s (with_release_pending t release_pending))
  end.

(** ** Opening a hold *)

Definition commit_hold_bundle
    (s : Store) (hold : ReconciliationHoldRecord) (parent : HoldBundleParent)
    (callback_token : option SettlementCallbackToken) : Result StorageError Store :=
  if negb (is_open_hold hold) || is_some (hold_row s (rh_id hold))
  then Err (StorageError_Core ConflictingReplay)
  else if negb (cs_next_hold_id (st_counters s) =? rh_id hold)
  then Err (StorageError_Core ConflictingReplay)
  else
    let? next_hold_id :=
      ok_or (checked_add u64_max (cs_next_hold_id (st_counters s)) 1) CounterOverflow in
    let was := parent_was_pending parent in
    let is_ := parent_is_pending parent in
    let? pending :=
      adjust_active_count (cs_pending_ledger_operations (st_counters s)) was is_ in
    let counters := with_pending (with_next_hold (st_counters s) next_hold_id) pending in
    let? blob := parent_blob s parent in
    if is_some (t_rows (ht_open (st_holds s)) !! rh_id hold)
    then Err (StorageError_Core ConflictingReplay)
    else if negb (eqb (parent_index_present s parent) was) then Err RecordNotFound
    else
      let? _ := encode (SV_Hold hold) in
      let? _ := encode (SV_Counters counters) in
      let? _ := db (callback_current s callback_token) in
      let? s := db (write_parent s blob was is_) in
      let? holds := db (insert_tracked_entry (ht_holds (st_holds s)) (rh_id hold) hold) in
      let? open_ :=
        db (transition_tracked_entry (ht_open (st_holds s)) None (Some (rh_id hold, tt))) in
      Ok (with_singletons
            (with_holds s
               {| ht_holds := holds; ht_open := open_; ht_scans := ht_scans (st_holds s) |})
            counters (st_accounting s)).

Definition commit_deposit_hold_bundle_fenced
    (s : Store) (deposit : DepositRecord) (hold : ReconciliationHoldRecord)
    (callback_token : option SettlementCallbackToken) : Result StorageError Store :=
  let? stored := ok_or (deposit_row s (dr_id deposit)) RecordNotFound in
  let previous := sd_record stored in
  let? _ := token_matches encode transfer_identity_hash callback_token (Some previous) in
  let? (expected, hold_id, request, transfer) :=
    match dr_state previous, dr_state deposit with
    | FundingPending, FundingReconciliationHold hold_id =>
        let? expected := apply_deposit previous (FundingAmbiguous hold_id) in
        Ok (expected, hold_id, Ref_DepositFunding (dr_id deposit), dr_transfer previous)
    | RefundPending _ _ attempt, RefundReconciliationHold _ _ hold_id _ =>
        let? expected := apply_deposit previous (RefundAmbiguous hold_id) in
        Ok (expected, hold_id, Ref_DepositRefund (dr_id deposit), ta_identity attempt)
    | _, _ => Err (StorageError_Core HoldMismatch)
    end in
  if bool_decide (expected <> deposit)
     || bool_decide (hold <> ReconciliationHoldRecord_open hold_id request transfer)
  then Err (StorageError_Core HoldMismatch)
  else commit_hold_bundle s hold (Parent_Deposit previous deposit) callback_token.

Definition commit_withdrawal_hold_bundle
    (s : Store) (withdrawal : WithdrawalRecord) (hold : ReconciliationHoldRecord)
    : Result StorageError Store :=
  let? previous := ok_or (withdrawal_row s (wr_id withdrawal)) RecordNotFound in
  let? (hold_id, transfer) :=
    match wr_state previous with
    | ReleasePending attempt _ =>
        match wr_state withdrawal with
        | ReconciliationHold hold_id _ _ => Ok (hold_id, ta_identity attempt)
        | _ => Err (StorageError_Core HoldMismatch)
        end
    | _ => Err (StorageError_Core HoldMismatch)
    end in
  let? expected := apply_withdrawal previous (ReleaseAmbiguous hold_id) in
  if bool_decide (expected <> withdrawal)
     || bool_decide (hold <> ReconciliationHoldRecord_open hold_id
                               (Ref_Withdrawal (wr_id withdrawal)) transfer)
  then Err (StorageError_Core HoldMismatch)
  else commit_hold_bundle s hold (Parent_Withdrawal previous withdrawal) None.

(** ** Resolving a hold *)

(** The open deposits of the owner after a resolution. *)
Definition move_nonterminal (s : Store) (parent : HoldBundleParent) (key : bytes)
    : Result DbError Store :=
  match parent with
  | Parent_Deposit _ next =>
      let t := st_deposits s in
      let? nonterminal :=
        if is_terminal_deposit next then remove_table_entry (dt_nonterminal t) key
        else upsert_table_entry (dt_nonterminal t) key (dr_id next) in
      Ok (with_deposits s
            {| dt_deposits := dt_deposits t; dt_pull_pending := dt_pull_pending t;
               dt_deadlines := dt_deadlines t; dt_nonterminal := nonterminal |})
  | Parent_Withdrawal _ _ => Ok s
  end.

Definition parent_owner_key (s : Store) (parent : HoldBundleParent) : Result StorageError bytes :=
  match parent with
  | Parent_Deposit _ next =>
      let? stored := ok_or (deposit_row s (dr_id next)) RecordNotFound in
      deposit_owner_index_key (a_owner (lti_from (dr_transfer next))) (sd_owner_sequence stored)
  | Parent_Withdrawal _ _ => Ok []
  end.

(** The fee of a release found by reconciliation. *)
Definition resolved_fee (parent : HoldBundleParent) : Result StorageError Z :=
  match parent with
  | Parent_Withdrawal previous next =>
      match wr_state previous, wr_state next with
      | ReconciliationHold _ _ _, Paid _ settlement _ _ =>
          core (Settlement_net_service_fee settlement)
      | _, _ => Ok 0
      end
  | Parent_Deposit _ _ => Ok 0
  end.

Definition resolved_counters (counters : CounterState) (parent : HoldBundleParent)
    : Result StorageError CounterState :=
  match parent with
  | Parent_Deposit previous next => adjust_deposit_counters counters (Some previous) next
  | Parent_Withdrawal previous next =>
      let? pending :=
        adjust_active_count (cs_pending_ledger_operations counters)
          (is_pending_withdrawal_ledger previous) (is_pending_withdrawal_ledger next) in
      Ok (with_pending counters pending)
  end.

Definition parent_is_replay (parent : HoldBundleParent) : bool :=
  match parent with
  | Parent_Deposit previous next => bool_decide (previous = next)
  | Parent_Withdrawal previous next => bool_decide (previous = next)
  end.

Definition persist_resolved_hold_bundle
    (s : Store) (hold : ReconciliationHoldRecord) (parent : HoldBundleParent)
    (scan_target : option ReconciliationTarget) : Result StorageError Store :=
  let? previous_hold := ok_or (hold_row s (rh_id hold)) RecordNotFound in
  if bool_decide (previous_hold = hold) && parent_is_replay parent && is_none scan_target
  then Ok s
  else if negb (is_open_hold previous_hold) || is_open_hold hold
  then Err (StorageError_Core HoldMismatch)
  else
    let? owner_key := parent_owner_key s parent in
    let? fee_delta := resolved_fee parent in
    let? accounting :=
      if fee_delta =? 0 then Ok (st_accounting s)
      else core (AccountingState_confirm_fee (st_accounting s) FeeKind_Withdrawal fee_delta) in
    let? counters := resolved_counters (st_counters s) parent in
    let? blob := parent_blob s parent in
    if is_none (t_rows (ht_open (st_holds s)) !! rh_id hold) then Err RecordNotFound
    else if negb (eqb (parent_index_present s parent) (parent_was_pending parent))
    then Err RecordNotFound
    else
      let? _ := encode (SV_Hold hold) in
      let? _ := encode (SV_Counters counters) in
      let? _ := encode (SV_Accounting accounting) in
      let? _ :=
        match scan_target with
        | Some target =>
            let? scan := ok_or (t_rows (ht_scans (st_holds s)) !! scan_key target) RecordNotFound in
            encode (SV_Scan scan)
        | None => Ok tt
        end in
      let? s := db (move_nonterminal s parent owner_key) in
      let? s := db (write_parent s blob (parent_was_pending parent) (parent_is_pending parent)) in
      let holds := update_entry (ht_holds (st_holds s)) (rh_id hold) hold in
      let? open_ := db (transition_tracked_entry (ht_open (st_holds s)) (Some (rh_id hold)) None) in
      let? scans :=
        match scan_target with
        | Some target => db (delete_tracked_entry (ht_scans (st_holds s)) (scan_key target))
        | None => Ok (ht_scans (st_holds s))
        end in
      Ok (with_singletons
            (with_holds s {| ht_holds := holds; ht_open := open_; ht_scans := scans |})
            counters accounting).

Definition resolve_deposit_hold_and_scan
    (s : Store) (deposit_id : bytes) (hold_id : Z) (resolution : DepositHoldResolution)
    (scan_target : option ReconciliationTarget) : Result StorageError (ApplyResult * Store) :=
  let? stored := ok_or (deposit_row s deposit_id) RecordNotFound in
  let? hold := ok_or (hold_row s hold_id) RecordNotFound in
  let? (result, deposit, hold) := core (resolve_deposit_hold (sd_record stored) hold resolution) in
  let? previous := ok_or (deposit_row s (dr_id deposit)) RecordNotFound in
  let? s :=
    persist_resolved_hold_bundle s hold (Parent_Deposit (sd_record previous) deposit) scan_target in
  Ok (result, s).

Definition resolve_withdrawal_hold_and_scan
    (s : Store) (withdrawal_id : bytes) (hold_id : Z) (resolution : WithdrawalHoldResolution)
    (scan_target : option ReconciliationTarget) : Result StorageError (ApplyResult * Store) :=
  let? withdrawal := ok_or (withdrawal_row s withdrawal_id) RecordNotFound in
  let? hold := ok_or (hold_row s hold_id) RecordNotFound in
  let? (result, withdrawal, hold) := core (resolve_withdrawal_hold withdrawal hold resolution) in
  let? previous := ok_or (withdrawal_row s (wr_id withdrawal)) RecordNotFound in
  let? s :=
    persist_resolved_hold_bundle s hold (Parent_Withdrawal previous withdrawal) scan_target in
  Ok (result, s).

(** ** Fee payouts *)

Definition payout_with_state (self : FeePayoutRecord) (state : FeePayoutState) : FeePayoutRecord :=
  {| fpr_id := fpr_id self; fpr_amount := fpr_amount self; fpr_recipient := fpr_recipient self;
     fpr_transfer := fpr_transfer self; fpr_state := state |}.

Definition commit_fee_payout_request
    (s : Store) (value : FeePayoutRecord) (caller : bytes) (timestamp_ns : Z)
    : Result StorageError Store :=
  if bool_decide (fpr_state value <> Payout_Pending) then Err (StorageError_Core ConflictingReplay)
  else if negb (fpr_id value =? cs_next_fee_payout_id (st_counters s))
          || is_some (t_rows (st_payouts s) !! fpr_id value)
  then Err (StorageError_Core ConflictingReplay)
  else
    let? next_id := ok_or (checked_add u64_max (fpr_id value) 1) CounterOverflow in
    let? debit :=
      adjust_pending_fee_payout_debit (cs_pending_fee_payout_debit (st_counters s)) None value in
    let counters := with_payout_debit (with_next_payout (st_counters s) next_id) debit in
    let? (audit, next_sequence) :=
      prepare_audit_batch encode_event retention_encodes sha256 (st_audit_events s)
        (st_audit_retention s) (cs_next_audit_sequence counters) caller timestamp_ns
        [Audit_FeePayoutRequested (fpr_amount value)] in
    let counters := with_next_audit counters next_sequence in
    let? _ := encode (SV_Payout value) in
    let? _ := encode (SV_Counters counters) in
    let? payouts := db (insert_tracked_entry (st_payouts s) (fpr_id value) value) in
    let jobs :=
      enqueue_settlement_job (st_jobs s) Job_FeePayout (fee_payout_job_id (fpr_id value))
        timestamp_ns in
    let? events := db (commit_audit_batch (st_audit_events s) audit) in
    Ok (with_audit
          (with_singletons
             (with_jobs (with_payouts s payouts) jobs (st_settlement_admission s))
             counters (st_accounting s))
          events (pab_retention audit)).

Inductive FeePayoutTransition :=
| PayoutTransition_Hold
| PayoutTransition_Failed
| PayoutTransition_Succeeded (block_index : Z).

Definition payout_terminal_replay (transition : FeePayoutTransition) (state : FeePayoutState)
    : bool :=
  match transition, state with
  | PayoutTransition_Succeeded block_index, Payout_Succeeded previous => block_index =? previous
  | PayoutTransition_Failed, Payout_Failed => true
  | PayoutTransition_Hold, Payout_ReconciliationHold => true
  | _, _ => false
  end.

Definition payout_next_state (transition : FeePayoutTransition) (state : FeePayoutState)
    : Result StorageError FeePayoutState :=
  match transition, state with
  | PayoutTransition_Succeeded block_index, (Payout_Pending | Payout_ReconciliationHold) =>
      Ok (Payout_Succeeded block_index)
  | PayoutTransition_Failed, (Payout_Pending | Payout_ReconciliationHold) => Ok Payout_Failed
  | PayoutTransition_Hold, Payout_Pending => Ok Payout_ReconciliationHold
  | _, _ => Err (StorageError_Core ConflictingReplay)
  end.

Definition is_succeeded_transition (transition : FeePayoutTransition) : bool :=
  match transition with PayoutTransition_Succeeded _ => true | _ => false end.

Definition transition_fee_payout
    (s : Store) (id : Z) (transition : FeePayoutTransition)
    (scan_target : option ReconciliationTarget) : Result StorageError Store :=
  if is_some_and scan_target (fun target => bool_decide (target <> Target_FeePayout id))
  then Err (StorageError_Core ConflictingReplay)
  else
    let? previous := ok_or (t_rows (st_payouts s) !! id) RecordNotFound in
    let terminal_replay := payout_terminal_replay transition (fpr_state previous) in
    let? next :=
      if terminal_replay then Ok previous
      else
        let? state := payout_next_state transition (fpr_state previous) in
        Ok (payout_with_state previous state) in
    let? debit :=
      adjust_pending_fee_payout_debit (cs_pending_fee_payout_debit (st_counters s))
        (Some previous) next in
    let counters := with_payout_debit (st_counters s) debit in
    let? accounting :=
      if negb terminal_replay && is_succeeded_transition transition then
        let? spent := fee_payout_debit previous in
        core (AccountingState_spend_fee_reserve (st_accounting s) spent)
      else Ok (st_accounting s) in
    let scan :=
      scan_target ≫= fun target => t_rows (ht_scans (st_holds s)) !! scan_key target in
    if is_some scan_target && is_none scan && negb terminal_replay then Err RecordNotFound
    else if terminal_replay && is_none scan then Ok s
    else
      let? _ := encode (SV_Payout next) in
      let? _ := encode (SV_Counters counters) in
      let? _ := encode (SV_Accounting accounting) in
      let payouts := update_entry (st_payouts s) id next in
      let? scans :=
        match scan_target, scan with
        | Some target, Some _ =>
            db (delete_tracked_entry (ht_scans (st_holds s)) (scan_key target))
        | _, _ => Ok (ht_scans (st_holds s))
        end in
      Ok (with_singletons
            (with_holds (with_payouts s payouts)
               {| ht_holds := ht_holds (st_holds s); ht_open := ht_open (st_holds s);
                  ht_scans := scans |})
            counters accounting).

(** ** The outcome of a settlement job *)

Definition deposit_with_stop_reason (self : DepositRecord) (reason : option string)
    : DepositRecord :=
  {| dr_id := dr_id self; dr_payload_hash := dr_payload_hash self;
     dr_gross_amount := dr_gross_amount self; dr_max_service_fee := dr_max_service_fee self;
     dr_transfer := dr_transfer self; dr_quote := dr_quote self;
     dr_mint_authorization := dr_mint_authorization self;
     dr_mint_finalization_evidence := dr_mint_finalization_evidence self;
     dr_mint_expiry_evidence := dr_mint_expiry_evidence self;
     dr_last_settlement_stop_reason := reason; dr_state := dr_state self |}.

Definition withdrawal_with_stop_reason (self : WithdrawalRecord) (reason : option string)
    : WithdrawalRecord :=
  {| wr_id := wr_id self; wr_base_requester := wr_base_requester self;
     wr_owner := wr_owner self; wr_subaccount := wr_subaccount self;
     wr_payload_hash := wr_payload_hash self; wr_amount := wr_amount self;
     wr_max_service_fee := wr_max_service_fee self;
     wr_charged_service_fee := wr_charged_service_fee self;
     wr_amount_out := wr_amount_out self; wr_observed_at_ns := wr_observed_at_ns self;
     wr_state := wr_state self; wr_last_settlement_stop_reason := reason |}.

Definition finish_settlement_job
    (s : Store) (job : SettlementJob) (next_run_at_ns : option Z) (attempts : Z)
    (stop_error : option (string * string)) (record_stop_reason : option string) (now_ns : Z)
    : Result StorageError Store :=
  let? blob :=
    match sj_kind job with
    | Job_Deposit =>
        let? stored := ok_or (deposit_row s (sj_settlement_id job)) RecordNotFound in
        let? next :=
          replaced_deposit s (sd_record stored)
            (deposit_with_stop_reason (sd_record stored) record_stop_reason) in
        Ok (Some (Blob_Deposit next))
    | Job_Withdrawal =>
        let? record := ok_or (withdrawal_row s (sj_settlement_id job)) RecordNotFound in
        let next := withdrawal_with_stop_reason record record_stop_reason in
        let? _ := encode (SV_Withdrawal next) in
        Ok (Some (Blob_Withdrawal record next))
    | Job_FeePayout =>
        let? id := fee_payout_id_from_job (sj_settlement_id job) in
        let? record := ok_or (t_rows (st_payouts s) !! id) RecordNotFound in
        let? _ := encode (SV_Payout record) in
        Ok None
    end in
  match finish_job_row (st_jobs s) job next_run_at_ns attempts stop_error now_ns with
  | None => Ok s
  | Some jobs =>
      let? s :=
        match blob with
        | Some (Blob_Deposit next) =>
            let t := st_deposits s in
            Ok (with_deposits s
                  {| dt_deposits := update_entry (dt_deposits t) (sj_settlement_id job) next;
                     dt_pull_pending := dt_pull_pending t; dt_deadlines := dt_deadlines t;
                     dt_nonterminal := dt_nonterminal t |})
        | Some (Blob_Withdrawal previous next) =>
            let? t :=
              db (replace_withdrawal_row (st_withdrawals s) (sj_settlement_id job)
                    (Some previous) next) in
            Ok (with_withdrawals s t)
        | None => Ok s
        end in
      Ok (with_jobs s jobs (st_settlement_admission s))
  end.

(** ** The sweep of expired authorizations *)

Definition bytes_le (a b : bytes) : Prop := bytes_geb b a = true.

#[export] Instance bytes_le_dec a b : Decision (bytes_le a b).
Proof. unfold bytes_le. apply _. Defined.

(** The identifiers of the index rows up to a key, in the order of the keys. *)
Definition deadlines_until (t : Table bytes bytes) (last : bytes) : list bytes :=
  omap (fun key => t_rows t !! key)
    (merge_sort bytes_le
       (filter (fun key => bytes_le key last) (elements (dom (t_rows t))))).

Definition expire_deposit (s : Store) (finalized_timestamp : Z) (deposit_id : bytes)
    : Result StorageError Store :=
  let? stored := ok_or (deposit_row s deposit_id) RecordNotFound in
  let deposit := sd_record stored in
  let? event :=
    match dr_state deposit with
    | AuthorizationPending _ | AuthorizationAvailable _ =>
        Ok (MarkRefundAvailable Reason_AuthorizationExpired (Some finalized_timestamp))
    | _ => Err (StorageError_Core ConflictingReplay)
    end in
  let? (result, deposit) := core (DepositRecord_apply deposit event) in
  put_deposit_transition encode transfer_identity_hash s deposit result.

(** The writes of a failed sweep that were already made stay. *)
Fixpoint expire_deposits (s : Store) (finalized_timestamp : Z) (ids : list bytes)
    : Store * option StorageError :=
  match ids with
  | [] => (s, None)
  | id :: ids =>
      match expire_deposit s finalized_timestamp id with
      | Ok s => expire_deposits s finalized_timestamp ids
      | Err e => (s, Some e)
      end
  end.

Definition release_expired_deposit_reservations
    (s : Store) (finalized_timestamp : Z) (limit : nat) : Store * Result StorageError bool :=
  if (finalized_timestamp =? 0) || (limit =? 0)%nat then (s, Ok false)
  else
    match deposit_authorization_deadline_index_key (finalized_timestamp - 1)
            (replicate 32 255) with
    | Err e => (s, Err e)
    | Ok last =>
        let ids := take limit (deadlines_until (dt_deadlines (st_deposits s)) last) in
        match expire_deposits s finalized_timestamp ids with
        | (s, Some e) => (s, Err e)
        | (s, None) =>
            (s, Ok (negb (bool_decide (deadlines_until (dt_deadlines (st_deposits s)) last = []))))
        end
    end.
End bundles.
