(* ===== verification/Intake.v ===== *)
(** * The intake of deposits and withdrawals

    The transactions of [storage/mod.rs] that create records: the funding attempts
    of a deposit ([prepare_deposit_funding_attempt] and its update and removal),
    the admission of a deposit ([admit_deposit]), the ingestion of a finalized
    withdrawal ([commit_new_withdrawal_release_bundle]), and the withdrawal fee
    guard. *)

From stdpp Require Import sorting.
From S2P Require Import Prelude KernelArith KernelWithdrawal Types Accounting External Authorization.
From S2P Require Import Withdrawal Deposit Reconciliation Tables StorageTypes Admission Jobs.
From S2P Require Import Notifications EventLog Store Bundles.

(** ** Field updates *)

Definition with_attempts (i : IntakeState) (attempts : Table bytes (DepositFundingAttempt * Z))
    (admission : DepositAdmissionControl) : IntakeState :=
  {| in_attempts := attempts; in_owner_index := in_owner_index i;
     in_owner_sequences := in_owner_sequences i; in_deposit_admission := admission;
     in_admin := in_admin i; in_external_progress := in_external_progress i;
     in_notification_admission := in_notification_admission i;
     in_notifications := in_notifications i; in_transactions := in_transactions i |}.

Definition with_owners (i : IntakeState) (index : Table bytes bytes) (sequences : Table bytes Z)
    : IntakeState :=
  {| in_attempts := in_attempts i; in_owner_index := index; in_owner_sequences := sequences;
     in_deposit_admission := in_deposit_admission i; in_admin := in_admin i;
     in_external_progress := in_external_progress i;
     in_notification_admission := in_notification_admission i;
     in_notifications := in_notifications i; in_transactions := in_transactions i |}.

Definition with_admin (i : IntakeState) (admin : option AdminState) : IntakeState :=
  {| in_attempts := in_attempts i; in_owner_index := in_owner_index i;
     in_owner_sequences := in_owner_sequences i;
     in_deposit_admission := in_deposit_admission i; in_admin := admin;
     in_external_progress := in_external_progress i;
     in_notification_admission := in_notification_admission i;
     in_notifications := in_notifications i; in_transactions := in_transactions i |}.

Definition with_progress (i : IntakeState) (progress : ExternalProgress) : IntakeState :=
  {| in_attempts := in_attempts i; in_owner_index := in_owner_index i;
     in_owner_sequences := in_owner_sequences i;
     in_deposit_admission := in_deposit_admission i; in_admin := in_admin i;
     in_external_progress := progress;
     in_notification_admission := in_notification_admission i;
     in_notifications := in_notifications i; in_transactions := in_transactions i |}.

Definition with_notifications (i : IntakeState) (admission : NotificationAdmissionControl)
    (notifications transactions : Table bytes bytes) : IntakeState :=
  {| in_attempts := in_attempts i; in_owner_index := in_owner_index i;
     in_owner_sequences := in_owner_sequences i;
     in_deposit_admission := in_deposit_admission i; in_admin := in_admin i;
     in_external_progress := in_external_progress i; in_notification_admission := admission;
     in_notifications := notifications; in_transactions := transactions |}.

(** [UPDATE singleton_state SET counters = ..]. *)
Definition with_counters (s : Store) (counters : CounterState) : Store :=
  with_singletons s counters (st_accounting s).

Definition with_nonterminal (t : DepositTables) (nonterminal : Table bytes bytes)
    : DepositTables :=
  {| dt_deposits := dt_deposits t; dt_pull_pending := dt_pull_pending t;
     dt_deadlines := dt_deadlines t; dt_nonterminal := nonterminal |}.

(** ** Capacity and reserves *)

Definition MAX_LIFETIME_DEPOSIT_RECORDS : Z := 100000.

Definition MAX_OWNER_DEPOSIT_INDEX_ENTRIES : nat := 100.

Definition lifetime_deposit_capacity_available (record_count : Z) : bool :=
  record_count <? MAX_LIFETIME_DEPOSIT_RECORDS.

Definition lifetime_deposit_record_count (s : Store) : Result DbError Z :=
  ok_or (checked_add u64_max (t_count (dt_deposits (st_deposits s)))
           (t_count (in_attempts (st_intake s))))
    (Constraint "lifetime deposit record count overflow").

Record DepositCycleAdmission := {
  dca_cycles_balance : Z;
  dca_reserve_policy : ReservePolicy;
}.

Inductive DepositAdmissionOutcome := Admission_Inserted | Admission_Existing.

Record DepositReserveToken := {
  drt_nonterminal_withdrawals : Z;
  drt_nonterminal_deposits : Z;
  drt_reserved_deposit_mint_amount : Z;
  drt_reserved_deposit_mint_operations : Z;
}.

(** Funding attempts share the index of open deposits. *)
Definition nonterminal_deposit_count (s : Store) : Result StorageError Z :=
  ok_or (nonterminal_deposit_reservation_count (t_count (dt_nonterminal (st_deposits s)))
           (t_count (in_attempts (st_intake s)))) CounterOverflow.

(** [notifications] is [crate::notification_cycle_reservation_count()], kept on
    the heap. *)
Definition deposit_reserve_token (s : Store) (notifications : option Z)
    : Result StorageError DepositReserveToken :=
  let? notifications := ok_or notifications CounterOverflow in
  let? withdrawals :=
    ok_or (checked_add u64_max (t_count (wt_liability (st_withdrawals s))) notifications)
      CounterOverflow in
  let? deposits := nonterminal_deposit_count s in
  Ok {| drt_nonterminal_withdrawals := withdrawals;
        drt_nonterminal_deposits := deposits;
        drt_reserved_deposit_mint_amount := cs_reserved_deposit_mint_amount (st_counters s);
        drt_reserved_deposit_mint_operations :=
          cs_reserved_deposit_mint_operations (st_counters s) |}.

(** The sequence the next deposit of an owner must carry. *)
Definition next_deposit_sequence (s : Store) (owner : bytes) : Z :=
  default 0 (t_rows (in_owner_sequences (st_intake s)) !! owner).

Section intake.
Context (encode : StoredValue -> Result StorageError unit).
Context (encode_event : AuditEvent AuditEventKind -> Result StorageError bytes).
Context (retention_encodes : AuditRetentionState -> bool).
Context (sha256 : bytes -> bytes).

(** ** Funding attempts *)

Definition deposit_funding_attempt (s : Store) (id : bytes) : option DepositFundingAttempt :=
  fst <$> t_rows (in_attempts (st_intake s)) !! id.

(** The attempt is the owner's own pull of the amount it names. *)
Definition attempt_consistent (owner : bytes) (attempt : DepositFundingAttempt) : bool :=
  bool_decide (di_caller (dfa_intent attempt) = owner)
  && bool_decide (a_owner (lti_from (dfa_transfer attempt)) = owner)
  && bool_decide (a_subaccount (lti_from (dfa_transfer attempt))
                  = di_from_subaccount (dfa_intent attempt))
  && (lti_amount (dfa_transfer attempt) =? dfa_gross_amount attempt)
  && bool_decide (lti_operation (dfa_transfer attempt) = PullDeposit).

Definition prepare_deposit_funding_attempt
    (s : Store) (owner : bytes) (attempt : DepositFundingAttempt)
    (quota : DepositQuotaAdmission) (cycles : DepositCycleAdmission)
    (notifications : option Z) : Result StorageError (DepositAdmissionOutcome * Store) :=
  let id := di_deposit_id (dfa_intent attempt) in
  if is_some (deposit_row s id) then Err (StorageError_Core ConflictingReplay)
  else match deposit_funding_attempt s id with
  | Some existing =>
      if bool_decide (di_payload_hash (dfa_intent existing) = di_payload_hash (dfa_intent attempt))
         && bool_decide (dfa_intent existing = dfa_intent attempt)
         && bool_decide (dfa_transfer existing = dfa_transfer attempt)
      then Ok (Admission_Existing, s) else Err (StorageError_Core ConflictingReplay)
  | None =>
      let? lifetime_records := db (lifetime_deposit_record_count s) in
      if negb (lifetime_deposit_capacity_available lifetime_records)
      then Err LifetimeDepositCapacityExceeded
      else if negb (attempt_consistent owner attempt)
      then Err (StorageError_Core ConflictingReplay)
      else
        let? admin := ok_or (in_admin (st_intake s)) RecordNotFound in
        if ads_deposits_paused admin then Err DepositsPaused
        else
          let? sequence_key := owner_sequence_key owner in
          let expected := next_deposit_sequence s sequence_key in
          if negb (di_owner_sequence (dfa_intent attempt) =? expected)
          then Err (SequenceMismatch expected)
          else
            let? admission :=
              consume_deposit_quota_and_reserve_funding (in_deposit_admission (st_intake s))
                owner id (dfa_gross_amount attempt) quota in
            let active := Z.of_nat (length (dac_funding_reservations admission)) in
            let? token := deposit_reserve_token s notifications in
            let? deposits := nonterminal_deposit_count s in
            let? required :=
              core (ReservePolicy_required_cycles (dca_reserve_policy cycles)
                      (drt_nonterminal_withdrawals token) deposits active) in
            if dca_cycles_balance cycles <? required then Err ReserveUnavailable
            else
              let? _ := encode (SV_DepositAdmission admission) in
              let? _ := encode (SV_FundingAttempt attempt) in
              let? recovery_due_ns := funding_recovery_due_ns attempt in
              let? nonterminal_key :=
                deposit_owner_index_key owner (di_owner_sequence (dfa_intent attempt)) in
              let? attempts :=
                db (insert_tracked_entry (in_attempts (st_intake s)) id
                      (attempt, recovery_due_ns)) in
              let? nonterminal :=
                db (insert_tracked_entry (dt_nonterminal (st_deposits s)) nonterminal_key id) in
              Ok (Admission_Inserted,
                  with_intake (with_deposits s (with_nonterminal (st_deposits s) nonterminal))
                    (with_attempts (st_intake s) attempts admission))
  end.

(** The row compared with the value it was read as. *)
Definition expect_attempt (s : Store) (attempt : DepositFundingAttempt) (message : string)
    : Result DbError unit :=
  match t_rows (in_attempts (st_intake s)) !! di_deposit_id (dfa_intent attempt) with
  | None => Err NotFound
  | Some (persisted, _) =>
      if bool_decide (persisted = attempt) then Ok tt else Err (Constraint message)
  end.

Definition update_deposit_funding_attempt (s : Store) (previous next : DepositFundingAttempt)
    : Result StorageError Store :=
  if bool_decide (dfa_intent previous <> dfa_intent next)
     || bool_decide (dfa_transfer previous <> dfa_transfer next)
  then Err (StorageError_Core ConflictingReplay)
  else
    let? _ := encode (SV_FundingAttempt previous) in
    let? _ := encode (SV_FundingAttempt next) in
    let? recovery_due_ns := funding_recovery_due_ns next in
    let? _ := db (expect_attempt s previous "stale deposit funding attempt") in
    let attempts :=
      update_entry (in_attempts (st_intake s)) (di_deposit_id (dfa_intent previous))
        (next, recovery_due_ns) in
    Ok (with_intake s
          (with_attempts (st_intake s) attempts (in_deposit_admission (st_intake s)))).

Definition remove_deposit_funding_attempt
    (s : Store) (owner : bytes) (attempt : DepositFundingAttempt) : Result StorageError Store :=
  let id := di_deposit_id (dfa_intent attempt) in
  let? admission :=
    rollback_failed_deposit_admission (in_deposit_admission (st_intake s)) owner id in
  let? _ := encode (SV_DepositAdmission admission) in
  let? _ := encode (SV_FundingAttempt attempt) in
  let? nonterminal_key :=
    deposit_owner_index_key owner (di_owner_sequence (dfa_intent attempt)) in
  let? _ := db (expect_attempt s attempt "stale deposit funding attempt") in
  let? attempts := db (delete_tracked_entry (in_attempts (st_intake s)) id) in
  let? nonterminal :=
    db (delete_tracked_entry (dt_nonterminal (st_deposits s)) nonterminal_key) in
  Ok (with_intake (with_deposits s (with_nonterminal (st_deposits s) nonterminal))
        (with_attempts (st_intake s) attempts admission)).

(** ** Admitting a deposit *)

Definition intent_matches (owner : bytes) (intent : DepositIntent) (record : DepositRecord)
    : bool :=
  bool_decide (di_deposit_id intent = dr_id record)
  && bool_decide (di_payload_hash intent = dr_payload_hash record)
  && bool_decide (di_caller intent = owner)
  && bool_decide (di_caller intent = a_owner (lti_from (dr_transfer record)))
  && bool_decide (di_from_subaccount intent = a_subaccount (lti_from (dr_transfer record))).

(** An attempt that was sent to the ledger becomes the deposit it was made for,
    funded, or waiting for the hold that comes with it. *)
Definition promotion_matches
    (intent : DepositIntent) (record : DepositRecord) (attempt : DepositFundingAttempt)
    (hold : option ReconciliationHoldRecord) : bool :=
  bool_decide (dfa_intent attempt = intent)
  && bool_decide (dfa_transfer attempt = dr_transfer record)
  && match dfa_state attempt with
     | Attempt_Dispatched _ | Attempt_Retryable _ | Attempt_Reconciling _ _ _ => true
     | Attempt_Prepared => false
     end
  && match hold, dr_state record with
     | None, EscrowedUnquoted _ => true
     | Some hold, FundingReconciliationHold hold_id =>
         (rh_id hold =? hold_id)
         && bool_decide (rh_request hold = Ref_DepositFunding (dr_id record))
         && bool_decide (rh_transfer hold = dr_transfer record)
         && is_open_hold hold
     | _, _ => false
     end.

(** The admission control after a deposit: the reservation of its attempt is
    released, or, without an attempt, the quota is charged. *)
Definition admission_after
    (i : IntakeState) (owner : bytes) (quota : option DepositQuotaAdmission)
    (attempt : option DepositFundingAttempt)
    : Result StorageError (option DepositAdmissionControl) :=
  match quota, attempt with
  | Some _, Some attempt =>
      let? admission :=
        release_deposit_funding_reservation (in_deposit_admission i) owner
          (di_deposit_id (dfa_intent attempt)) in
      let? _ := encode (SV_DepositAdmission admission) in
      Ok (Some admission)
  | Some quota, None =>
      let? admin := ok_or (in_admin i) RecordNotFound in
      if ads_deposits_paused admin then Err DepositsPaused
      else
        let? admission := consume_deposit_quota (in_deposit_admission i) owner quota in
        let? _ := encode (SV_DepositAdmission admission) in
        Ok (Some admission)
  | None, Some _ => Err RecordNotFound
  | None, None => Ok None
  end.

Definition admission_counters
    (counters : CounterState) (record : DepositRecord) (hold : option ReconciliationHoldRecord)
    : Result StorageError CounterState :=
  let? next_hold_id :=
    match hold with
    | Some hold =>
        if negb (cs_next_hold_id counters =? rh_id hold)
        then Err (StorageError_Core ConflictingReplay)
        else ok_or (checked_add u64_max (cs_next_hold_id counters) 1) CounterOverflow
    | None => Ok (cs_next_hold_id counters)
    end in
  let? next_sequence :=
    ok_or (checked_add u64_max (cs_next_deposit_index_sequence counters) 1) CounterOverflow in
  let? pending :=
    adjust_active_count (cs_pending_ledger_operations counters) false
      (is_pending_deposit_ledger record) in
  let? amount :=
    adjust_reserved_mint_amount (cs_reserved_deposit_mint_amount counters) None record in
  let? reservation :=
    ok_or (reservation_decision (cs_reserved_deposit_mint_amount counters) 0) CounterOverflow in
  if negb (rd_reserved reservation =? amount) || negb (rd_candidate reservation =? 0)
  then Err CounterOverflow
  else
    let? operations :=
      adjust_reserved_mint_operations (cs_reserved_deposit_mint_operations counters)
        None record in
    Ok (with_reserved
          (with_pending
             (with_next_deposit (with_next_hold counters next_hold_id) next_sequence) pending)
          amount operations).

(** The oldest entry of an owner whose index is full: [range_limited] over the
    keys with the owner's prefix, and [nth]. *)
Definition excess_owner_key (index : Table bytes bytes) (range_start range_end : bytes)
    : option bytes :=
  take MAX_OWNER_DEPOSIT_INDEX_ENTRIES
    (merge_sort bytes_le
       (filter (fun key => bytes_le range_start key /\ bytes_le key range_end)
          (elements (dom (t_rows index)))))
    !! (MAX_OWNER_DEPOSIT_INDEX_ENTRIES - 1)%nat.

(** The two index writes for the hold that comes with a deposit. *)
Definition insert_open_hold (t : HoldTables) (hold : option ReconciliationHoldRecord)
    : Result DbError HoldTables :=
  match hold with
  | None => Ok t
  | Some hold =>
      let? holds := insert_tracked_entry (ht_holds t) (rh_id hold) hold in
      let? open_ := insert_tracked_entry (ht_open t) (rh_id hold) tt in
      Ok {| ht_holds := holds; ht_open := open_; ht_scans := ht_scans t |}
  end.

Definition admit_deposit
    (s : Store) (owner : bytes) (intent : DepositIntent) (record : DepositRecord)
    (quota : option DepositQuotaAdmission)
    (promotion : option (DepositFundingAttempt * option ReconciliationHoldRecord))
    : Result StorageError (DepositAdmissionOutcome * Store) :=
  let i := st_intake s in
  match deposit_row s (dr_id record) with
  | Some existing =>
      if bool_decide (dr_payload_hash (sd_record existing) = dr_payload_hash record)
         && bool_decide (StoredDeposit_intent existing = intent)
      then Ok (Admission_Existing, s) else Err (StorageError_Core ConflictingReplay)
  | None =>
      if negb (intent_matches owner intent record) then Err (StorageError_Core ConflictingReplay)
      else if is_some_and promotion (fun '(attempt, hold) =>
                negb (promotion_matches intent record attempt hold))
      then Err (StorageError_Core ConflictingReplay)
      else
        let hold := promotion ≫= snd in
        let? admission := admission_after i owner quota (fst <$> promotion) in
        let? sequence_key := owner_sequence_key owner in
        let expected := next_deposit_sequence s sequence_key in
        if negb (di_owner_sequence intent =? expected) then Err (SequenceMismatch expected)
        else
          let? next_owner_sequence := ok_or (checked_add u64_max expected 1) CounterOverflow in
          let? counters := admission_counters (st_counters s) record hold in
          let stored :=
            {| sd_record := record; sd_owner_sequence := di_owner_sequence intent;
               sd_base_recipient := di_base_recipient intent |} in
          let? _ := encode (SV_Deposit stored) in
          let? _ := encode (SV_Counters counters) in
          let? index_key :=
            deposit_owner_index_key owner (cs_next_deposit_index_sequence (st_counters s)) in
          let? nonterminal_key := deposit_owner_index_key owner (di_owner_sequence intent) in
          let prefix := deposit_owner_index_prefix owner in
          let? range_start := StableBlob_new (deposit_owner_index_bytes prefix 0) in
          let? range_end := StableBlob_new (deposit_owner_index_bytes prefix u64_max) in
          let excess := excess_owner_key (in_owner_index i) range_start range_end in
          let? _ :=
            match promotion with
            | Some (attempt, _) => encode (SV_FundingAttempt attempt)
            | None => Ok tt
            end in
          let? _ := match hold with Some hold => encode (SV_Hold hold) | None => Ok tt end in
          let? s :=
            db (
              let? _ :=
                match promotion with
                | Some (attempt, _) => expect_attempt s attempt "stale deposit funding promotion"
                | None => Ok tt
                end in
              let t := st_deposits s in
              let? deposits := insert_tracked_entry (dt_deposits t) (dr_id record) stored in
              let? owner_index :=
                insert_tracked_entry (in_owner_index i) index_key (dr_id record) in
              let? nonterminal :=
                upsert_table_entry (dt_nonterminal t) nonterminal_key (dr_id record) in
              let? owner_index :=
                match excess with
                | Some key => delete_tracked_entry owner_index key
                | None => Ok owner_index
                end in
              let? pull_pending :=
                if is_pending_deposit_ledger record
                then insert_tracked_entry (dt_pull_pending t) (dr_id record) tt
                else Ok (dt_pull_pending t) in
              let jobs :=
                enqueue_settlement_job (st_jobs s) Job_Deposit (dr_id record)
                  (map_or 0 dqa_now_ns quota) in
              let? holds := insert_open_hold (st_holds s) hold in
              let? attempts :=
                match promotion with
                | Some _ => delete_tracked_entry (in_attempts i) (dr_id record)
                | None => Ok (in_attempts i)
                end in
              let? sequences :=
                upsert_table_entry (in_owner_sequences i) sequence_key next_owner_sequence in
              let t :=
                {| dt_deposits := deposits; dt_pull_pending := pull_pending;
                   dt_deadlines := dt_deadlines t; dt_nonterminal := nonterminal |} in
              let intake :=
                with_owners
                  (with_attempts i attempts (default (in_deposit_admission i) admission))
                  owner_index sequences in
              Ok (with_intake
                    (with_holds
                       (with_jobs (with_deposits s t) jobs (st_settlement_admission s)) holds)
                    intake)) in
          Ok (Admission_Inserted, with_counters s counters)
  end.

(** ** Ingesting a withdrawal *)

(** The audit records a bundle appends, and the counters with their sequence. *)
Definition prepare_bundle_audit
    (s : Store) (counters : CounterState) (audit : option (bytes * Z * list AuditEventKind))
    : Result StorageError (option PreparedAuditBatch * CounterState) :=
  match audit with
  | None => Ok (None, counters)
  | Some (caller, timestamp_ns, kinds) =>
      let? (batch, next_sequence) :=
        prepare_audit_batch encode_event retention_encodes sha256 (st_audit_events s)
          (st_audit_retention s) (cs_next_audit_sequence counters) caller timestamp_ns kinds in
      Ok (Some batch, with_next_audit counters next_sequence)
  end.

Definition commit_bundle_audit (s : Store) (audit : option PreparedAuditBatch)
    : Result DbError Store :=
  match audit with
  | None => Ok s
  | Some batch =>
      let? events := commit_audit_batch (st_audit_events s) batch in
      Ok (with_audit s events (pab_retention batch))
  end.

Definition write_withdrawal_transaction (t : Table bytes bytes) (id hash : bytes)
    : Result DbError (Table bytes bytes) :=
  if is_some_and (t_rows t !! id) (fun previous => bool_decide (previous <> hash))
  then Err (Constraint "conflicting withdrawal transaction")
  else upsert_table_entry t id hash.

(** The notification that carried the withdrawal, remembered so that it is not
    ingested again. *)
Definition record_notification (i : IntakeState) (id : bytes) (hash : option bytes)
    : Result DbError IntakeState :=
  match hash with
  | None => Ok i
  | Some hash =>
      let? notifications := insert_tracked_entry (in_notifications i) hash id in
      let? transactions := write_withdrawal_transaction (in_transactions i) id hash in
      Ok (with_notifications i (in_notification_admission i) notifications transactions)
  end.

Definition ingestion_quota
    (i : IntakeState) (ingestion : option (Z * Z * Z))
    : Result StorageError NotificationAdmissionControl :=
  match ingestion with
  | None => Ok (in_notification_admission i)
  | Some (now_ns, window_seconds, limit) =>
      prepare_notification_ingestion_quota
        (fun admission => encode (SV_NotificationAdmission admission))
        (in_notification_admission i) now_ns window_seconds limit
  end.

Definition commit_new_withdrawal_release_bundle_inner
    (s : Store) (withdrawal : WithdrawalRecord) (progress : ExternalProgress)
    (rpc_audit : option (bytes * Z * list AuditEventKind))
    (notification_hash : option bytes) (notification_ingestion : option (Z * Z * Z))
    : Result StorageError (bool * Store) :=
  let i := st_intake s in
  if is_some_and notification_hash (fun hash => is_some (t_rows (in_notifications i) !! hash))
  then Err (StorageError_Core ConflictingReplay)
  else match withdrawal_row s (wr_id withdrawal) with
  | Some previous =>
      if bool_decide (previous = withdrawal) then Ok (false, s)
      else Err (StorageError_Core ConflictingReplay)
  | None =>
      let? (attempt, settlement) :=
        match wr_state withdrawal with
        | ReleasePending attempt settlement => Ok (attempt, settlement)
        | _ => Err (StorageError_Core PayloadConflict)
        end in
      let? expected :=
        apply_withdrawal (WithdrawalRecord_with_state withdrawal Observed)
          (StartRelease attempt settlement) in
      if bool_decide (expected <> withdrawal) then Err (StorageError_Core PayloadConflict)
      else
        let? pending :=
          ok_or (checked_add u64_max (cs_pending_ledger_operations (st_counters s)) 1)
            CounterOverflow in
        let? (audit, counters) :=
          prepare_bundle_audit s (with_pending (st_counters s) pending) rpc_audit in
        let? _ := encode (SV_Withdrawal withdrawal) in
        let? _ := encode (SV_Counters counters) in
        let? _ := encode (SV_ExternalProgress progress) in
        let? admission := ingestion_quota i notification_ingestion in
        let key := wr_id withdrawal in
        let? s :=
          db (
            let? t := replace_withdrawal_row (st_withdrawals s) key None withdrawal in
            let? intake := record_notification i key notification_hash in
            let? release_pending := insert_tracked_entry (wt_release_pending t) key tt in
            let? s := commit_bundle_audit s audit in
            let intake :=
              with_progress
                (with_notifications intake admission (in_notifications intake)
                   (in_transactions intake)) progress in
            Ok (with_intake
                  (with_withdrawals s (with_release_pending t release_pending)) intake)) in
        Ok (true, with_counters s counters)
  end.

Definition commit_new_withdrawal_release_bundle
    (s : Store) (withdrawal : WithdrawalRecord) (progress : ExternalProgress)
    : Result StorageError (bool * Store) :=
  commit_new_withdrawal_release_bundle_inner s withdrawal progress None None None.

Definition commit_new_withdrawal_release_bundle_with_rpc_audit
    (s : Store) (withdrawal : WithdrawalRecord) (progress : ExternalProgress)
    (caller : bytes) (timestamp_ns : Z) (audit_kinds : list AuditEventKind)
    (transaction_hash : bytes) (notification_window_seconds notification_ingestion_limit : Z)
    : Result StorageError (bool * Store) :=
  commit_new_withdrawal_release_bundle_inner s withdrawal progress
    (Some (caller, timestamp_ns, audit_kinds)) (Some transaction_hash)
    (Some (timestamp_ns, notification_window_seconds, notification_ingestion_limit)).

(** ** The withdrawal fee guard *)

Definition fee_guard_reason : string := "LedgerFeeExceedsServiceFee".

(** The guard is tripped by a ledger fee the withdrawal's charge does not cover. *)
Definition fee_guard_matches (admin : AdminState) (withdrawal : WithdrawalRecord)
    : Result StorageError unit :=
  let? guard := ok_or (ads_withdrawal_fee_guard admin) (StorageError_Core PayloadConflict) in
  if (wfg_ledger_fee guard <=? wfg_charged_service_fee guard)
     || negb (wfg_charged_service_fee guard =? wr_charged_service_fee withdrawal)
  then Err (StorageError_Core PayloadConflict) else Ok tt.

Definition is_observed (withdrawal : WithdrawalRecord) : bool :=
  match wr_state withdrawal with Observed => true | _ => false end.

Definition commit_withdrawal_fee_guard_trip_bundle
    (s : Store) (withdrawal : WithdrawalRecord) (progress : ExternalProgress)
    (admin : AdminState) (caller : bytes) (timestamp_ns : Z) (audit_kinds : list AuditEventKind)
    (transaction_hash : bytes) (notification_window_seconds notification_ingestion_limit : Z)
    : Result StorageError Store :=
  let i := st_intake s in
  if is_some (t_rows (in_notifications i) !! transaction_hash)
     || is_some (withdrawal_row s (wr_id withdrawal))
     || negb (is_observed withdrawal)
     || bool_decide (wr_last_settlement_stop_reason withdrawal <> Some fee_guard_reason)
  then Err (StorageError_Core PayloadConflict)
  else
    let? _ := fee_guard_matches admin withdrawal in
    let? (audit, counters) :=
      prepare_bundle_audit s (st_counters s) (Some (caller, timestamp_ns, audit_kinds)) in
    let? _ := encode (SV_Counters counters) in
    let? _ := encode (SV_ExternalProgress progress) in
    let? _ := encode (SV_Admin admin) in
    let? _ := encode (SV_Withdrawal withdrawal) in
    let key := wr_id withdrawal in
    let? admission :=
      ingestion_quota i
        (Some (timestamp_ns, notification_window_seconds, notification_ingestion_limit)) in
    let? s :=
      db (
        let? t := replace_withdrawal_row (st_withdrawals s) key None withdrawal in
        let? intake := record_notification i key (Some transaction_hash) in
        let? s := commit_bundle_audit s audit in
        let intake :=
          with_admin
            (with_progress
               (with_notifications intake admission (in_notifications intake)
                  (in_transactions intake)) progress) (Some admin) in
        Ok (with_intake (with_withdrawals s t) intake)) in
    Ok (with_counters s counters).

Definition commit_withdrawal_fee_guard_update
    (s : Store) (previous withdrawal : WithdrawalRecord) (admin : AdminState)
    (caller : bytes) (timestamp_ns : Z) (audit_kinds : list AuditEventKind)
    : Result StorageError Store :=
  let make_release_runnable := is_pending_withdrawal_ledger withdrawal in
  let? pending :=
    adjust_active_count (cs_pending_ledger_operations (st_counters s))
      (is_pending_withdrawal_ledger previous) (is_pending_withdrawal_ledger withdrawal) in
  let? (audit, counters) :=
    prepare_bundle_audit s (with_pending (st_counters s) pending)
      (Some (caller, timestamp_ns, audit_kinds)) in
  let? _ := encode (SV_Counters counters) in
  let? _ := encode (SV_Admin admin) in
  let? _ := encode (SV_Withdrawal withdrawal) in
  let key := wr_id withdrawal in
  let? s :=
    db (
      let? t := replace_withdrawal_row (st_withdrawals s) key (Some previous) withdrawal in
      let? release_pending :=
        if make_release_runnable then insert_tracked_entry (wt_release_pending t) key tt
        else Ok (wt_release_pending t) in
      let? s := commit_bundle_audit s audit in
      Ok (with_intake (with_withdrawals s (with_release_pending t release_pending))
            (with_admin (st_intake s) (Some admin)))) in
  Ok (with_counters s counters).

Definition commit_withdrawal_fee_guard_continue_bundle
    (s : Store) (withdrawal : WithdrawalRecord) (admin : AdminState)
    (caller : bytes) (timestamp_ns : Z) (audit_kinds : list AuditEventKind)
    : Result StorageError Store :=
  let? previous := ok_or (withdrawal_row s (wr_id withdrawal)) RecordNotFound in
  if negb (is_observed previous) || negb (is_observed withdrawal)
     || bool_decide (wr_last_settlement_stop_reason withdrawal <> Some fee_guard_reason)
  then Err (StorageError_Core PayloadConflict)
  else if bool_decide (withdrawal_with_stop_reason previous
                         (wr_last_settlement_stop_reason withdrawal) <> withdrawal)
  then Err (StorageError_Core PayloadConflict)
  else
    let? _ := fee_guard_matches admin withdrawal in
    commit_withdrawal_fee_guard_update s previous withdrawal admin caller timestamp_ns
      audit_kinds.

Definition commit_withdrawal_fee_guard_clear_bundle
    (s : Store) (withdrawal : WithdrawalRecord) (admin : AdminState)
    (caller : bytes) (timestamp_ns : Z) (audit_kinds : list AuditEventKind)
    : Result StorageError Store :=
  let? previous := ok_or (withdrawal_row s (wr_id withdrawal)) RecordNotFound in
  let? (attempt, settlement) :=
    match wr_state withdrawal with
    | ReleasePending attempt settlement => Ok (attempt, settlement)
    | _ => Err (StorageError_Core PayloadConflict)
    end in
  let? expected := apply_withdrawal previous (StartRelease attempt settlement) in
  if negb (is_observed previous)
     || bool_decide (withdrawal_with_stop_reason expected None <> withdrawal)
     || is_some (ads_withdrawal_fee_guard admin)
  then Err (StorageError_Core PayloadConflict)
  else
    commit_withdrawal_fee_guard_update s previous withdrawal admin caller timestamp_ns
      audit_kinds.
End intake.
