(* ===== verification/Funding.v ===== *)
(** * Funding a deposit

    The deposit handler of [canister/bridge-canister/src/api.rs] and the recovery
    of unfinished funding attempts of [scheduler.rs], with the public phases of
    [phases.rs].  Both handlers wait for a canister call in the middle, and other
    messages run while they wait; each is therefore two definitions, the message
    before the call and the callback after it.

    Unlike a storage transaction, a handler that returns an error keeps what it
    has written before.  A handler is a function from the store to a store and an
    answer; a trap undoes the message.  The fee observation that the source makes
    before it promotes a funded attempt, whose result it ignores, and the timers
    it arms are not modelled. *)

From stdpp Require Import sorting.
From S2P Require Import Prelude KernelArith KernelPolicy Types Accounting External Authorization.
From S2P Require Import Withdrawal Deposit Reconciliation Tables StorageTypes Config Admission Jobs.
From S2P Require Import Notifications EventLog Store Bundles Intake.

(** ** Answers *)

Inductive FundingFailure :=
| Funding_BadFee (expected_fee : Z)
| Funding_BadBurn (minimum : Z)
| Funding_InsufficientFunds (balance : Z)
| Funding_InsufficientAllowance (allowance : Z).

(** The text of a [Rejected] answer: a fixed one, or the name of a core error. *)
Inductive Rejection :=
| Rejection_Named (text : string)
| Rejection_Core (error : CoreError).

Inductive DepositError :=
| DepositError_InvalidRequest (text : string)
| DepositError_BaseObservationUnavailable
| DepositError_DepositIdentityConflict
| DepositError_Rejected (detail : Rejection)
| DepositError_StorageFailure
| DepositError_DepositsPaused
| DepositError_ReserveUnavailable
| DepositError_ReservationMaintenance (retry_after_seconds : Z)
| DepositError_RateLimited (retry_after_seconds : Z)
| DepositError_SequenceMismatch (expected : Z)
| DepositError_DepositConflict
| DepositError_Busy
| DepositError_FundingRejected (failure : FundingFailure)
| DepositError_FundingUnavailable (retry_after_seconds : Z).

Definition deposit_storage_error (error : StorageError) : DepositError :=
  match error with
  | SequenceMismatch expected => DepositError_SequenceMismatch expected
  | DepositsPaused => DepositError_DepositsPaused
  | ReserveUnavailable => DepositError_ReserveUnavailable
  | DepositRateLimited retry_after_seconds => DepositError_RateLimited retry_after_seconds
  | LifetimeDepositCapacityExceeded =>
      DepositError_Rejected (Rejection_Named "LifetimeDepositCapacityExceeded")
  | StorageError_Core ConflictingReplay => DepositError_DepositConflict
  | _ => DepositError_StorageFailure
  end.

Definition storage_failure (_ : StorageError) : DepositError := DepositError_StorageFailure.

Definition funding_failure (code : LedgerFailure) : Result DepositError FundingFailure :=
  match code with
  | BadFee expected_fee => Ok (Funding_BadFee expected_fee)
  | BadBurn minimum => Ok (Funding_BadBurn minimum)
  | InsufficientFunds balance => Ok (Funding_InsufficientFunds balance)
  | InsufficientAllowance allowance => Ok (Funding_InsufficientAllowance allowance)
  | _ => Err DepositError_StorageFailure
  end.

Inductive DepositPhase :=
| Phase_EscrowedUnquoted
| Phase_AuthorizationPending
| Phase_AuthorizationAvailable
| Phase_RefundAvailable
| Phase_Minted
| Phase_FundingReconciliationHold
| Phase_RefundProcessing
| Phase_Refunded
| Phase_Cancelled.

(** No phase for [FundingPending]: the source panics there. *)
Definition DepositPhase_from (state : DepositState) : option DepositPhase :=
  match state with
  | FundingPending => None
  | EscrowedUnquoted _ => Some Phase_EscrowedUnquoted
  | AuthorizationPending _ => Some Phase_AuthorizationPending
  | AuthorizationAvailable _ => Some Phase_AuthorizationAvailable
  | RefundAvailable _ _ => Some Phase_RefundAvailable
  | Minted _ => Some Phase_Minted
  | FundingReconciliationHold _ => Some Phase_FundingReconciliationHold
  | RefundPending _ _ _ | RefundReconciliationHold _ _ _ _ => Some Phase_RefundProcessing
  | Refunded _ _ _ _ _ => Some Phase_Refunded
  | Cancelled _ _ _ => Some Phase_Cancelled
  end.

Record DepositReceipt := {
  dpr_deposit_id : bytes;
  dpr_owner_sequence : Z;
  dpr_state : DepositPhase;
}.

(** ** Handlers *)

Inductive Failure :=
| Failed (error : DepositError)
| Trapped.

Definition Handler (A : Type) : Type := Store -> Store * Result Failure A.

Definition ret {A} (a : A) : Handler A := fun s => (s, Ok a).
Definition fail {A} (error : DepositError) : Handler A := fun s => (s, Err (Failed error)).

Definition then_ {A B} (m : Handler A) (k : A -> Handler B) : Handler B := fun s =>
  match m s with
  | (s, Ok a) => k a s
  | (s, Err failure) => (s, Err failure)
  end.

Notation "'let*' x ':=' m 'in' k" := (then_ m (fun x => k))
  (at level 10, x pattern, m at level 200, k at level 200,
   format "'[v' 'let*'  x  ':='  m  'in' '//' k ']'").

(** A value read from the store, a pure computation, and a storage transaction. *)
Definition read {A} (f : Store -> A) : Handler A := fun s => (s, Ok (f s)).

Definition pure {A} (r : Result DepositError A) : Handler A := fun s =>
  (s, match r with Ok a => Ok a | Err error => Err (Failed error) end).

Definition guard (refuse : bool) (error : DepositError) : Handler unit :=
  if refuse then fail error else ret tt.

Definition commit {A} (f : Store -> Result StorageError (A * Store))
    (error : StorageError -> DepositError) : Handler A := fun s =>
  match f s with
  | Ok (a, s) => (s, Ok a)
  | Err e => (s, Err (Failed (error e)))
  end.

(** A message that traps leaves the store as it found it. *)
Definition message {A} (m : Handler A) : Handler A := fun s =>
  match m s with
  | (_, Err Trapped) => (s, Err Trapped)
  | answer => answer
  end.

(** ** Requests *)

Record DepositArgs := {
  da_owner_sequence : Z;
  da_base_recipient : bytes;
  da_from_subaccount : option bytes;
  da_gross_amount : Z;
  da_max_service_fee : Z;
}.

Record ValidatedDepositArgs := {
  vda_owner_sequence : Z;
  vda_base_recipient : bytes;
  vda_from_subaccount : bytes;
  vda_gross_amount : Z;
  vda_max_service_fee : Z;
}.

(** A candid [Nat] is unbounded. *)
Definition bounded_nat_u128 (value : Z) : option Z :=
  if u128_max <? value then None else Some value.

Definition nat_u128 (value : Z) : Result DepositError Z :=
  ok_or (bounded_nat_u128 value) (DepositError_InvalidRequest "amount exceeds u128").

(** What a message sees besides the tables: the configuration and the activation
    attestation, which no operation of this development changes, the canister's
    own principal, its liquid cycles, the cycles slots of notifications in flight,
    and the time. *)
Record Environment := {
  env_config : option BridgeInitArgs;
  env_attestation : option ActivationAttestation;
  env_self : bytes;
  env_cycles : Z;
  env_notifications : option Z;
  env_now : Z;
}.

Definition config (env : Environment) : Result DepositError BridgeInitArgs :=
  ok_or (env_config env) DepositError_StorageFailure.

Definition funding_quota (config : BridgeInitArgs) (now_ns : Z) : DepositQuotaAdmission :=
  {| dqa_now_ns := now_ns;
     dqa_window_seconds := bia_deposit_rate_limit_window_seconds config;
     dqa_global_limit := bia_deposit_rate_limit_global config;
     dqa_per_principal_limit := bia_deposit_rate_limit_per_principal config |}.

Definition with_state (a : DepositFundingAttempt) (state : DepositFundingAttemptState)
    (updated_at_ns : Z) (last_failure : option LedgerFailure) : DepositFundingAttempt :=
  {| dfa_intent := dfa_intent a; dfa_gross_amount := dfa_gross_amount a;
     dfa_max_service_fee := dfa_max_service_fee a; dfa_transfer := dfa_transfer a;
     dfa_state := state; dfa_created_at_ns := dfa_created_at_ns a;
     dfa_updated_at_ns := updated_at_ns; dfa_last_failure := last_failure |}.

Definition next_hold_id (s : Store) : Result StorageError Z :=
  let? _ := ok_or (checked_add u64_max (cs_next_hold_id (st_counters s)) 1) CounterOverflow in
  Ok (cs_next_hold_id (st_counters s)).

(** [Principal::try_from_slice] *)
Definition is_principal (p : bytes) : bool := len p <=? 29.

Section funding.
Context (encode : StoredValue -> Result StorageError unit).
Context (sha256 : bytes -> bytes).
Context (test_deployment : bool).

Definition KINIC_LEDGER_FEE : Z := if test_deployment then 10000 else 100000.

Definition hash_concat (parts : list bytes) : bytes := sha256 (concat parts).

Definition validate_deposit_args (caller : bytes) (args : DepositArgs)
    : Result DepositError ValidatedDepositArgs :=
  if bool_decide (caller = Principal_anonymous)
  then Err (DepositError_InvalidRequest "anonymous caller is not allowed")
  else if negb (len (da_base_recipient args) =? 20)
  then Err (DepositError_InvalidRequest "base_recipient must be 20 bytes")
  else if bool_decide (da_base_recipient args = zeros 20)
  then Err (DepositError_InvalidRequest "zero Base recipient is not allowed")
  else
    let? from_subaccount :=
      match da_from_subaccount args with
      | None => Ok (zeros 32)
      | Some b =>
          if len b =? 32 then Ok b
          else Err (DepositError_InvalidRequest "from_subaccount must be 32 bytes")
      end in
    let? gross_amount := nat_u128 (da_gross_amount args) in
    let? max_service_fee := nat_u128 (da_max_service_fee args) in
    if gross_amount <=? KINIC_LEDGER_FEE
    then Err (DepositError_InvalidRequest "gross_amount must exceed the fixed ledger fee")
    else
      Ok {| vda_owner_sequence := da_owner_sequence args;
            vda_base_recipient := da_base_recipient args;
            vda_from_subaccount := from_subaccount;
            vda_gross_amount := gross_amount;
            vda_max_service_fee := max_service_fee |}.

Definition derive_deposit_id_v3
    (canister_id : bytes) (base_chain_id : Z) (bridge_contract deployment_instance_id caller : bytes)
    (owner_sequence : Z) : bytes :=
  hash_concat
    [str "KINIC-DEPOSIT-ID-V3"; canister_id; to_be_bytes 8 base_chain_id; bridge_contract;
     deployment_instance_id; caller; to_be_bytes 8 owner_sequence].

Definition derive_deposit_id
    (config : BridgeInitArgs) (canister_id caller : bytes) (owner_sequence : Z)
    : Result DepositError bytes :=
  if negb (len (bia_bridge_contract config) =? 20) then Err DepositError_StorageFailure
  else if negb (len (bia_deployment_instance_id config) =? 32) then Err DepositError_StorageFailure
  else
    Ok (derive_deposit_id_v3 canister_id (bia_base_chain_id config) (bia_bridge_contract config)
          (bia_deployment_instance_id config) caller owner_sequence).

Definition payload_hash_of (deposit_id : bytes) (v : ValidatedDepositArgs) : bytes :=
  hash_concat
    [str "KINIC-DEPOSIT-PAYLOAD-V3"; deposit_id; vda_base_recipient v; vda_from_subaccount v;
     to_be_bytes 16 (vda_gross_amount v); to_be_bytes 16 (vda_max_service_fee v)].

Definition deposit_recipient_allowed_now (env : Environment) (config : BridgeInitArgs)
    (recipient : bytes) : Result DepositError bool :=
  let? attestation := ok_or (env_attestation env) DepositError_BaseObservationUnavailable in
  if negb (aa_chain_id attestation =? bia_base_chain_id config)
     || bool_decide (aa_bridge_runtime_sha256 attestation
                     <> bia_expected_bridge_runtime_sha256 config)
     || bool_decide (aa_bsns_runtime_sha256 attestation <> bia_expected_bsns_runtime_sha256 config)
     || bool_decide (aa_bsns_bridge attestation <> bia_bridge_contract config)
     || negb (len (aa_bsns_address attestation) =? 20)
     || all_zero (aa_bsns_address attestation)
     || negb (len (bia_bridge_contract config) =? 20)
  then Err DepositError_BaseObservationUnavailable
  else
    Ok (deposit_recipient_allowed (bool_decide (recipient = zeros 20))
          (bool_decide (recipient = bia_bridge_contract config))
          (bool_decide (recipient = aa_bsns_address attestation))).

(** The receipt of a deposit that exists; the same id with another payload is a
    conflict. *)
Definition existing_receipt (id payload_hash : bytes) : Handler (option DepositReceipt) := fun s =>
  match deposit_row s id with
  | None => (s, Ok None)
  | Some sd =>
      match DepositRecord_verify_retry (sd_record sd) payload_hash,
            DepositPhase_from (dr_state (sd_record sd)) with
      | Err _, _ => (s, Err (Failed DepositError_DepositConflict))
      | Ok _, None => (s, Err Trapped)
      | Ok _, Some phase =>
          (s, Ok (Some {| dpr_deposit_id := id; dpr_owner_sequence := sd_owner_sequence sd;
                          dpr_state := phase |}))
      end
  end.

(** ** Promotion of a funded attempt *)

Definition promotion_request (attempt : DepositFundingAttempt) : DepositRequest :=
  {| dq_id := di_deposit_id (dfa_intent attempt);
     dq_payload_hash := di_payload_hash (dfa_intent attempt);
     dq_gross_amount := dfa_gross_amount attempt;
     dq_user_max_service_fee := dfa_max_service_fee attempt;
     dq_transfer := dfa_transfer attempt |}.

(** The record after the event, which must not move the books. *)
Definition promoted_record (attempt : DepositFundingAttempt) (event : DepositEvent)
    : Result DepositError DepositRecord :=
  let? record :=
    map_err (fun error => DepositError_Rejected (Rejection_Core error))
      (DepositRecord_accept (promotion_request attempt)) in
  let? (result, record) :=
    map_err (fun _ => DepositError_StorageFailure) (DepositRecord_apply record event) in
  if bool_decide (ar_deposit_effects result <> Some DepositAccountingEffects_ZERO)
  then Err DepositError_StorageFailure
  else Ok record.

Definition admit_promoted
    (env : Environment) (config : BridgeInitArgs) (attempt : DepositFundingAttempt)
    (record : DepositRecord) (hold : option ReconciliationHoldRecord) : Handler DepositReceipt :=
  let intent := dfa_intent attempt in
  let* _ :=
    commit (fun s =>
      admit_deposit encode s (di_caller intent) intent record
        (Some (funding_quota config (env_now env))) (Some (attempt, hold)))
      deposit_storage_error in
  let* receipt := existing_receipt (di_deposit_id intent) (di_payload_hash intent) in
  pure (ok_or receipt DepositError_StorageFailure).

Definition promote_funding_success
    (env : Environment) (config : BridgeInitArgs) (attempt : DepositFundingAttempt)
    (block_index : Z) : Handler DepositReceipt :=
  let* _ := guard (negb (is_principal (di_caller (dfa_intent attempt))))
              DepositError_StorageFailure in
  let* record := pure (promoted_record attempt (FundingSucceeded block_index)) in
  admit_promoted env config attempt record None.

Definition promote_funding_ambiguous
    (env : Environment) (config : BridgeInitArgs) (attempt : DepositFundingAttempt)
    : Handler DepositReceipt :=
  let* _ := guard (negb (is_principal (di_caller (dfa_intent attempt))))
              DepositError_StorageFailure in
  let* hold_id := commit (fun s => let? id := next_hold_id s in Ok (id, s)) storage_failure in
  let* record := pure (promoted_record attempt (FundingAmbiguous hold_id)) in
  admit_promoted env config attempt record
    (Some (ReconciliationHoldRecord_open hold_id (Ref_DepositFunding (dr_id record))
             (dr_transfer record))).

(** ** The deposit request *)

Definition NANOS : Z := 1000000000.

(** The transfer a fresh request asks the ledger for: the canister pulls the gross
    amount from the caller's account into its own. *)
Definition fresh_transfer (env : Environment) (caller deposit_id : bytes) (v : ValidatedDepositArgs)
    : Result DepositError LedgerTransferIdentity :=
  let rejected {A} (r : Result CoreError A) :=
    map_err (fun error => DepositError_Rejected (Rejection_Core error)) r in
  let? from := rejected (Account_new caller (vda_from_subaccount v)) in
  let? to := rejected (Account_new (env_self env) (zeros 32)) in
  let? spender := rejected (Account_new (env_self env) (zeros 32)) in
  Ok {| lti_operation := PullDeposit; lti_created_at_time_ns := env_now env;
        lti_memo := hash_concat [str "KINIC-DEPOSIT-MEMO-V3"; deposit_id];
        lti_amount := vda_gross_amount v; lti_fee := KINIC_LEDGER_FEE;
        lti_from := from; lti_to := to; lti_spender := Some spender |}.

(** An attempt may be sent to the ledger when it was never sent, or when the
    ledger refused it and the delay is over. *)
Definition dispatchable (now : Z) (state : DepositFundingAttemptState) : Result DepositError unit :=
  match state with
  | Attempt_Retryable retry_after_ns =>
      if now <? retry_after_ns
      then Err (DepositError_FundingUnavailable
                  (saturating_add u64_max (saturating_sub retry_after_ns now) 999999999 / NANOS))
      else Ok tt
  | Attempt_Dispatched _ | Attempt_Reconciling _ _ _ => Err (DepositError_FundingUnavailable 30)
  | Attempt_Prepared => Ok tt
  end.

(** The message up to the ledger call: a receipt of a deposit that exists, or the
    attempt that is now marked as sent. *)
Definition request_deposit_dispatch (env : Environment) (caller : bytes) (args : DepositArgs)
    : Handler (DepositReceipt + DepositFundingAttempt) :=
  let* v := pure (validate_deposit_args caller args) in
  let* config := pure (config env) in
  let* deposit_id :=
    pure (derive_deposit_id config (env_self env) caller (vda_owner_sequence v)) in
  let payload_hash := payload_hash_of deposit_id v in
  let* receipt := existing_receipt deposit_id payload_hash in
  match receipt with
  | Some receipt => ret (inl receipt)
  | None =>
      let* sequence_key := pure (map_err storage_failure (owner_sequence_key caller)) in
      let* expected_sequence := read (fun s => next_deposit_sequence s sequence_key) in
      let* _ := guard (negb (vda_owner_sequence v =? expected_sequence))
                  (DepositError_SequenceMismatch expected_sequence) in
      let* admin := read (fun s => in_admin (st_intake s)) in
      let* admin := pure (ok_or admin DepositError_StorageFailure) in
      let* _ := guard (ads_deposits_paused admin) DepositError_DepositsPaused in
      let now := env_now env in
      let* existing_attempt := read (fun s => deposit_funding_attempt s deposit_id) in
      let* allowed :=
        if is_some existing_attempt then ret true
        else pure (deposit_recipient_allowed_now env config (vda_base_recipient v)) in
      let* _ := guard (negb allowed)
        (DepositError_InvalidRequest "Base recipient cannot be zero, Bridge, or BSNS") in
      let* fresh := pure (fresh_transfer env caller deposit_id v) in
      let intent :=
        {| di_deposit_id := deposit_id; di_caller := caller;
           di_owner_sequence := vda_owner_sequence v; di_base_recipient := vda_base_recipient v;
           di_from_subaccount := vda_from_subaccount v; di_payload_hash := payload_hash |} in
      let* _ := guard (is_some_and existing_attempt (fun a => bool_decide (dfa_intent a <> intent)))
                  DepositError_DepositConflict in
      let transfer := map_or fresh dfa_transfer existing_attempt in
      let proposed :=
        {| dfa_intent := intent; dfa_gross_amount := vda_gross_amount v;
           dfa_max_service_fee := vda_max_service_fee v; dfa_transfer := transfer;
           dfa_state := Attempt_Prepared; dfa_created_at_ns := now; dfa_updated_at_ns := now;
           dfa_last_failure := None |} in
      let* outcome :=
        if is_some existing_attempt then ret Admission_Existing
        else
          commit (fun s =>
            prepare_deposit_funding_attempt encode s caller proposed (funding_quota config now)
              {| dca_cycles_balance := env_cycles env;
                 dca_reserve_policy := reserve_policy config |} (env_notifications env))
            deposit_storage_error in
      let* stored := read (fun s => deposit_funding_attempt s deposit_id) in
      let* previous :=
        match outcome with
        | Admission_Existing => pure (ok_or stored DepositError_StorageFailure)
        | Admission_Inserted => ret proposed
        end in
      let* _ := guard (bool_decide (dfa_intent previous <> intent)
                       || bool_decide (dfa_transfer previous <> transfer))
                  DepositError_DepositConflict in
      let* _ := pure (dispatchable now (dfa_state previous)) in
      let attempt :=
        with_state previous (Attempt_Dispatched now) now (dfa_last_failure previous) in
      let* _ := commit (fun s =>
          let? s := update_deposit_funding_attempt encode s previous attempt in Ok (tt, s))
        storage_failure in
      ret (inr attempt)
  end.

Definition outcome_kind (outcome : LedgerCallOutcome) : Z :=
  match outcome with
  | Outcome_Succeeded _ => 0
  | Outcome_Duplicate _ => 1
  | Outcome_Ambiguous => 2
  | Outcome_DefinitiveFailure _ => 3
  | Outcome_RetryableFailure _ => 4
  end.

(** The callback with the ledger's answer. *)
Definition request_deposit_complete (env : Environment) (config : BridgeInitArgs) (caller : bytes)
    (attempt : DepositFundingAttempt) (outcome : LedgerCallOutcome) : Handler DepositReceipt :=
  match funding_attempt_decision (outcome_kind outcome), outcome with
  | FundingAttempt_PromoteSuccess, Outcome_Succeeded block_index
  | FundingAttempt_PromoteSuccess, Outcome_Duplicate block_index =>
      promote_funding_success env config attempt block_index
  | FundingAttempt_PromoteAmbiguous, Outcome_Ambiguous =>
      promote_funding_ambiguous env config attempt
  | FundingAttempt_Release, Outcome_DefinitiveFailure code =>
      let* _ := commit (fun s =>
          let? s := remove_deposit_funding_attempt encode s caller attempt in Ok (tt, s))
        storage_failure in
      let* failure := pure (funding_failure code) in
      fail (DepositError_FundingRejected failure)
  | FundingAttempt_Retain, Outcome_RetryableFailure code =>
      let next :=
        with_state attempt
          (Attempt_Retryable (saturating_add u64_max (env_now env) (30 * NANOS)))
          (env_now env) (Some code) in
      let* _ := commit (fun s =>
          let? s := update_deposit_funding_attempt encode s attempt next in Ok (tt, s))
        storage_failure in
      fail (DepositError_FundingUnavailable 30)
  | _, _ => fail DepositError_StorageFailure
  end.

(** ** Recovery of unfinished attempts *)

Inductive ReconciliationOutcome :=
| Reconciliation_Progress (progress : ReconciliationScanProgress)
| Reconciliation_NoProgress (progress : ReconciliationScanProgress)
| Reconciliation_Succeeded (block_index : Z)
| Reconciliation_Absent (ledger_watermark index_watermark : Z).

Definition FUNDING_RECOVERY_INTERVAL_SECONDS : Z := 30.
Definition LEDGER_DEDUP_NS : Z := 24 * 60 * 60 * NANOS.
Definition LEDGER_DEDUP_EXPIRY_MARGIN_NS : Z := 60 * NANOS.

Definition funding_dedup_expiry_boundary_ns (created_at_time_ns : Z) : Z :=
  saturating_add u64_max (saturating_add u64_max created_at_time_ns LEDGER_DEDUP_NS)
    LEDGER_DEDUP_EXPIRY_MARGIN_NS.

Definition funding_dedup_expired (created_at_time_ns now_ns : Z) : bool :=
  funding_dedup_expiry_boundary_ns created_at_time_ns <? now_ns.

Definition funding_final_scan_at_ns (created_at_time_ns : Z) : Z :=
  saturating_add u64_max (funding_dedup_expiry_boundary_ns created_at_time_ns) 1.

Definition fresh_funding_reconciliation_progress (progress : ReconciliationScanProgress)
    : ReconciliationScanProgress :=
  ReconciliationScanProgress_new (rsp_target progress) (rsp_transfer progress).

Definition funding_recovery_paused (s : Store) : bool :=
  negb (is_some_and (in_admin (st_intake s)) (fun admin => negb (ads_deposits_paused admin))).

(** [ORDER BY recovery_due_ns, key LIMIT 1] over the attempts that are due. *)
Definition due_before (a b : Z * bytes) : Prop :=
  a.1 < b.1 \/ a.1 = b.1 /\ bytes_le a.2 b.2.

#[export] Instance due_before_dec a b : Decision (due_before a b).
Proof. unfold due_before. apply _. Defined.

Definition i64_max : Z := 9223372036854775807.

Definition next_deposit_funding_attempt_for_recovery (s : Store) (now_ns : Z)
    : option DepositFundingAttempt :=
  let rows := t_rows (in_attempts (st_intake s)) in
  let due := omap (fun '(key, (_, due)) =>
    if due <=? Z.min now_ns i64_max then Some (due, key) else None) (map_to_list rows) in
  '(_, key) ← head (merge_sort due_before due);
  fst <$> rows !! key.

(** Storing an attempt whose row is still the one that was read; a failure only
    marks a scheduler fault. *)
Definition store_or_fault {A} (r : Result StorageError A) (s : Store) (f : A -> Store) : Store :=
  match r with Ok a => f a | Err _ => s end.

(** The message up to the scan: the attempt to look for, if there is one. *)
Definition recover_funding_start (env : Environment) (asset_operations_allowed : bool) (s : Store)
    : Store * option DepositFundingAttempt :=
  if negb asset_operations_allowed || funding_recovery_paused s then (s, None)
  else match next_deposit_funding_attempt_for_recovery s (env_now env) with
  | None => (s, None)
  | Some attempt =>
      if negb (is_principal (di_caller (dfa_intent attempt))) then (s, None)
      else
        let config_known := is_some (env_config env) in
        match dfa_state attempt with
        | Attempt_Prepared | Attempt_Retryable _ =>
            (store_or_fault
               (remove_deposit_funding_attempt encode s (di_caller (dfa_intent attempt)) attempt)
               s id, None)
        | Attempt_Dispatched _ =>
            let progress :=
              ReconciliationScanProgress_new
                (Target_FundingAttempt (di_deposit_id (dfa_intent attempt)))
                (dfa_transfer attempt) in
            let next :=
              with_state attempt (Attempt_Reconciling progress (env_now env) false)
                (env_now env) (dfa_last_failure attempt) in
            match update_deposit_funding_attempt encode s attempt next with
            | Ok s => (s, if config_known then Some next else None)
            | Err _ => (s, None)
            end
        | Attempt_Reconciling _ _ _ => (s, if config_known then Some attempt else None)
        end
  end.

(** The callback with the outcome of the scan step. *)
Definition recover_funding_finish (env : Environment) (config : BridgeInitArgs)
    (current : DepositFundingAttempt) (outcome : ReconciliationOutcome) (s : Store) : Store :=
  match dfa_state current with
  | Attempt_Reconciling progress _ final_absence_scan =>
      match outcome with
      | Reconciliation_Progress progress | Reconciliation_NoProgress progress =>
          let next :=
            with_state current
              (Attempt_Reconciling progress
                 (saturating_add u64_max (env_now env)
                    (FUNDING_RECOVERY_INTERVAL_SECONDS * NANOS)) final_absence_scan)
              (env_now env) (dfa_last_failure current) in
          store_or_fault (update_deposit_funding_attempt encode s current next) s id
      | Reconciliation_Succeeded block_index =>
          fst (message (promote_funding_success env config current block_index) s)
      | Reconciliation_Absent _ _ =>
          let created := lti_created_at_time_ns (dfa_transfer current) in
          match funding_reconciliation_decision true final_absence_scan
                  (funding_dedup_expired created (env_now env)) with
          | FundingReconciliation_Wait => s
          | FundingReconciliation_RestartFresh =>
              let next :=
                with_state current
                  (Attempt_Reconciling (fresh_funding_reconciliation_progress progress)
                     (Z.max (funding_final_scan_at_ns created) (env_now env)) true)
                  (env_now env) (dfa_last_failure current) in
              store_or_fault (update_deposit_funding_attempt encode s current next) s id
          | FundingReconciliation_Release =>
              store_or_fault
                (remove_deposit_funding_attempt encode s (di_caller (dfa_intent current)) current)
                s id
          end
      end
  | _ => s
  end.
End funding.
