(* ===== verification/Ledger.v ===== *)
(** * The ledger and its index

    [canister/bridge-canister/src/ledger.rs]: the transfers the canister sends, how their
    answers are classified, and the scan that looks for a transfer whose answer was lost.
    The scan reads the log of the ledger page by page, archives included, up to the tip it
    saw first, and then asks the index; it is cut into steps of at most four calls, and its
    progress is stored between them.

    The ledger, its archives and the index are other canisters.  A computation that calls
    them is a tree of calls ([Calls]); what they answer is left open, and the theorems of
    [LedgerTruth.v] state what they assume of it. *)

From stdpp Require Import sorting.
From S2P Require Import Prelude KernelPolicy Types External StorageTypes Funding.

(** ** What the ledger speaks

    [candid::Nat] is unbounded. *)

Record LedgerAccount := {
  la_owner : bytes;
  la_subaccount : option bytes;
}.

Definition effective_subaccount (a : LedgerAccount) : bytes := default (zeros 32) (la_subaccount a).

Record LedgerTransfer := {
  lt_amount : Z;
  lt_fee : option Z;
  lt_created_at_time : option Z;
  lt_memo : option bytes;
  lt_from : LedgerAccount;
  lt_to : LedgerAccount;
  lt_spender : option LedgerAccount;
}.

(** [Transaction]: mints, burns and approvals have no transfer. *)
Record LedgerTransaction := { ltx_transfer : option LedgerTransfer }.

Record ArchivedRange := {
  ar_start : Z;
  ar_length : Z;
  ar_canister_id : bytes;
  ar_method : string;
}.

Record GetTransactionsResponse := {
  gtr_log_length : Z;
  gtr_first_index : Z;
  gtr_transactions : list LedgerTransaction;
  gtr_archived : list ArchivedRange;
}.

Record TransactionWithId := {
  twi_id : Z;
  twi_transaction : LedgerTransaction;
}.

Record IndexTransactions := {
  ixt_transactions : list TransactionWithId;
  ixt_oldest_tx_id : option Z;
}.

(** [TransferFromArgs]; [icrc1_transfer] has no owner to transfer from. *)
Record TransferFromArgs := {
  tfa_spender_subaccount : option bytes;
  tfa_from : LedgerAccount;
  tfa_to : LedgerAccount;
  tfa_amount : Z;
  tfa_fee : option Z;
  tfa_memo : option bytes;
  tfa_created_at_time : option Z;
}.

Record TransferArg := {
  tra_from_subaccount : option bytes;
  tra_to : LedgerAccount;
  tra_amount : Z;
  tra_fee : option Z;
  tra_memo : option bytes;
  tra_created_at_time : option Z;
}.

Inductive TransferFromError :=
| From_BadFee (expected_fee : Z)
| From_BadBurn (min_burn_amount : Z)
| From_InsufficientFunds (balance : Z)
| From_InsufficientAllowance (allowance : Z)
| From_TooOld
| From_CreatedInFuture (ledger_time : Z)
| From_Duplicate (duplicate_of : Z)
| From_TemporarilyUnavailable
| From_GenericError (error_code : Z).

Inductive TransferError :=
| Transfer_BadFee (expected_fee : Z)
| Transfer_BadBurn (min_burn_amount : Z)
| Transfer_InsufficientFunds (balance : Z)
| Transfer_TooOld
| Transfer_CreatedInFuture (ledger_time : Z)
| Transfer_Duplicate (duplicate_of : Z)
| Transfer_TemporarilyUnavailable
| Transfer_GenericError (error_code : Z).

(** ** Calls

    A call that fails, or whose reply does not decode, answers [None]. *)

Inductive LedgerQuery :=
| Query_transfer_from (args : TransferFromArgs)
| Query_transfer (args : TransferArg)
| Query_get_transactions (start length : Z)
| Query_archive (canister_id : bytes) (method : string) (start length : Z)
| Query_ledger_id
| Query_status
| Query_account_transactions (account : LedgerAccount) (start : option Z) (max_results : Z).

Definition LedgerReply (q : LedgerQuery) : Type :=
  option match q with
  | Query_transfer_from _ => Result TransferFromError Z
  | Query_transfer _ => Result TransferError Z
  | Query_get_transactions _ _ => GetTransactionsResponse
  | Query_archive _ _ _ _ => list LedgerTransaction
  | Query_ledger_id => bytes
  | Query_status => Z
  | Query_account_transactions _ _ _ => Result unit IndexTransactions
  end.

Inductive Calls (A : Type) :=
| Returned (a : A)
| Called (q : LedgerQuery) (k : LedgerReply q -> Calls A).
Arguments Returned {A} a.
Arguments Called {A} q k.

Fixpoint calls_bind {A B} (m : Calls A) (f : A -> Calls B) : Calls B :=
  match m with
  | Returned a => f a
  | Called q k => Called q (fun x => calls_bind (k x) f)
  end.

Notation "'let@' x := q 'in' k" := (Called q (fun x => k))
  (at level 10, x pattern, q at level 200, k at level 200, format "'let@'  x  :=  q  'in' '//' k").

(** The results a computation may have when the replies satisfy [ok]. *)
Fixpoint returns (ok : forall q, LedgerReply q -> Prop) {A} (m : Calls A) (a : A) : Prop :=
  match m with
  | Returned a' => a = a'
  | Called q k => exists x, ok q x /\ returns ok (k x) a
  end.

(** Whatever is answered, at most [n] calls are made; the result satisfies [P] with the
    number of calls that are left. *)
Fixpoint within (n : nat) {A} (P : nat -> A -> Prop) (m : Calls A) {struct m} : Prop :=
  match m, n with
  | Returned a, _ => P n a
  | Called _ _, O => False
  | Called q k, S n => forall x, within n P (k x)
  end.

(** The run in which the services answer by [oracle]. *)
Fixpoint answered (oracle : forall q, LedgerReply q) {A} (m : Calls A) : A :=
  match m with
  | Returned a => a
  | Called q k => answered oracle (k (oracle q))
  end.

(** ** Transfers *)

Definition nat_u128 (value : Z) : option Z := if value <=? u128_max then Some value else None.

Definition amount (value : Z) : option Z := nat_u128 value.

Definition definitive (code : LedgerFailure) : LedgerCallOutcome := Outcome_DefinitiveFailure code.

Definition retryable (code : LedgerFailure) : LedgerCallOutcome := Outcome_RetryableFailure code.

Definition failure_amount (value : Z) (build : Z -> LedgerFailure) : LedgerCallOutcome :=
  match amount value with
  | Some value => definitive (build value)
  | None => Outcome_Ambiguous
  end.

Definition block (index : Z) (duplicate : bool) : LedgerCallOutcome :=
  match nat_u128 index with
  | Some block_index => if duplicate then Outcome_Duplicate block_index else Outcome_Succeeded block_index
  | None => Outcome_Ambiguous
  end.

Definition generic_failure (error_code : Z) : LedgerCallOutcome :=
  match nat_u128 error_code with
  | Some v => if v <=? u64_max then retryable (Generic v) else Outcome_Ambiguous
  | None => Outcome_Ambiguous
  end.

Definition classify_transfer_from (result : Result TransferFromError Z) : LedgerCallOutcome :=
  match result with
  | Ok index => block index false
  | Err (From_Duplicate duplicate_of) => block duplicate_of true
  | Err (From_BadFee expected_fee) => failure_amount expected_fee BadFee
  | Err (From_BadBurn min_burn_amount) => failure_amount min_burn_amount BadBurn
  | Err (From_InsufficientFunds balance) => failure_amount balance InsufficientFunds
  | Err (From_InsufficientAllowance allowance) => failure_amount allowance InsufficientAllowance
  | Err From_TooOld => Outcome_Ambiguous
  | Err (From_CreatedInFuture ledger_time) => retryable (CreatedInFuture ledger_time)
  | Err From_TemporarilyUnavailable => retryable TemporarilyUnavailable
  | Err (From_GenericError error_code) => generic_failure error_code
  end.

Definition classify_transfer (result : Result TransferError Z) : LedgerCallOutcome :=
  match result with
  | Ok index => block index false
  | Err (Transfer_Duplicate duplicate_of) => block duplicate_of true
  | Err (Transfer_BadFee expected_fee) => failure_amount expected_fee BadFee
  | Err (Transfer_BadBurn min_burn_amount) => failure_amount min_burn_amount BadBurn
  | Err (Transfer_InsufficientFunds balance) => failure_amount balance InsufficientFunds
  | Err Transfer_TooOld => Outcome_Ambiguous
  | Err (Transfer_CreatedInFuture ledger_time) => retryable (CreatedInFuture ledger_time)
  | Err Transfer_TemporarilyUnavailable => retryable TemporarilyUnavailable
  | Err (Transfer_GenericError error_code) => generic_failure error_code
  end.

(** [Account { owner: Principal::from_slice(..), subaccount: Some(..) }]. *)
Definition ledger_account (a : Account) : LedgerAccount :=
  {| la_owner := a_owner a; la_subaccount := Some (a_subaccount a) |}.

Definition pull_args (identity : LedgerTransferIdentity) : TransferFromArgs :=
  {| tfa_spender_subaccount := Some (from_option a_subaccount (zeros 32) (lti_spender identity));
     tfa_from := ledger_account (lti_from identity);
     tfa_to := ledger_account (lti_to identity);
     tfa_amount := lti_amount identity;
     tfa_fee := Some (lti_fee identity);
     tfa_memo := Some (lti_memo identity);
     tfa_created_at_time := Some (lti_created_at_time_ns identity) |}.

Definition pull (identity : LedgerTransferIdentity) : Calls LedgerCallOutcome :=
  let@ response := Query_transfer_from (pull_args identity) in
  match response with
  | Some result => Returned (classify_transfer_from result)
  | None => Returned Outcome_Ambiguous
  end.

Definition transfer_args (identity : LedgerTransferIdentity) : TransferArg :=
  {| tra_from_subaccount := Some (a_subaccount (lti_from identity));
     tra_to := ledger_account (lti_to identity);
     tra_amount := lti_amount identity;
     tra_fee := Some (lti_fee identity);
     tra_memo := Some (lti_memo identity);
     tra_created_at_time := Some (lti_created_at_time_ns identity) |}.

Definition transfer (identity : LedgerTransferIdentity) : Calls LedgerCallOutcome :=
  let@ response := Query_transfer (transfer_args identity) in
  match response with
  | Some result => Returned (classify_transfer result)
  | None => Returned Outcome_Ambiguous
  end.

Definition release (identity : LedgerTransferIdentity) : Calls LedgerCallOutcome := transfer identity.

Definition refund (identity : LedgerTransferIdentity) : Calls LedgerCallOutcome := transfer identity.

(** ** Is this block the transfer? *)

Definition account_matches (actual : LedgerAccount) (expected : Account) : bool :=
  bool_decide (la_owner actual = a_owner expected)
  && bool_decide (effective_subaccount actual = a_subaccount expected).

Definition matches_identity (transaction : LedgerTransaction) (identity : LedgerTransferIdentity) : bool :=
  match ltx_transfer transaction with
  | None => false
  | Some transfer =>
      bool_decide (nat_u128 (lt_amount transfer) = Some (lti_amount identity))
      && bool_decide ((lt_fee transfer ≫= nat_u128) = Some (lti_fee identity))
      && bool_decide (lt_created_at_time transfer = Some (lti_created_at_time_ns identity))
      && bool_decide (lt_memo transfer = Some (lti_memo identity))
      && account_matches (lt_from transfer) (lti_from identity)
      && account_matches (lt_to transfer) (lti_to identity)
      && match lt_spender transfer, lti_spender identity with
         | None, None => true
         | Some actual, Some expected => account_matches actual expected
         | _, _ => false
         end
  end.

(** The offset of the first transaction of a list that is the transfer, counted from
    [from]. *)
Fixpoint first_match (identity : LedgerTransferIdentity) (from : Z) (l : list LedgerTransaction)
    : option Z :=
  match l with
  | [] => None
  | transaction :: l =>
      if matches_identity transaction identity then Some from
      else first_match identity (from + 1) l
  end.

(** ** The scan *)

Definition CALL_BUDGET : nat := 4.
Definition PAGE : Z := 1000.

Definition with_phase (progress : ReconciliationScanProgress) (phase : ReconciliationScanPhase)
    : ReconciliationScanProgress :=
  {| rsp_target := rsp_target progress; rsp_transfer := rsp_transfer progress; rsp_phase := phase |}.

Definition classify_reconciliation_progress (previous_phase : ReconciliationScanPhase)
    (outcome : ReconciliationOutcome) : ReconciliationOutcome :=
  match outcome with
  | Reconciliation_Progress progress =>
      if bool_decide (rsp_phase progress = previous_phase) then Reconciliation_NoProgress progress else outcome
  | outcome => outcome
  end.

Definition ledger_page_length (next_block : Z) (ledger_tip : option Z) (page : Z) : Z :=
  match ledger_tip with
  | Some exclusive_tip => Z.min (saturating_sub exclusive_tip next_block) page
  | None => page
  end.

Definition ledger_progress (progress : ReconciliationScanProgress) (next_block : Z)
    (ledger_tip : option Z) (pending_page : option ReconciliationLedgerPage) : ReconciliationOutcome :=
  Reconciliation_Progress (with_phase progress (Scan_Ledger next_block ledger_tip pending_page)).

Fixpoint covers (cursor end_ : Z) (ranges : list (Z * Z)) : bool :=
  match ranges with
  | [] => cursor =? end_
  | (range_start, range_end) :: ranges =>
      if negb (range_start =? cursor) || (range_end <=? range_start) || (end_ <? range_end) then false
      else covers range_end end_ ranges
  end.

Definition exact_coverage (start end_ : Z) (ranges : list (Z * Z)) : bool :=
  if start =? end_ then bool_decide (ranges = []) else covers start end_ ranges.

Inductive IndexPageBoundary :=
| Boundary_Continue (start : Z)
| Boundary_Exhausted
| Boundary_Stalled.

Definition index_page_boundary (previous_start : option Z) (last : Z) (oldest : option Z)
    : IndexPageBoundary :=
  if is_some_and oldest (fun oldest => last <=? oldest) then Boundary_Exhausted
  else if bool_decide (previous_start = Some last) then Boundary_Stalled
  else Boundary_Continue last.

Definition index_progress (progress : ReconciliationScanProgress) (ledger_watermark : Z)
    (index_watermark next_start : option Z) : ReconciliationOutcome :=
  Reconciliation_Progress (with_phase progress (Scan_Index ledger_watermark index_watermark next_start)).

(** The pages of the index, newest first; the [while] of [reconcile_index]. *)
Fixpoint index_pages (progress : ReconciliationScanProgress) (ledger_watermark watermark : Z)
    (next_start : option Z) (budget : nat) : Calls ReconciliationOutcome :=
  let stop := Returned (index_progress progress ledger_watermark (Some watermark) next_start) in
  match budget with
  | O => stop
  | S budget =>
      let@ reply := Query_account_transactions (ledger_account (lti_from (rsp_transfer progress)))
                      next_start 100 in
      match reply with
      | Some (Ok result) =>
          match List.find (fun t => matches_identity (twi_transaction t) (rsp_transfer progress))
                  (ixt_transactions result) with
          | Some found =>
              match nat_u128 (twi_id found) with
              | Some block_index => Returned (Reconciliation_Succeeded block_index)
              | None => stop
              end
          | None =>
              match last (ixt_transactions result) ≫= (fun t => nat_u128 (twi_id t)) with
              | None => Returned (Reconciliation_Absent ledger_watermark watermark)
              | Some last =>
                  match index_page_boundary next_start last (ixt_oldest_tx_id result ≫= nat_u128) with
                  | Boundary_Exhausted => Returned (Reconciliation_Absent ledger_watermark watermark)
                  | Boundary_Stalled => stop
                  | Boundary_Continue start =>
                      index_pages progress ledger_watermark watermark (Some start) budget
                  end
              end
          end
      | _ => stop
      end
  end.

Section scan.
Context (ledger : bytes).
Implicit Types (progress : ReconciliationScanProgress) (page : ReconciliationLedgerPage).

Definition reconcile_index progress (ledger_watermark : Z) (index_watermark next_start : option Z)
    (budget : nat) : Calls ReconciliationOutcome :=
  let stop := Returned (index_progress progress ledger_watermark None next_start) in
  match index_watermark with
  | Some watermark => index_pages progress ledger_watermark watermark next_start budget
  | None =>
      if (budget <? 2)%nat then stop
      else
        let@ id := Query_ledger_id in
        if negb (bool_decide (id = Some ledger)) then stop
        else
          let@ status := Query_status in
          match status ≫= nat_u128 with
          | None => stop
          | Some observed_watermark =>
              if observed_watermark <? ledger_watermark then stop
              else index_pages progress ledger_watermark observed_watermark next_start (budget - 2)
          end
  end.

(** What reading the archives of a page comes to. *)
Inductive PageOutcome :=
| Page_Found (block_index : Z)
| Page_Interrupted (page : ReconciliationLedgerPage)
| Page_Read (budget : nat).

Definition archive_at page : option ReconciliationArchiveRange :=
  rlp_archives page !! Z.to_nat (rlp_next_archive page).

Definition advance_archive page : ReconciliationLedgerPage :=
  {| rlp_end := rlp_end page; rlp_archives := rlp_archives page;
     rlp_next_archive := wrapping_add u16_max (rlp_next_archive page) 1 |}.

Fixpoint read_archives (identity : LedgerTransferIdentity) page (budget : nat) : Calls PageOutcome :=
  match archive_at page with
  | None => Returned (Page_Read budget)
  | Some archive =>
      match budget with
      | O => Returned (Page_Interrupted page)
      | S budget =>
          if negb (is_principal (rar_canister_id archive)) then Returned (Page_Interrupted page)
          else
            let@ reply := Query_archive (rar_canister_id archive) (rar_method archive)
                            (rar_start archive) (rar_length archive) in
            match reply with
            | Some transactions =>
                if negb (Z.of_nat (length transactions) =? rar_length archive)
                then Returned (Page_Interrupted page)
                else
                  match first_match identity 0 transactions with
                  | Some offset => Returned (Page_Found (wrapping_add u128_max (rar_start archive) offset))
                  | None => read_archives identity (advance_archive page) budget
                  end
            | None => Returned (Page_Interrupted page)
            end
      end
  end.

Definition range_le (x y : Z * Z) : Prop := x.1 < y.1 \/ (x.1 = y.1 /\ x.2 <= y.2).

#[export] Instance range_le_dec x y : Decision (range_le x y).
Proof. unfold range_le. apply _. Defined.

Definition archive_le (x y : ReconciliationArchiveRange) : Prop := rar_start x <= rar_start y.

#[export] Instance archive_le_dec x y : Decision (archive_le x y).
Proof. unfold archive_le. apply _. Defined.

(** The ranges of the archives of a response, with their ends. *)
Fixpoint archive_ranges (archived : list ArchivedRange)
    : option (list (Z * Z) * list ReconciliationArchiveRange) :=
  match archived with
  | [] => Some ([], [])
  | a :: archived =>
      start ← nat_u128 (ar_start a);
      length ← nat_u128 (ar_length a);
      end_ ← checked_add u128_max start length;
      if (length =? 0) || (128 <? Z.of_nat (String.length (ar_method a))) then None
      else
        '(coverage, archives) ← archive_ranges archived;
        Some ((start, end_) :: coverage,
              {| rar_canister_id := ar_canister_id a; rar_method := ar_method a;
                 rar_start := start; rar_length := length |} :: archives)
  end.

(** The range of the transactions the response itself holds. *)
Definition own_ranges (first_index : Z) (transactions : list LedgerTransaction)
    : option (list (Z * Z)) :=
  if bool_decide (transactions = []) then Some []
  else end_ ← checked_add u128_max first_index (Z.of_nat (length transactions));
       Some [(first_index, end_)].

(** The page a response describes, when it covers [[next_block, requested_end)] exactly. *)
Definition response_page (next_block requested_end first_index : Z) (response : GetTransactionsResponse)
    : option ReconciliationLedgerPage :=
  own ← own_ranges first_index (gtr_transactions response);
  '(coverage, archives) ← archive_ranges (gtr_archived response);
  if exact_coverage next_block requested_end (merge_sort range_le (own ++ coverage))
  then Some {| rlp_end := requested_end; rlp_archives := merge_sort archive_le archives;
               rlp_next_archive := 0 |}
  else None.

(** The scan has passed the tip. *)
Definition tip_reached (next_block : Z) (ledger_tip : option Z) : option Z :=
  match ledger_tip with
  | Some exclusive_tip =>
      if (exclusive_tip =? 0)
         || scan_complete next_block (exclusive_tip - 1) (exclusive_tip - 1) true false
      then Some exclusive_tip else None
  | None => None
  end.

(** What one answer of [get_transactions] comes to. *)
Inductive PageReply :=
| Reply_Found (block_index : Z)
| Reply_Stopped (ledger_tip : option Z)
| Reply_Page (ledger_tip : Z) (page : ReconciliationLedgerPage).

Definition read_response (identity : LedgerTransferIdentity) (next_block : Z) (ledger_tip : option Z)
    (reply : option GetTransactionsResponse) : PageReply :=
  match reply with
  | None => Reply_Stopped ledger_tip
  | Some response =>
      match nat_u128 (gtr_log_length response) with
      | None => Reply_Stopped ledger_tip
      | Some log_length =>
          let fixed_tip := default log_length ledger_tip in
          if log_length <? fixed_tip then Reply_Stopped (Some fixed_tip)
          else
            let requested_end := Z.min fixed_tip (saturating_add u128_max next_block PAGE) in
            match nat_u128 (gtr_first_index response) with
            | None => Reply_Stopped (Some fixed_tip)
            | Some first_index =>
                match first_match identity 0 (gtr_transactions response) with
                | Some offset => Reply_Found (wrapping_add u128_max first_index offset)
                | None =>
                    match response_page next_block requested_end first_index response with
                    | Some page => Reply_Page fixed_tip page
                    | None => Reply_Stopped (Some fixed_tip)
                    end
                end
            end
      end
  end.

(** The part of a round after the pending page: the index when the tip is reached, or else
    the next page, which [again] reads. *)
Definition request_page progress (ledger_tip : option Z)
    (again : Z -> Z -> ReconciliationLedgerPage -> nat -> Calls (option ReconciliationOutcome))
    (next_block : Z) (budget : nat) : Calls (option ReconciliationOutcome) :=
  match tip_reached next_block ledger_tip with
  | Some ledger_watermark =>
      calls_bind
        (reconcile_index (with_phase progress (Scan_Index ledger_watermark None None))
           ledger_watermark None None budget)
        (fun outcome => Returned (Some outcome))
  | None =>
      match budget with
      | O => Returned (Some (ledger_progress progress next_block ledger_tip None))
      | S budget =>
          let@ reply := Query_get_transactions next_block
                          (ledger_page_length next_block ledger_tip PAGE) in
          match read_response (rsp_transfer progress) next_block ledger_tip reply with
          | Reply_Found block_index => Returned (Some (Reconciliation_Succeeded block_index))
          | Reply_Stopped ledger_tip =>
              Returned (Some (ledger_progress progress next_block ledger_tip None))
          | Reply_Page ledger_tip page => again next_block ledger_tip page budget
          end
      end
  end.

(** The [loop] of [reconcile_ledger]; [None] when [fuel] rounds were not enough. *)
Fixpoint reconcile_ledger (fuel : nat) progress (next_block : Z) (ledger_tip : option Z)
    (pending_page : option ReconciliationLedgerPage) (budget : nat)
    : Calls (option ReconciliationOutcome) :=
  match fuel with
  | O => Returned None
  | S fuel =>
      let again next_block ledger_tip page :=
        reconcile_ledger fuel progress next_block (Some ledger_tip) (Some page) in
      match pending_page with
      | None => request_page progress ledger_tip again next_block budget
      | Some page =>
          calls_bind (read_archives (rsp_transfer progress) page budget) (fun outcome =>
            match outcome with
            | Page_Found block_index => Returned (Some (Reconciliation_Succeeded block_index))
            | Page_Interrupted page =>
                Returned (Some (ledger_progress progress next_block ledger_tip (Some page)))
            | Page_Read budget => request_page progress ledger_tip again (rlp_end page) budget
            end)
      end
  end.

Definition reconcile_step progress : Calls (option ReconciliationOutcome) :=
  let previous_phase := rsp_phase progress in
  calls_bind
    (match rsp_phase progress with
     | Scan_Ledger next_block ledger_tip pending_page =>
         reconcile_ledger (S CALL_BUDGET) progress next_block ledger_tip pending_page CALL_BUDGET
     | Scan_Index ledger_watermark index_watermark next_start =>
         calls_bind (reconcile_index progress ledger_watermark index_watermark next_start CALL_BUDGET)
           (fun outcome => Returned (Some outcome))
     end)
    (fun outcome => Returned (classify_reconciliation_progress previous_phase <$> outcome)).
End scan.
