(* ===== verification/LedgerTruth.v ===== *)
(** * What the scan of the ledger tells

    The verdict of the scan of [ledger.rs] against the log of the ledger.  The log only
    grows; [log] is its state once the scan is over and [old] its length when the scan
    began, and the services answer with what is in it ([truthful]).  Calls may fail at any
    point, pages may be cut into archives in any way, and the scan may stop and resume any
    number of times.  Also here: a step is bounded whatever is answered, the answers to a
    transfer are classified as the ledger meant them, and the scan recognises the transfers
    the canister sends. *)

From stdpp Require Import sorting.
From S2P Require Import Prelude KernelPolicy Types External StorageTypes Funding Ledger Examples.

(** ** Trees of calls *)

Lemma returns_bind ok {A B} (m : Calls A) (f : A -> Calls B) b :
  returns ok (calls_bind m f) b <-> exists a, returns ok m a /\ returns ok (f a) b.
Proof.
  induction m as [a|q k IH]; simpl; [naive_solver|].
  setoid_rewrite IH. naive_solver.
Qed.

Lemma answered_returns ok (oracle : forall q, LedgerReply q) {A} (m : Calls A) :
  (forall q, ok q (oracle q)) -> returns ok m (answered oracle m).
Proof. intros Hok. induction m as [a|q k IH]; simpl; [done|]. by exists (oracle q). Qed.

Lemma within_bind n {A B} (P : nat -> A -> Prop) (Q : nat -> B -> Prop) m f :
  within n P m -> (forall n a, P n a -> within n Q (f a)) -> within n Q (calls_bind m f).
Proof.
  intros Hm Hf. revert n Hm. induction m as [a|q k IH]; intros n Hm; simpl in *; [by apply Hf|].
  destruct n as [|n]; [done|]. intros x. by apply IH.
Qed.

Lemma within_mono n {A} (P Q : nat -> A -> Prop) m :
  within n P m -> (forall n a, P n a -> Q n a) -> within n Q m.
Proof.
  revert n. induction m as [a|q k IH]; intros n Hm HPQ; simpl in *; [by apply HPQ|].
  destruct n as [|n]; [done|]. intros x. by apply IH.
Qed.

(** ** Looking for the transfer in a list *)

Lemma first_match_Some identity from l offset :
  first_match identity from l = Some offset ->
  exists (i : nat) t, offset = from + Z.of_nat i /\ l !! i = Some t /\ matches_identity t identity = true.
Proof.
  revert from. induction l as [|t l IH]; intros from; simpl; [done|].
  case_match eqn:Ht; intros E; simplify_eq; [exists 0%nat, t; split_and!; [lia|done..]|].
  destruct (IH _ E) as (i & t' & -> & Hi & Hm). exists (S i), t'. split_and!; [lia|done..].
Qed.

Lemma first_match_None identity from l t :
  first_match identity from l = None -> t ∈ l -> matches_identity t identity = false.
Proof.
  revert from. induction l as [|t' l IH]; intros from; simpl; [set_solver|].
  case_match eqn:Ht; [done|]. intros E [->|Hin]%elem_of_cons; [done|eauto].
Qed.

Lemma nat_u128_Some v n : nat_u128 v = Some n <-> v <= u128_max /\ n = v.
Proof. unfold nat_u128. destruct (Z.leb_spec v u128_max); naive_solver lia. Qed.

(** ** Ranges that cover a page *)

Lemma covers_spec cursor end_ ranges i :
  covers cursor end_ ranges = true -> cursor <= i < end_ ->
  exists r, r ∈ ranges /\ r.1 <= i < r.2.
Proof.
  revert cursor. induction ranges as [|[a b] ranges IH]; intros cursor; simpl.
  - intros; reflect; lia.
  - case_match eqn:Hg; [done|]. reflect. destruct Hg as [[Ha Hb] Hc]. intros Hcov Hi.
    destruct (Z.lt_ge_cases i b); [exists (a, b); set_unfold; simpl; split; [by left|lia]|].
    destruct (IH b Hcov ltac:(lia)) as (r & Hr & ?). exists r. set_solver.
Qed.

Lemma exact_coverage_spec start end_ ranges i :
  exact_coverage start end_ ranges = true -> start <= i < end_ ->
  exists r, r ∈ ranges /\ r.1 <= i < r.2.
Proof.
  unfold exact_coverage. case_match eqn:Hs; reflect; [lia|]. apply covers_spec.
Qed.

Lemma archive_ranges_Some archived coverage archives :
  archive_ranges archived = Some (coverage, archives) ->
  coverage = (fun a => (rar_start a, rar_start a + rar_length a)) <$> archives /\
  Forall (fun a => rar_start a + rar_length a <= u128_max /\ exists a', a' ∈ archived /\
            rar_canister_id a = ar_canister_id a' /\ rar_method a = ar_method a' /\
            rar_start a = ar_start a' /\ rar_length a = ar_length a') archives.
Proof.
  revert coverage archives. induction archived as [|x archived IH]; intros coverage archives; simpl.
  { intros; simplify_eq. by split. }
  intros (s & [? ->]%nat_u128_Some & E)%bind_Some.
  apply bind_Some in E as (l & [? ->]%nat_u128_Some & E).
  apply bind_Some in E as (e & [? ->]%checked_add_Some & E).
  case_match; [done|]. apply bind_Some in E as ([c a] & E & ?); simplify_eq.
  destruct (IH _ _ E) as [-> HF]. split; [done|]. constructor.
  - split; [done|]. exists x. set_solver.
  - eapply Forall_impl; [exact HF|]. intros r (? & x' & ? & ?). split; [done|].
    exists x'. set_solver.
Qed.

Lemma tip_reached_spec next_block ledger_tip tip :
  tip_reached next_block ledger_tip = Some tip ->
  ledger_tip = Some tip /\ (tip = 0 \/ tip <= next_block).
Proof.
  unfold tip_reached, scan_complete, scan_complete_body. destruct ledger_tip as [t|]; [|done].
  case_match eqn:Hg; [|done]. intros; simplify_eq. split; [done|]. reflect. lia.
Qed.

(** ** The log of the ledger *)

Section truth.
Context (archive : bytes -> string -> Prop) (log : list LedgerTransaction) (old : Z).

(** The transactions [ts] are those of the log from the block [start] on. *)
Definition slice (start : Z) (ts : list LedgerTransaction) : Prop :=
  0 <= start /\ forall i t, ts !! i = Some t -> log !! (Z.to_nat start + i)%nat = Some t.

(** What the services answer, when they answer.  [archive] holds of the canisters and
    methods that keep archives of the ledger; a [candid::Nat] is never negative. *)
Definition truthful (q : LedgerQuery) : LedgerReply q -> Prop :=
  match q return LedgerReply q -> Prop with
  | Query_get_transactions _ _ => fun reply => forall response, reply = Some response ->
      old <= gtr_log_length response <= Z.of_nat (length log) /\
      slice (gtr_first_index response) (gtr_transactions response) /\
      Forall (fun a => 0 <= ar_start a /\ 0 <= ar_length a /\ archive (ar_canister_id a) (ar_method a))
        (gtr_archived response)
  | Query_archive canister_id method start _ => fun reply => forall ts,
      archive canister_id method -> reply = Some ts -> slice start ts
  | Query_account_transactions _ _ _ => fun reply => forall result, reply = Some (Ok result) ->
      Forall (fun t => slice (twi_id t) [twi_transaction t]) (ixt_transactions result)
  | _ => fun _ => True
  end.

Section scanning.
Context (identity : LedgerTransferIdentity).

(** The block [b] of the log is the transfer. *)
Definition is_transfer (b : Z) : Prop :=
  0 <= b /\ exists t, log !! Z.to_nat b = Some t /\ matches_identity t identity = true.

Definition no_transfer (from until : Z) : Prop := forall b, from <= b < until -> ~ is_transfer b.

(** What is left to read of a page: a transfer of the page is in an archive that was not
    read yet. *)
Definition page_ok (next_block : Z) (page : ReconciliationLedgerPage) : Prop :=
  0 <= rlp_next_archive page <= u16_max /\
  Forall (fun a => archive (rar_canister_id a) (rar_method a) /\
                   0 <= rar_start a /\ rar_start a + rar_length a <= u128_max) (rlp_archives page) /\
  forall b, next_block <= b < rlp_end page -> is_transfer b ->
    exists k a, (Z.to_nat (rlp_next_archive page) <= k)%nat /\ rlp_archives page !! k = Some a /\
      rar_start a <= b < rar_start a + rar_length a.

Definition phase_ok (phase : ReconciliationScanPhase) : Prop :=
  match phase with
  | Scan_Ledger next_block ledger_tip pending_page =>
      no_transfer 0 next_block /\
      (forall tip, ledger_tip = Some tip -> old <= tip) /\
      (forall page, pending_page = Some page -> page_ok next_block page)
  | Scan_Index ledger_watermark index_watermark _ =>
      old <= ledger_watermark /\ no_transfer 0 ledger_watermark /\
      (forall watermark, index_watermark = Some watermark -> ledger_watermark <= watermark)
  end.

Definition outcome_ok (outcome : ReconciliationOutcome) : Prop :=
  match outcome with
  | Reconciliation_Progress progress | Reconciliation_NoProgress progress =>
      rsp_transfer progress = identity /\ phase_ok (rsp_phase progress)
  | Reconciliation_Succeeded block_index => is_transfer block_index
  | Reconciliation_Absent ledger_watermark index_watermark =>
      old <= ledger_watermark <= index_watermark /\ no_transfer 0 ledger_watermark
  end.

Hypothesis log_small : Z.of_nat (length log) <= u128_max.

Lemma slice_lt start ts i t : slice start ts -> ts !! i = Some t ->
  start + Z.of_nat i < Z.of_nat (length log).
Proof. intros [? Hs] Hi%Hs%lookup_lt_Some. lia. Qed.

(** The block a match in a slice is reported as. *)
Lemma slice_found start ts offset :
  slice start ts -> first_match identity 0 ts = Some offset ->
  is_transfer (wrapping_add u128_max start offset).
Proof.
  intros Hs (i & t & -> & Hi & Hm)%first_match_Some.
  pose proof (slice_lt _ _ _ _ Hs Hi). destruct Hs as [? Hs].
  rewrite wrapping_add_exact by (ranges; lia).
  split; [lia|]. exists t. split; [|done].
  rewrite <- (Hs _ _ Hi). f_equal. lia.
Qed.

Lemma slice_clean start ts :
  slice start ts -> first_match identity 0 ts = None ->
  no_transfer start (start + Z.of_nat (length ts)).
Proof.
  intros [? Hs] Hnone b Hb [? (t & Ht & Hm)].
  destruct (lookup_lt_is_Some_2 ts (Z.to_nat (b - start)) ltac:(lia)) as [t' Ht'].
  pose proof (Hs _ _ Ht') as Hlog.
  replace (Z.to_nat start + Z.to_nat (b - start))%nat with (Z.to_nat b) in Hlog by lia.
  simplify_eq. apply list_elem_of_lookup_2 in Ht'.
  by rewrite (first_match_None _ _ _ _ Hnone Ht') in Hm.
Qed.

Lemma no_transfer_join a b c : no_transfer a b -> no_transfer b c -> no_transfer a c.
Proof. intros H1 H2 i Hi. destruct (Z.lt_ge_cases i b); [apply H1|apply H2]; lia. Qed.

(** *** Reading archives *)

Definition page_outcome_ok (next_block end_ : Z) (outcome : PageOutcome) : Prop :=
  match outcome with
  | Page_Found block_index => is_transfer block_index
  | Page_Interrupted page => page_ok next_block page /\ rlp_end page = end_
  | Page_Read _ => no_transfer next_block end_
  end.

Lemma advance_archive_ok next_block page a :
  page_ok next_block page -> archive_at page = Some a ->
  no_transfer (rar_start a) (rar_start a + rar_length a) ->
  page_ok next_block (advance_archive page).
Proof.
  intros (Hn & HF & Hpage) Ha Hclean. unfold archive_at in Ha.
  assert (Hwrap : 0 <= wrapping_add u16_max (rlp_next_archive page) 1 <= u16_max /\
    wrapping_add u16_max (rlp_next_archive page) 1 <= rlp_next_archive page + 1).
  { unfold wrapping_add, wrap.
    pose proof (Z.mod_pos_bound (rlp_next_archive page + 1) (65535 + 1)).
    pose proof (Z.mod_le (rlp_next_archive page + 1) (65535 + 1)). lia. }
  split_and!; [apply Hwrap|apply Hwrap|done|].
  intros b Hb Ht. destruct (Hpage b Hb Ht) as (k & a' & Hk & Ha' & Hin).
  exists k, a'. split_and!; [|done|apply Hin|apply Hin]. simpl.
  destruct (decide (k = Z.to_nat (rlp_next_archive page))) as [->|]; [|lia].
  simplify_eq. by destruct (Hclean b Hin).
Qed.

Lemma page_read next_block page :
  page_ok next_block page -> archive_at page = None -> no_transfer next_block (rlp_end page).
Proof.
  intros (_ & _ & Hpage) Ha b Hb Ht. destruct (Hpage b Hb Ht) as (k & ? & ? & Hk & _).
  apply lookup_lt_Some in Hk. apply lookup_ge_None in Ha. lia.
Qed.

Lemma read_archives_ok next_block page budget outcome :
  page_ok next_block page -> returns truthful (read_archives identity page budget) outcome ->
  page_outcome_ok next_block (rlp_end page) outcome.
Proof.
  revert page. induction budget as [|budget IH]; intros page Hp; simpl;
    destruct (archive_at page) as [a|] eqn:Ha; simpl; try (intros ->; by split).
  - intros ->. by apply page_read.
  - case_match; simpl; [intros ->; by split|].
    intros (reply & Htrue & Hret). destruct reply as [ts|]; simpl in Hret; [|subst; by split].
    assert (Hs : slice (rar_start a) ts).
    { apply Htrue; [|done]. destruct Hp as (_ & HF & _). rewrite Forall_forall in HF.
      apply (HF a). by eapply list_elem_of_lookup_2. }
    destruct (_ =? _) eqn:Hlen in Hret; simpl in Hret; [|subst; by split]. reflect.
    destruct (first_match identity 0 ts) as [o|] eqn:Hm; simpl in Hret.
    + subst. simpl. by eapply slice_found.
    + apply (IH (advance_archive page)); [|done]. eapply advance_archive_ok; [done..|].
      rewrite <- Hlen. by apply slice_clean.
  - intros ->. by apply page_read.
Qed.

(** *** Reading a page *)

Lemma own_range_spec first_index (ts : list LedgerTransaction) own :
  own_ranges first_index ts = Some own ->
  forall r, r ∈ own -> r = (first_index, first_index + Z.of_nat (length ts)).
Proof.
  unfold own_ranges. case_bool_decide; [intros; simplify_eq; set_solver|].
  intros (e & [_ ->]%checked_add_Some & ?)%bind_Some r Hr. simplify_eq. set_solver.
Qed.

Lemma response_page_ok next_block requested_end response page :
  truthful (Query_get_transactions next_block 0) (Some response) ->
  first_match identity 0 (gtr_transactions response) = None ->
  response_page next_block requested_end (gtr_first_index response) response = Some page ->
  page_ok next_block page /\ rlp_end page = requested_end.
Proof.
  intros Htrue Hnone. destruct (Htrue _ eq_refl) as (_ & Hs & Harch). clear Htrue.
  unfold response_page. intros (own & Hown & E)%bind_Some.
  apply bind_Some in E as ([coverage archives] & Har & E).
  case_match eqn:Hcov; [|done]. simplify_eq; simpl. split; [|done].
  apply archive_ranges_Some in Har as [-> HF]. rewrite Forall_forall in HF. rewrite Forall_forall in Harch.
  split_and!; simpl; [lia|lia| |].
  - apply Forall_forall. intros a Ha. rewrite merge_sort_Permutation in Ha.
    destruct (HF a Ha) as (? & a' & Ha' & Hc & Hm & ? & ?).
    destruct (Harch a' Ha') as (? & ? & ?). rewrite Hc, Hm. split_and!; [done|lia|done].
  - intros b Hb Ht. destruct (exact_coverage_spec _ _ _ _ Hcov Hb) as (r & Hr & Hin).
    rewrite merge_sort_Permutation in Hr. apply elem_of_app in Hr as [Hr|Hr].
    + apply (own_range_spec _ _ _ Hown) in Hr as ->. by destruct (slice_clean _ _ Hs Hnone b Hin).
    + apply list_elem_of_fmap in Hr as (a & -> & Ha).
      rewrite <- (merge_sort_Permutation archive_le) in Ha.
      apply list_elem_of_lookup in Ha as [k Hk]. exists k, a. split_and!; [lia|done|apply Hin..].
Qed.

Definition page_reply_ok (next_block : Z) (reply : PageReply) : Prop :=
  match reply with
  | Reply_Found block_index => is_transfer block_index
  | Reply_Stopped ledger_tip => forall tip, ledger_tip = Some tip -> old <= tip
  | Reply_Page ledger_tip page => old <= ledger_tip /\ page_ok next_block page
  end.

Lemma read_response_ok next_block length ledger_tip reply :
  (forall tip, ledger_tip = Some tip -> old <= tip) ->
  truthful (Query_get_transactions next_block length) reply ->
  page_reply_ok next_block (read_response identity next_block ledger_tip reply).
Proof.
  intros Htip Htrue. destruct reply as [response|]; [|done]. unfold read_response.
  destruct (Htrue _ eq_refl) as (Hlen & Hs & _).
  destruct (nat_u128 (gtr_log_length response)) as [n|] eqn:Hn; [|done].
  apply nat_u128_Some in Hn as [_ ->].
  assert (Hfix : old <= default (gtr_log_length response) ledger_tip).
  { destruct ledger_tip as [tip|]; simpl; [by apply Htip|lia]. }
  case_match; [by intros ? [= <-]|].
  destruct (nat_u128 (gtr_first_index response)) as [f|] eqn:Hf; [|by intros ? [= <-]].
  apply nat_u128_Some in Hf as [_ ->].
  destruct (first_match identity 0 _) as [o|] eqn:Hm; [by eapply slice_found|].
  case_match eqn:Hpage; [|by intros ? [= <-]].
  split; [done|]. by eapply response_page_ok.
Qed.

(** *** Reading the index *)

Lemma index_pages_ok progress ledger_watermark watermark next_start budget outcome :
  rsp_transfer progress = identity ->
  old <= ledger_watermark <= watermark -> no_transfer 0 ledger_watermark ->
  returns truthful (index_pages progress ledger_watermark watermark next_start budget) outcome ->
  outcome_ok outcome.
Proof.
  intros Hid Hw Hno. assert (Hstop : forall ns,
    outcome_ok (index_progress progress ledger_watermark (Some watermark) ns)).
  { intros ns. split; [done|]. split_and!; [lia|done|]. intros ? [= <-]. lia. }
  revert next_start. induction budget as [|budget IH]; intros ns; simpl; [by intros ->|].
  intros (reply & Htrue & Hret). rewrite Hid in *.
  destruct reply as [[result|]|]; simpl in Hret; [|by subst..].
  destruct (List.find _ _) as [found|] eqn:Hfind.
  - apply List.find_some in Hfind as [Hin Hm]. apply list_elem_of_In in Hin.
    pose proof (Htrue _ eq_refl) as HF. rewrite Forall_forall in HF. apply HF in Hin as [? Hin].
    destruct (nat_u128 (twi_id found)) as [b|] eqn:Hb; simpl in Hret; subst; [|done].
    apply nat_u128_Some in Hb as [_ ->]. split; [done|].
    exists (twi_transaction found). split; [|done]. rewrite <- (Hin 0%nat _ eq_refl). f_equal. lia.
  - assert (outcome_ok (Reconciliation_Absent ledger_watermark watermark)) by (split; done).
    repeat (case_match; simpl in Hret; try by subst). by eapply IH.
Qed.

Lemma reconcile_index_ok ledger progress ledger_watermark index_watermark next_start budget outcome :
  rsp_transfer progress = identity -> phase_ok (Scan_Index ledger_watermark index_watermark next_start) ->
  returns truthful
    (reconcile_index ledger progress ledger_watermark index_watermark next_start budget) outcome ->
  outcome_ok outcome.
Proof.
  intros Hid (Hold & Hno & Hw). unfold reconcile_index.
  destruct index_watermark as [w|].
  { specialize (Hw _ eq_refl). apply index_pages_ok; [done|lia|done]. }
  assert (outcome_ok (index_progress progress ledger_watermark None next_start)) by by split_and!.
  case_match; simpl; [by intros ->|]. intros (id & _ & Hret).
  case_match; simpl in Hret; [by subst|]. destruct Hret as (status & _ & Hret).
  case_match; simpl in Hret; [|by subst]. case_match; simpl in Hret; [by subst|]. reflect.
  by eapply index_pages_ok; [..|done]; [|lia|].
Qed.

(** *** A step *)

Lemma request_page_ok ledger progress ledger_tip again next_block budget outcome :
  rsp_transfer progress = identity -> phase_ok (Scan_Ledger next_block ledger_tip None) ->
  (forall tip page budget, phase_ok (Scan_Ledger next_block (Some tip) (Some page)) ->
    returns truthful (again next_block tip page budget) (Some outcome) -> outcome_ok outcome) ->
  returns truthful (request_page ledger progress ledger_tip again next_block budget) (Some outcome) ->
  outcome_ok outcome.
Proof.
  intros Hid (Hno & Htip & _) IH. unfold request_page.
  destruct (tip_reached next_block ledger_tip) as [w|] eqn:Hw.
  - apply tip_reached_spec in Hw as [-> Hw].
    rewrite returns_bind. intros (o & Ho & [= ->]).
    eapply reconcile_index_ok; [| |exact Ho]; [done|]. split_and!; [by apply Htip| |done].
    intros b Hb. apply Hno. lia.
  - destruct budget as [|budget]; simpl; [by intros [= ->]|].
    intros (reply & Htrue & Hret). rewrite Hid in Hret.
    pose proof (read_response_ok _ _ _ _ Htip Htrue) as Hok.
    destruct (read_response _ _ _ _) as [b|tip'|tip' page]; simpl in *; [by simplify_eq..|].
    destruct Hok. eapply IH; [|exact Hret].
    split_and!; [done|by intros ? [= <-]|by intros ? [= <-]].
Qed.

Lemma reconcile_ledger_ok ledger fuel progress next_block ledger_tip pending_page budget outcome :
  rsp_transfer progress = identity -> phase_ok (Scan_Ledger next_block ledger_tip pending_page) ->
  returns truthful
    (reconcile_ledger ledger fuel progress next_block ledger_tip pending_page budget) (Some outcome) ->
  outcome_ok outcome.
Proof.
  intros Hid. revert next_block ledger_tip pending_page budget.
  induction fuel as [|fuel IH]; intros next tip pending budget (Hno & Htip & Hpage); [done|]. simpl.
  destruct pending as [page|]; [|apply request_page_ok; [done|done|]; intros *; apply IH].
  rewrite returns_bind. intros (o & Ho & Hret). rewrite Hid in Ho.
  apply (read_archives_ok next) in Ho; [|by apply Hpage].
  destruct o as [b|page'|budget']; simpl in *.
  - by simplify_eq.
  - simplify_eq. split; [done|]. split_and!; [done..|]. intros ? [= <-]. apply Ho.
  - eapply request_page_ok; [| | |exact Hret]; [done| |intros *; apply IH].
    split_and!; [by eapply no_transfer_join|done|done].
Qed.

Lemma reconcile_step_ok ledger progress outcome :
  rsp_transfer progress = identity -> phase_ok (rsp_phase progress) ->
  returns truthful (reconcile_step ledger progress) (Some outcome) -> outcome_ok outcome.
Proof.
  intros Hid Hok. unfold reconcile_step. rewrite returns_bind. intros ([o|] & Ho & Hc); [|done].
  simpl in Hc. injection Hc as ->.
  assert (Hout : outcome_ok o).
  { destruct (rsp_phase progress) eqn:Hp; [by eapply reconcile_ledger_ok|].
    rewrite returns_bind in Ho. destruct Ho as (? & Ho & [= <-]). by eapply reconcile_index_ok. }
  clear Ho. unfold classify_reconciliation_progress. destruct o; try done. by case_bool_decide.
Qed.
End scanning.

(** ** Scans

    A scan is resumed from the progress of the step before it, any number of times. *)

Definition resumption (outcome : ReconciliationOutcome) : option ReconciliationScanProgress :=
  match outcome with
  | Reconciliation_Progress progress | Reconciliation_NoProgress progress => Some progress
  | _ => None
  end.

Inductive scan_reaches (ledger : bytes) (progress : ReconciliationScanProgress)
    : ReconciliationOutcome -> Prop :=
| scan_first outcome :
    returns truthful (reconcile_step ledger progress) (Some outcome) ->
    scan_reaches ledger progress outcome
| scan_resumed before next outcome :
    scan_reaches ledger progress before -> resumption before = Some next ->
    returns truthful (reconcile_step ledger next) (Some outcome) ->
    scan_reaches ledger progress outcome.
End truth.

Lemma new_scan_ok archive log old target identity :
  phase_ok archive log old identity (rsp_phase (ReconciliationScanProgress_new target identity)).
Proof. split_and!; [|done..]. intros b ?. lia. Qed.

Lemma scan_reaches_ok archive log old identity ledger progress :
  Z.of_nat (length log) <= u128_max ->
  rsp_transfer progress = identity -> phase_ok archive log old identity (rsp_phase progress) ->
  forall outcome, scan_reaches archive log old ledger progress outcome ->
  outcome_ok archive log old identity outcome.
Proof.
  intros Hlog Hid Hphase outcome Hscan.
  induction Hscan as [o Ho|before next o _ IH Hnext Ho]; [by eapply reconcile_step_ok|].
  destruct before; simplify_eq/=; destruct IH; by eapply reconcile_step_ok.
Qed.

(** C6 (the verdict of a scan is true).  A scan of the ledger for a transfer, over any number
    of steps, failed calls, archives and pages, with services that answer from the log of
    the ledger.  When it reports a block, that block of the log is the transfer.  When it
    reports absence, no block that was in the log when the scan began is the transfer, none
    up to the reported watermark is, and the index had synchronised at least that far. *)
Theorem scan_verdict_true (archive : bytes -> string -> Prop) (log : list LedgerTransaction) (old : Z)
    (ledger : bytes) (target : ReconciliationTarget) (identity : LedgerTransferIdentity)
    (outcome : ReconciliationOutcome)
    (Hlog : Z.of_nat (length log) <= u128_max)
    (Hscan : scan_reaches archive log old ledger (ReconciliationScanProgress_new target identity) outcome) :
  match outcome with
  | Reconciliation_Succeeded block_index => is_transfer log identity block_index
  | Reconciliation_Absent ledger_watermark index_watermark =>
      old <= ledger_watermark <= index_watermark /\
      forall b, b < ledger_watermark -> ~ is_transfer log identity b
  | Reconciliation_Progress progress | Reconciliation_NoProgress progress =>
      rsp_transfer progress = identity
  end.
Proof.
  pose proof (scan_reaches_ok archive log old identity _ _ Hlog
    (eq_refl : rsp_transfer (ReconciliationScanProgress_new target identity) = identity)
    (new_scan_ok _ _ _ _ _) _ Hscan) as Hok.
  destruct outcome; [apply Hok..|]. destruct Hok as [? Hno]. split; [done|].
  intros b Hb Ht. apply (Hno b); [|done]. split; [apply Ht|done].
Qed.

(** ** Steps are bounded *)

Lemma read_archives_bounded identity page budget :
  within budget (fun left outcome => match outcome with Page_Read budget => budget = left | _ => True end)
    (read_archives identity page budget).
Proof.
  revert page. induction budget as [|budget IH]; intros page; simpl; repeat case_match; simpl; try done.
  intros [ts|]; [|done]. case_match; [done|]. case_match; [done|]. apply IH.
Qed.

(** What a step leaves as it is: the target and the transfer of the scan.  Only the
    classification at its end reports that there was no progress. *)
Definition keeps (progress : ReconciliationScanProgress) (outcome : ReconciliationOutcome) : Prop :=
  match outcome with
  | Reconciliation_Progress progress' =>
      rsp_target progress' = rsp_target progress /\ rsp_transfer progress' = rsp_transfer progress
  | Reconciliation_NoProgress _ => False
  | _ => True
  end.

Lemma index_pages_bounded progress ledger_watermark watermark next_start budget :
  within budget (fun _ => keeps progress)
    (index_pages progress ledger_watermark watermark next_start budget).
Proof.
  assert (Hstop : forall ns, keeps progress (index_progress progress ledger_watermark (Some watermark) ns)).
  { done. }
  revert next_start. induction budget as [|budget IH]; intros ns; [apply Hstop|].
  intros [[result|]|]; [|apply Hstop..].
  repeat (case_match; try solve [apply Hstop | apply IH | done]).
Qed.

Lemma within_left n {A} (P : nat -> A -> Prop) m :
  within n P m -> within n (fun left a => (left <= n)%nat /\ P left a) m.
Proof.
  revert n. induction m as [a|q k IH]; intros n Hm; [by split|]. destruct n as [|n]; [done|].
  intros x. eapply within_mono; [apply IH, Hm|]. intros left a [? ?]. split; [lia|done].
Qed.

Lemma reconcile_index_bounded ledger progress ledger_watermark index_watermark next_start budget :
  within budget (fun _ => keeps progress)
    (reconcile_index ledger progress ledger_watermark index_watermark next_start budget).
Proof.
  assert (Hstop : keeps progress (index_progress progress ledger_watermark None next_start)).
  { done. }
  unfold reconcile_index. case_match; [apply index_pages_bounded|].
  destruct budget as [|[|budget]]; [exact Hstop..|]. simpl. intros id.
  case_match; [exact Hstop|]. intros status. repeat (case_match; try exact Hstop).
  rewrite Nat.sub_0_r. apply index_pages_bounded.
Qed.

Definition kept (progress : ReconciliationScanProgress) (outcome : option ReconciliationOutcome) : Prop :=
  exists o, outcome = Some o /\ keeps progress o.

Lemma request_page_bounded ledger progress ledger_tip again next_block budget :
  (forall tip page budget', (budget' < budget)%nat ->
    within budget' (fun _ => kept progress) (again next_block tip page budget')) ->
  within budget (fun _ => kept progress)
    (request_page ledger progress ledger_tip again next_block budget).
Proof.
  intros Hagain. unfold request_page. case_match.
  - eapply within_bind; [apply reconcile_index_bounded|]. intros ? o Ho. by exists o.
  - destruct budget as [|budget]; [by eexists|].
    intros reply. case_match; [by eexists..|apply Hagain; lia].
Qed.

Lemma reconcile_ledger_bounded ledger fuel progress next_block ledger_tip pending_page budget :
  (budget < fuel)%nat ->
  within budget (fun _ => kept progress)
    (reconcile_ledger ledger fuel progress next_block ledger_tip pending_page budget).
Proof.
  revert next_block ledger_tip pending_page budget.
  induction fuel as [|fuel IH]; intros next tip pending budget Hfuel; [lia|]. cbn [reconcile_ledger].
  destruct pending as [page|]; [|apply request_page_bounded; intros; apply IH; lia].
  eapply within_bind; [apply within_left, read_archives_bounded|].
  intros n [b|page'|budget'] [Hn Ho]; simpl in Ho.
  - by eexists.
  - by eexists.
  - subst. apply request_page_bounded. intros. apply IH. lia.
Qed.

(** C26 (a step of a scan ends).  From any stored progress, and whatever the ledger, the
    archives and the index answer, a step makes at most four calls and then has a result.
    The target and the transfer of the scan are kept; a step whose phase did not move reports
    so, and one that reports progress did move. *)
Theorem reconcile_step_bounded (ledger : bytes) (progress : ReconciliationScanProgress) :
  within CALL_BUDGET (fun _ result =>
    exists outcome, result = Some outcome /\
      match outcome with
      | Reconciliation_Progress progress' =>
          rsp_target progress' = rsp_target progress /\ rsp_transfer progress' = rsp_transfer progress /\
          rsp_phase progress' <> rsp_phase progress
      | Reconciliation_NoProgress progress' => progress' = progress
      | _ => True
      end) (reconcile_step ledger progress).
Proof.
  unfold reconcile_step. apply (within_bind _ (fun _ => kept progress)).
  - destruct (rsp_phase progress); [apply reconcile_ledger_bounded; lia|].
    eapply within_bind; [apply reconcile_index_bounded|]. intros ? o Ho. by exists o.
  - intros n r (o & -> & Ho). eexists. split; [done|].
    destruct o as [p| | |]; try done. destruct Ho as [Ht Hi]. simpl. case_bool_decide as Hp; [|done].
    destruct p, progress. by simplify_eq/=.
Qed.

(** ** Transfers *)

(** The refusals of the ledger that say the transfer did not and will not happen. *)
Definition transfer_from_refused (e : TransferFromError) : option LedgerFailure :=
  match e with
  | From_BadFee v => Some (BadFee v)
  | From_BadBurn v => Some (BadBurn v)
  | From_InsufficientFunds v => Some (InsufficientFunds v)
  | From_InsufficientAllowance v => Some (InsufficientAllowance v)
  | _ => None
  end.

Definition transfer_refused (e : TransferError) : option LedgerFailure :=
  match e with
  | Transfer_BadFee v => Some (BadFee v)
  | Transfer_BadBurn v => Some (BadBurn v)
  | Transfer_InsufficientFunds v => Some (InsufficientFunds v)
  | _ => None
  end.

(** The block an outcome confirms. *)
Definition confirmed_block (o : LedgerCallOutcome) : option Z :=
  match o with
  | Outcome_Succeeded b | Outcome_Duplicate b => Some b
  | _ => None
  end.

(** Every answer in turn, with the widths it is checked against. *)
Ltac by_answer r :=
  destruct r as [[?|[]]|] eqn:?; simpl;
  unfold block, failure_amount, generic_failure, definitive, retryable, amount, nat_u128;
  split_and!; repeat case_match; reflect; naive_solver lia.

(** C27 (an answer says what it says).  Sending a pull or a payment to the ledger.  A block is
    confirmed exactly when the ledger returned it, or named it as the block of the same
    transfer, and it fits 128 bits.  A definitive failure is one of the ledger's own
    refusals, with its amount.  An answer that was lost, or that does not decode, is
    ambiguous: never a success, never a failure. *)
Theorem answers_exact (oracle : forall q, LedgerReply q) (identity : LedgerTransferIdentity) :
  (let reply := oracle (Query_transfer_from (pull_args identity)) in
   let outcome := answered oracle (pull identity) in
   (forall b, confirmed_block outcome = Some b <->
      (reply = Some (Ok b) \/ reply = Some (Err (From_Duplicate b))) /\ b <= u128_max) /\
   (forall f, outcome = Outcome_DefinitiveFailure f ->
      exists e, reply = Some (Err e) /\ transfer_from_refused e = Some f) /\
   (reply = None -> outcome = Outcome_Ambiguous)) /\
  (let reply := oracle (Query_transfer (transfer_args identity)) in
   let outcome := answered oracle (transfer identity) in
   (forall b, confirmed_block outcome = Some b <->
      (reply = Some (Ok b) \/ reply = Some (Err (Transfer_Duplicate b))) /\ b <= u128_max) /\
   (forall f, outcome = Outcome_DefinitiveFailure f ->
      exists e, reply = Some (Err e) /\ transfer_refused e = Some f) /\
   (reply = None -> outcome = Outcome_Ambiguous)).
Proof.
  split; cbn zeta; unfold pull, transfer; cbn [answered].
  - by_answer (oracle (Query_transfer_from (pull_args identity))).
  - by_answer (oracle (Query_transfer (transfer_args identity))).
Qed.

(** The block the ledger appends for a transfer of the canister [self]. *)
Definition recorded_pull (self : bytes) (args : TransferFromArgs) : LedgerTransaction :=
  {| ltx_transfer := Some
      {| lt_amount := tfa_amount args; lt_fee := tfa_fee args;
         lt_created_at_time := tfa_created_at_time args; lt_memo := tfa_memo args;
         lt_from := tfa_from args; lt_to := tfa_to args;
         lt_spender := Some {| la_owner := self; la_subaccount := tfa_spender_subaccount args |} |} |}.

Definition recorded_transfer (self : bytes) (args : TransferArg) : LedgerTransaction :=
  {| ltx_transfer := Some
      {| lt_amount := tra_amount args; lt_fee := tra_fee args;
         lt_created_at_time := tra_created_at_time args; lt_memo := tra_memo args;
         lt_from := {| la_owner := self; la_subaccount := tra_from_subaccount args |};
         lt_to := tra_to args; lt_spender := None |} |}.

(** Equal but for the operation they are recorded under, which the ledger does not see. *)
Definition same_transfer (x y : LedgerTransferIdentity) : Prop :=
  lti_created_at_time_ns x = lti_created_at_time_ns y /\ lti_memo x = lti_memo y /\
  lti_amount x = lti_amount y /\ lti_fee x = lti_fee y /\
  lti_from x = lti_from y /\ lti_to x = lti_to y /\ lti_spender x = lti_spender y.

Lemma account_matches_true actual expected :
  account_matches actual expected = true <->
  la_owner actual = a_owner expected /\ effective_subaccount actual = a_subaccount expected.
Proof. unfold account_matches. by rewrite andb_true_iff, !bool_decide_eq_true. Qed.

Lemma account_matches_sent x y : account_matches (ledger_account x) y = true <-> x = y.
Proof. rewrite account_matches_true. destruct x, y; simpl. naive_solver. Qed.

Ltac by_fields :=
  split; intros; destruct_and!; split_and!; unfold effective_subaccount in *; simpl in *; congruence.


(** ** A run

    A log of three blocks, the first two in an archive, in which the second is a pull. *)

Definition ex_pull : LedgerTransferIdentity :=
  ex_transfer PullDeposit 1000 10 5 ex_user ex_bridge (Some ex_bridge).

Definition ex_other : LedgerTransferIdentity :=
  ex_transfer PullDeposit 1000 10 6 ex_user ex_bridge (Some ex_bridge).

Definition ex_log : list LedgerTransaction :=
  [{| ltx_transfer := None |}; recorded_pull [9] (pull_args ex_pull); {| ltx_transfer := None |}].

Definition ex_archive (canister_id : bytes) (method : string) : Prop :=
  canister_id = [77] /\ method = "get_transactions"%string.

Definition ex_services (q : LedgerQuery) : LedgerReply q :=
  match q return LedgerReply q with
  | Query_transfer_from _ => None
  | Query_transfer _ => None
  | Query_get_transactions _ _ =>
      Some {| gtr_log_length := 3; gtr_first_index := 2;
              gtr_transactions := drop 2 ex_log;
              gtr_archived := [{| ar_start := 0; ar_length := 2; ar_canister_id := [77];
                                  ar_method := "get_transactions"%string |}] |}
  | Query_archive _ _ start length =>
      if 0 <=? start then Some (take (Z.to_nat length) (drop (Z.to_nat start) ex_log)) else None
  | Query_ledger_id => Some [55]
  | Query_status => Some 3
  | Query_account_transactions _ _ _ =>
      Some (Ok {| ixt_transactions :=
                    [{| twi_id := 1; twi_transaction := recorded_pull [9] (pull_args ex_pull) |}];
                  ixt_oldest_tx_id := Some 1 |})
  end.

Lemma slice_taken log start n : 0 <= start -> slice log start (take n (drop (Z.to_nat start) log)).
Proof.
  intros. split; [done|]. intros i t [Hi _]%lookup_take_Some. by rewrite lookup_drop in Hi.
Qed.

Lemma ex_services_truthful q : truthful ex_archive ex_log 3 q (ex_services q).
Proof.
  destruct q as [| |start length|canister_id method start length| | |]; simpl; try done.
  - intros response [= <-]. simpl. split_and!; [lia|lia|exact (slice_taken ex_log 2 1 ltac:(lia))|].
    repeat constructor; simpl; lia.
  - intros ts _. case_match; [|done]. intros [= <-]. reflect. by apply slice_taken.
  - intros result [= <-]. repeat constructor; simpl; [lia|]. intros [|i] t; [by intros [= <-]|done].
Qed.

Definition ex_scan (identity : LedgerTransferIdentity) : ReconciliationScanProgress :=
  ReconciliationScanProgress_new (Target_Hold 1) identity.

Definition ex_midway : ReconciliationScanProgress :=
  with_phase (ex_scan ex_other) (Scan_Index 3 (Some 3) None).

(** The pull is found in the archive; another transfer is found absent, in two steps. *)
Lemma scan_verdict_true_witness :
  is_transfer ex_log ex_pull 1 /\ forall b, b < 3 -> ~ is_transfer ex_log ex_other b.
Proof.
  split.
  - apply (scan_verdict_true ex_archive ex_log 3 [55] (Target_Hold 1) ex_pull
             (Reconciliation_Succeeded 1)); [simpl; lia|].
    apply scan_first. exact (answered_returns _ _ (reconcile_step [55] (ex_scan ex_pull))
                               ex_services_truthful).
  - apply (scan_verdict_true ex_archive ex_log 3 [55] (Target_Hold 1) ex_other
             (Reconciliation_Absent 3 3)); [simpl; lia|].
    apply (scan_resumed _ _ _ _ _ (Reconciliation_Progress ex_midway) ex_midway);
      [apply scan_first|reflexivity|].
    + exact (answered_returns _ _ (reconcile_step [55] (ex_scan ex_other)) ex_services_truthful).
    + exact (answered_returns _ _ (reconcile_step [55] ex_midway) ex_services_truthful).
Defined.

Definition ex_payment : LedgerTransferIdentity := ex_transfer RefundDeposit 950 10 7 ex_bridge ex_user None.

