(* ===== verification/LedgerProgress.v ===== *)
(** * The scan of the ledger ends

    A step of the scan of [ledger.rs] ends whatever is answered
    (see [LedgerTruth.v]); whether the scan as a whole does depends on the
    services.  Here every call is answered, pages are complete, the log may grow while it is
    scanned, and the index has the blocks that were in the log at the first call
    ([answers]).  Then every step moves on, and the scan reaches a verdict. *)

From stdpp Require Import sorting.
From S2P Require Import Prelude KernelPolicy Types External StorageTypes Funding Ledger LedgerTruth Examples.

(** ** Calls in time

    The calls of a scan are numbered; [oracle i] answers the [i]-th. *)

Fixpoint timed (oracle : nat -> forall q, LedgerReply q) (i : nat) {A} (m : Calls A) : nat * A :=
  match m with
  | Returned a => (i, a)
  | Called q k => timed oracle (S i) (k (oracle i q))
  end.

(** A scan of at most [steps] steps, from the [i]-th call on. *)
Fixpoint scan_run (oracle : nat -> forall q, LedgerReply q) (ledger : bytes) (steps i : nat)
    (progress : ReconciliationScanProgress) : option ReconciliationOutcome :=
  match steps with
  | O => None
  | S steps =>
      let '(j, result) := timed oracle i (reconcile_step ledger progress) in
      outcome ← result;
      match resumption outcome with
      | Some progress => scan_run oracle ledger steps j progress
      | None => Some outcome
      end
  end.

(** Whatever is answered within [ok], the result satisfies [P] at the time it is reached. *)
Fixpoint ensures (ok : nat -> forall q, LedgerReply q -> Prop) (i : nat) {A} (P : nat -> A -> Prop)
    (m : Calls A) {struct m} : Prop :=
  match m with
  | Returned a => P i a
  | Called q k => forall x, ok i q x -> ensures ok (S i) P (k x)
  end.

Lemma ensures_bind ok i {A B} (P : nat -> A -> Prop) (Q : nat -> B -> Prop) m f :
  ensures ok i P m -> (forall i a, P i a -> ensures ok i Q (f a)) -> ensures ok i Q (calls_bind m f).
Proof.
  intros Hm Hf. revert i Hm. induction m as [a|q k IH]; intros i Hm; simpl in *; [by apply Hf|].
  intros x Hx. by apply IH, Hm.
Qed.

Lemma ensures_mono ok i {A} (P Q : nat -> A -> Prop) m :
  ensures ok i P m -> (forall i a, P i a -> Q i a) -> ensures ok i Q m.
Proof.
  revert i. induction m as [a|q k IH]; intros i Hm HPQ; simpl in *; [by apply HPQ|].
  intros x Hx. by apply IH; [apply Hm|].
Qed.

Lemma ensures_timed ok oracle i {A} (P : nat -> A -> Prop) m :
  (forall i q, ok i q (oracle i q)) -> ensures ok i P m ->
  P (timed oracle i m).1 (timed oracle i m).2.
Proof.
  intros Hok. revert i. induction m as [a|q k IH]; intros i Hm; simpl in *; [done|].
  apply IH, Hm, Hok.
Qed.

(** ** Services that answer *)

(** Consecutive non-empty ranges from [start] to [end_]. *)
Fixpoint chain (start end_ : Z) (ranges : list (Z * Z)) : Prop :=
  match ranges with
  | [] => start = end_
  | r :: ranges => r.1 = start /\ r.1 < r.2 /\ chain r.2 end_ ranges
  end.

(** The blocks a response holds or names an archive for. *)
Definition held_ranges (first_index : Z) (transactions : list LedgerTransaction) : list (Z * Z) :=
  if bool_decide (transactions = []) then []
  else [(first_index, first_index + Z.of_nat (length transactions))].

Definition response_ranges (response : GetTransactionsResponse) : list (Z * Z) :=
  held_ranges (gtr_first_index response) (gtr_transactions response) ++
  ((fun a => (ar_start a, ar_start a + ar_length a)) <$> gtr_archived response).

Section answering.
Context (ledger : bytes) (tip : Z).

(** [tip] is the length of the log at the first call.  The blocks a page is asked for are
    split between the response and the archives, in any way and any order; the index pages
    backwards and its cursor is exclusive. *)
Definition answers (i : nat) (q : LedgerQuery) : LedgerReply q -> Prop :=
  match q return LedgerReply q -> Prop with
  | Query_get_transactions start length => fun reply => 0 <= start -> 0 <= length ->
      exists response ranges, reply = Some response /\
      tip <= gtr_log_length response <= u128_max /\ (i = 0%nat -> gtr_log_length response = tip) /\
      0 <= gtr_first_index response <= u128_max /\
      Forall (fun a => is_principal (ar_canister_id a) = true /\ 0 <= ar_start a /\
                       Z.of_nat (String.length (ar_method a)) <= 128) (gtr_archived response) /\
      response_ranges response ≡ₚ ranges /\
      chain start (Z.max start (Z.min (gtr_log_length response) (start + length))) ranges
  | Query_archive _ _ _ length => fun reply => 0 <= length ->
      exists ts, reply = Some ts /\ Z.of_nat (List.length ts) = length
  | Query_ledger_id => fun reply => reply = Some ledger
  | Query_status => fun reply => exists synced, reply = Some synced /\ tip <= synced <= u128_max
  | Query_account_transactions _ start _ => fun reply => exists result, reply = Some (Ok result) /\
      Forall (fun t => 0 <= twi_id t <= u128_max) (ixt_transactions result) /\
      forall t s, last (ixt_transactions result) = Some t -> start = Some s -> twi_id t < s
  | _ => fun _ => True
  end.

(** *** Pages are accepted *)

Lemma chain_le start end_ ranges : chain start end_ ranges -> start <= end_.
Proof.
  revert start. induction ranges as [|r ranges IH]; simpl; intros start; [lia|].
  intros (? & ? & ?%IH). lia.
Qed.

Lemma chain_bounds start end_ ranges r :
  chain start end_ ranges -> r ∈ ranges -> start <= r.1 /\ r.1 < r.2 /\ r.2 <= end_.
Proof.
  revert start. induction ranges as [|x ranges IH]; simpl; intros start; [set_solver|].
  intros (? & ? & Hc) [->|Hin]%elem_of_cons; [pose proof (chain_le _ _ _ Hc); lia|].
  destruct (IH _ Hc Hin). lia.
Qed.

Lemma chain_covers start end_ ranges :
  chain start end_ ranges -> exact_coverage start end_ ranges = true.
Proof.
  intros Hc. unfold exact_coverage. case_match eqn:Hs; reflect.
  - destruct ranges as [|r ranges]; [done|]. destruct Hc as (? & ? & ?%chain_le). lia.
  - clear Hs. revert start Hc.
    induction ranges as [|[a b] ranges IH]; simpl; intros start; [intros; by reflect|].
    intros (-> & ? & Hc). pose proof (chain_le _ _ _ Hc).
    rewrite Z.eqb_refl, (proj2 (Z.leb_gt _ _)), (proj2 (Z.ltb_ge _ _)) by lia. by apply IH.
Qed.

Lemma chain_length start end_ ranges :
  chain start end_ ranges -> Z.of_nat (length ranges) <= end_ - start.
Proof.
  revert start. induction ranges as [|r ranges IH]; simpl; intros start; [lia|].
  intros (? & ? & ?%IH). lia.
Qed.

#[local] Instance range_le_trans : Transitive range_le.
Proof. intros x y z. unfold range_le. lia. Qed.

#[local] Instance range_le_total : Total range_le.
Proof. intros x y. unfold range_le. lia. Qed.

#[local] Instance range_le_anti : AntiSymm (=) range_le.
Proof. intros [] []. unfold range_le; simpl. intros. f_equal; lia. Qed.

Lemma chain_sorted start end_ ranges : chain start end_ ranges -> StronglySorted range_le ranges.
Proof.
  revert start. induction ranges as [|r ranges IH]; simpl; intros start; [by constructor|].
  intros (? & ? & Hc). constructor; [by eapply IH|]. apply Forall_forall. intros x Hx.
  destruct (chain_bounds _ _ _ _ Hc Hx). unfold range_le. lia.
Qed.

Lemma sorted_chain start end_ ranges found :
  found ≡ₚ ranges -> chain start end_ ranges -> merge_sort range_le found = ranges.
Proof.
  intros Hp Hc. apply (StronglySorted_unique range_le).
  - apply StronglySorted_merge_sort; apply _.
  - by eapply chain_sorted.
  - by rewrite merge_sort_Permutation.
Qed.

Lemma archive_ranges_answered archived :
  Forall (fun a => is_principal (ar_canister_id a) = true /\ 0 <= ar_start a /\
                   Z.of_nat (String.length (ar_method a)) <= 128) archived ->
  Forall (fun a => 0 < ar_length a /\ ar_start a + ar_length a <= u128_max) archived ->
  exists archives, archive_ranges archived =
      Some ((fun a => (ar_start a, ar_start a + ar_length a)) <$> archived, archives) /\
    length archives = length archived /\
    Forall (fun a => is_principal (rar_canister_id a) = true /\ 0 <= rar_length a) archives.
Proof.
  induction archived as [|a archived IH]; [by exists []|].
  intros [(? & ? & ?) Ha]%Forall_cons [[? ?] Hb]%Forall_cons.
  destruct (IH Ha Hb) as (archives & E & Hl & HF).
  cbn [archive_ranges]. rewrite (proj2 (nat_u128_Some (ar_start a) _)) by (split; [lia|done]). simpl.
  rewrite (proj2 (nat_u128_Some (ar_length a) _)) by (split; [lia|done]). simpl.
  rewrite (proj2 (checked_add_Some _ _ _ _)) by (split; [lia|done]). simpl.
  rewrite (proj2 (Z.eqb_neq _ _)), (proj2 (Z.ltb_ge _ _)) by lia. simpl. rewrite E. simpl.
  eexists. split; [done|]. split; [simpl; by rewrite Hl|].
  constructor; [split; [done|simpl; lia]|done].
Qed.

Lemma own_ranges_answered first_index transactions :
  (forall r, r ∈ held_ranges first_index transactions -> r.1 < r.2 /\ r.2 <= u128_max) ->
  own_ranges first_index transactions = Some (held_ranges first_index transactions).
Proof.
  unfold own_ranges, held_ranges. case_bool_decide; [done|]. intros Hr.
  specialize (Hr _ (list_elem_of_here _ _)) as [_ Hr]. simpl in Hr.
  by rewrite (proj2 (checked_add_Some u128_max first_index _ _) (conj Hr eq_refl)).
Qed.

Definition archives_left (page : ReconciliationLedgerPage) : Z :=
  Z.of_nat (length (rlp_archives page)) - rlp_next_archive page.

Definition page_live (page : ReconciliationLedgerPage) : Prop :=
  0 <= rlp_end page <= tip /\ 0 <= rlp_next_archive page /\ 0 <= archives_left page /\
  Z.of_nat (length (rlp_archives page)) <= u16_max /\
  Forall (fun a => is_principal (rar_canister_id a) = true /\ 0 <= rar_length a) (rlp_archives page).

(** The page of a response that answers is accepted, and has an archive for a block at
    most. *)
Lemma response_page_answered start end_ response ranges :
  0 <= start <= end_ -> end_ <= start + PAGE -> end_ <= tip -> tip <= u128_max ->
  Forall (fun a => is_principal (ar_canister_id a) = true /\ 0 <= ar_start a /\
                   Z.of_nat (String.length (ar_method a)) <= 128) (gtr_archived response) ->
  response_ranges response ≡ₚ ranges -> chain start end_ ranges ->
  exists page, response_page start end_ (gtr_first_index response) response = Some page /\
    page_live page /\ rlp_end page = end_ /\ archives_left page <= end_ - start.
Proof.
  intros Hs Hpage Htip Hmax Harch Hp Hc.
  assert (Hin : forall r, r ∈ response_ranges response -> r.1 < r.2 /\ r.2 <= u128_max).
  { intros r Hr. rewrite Hp in Hr. destruct (chain_bounds _ _ _ _ Hc Hr). lia. }
  unfold response_ranges in *.
  destruct (archive_ranges_answered (gtr_archived response)) as (archives & Har & Hlen & HF); [done| |].
  { apply Forall_forall. intros a Ha.
    destruct (Hin (ar_start a, ar_start a + ar_length a)) as [? ?]; [|simpl in *; lia].
    apply elem_of_app. right. apply list_elem_of_fmap. by exists a. }
  pose proof (chain_length _ _ _ Hc) as Hcount. rewrite <- Hp, length_app, length_fmap in Hcount.
  unfold response_page.
  rewrite (own_ranges_answered _ (gtr_transactions response)); simpl; [|set_solver].
  rewrite Har. simpl.
  rewrite (sorted_chain _ _ _ _ Hp Hc), (chain_covers _ _ _ Hc). eexists. split; [done|].
  unfold page_live, archives_left, PAGE in *; simpl.
  rewrite (Permutation_length (merge_sort_Permutation archive_le archives)), Hlen.
  split_and!; try lia. by rewrite merge_sort_Permutation.
Qed.

(** *** What is left to do *)

Definition index_weight (index_watermark next_start : option Z) : Z :=
  match index_watermark, next_start with
  | None, _ => u128_max + 3
  | Some _, None => u128_max + 2
  | Some _, Some start => start + 1
  end.

(** Two for every block that is left, or one for every archive of a page. *)
Definition phase_weight (phase : ReconciliationScanPhase) : Z :=
  match phase with
  | Scan_Ledger _ None _ => u128_max + 4 + 2 * tip + 2
  | Scan_Ledger next_block (Some _) None => u128_max + 4 + 2 * (tip - next_block) + 1
  | Scan_Ledger _ (Some _) (Some page) =>
      u128_max + 4 + 2 * (tip - rlp_end page) + archives_left page + 1
  | Scan_Index _ index_watermark next_start => index_weight index_watermark next_start
  end.

(** The phases the scan goes through; only the first call is made with no tip. *)
Definition phase_live (i : nat) (phase : ReconciliationScanPhase) : Prop :=
  match phase with
  | Scan_Ledger next_block None pending_page => i = 0%nat /\ next_block = 0 /\ pending_page = None
  | Scan_Ledger next_block (Some t) pending_page =>
      t = tip /\ 0 <= next_block <= tip /\ (forall page, pending_page = Some page -> page_live page)
  | Scan_Index ledger_watermark _ next_start =>
      ledger_watermark = tip /\ (forall s, next_start = Some s -> 0 <= s <= u128_max)
  end.

Lemma phase_weight_pos i phase : phase_live i phase -> 0 <= tip -> 0 <= phase_weight phase.
Proof.
  destruct phase as [next [t|] [page|]|lw [w|] [s|]]; simpl; try lia.
  - intros (_ & ? & Hp) ?. destruct (Hp _ eq_refl) as (? & ? & ? & _). lia.
  - intros [_ Hs] ?. specialize (Hs _ eq_refl). lia.
Qed.

(** The outcome is a verdict, or its phase has at most [weight] left. *)
Definition moved (weight : Z) (i : nat) (outcome : ReconciliationOutcome) : Prop :=
  match outcome with
  | Reconciliation_Progress progress =>
      phase_live i (rsp_phase progress) /\ phase_weight (rsp_phase progress) <= weight
  | Reconciliation_NoProgress _ => False
  | _ => True
  end.

Lemma moved_mono w w' i o : moved w i o -> w <= w' -> moved w' i o.
Proof. destruct o; simpl; [|done..]. intros []. split; [done|lia]. Qed.

Hypothesis tip_fits : 0 <= tip <= u128_max.

(** *** The index *)

Lemma last_fits (ts : list TransactionWithId) t :
  Forall (fun t => 0 <= twi_id t <= u128_max) ts -> last ts = Some t -> 0 <= twi_id t <= u128_max.
Proof. intros HF Ht%last_Some_elem_of. rewrite Forall_forall in HF. by apply HF. Qed.

Lemma index_pages_moves progress watermark next_start (budget : nat) i :
  (forall s, next_start = Some s -> 0 <= s <= u128_max) ->
  ensures answers i (moved (index_weight (Some watermark) next_start - Z.min 1 (Z.of_nat budget)))
    (index_pages progress tip watermark next_start budget).
Proof.
  revert next_start i. induction budget as [|budget IH]; intros ns i Hns.
  { simpl. split; [done|]. simpl. lia. }
  intros reply (result & -> & Hids & Hlast). destruct (List.find _ _) as [found|] eqn:Hfind.
  { apply List.find_some in Hfind as [Hin%list_elem_of_In _]. rewrite Forall_forall in Hids.
    by rewrite (proj2 (nat_u128_Some (twi_id found) _)) by (split; [apply Hids, Hin|done]). }
  destruct (last (ixt_transactions result)) as [t|] eqn:Ht; [|done]. simpl.
  pose proof (last_fits _ _ Hids Ht) as Hfit.
  rewrite (proj2 (nat_u128_Some (twi_id t) _)) by (split; [lia|done]).
  unfold index_page_boundary. destruct (is_some_and _ _); [done|]. case_bool_decide as Hs.
  - specialize (Hlast _ _ eq_refl Hs). lia.
  - eapply ensures_mono; [apply IH; intros ? [= <-]; lia|]. intros ? o Ho.
    eapply moved_mono; [exact Ho|]. destruct ns as [s|]; simpl.
    + specialize (Hlast _ _ eq_refl eq_refl). lia.
    + lia.
Qed.

Lemma reconcile_index_moves progress index_watermark next_start (budget : nat) i :
  (forall s, next_start = Some s -> 0 <= s <= u128_max) ->
  ensures answers i
    (moved (index_weight index_watermark next_start - if (budget <? 2)%nat then 0 else 1))
    (reconcile_index ledger progress tip index_watermark next_start budget).
Proof.
  intros Hns. unfold reconcile_index. destruct index_watermark as [w|].
  { eapply ensures_mono; [by apply index_pages_moves|]. intros ? o Ho. eapply moved_mono; [exact Ho|].
    destruct budget as [|[|budget]]; simpl; lia. }
  case_match; [split; [done|simpl; lia]|]. intros id ->. rewrite bool_decide_eq_true_2 by done. simpl.
  intros status (synced & -> & Hs). simpl.
  rewrite (proj2 (nat_u128_Some synced _)) by (split; [lia|done]).
  rewrite (proj2 (Z.ltb_ge _ _)) by lia.
  eapply ensures_mono; [by apply index_pages_moves|]. intros ? o Ho. eapply moved_mono; [exact Ho|].
  destruct next_start as [s|]; simpl; [specialize (Hns _ eq_refl)|]; lia.
Qed.

(** *** The log *)

Lemma archive_at_left page :
  page_live page ->
  match archive_at page with
  | Some a => (is_principal (rar_canister_id a) = true /\ 0 <= rar_length a) /\
              1 <= archives_left page /\
              page_live (advance_archive page) /\
              archives_left (advance_archive page) = archives_left page - 1
  | None => archives_left page = 0
  end.
Proof.
  intros (? & ? & ? & ? & HF). unfold archive_at, archives_left in *.
  destruct (_ !! _) as [a|] eqn:Ha.
  - pose proof (lookup_lt_Some _ _ _ Ha). rewrite Forall_forall in HF.
    assert (Hn : wrapping_add u16_max (rlp_next_archive page) 1 = rlp_next_archive page + 1).
    { apply wrapping_add_exact. ranges. lia. }
    unfold page_live, archives_left; simpl. rewrite Hn.
    split; [eapply HF, list_elem_of_lookup_2, Ha|]. split_and!; try lia. by apply Forall_forall.
  - apply lookup_ge_None in Ha. lia.
Qed.

(** A page is left with one archive less for every call, or read. *)
Lemma read_archives_moves identity page budget i :
  page_live page ->
  ensures answers i (fun _ outcome =>
    match outcome with
    | Page_Found _ => True
    | Page_Interrupted page' => page_live page' /\ rlp_end page' = rlp_end page /\
        archives_left page' = archives_left page - Z.of_nat budget
    | Page_Read budget' => Z.of_nat budget' = Z.of_nat budget - archives_left page
    end) (read_archives identity page budget).
Proof.
  revert page i. induction budget as [|budget IH]; intros page i Hp;
    pose proof (archive_at_left _ Hp) as Ha;
    simpl; destruct (archive_at page) as [a|]; simpl; try (split_and!; try done; lia); try lia.
  destruct Ha as ([-> Hlength] & ? & Hp' & Hleft). simpl.
  intros reply Hreply. destruct (Hreply Hlength) as (ts & -> & Hlen).
  rewrite Hlen, Z.eqb_refl. simpl. case_match; [done|].
  eapply ensures_mono; [by apply IH|]. intros ? [b|page'|budget'] Ho; [done| |].
  - destruct Ho as (? & Hend & ?). split_and!; [done|done|lia].
  - lia.
Qed.

(** The page that is asked for ends at the tip, or is full. *)
Lemma page_bounds next_block ledger_tip i log_length :
  phase_live i (Scan_Ledger next_block ledger_tip None) -> tip_reached next_block ledger_tip = None ->
  tip <= log_length <= u128_max -> (i = 0%nat -> log_length = tip) ->
  default log_length ledger_tip = tip /\ 0 <= next_block <= tip /\
  (ledger_tip <> None -> next_block < tip) /\
  Z.max next_block (Z.min log_length (next_block + ledger_page_length next_block ledger_tip PAGE)) =
    Z.min tip (saturating_add u128_max next_block PAGE).
Proof.
  unfold PAGE, ledger_page_length, saturating_sub, saturating_add.
  destruct ledger_tip as [t|]; intros (Ht & Hn & _) Hreached Hlen Hfirst; simpl.
  - subst t. assert (next_block < tip).
    { revert Hreached. unfold tip_reached, scan_complete, scan_complete_body.
      case_match eqn:Hg; [done|]. intros _. reflect. lia. }
    split_and!; try done; lia.
  - subst. rewrite (Hfirst eq_refl). split_and!; try done; lia.
Qed.

Lemma read_response_moves identity next_block ledger_tip i reply :
  phase_live i (Scan_Ledger next_block ledger_tip None) ->
  tip_reached next_block ledger_tip = None ->
  answers i (Query_get_transactions next_block (ledger_page_length next_block ledger_tip PAGE)) reply ->
  match read_response identity next_block ledger_tip reply with
  | Reply_Found _ => True
  | Reply_Stopped _ => False
  | Reply_Page t page =>
      phase_live (S i) (Scan_Ledger next_block (Some t) (Some page)) /\
      phase_weight (Scan_Ledger next_block (Some t) (Some page)) <
        phase_weight (Scan_Ledger next_block ledger_tip None)
  end.
Proof.
  intros Hlive Hreached Hreply.
  destruct Hreply as (response & ranges & -> & Hlen & Hfirst & Hindex & Harch & Hp & Hc).
  { destruct ledger_tip; destruct Hlive as (_ & ? & _); lia. }
  { unfold ledger_page_length, saturating_sub, PAGE. case_match; lia. }
  unfold read_response.
  rewrite (proj2 (nat_u128_Some (gtr_log_length response) _)) by (split; [lia|done]).
  destruct (page_bounds _ _ _ _ Hlive Hreached Hlen Hfirst) as (-> & Hnext & Hlt & Hend).
  rewrite Hend in Hc. rewrite (proj2 (Z.ltb_ge _ _)) by lia.
  rewrite (proj2 (nat_u128_Some (gtr_first_index response) _)) by (split; [lia|done]).
  destruct (first_match _ _ _); [done|].
  destruct (response_page_answered next_block (Z.min tip (saturating_add u128_max next_block PAGE))
    response ranges) as (page & -> & Hpage & Hpend & Hleft);
    [unfold saturating_add, PAGE in *; lia..|done|done|done|].
  split; [split_and!; [done|lia|lia|by intros ? [= <-]]|].
  unfold saturating_add, PAGE in *. simpl. rewrite Hpend.
  destruct ledger_tip as [t|]; simpl; [specialize (Hlt ltac:(done)); lia|].
  destruct Hlive as (_ & -> & _). lia.
Qed.

(** *** A step moves on *)

Definition result_moved (weight : Z) (i : nat) (result : option ReconciliationOutcome) : Prop :=
  exists outcome, result = Some outcome /\ moved weight i outcome.

Lemma result_moved_mono w w' i r : result_moved w i r -> w <= w' -> result_moved w' i r.
Proof. intros (o & -> & Ho) ?. exists o. split; [done|]. by eapply moved_mono. Qed.

Lemma request_page_moves progress ledger_tip again next_block (budget : nat) i :
  phase_live i (Scan_Ledger next_block ledger_tip None) ->
  (forall i t page budget', (budget' < budget)%nat ->
    phase_live i (Scan_Ledger next_block (Some t) (Some page)) ->
    ensures answers i (result_moved (phase_weight (Scan_Ledger next_block (Some t) (Some page))))
      (again next_block t page budget')) ->
  ensures answers i
    (result_moved (phase_weight (Scan_Ledger next_block ledger_tip None) - Z.min 1 (Z.of_nat budget)))
    (request_page ledger progress ledger_tip again next_block budget).
Proof.
  intros Hlive Hagain. unfold request_page. destruct (tip_reached next_block ledger_tip) as [w|] eqn:Hw.
  - apply tip_reached_spec in Hw as [-> _]. destruct Hlive as (-> & Hn & _).
    eapply ensures_bind; [by apply reconcile_index_moves|]. intros j o Ho. exists o. split; [done|].
    eapply moved_mono; [exact Ho|]. simpl. repeat case_match; lia.
  - destruct budget as [|budget].
    { eexists. split; [done|]. destruct ledger_tip; (split; [done|simpl; lia]). }
    intros reply Hreply.
    pose proof (read_response_moves (rsp_transfer progress) _ _ _ _ Hlive Hw Hreply) as Hm.
    destruct (read_response _ _ _ _) as [b|t|t page]; [by eexists|done|]. destruct Hm as [Hl Hlt].
    eapply ensures_mono; [by apply Hagain; [lia|]|]. intros j r Hr.
    eapply result_moved_mono; [exact Hr|lia].
Qed.

Lemma reconcile_ledger_moves fuel progress next_block ledger_tip pending_page (budget : nat) i :
  (budget < fuel)%nat -> phase_live i (Scan_Ledger next_block ledger_tip pending_page) ->
  ensures answers i
    (result_moved
      (phase_weight (Scan_Ledger next_block ledger_tip pending_page) - Z.min 1 (Z.of_nat budget)))
    (reconcile_ledger ledger fuel progress next_block ledger_tip pending_page budget).
Proof.
  revert next_block ledger_tip pending_page budget i.
  induction fuel as [|fuel IH]; intros next t pending budget i Hfuel Hlive; [lia|].
  cbn [reconcile_ledger].
  assert (Hagain : forall next i t page budget', (budget' < budget)%nat ->
    phase_live i (Scan_Ledger next (Some t) (Some page)) ->
    ensures answers i (result_moved (phase_weight (Scan_Ledger next (Some t) (Some page))))
      (reconcile_ledger ledger fuel progress next (Some t) (Some page) budget')).
  { intros next' i' t' page budget' Hb Hl. eapply ensures_mono; [apply IH; [lia|done]|].
    intros ? r Hr. eapply result_moved_mono; [exact Hr|lia]. }
  destruct pending as [page|]; [|apply request_page_moves; [done|apply Hagain]].
  destruct t as [t|]; [|by destruct Hlive as (_ & _ & ?)]. destruct Hlive as (-> & Hn & Hp).
  specialize (Hp _ eq_refl). pose proof Hp as (Hend & _ & Hleft & _).
  eapply ensures_bind; [by apply read_archives_moves|].
  intros j [b|page'|budget'] Ho; [by eexists| |].
  - destruct Ho as (Hp' & Hend' & Hleft'). eexists. split; [done|].
    split; [split_and!; [done|lia|lia|by intros ? [= <-]]|]. simpl. lia.
  - eapply ensures_mono; [apply request_page_moves|].
    + by split_and!; [|lia..|].
    + intros *. intros. apply Hagain; [lia|done].
    + intros ? r Hr. eapply result_moved_mono; [exact Hr|]. simpl. lia.
Qed.

Lemma reconcile_step_moves progress i :
  phase_live i (rsp_phase progress) ->
  ensures answers i (result_moved (phase_weight (rsp_phase progress) - 1))
    (reconcile_step ledger progress).
Proof.
  intros Hlive. unfold reconcile_step.
  eapply (ensures_bind _ _ (result_moved (phase_weight (rsp_phase progress) - 1))).
  - destruct (rsp_phase progress) as [next t pending|lw iw ns].
    + eapply ensures_mono; [by apply reconcile_ledger_moves; [unfold CALL_BUDGET; lia|]|]. done.
    + destruct Hlive as [-> Hns].
      eapply ensures_bind; [by apply reconcile_index_moves|]. intros j o Ho. exists o. by split.
  - intros j r (o & -> & Ho). eexists. split; [done|]. destruct o as [p| | |]; try done.
    destruct Ho as [Hl Hw]. simpl. case_bool_decide as Hp; [rewrite Hp in Hw; lia|done].
Qed.
End answering.

(** C25 (the scan ends).  The services answer every call, with complete pages, however they
    are split into archives, and with an index that has the blocks of the first tip; the
    log may grow meanwhile.  Then a scan for a transfer reaches a verdict after finitely
    many steps. *)
Theorem scan_ends (oracle : nat -> forall q, LedgerReply q) (ledger : bytes) (tip : Z)
    (target : ReconciliationTarget) (identity : LedgerTransferIdentity)
    (Htip : 0 <= tip <= u128_max)
    (Hanswers : forall i q, answers ledger tip i q (oracle i q)) :
  exists steps outcome,
    scan_run oracle ledger steps 0 (ReconciliationScanProgress_new target identity) = Some outcome /\
    match outcome with
    | Reconciliation_Succeeded _ | Reconciliation_Absent _ _ => True
    | Reconciliation_Progress _ | Reconciliation_NoProgress _ => False
    end.
Proof.
  assert (Hend : forall n i progress, phase_live tip i (rsp_phase progress) ->
    phase_weight tip (rsp_phase progress) <= Z.of_nat n ->
    exists steps outcome, scan_run oracle ledger steps i progress = Some outcome /\
      resumption outcome = None).
  { induction n as [n IH] using lt_wf_ind. intros i progress Hlive Hn.
    pose proof (ensures_timed _ _ _ _ _ Hanswers
      (reconcile_step_moves ledger tip Htip progress i Hlive)) as (o & Ho & Hm).
    destruct (timed oracle i (reconcile_step ledger progress)) as [j r] eqn:Ht. simpl in *. subst r.
    destruct (resumption o) as [p|] eqn:Hr.
    - destruct o as [p'| | |]; simplify_eq/=; [|done]. destruct Hm as [Hl Hw].
      pose proof (phase_weight_pos tip _ _ Hl ltac:(lia)).
      destruct (IH (n - 1)%nat ltac:(lia) j p Hl ltac:(lia)) as (steps & o & Hrun & Ho).
      exists (S steps), o. simpl. by rewrite Ht.
    - exists 1%nat, o. simpl. rewrite Ht. simpl. by rewrite Hr. }
  destruct (Hend (Z.to_nat (phase_weight tip (Scan_Ledger 0 None None))) 0%nat
    (ReconciliationScanProgress_new target identity)) as (steps & o & Hrun & Ho); [done|simpl; lia|].
  exists steps, o. split; [done|]. by destruct o.
Qed.

(** ** A run

    A log of three blocks that are all in archives of one block, and an index with one
    page. *)

Definition ex_archived (block : Z) : ArchivedRange :=
  {| ar_start := block; ar_length := 1; ar_canister_id := [77];
     ar_method := "get_transactions"%string |}.

Fixpoint ex_archives (start : Z) (n : nat) : list ArchivedRange :=
  match n with
  | O => []
  | S n => ex_archived start :: ex_archives (start + 1) n
  end.

Definition ex_answering (i : nat) (q : LedgerQuery) : LedgerReply q :=
  match q return LedgerReply q with
  | Query_transfer_from _ => None
  | Query_transfer _ => None
  | Query_get_transactions start length =>
      Some {| gtr_log_length := 3; gtr_first_index := 0; gtr_transactions := [];
              gtr_archived := ex_archives start
                (Z.to_nat (Z.max start (Z.min 3 (start + length)) - start)) |}
  | Query_archive _ _ _ length => Some (replicate (Z.to_nat length) {| ltx_transfer := None |})
  | Query_ledger_id => Some [55]
  | Query_status => Some 3
  | Query_account_transactions _ (Some _) _ =>
      Some (Ok {| ixt_transactions := []; ixt_oldest_tx_id := None |})
  | Query_account_transactions _ None _ =>
      Some (Ok {| ixt_transactions := [{| twi_id := 1; twi_transaction := {| ltx_transfer := None |} |}];
                  ixt_oldest_tx_id := None |})
  end.

Lemma ex_archives_chain start n :
  chain start (start + Z.of_nat n)
    ((fun a => (ar_start a, ar_start a + ar_length a)) <$> ex_archives start n).
Proof.
  revert start. induction n as [|n IH]; intros start; simpl; [lia|]. split_and!; [done|lia|].
  replace (start + Z.of_nat (S n)) with (start + 1 + Z.of_nat n) by lia. apply IH.
Qed.

Lemma ex_archives_valid start n :
  0 <= start ->
  Forall (fun a => is_principal (ar_canister_id a) = true /\ 0 <= ar_start a /\
                   Z.of_nat (String.length (ar_method a)) <= 128) (ex_archives start n).
Proof.
  revert start. induction n as [|n IH]; intros start Hs; simpl; constructor; [|apply IH; lia].
  split_and!; [done|done|]. simpl. lia.
Qed.

Lemma ex_answering_answers i q : answers [55] 3 i q (ex_answering i q).
Proof.
  destruct q as [| |start length| | | |account [s|] max]; simpl; try done.
  - intros Hs Hl. eexists _, _. split; [done|]. simpl. split_and!; try (done || lia).
    + by apply ex_archives_valid.
    + pose proof (ex_archives_chain start
        (Z.to_nat (Z.max start (Z.min 3 (start + length)) - start))) as Hc.
      by replace (start + Z.of_nat _) with (Z.max start (Z.min 3 (start + length))) in Hc by lia.
  - intros Hl. eexists. split; [done|]. rewrite length_replicate. lia.
  - exists 3. split; [done|lia].
  - eexists. split_and!; [done|done|]. done.
  - eexists. split_and!; [done|repeat constructor; simpl; lia|]. done.
Qed.

Lemma scan_ends_witness :
  exists steps outcome,
    scan_run ex_answering [55] steps 0 (ReconciliationScanProgress_new (Target_Hold 1) ex_pull)
      = Some outcome /\
    match outcome with
    | Reconciliation_Succeeded _ | Reconciliation_Absent _ _ => True
    | Reconciliation_Progress _ | Reconciliation_NoProgress _ => False
    end.
Proof.
  apply (scan_ends ex_answering [55] 3 (Target_Hold 1) ex_pull);
    [split; discriminate|exact ex_answering_answers].
Defined.
