(* ===== verification/Admin.v ===== *)
(** * Administration

    [canister/bridge-canister/src/admin.rs]: pausing deposits, rotating the pause
    principal and the fee recipient, requesting a fee payout and the fee status,
    over the transactions of [storage/mod.rs] they use; and the resumption of
    deposits at the end of a confirmed activation.  A handler that fails or traps
    stores nothing: each of them writes in its last step. *)

From stdpp Require Import sorting.
From S2P Require Import Prelude KernelArith KernelPolicy Types Accounting External Authorization.
From S2P Require Import Withdrawal Deposit Reconciliation Tables StorageTypes Config Admission Jobs.
From S2P Require Import Notifications EventLog Store Bundles Intake Funding.

Inductive AdminError :=
| AdminError_Busy
| AdminError_Unauthorized
| AdminError_InvalidArgument (text : string)
| AdminError_StorageFailure
| AdminError_InsufficientFeeReserve.

Definition ACTION_PAUSE : Z := 0.
Definition ACTION_RESUME : Z := 1.
Definition ACTION_PAYOUT : Z := 2.
Definition ACTION_ROTATE : Z := 3.

Definition authorized (state : AdminState) (caller : bytes) (action : Z) : bool :=
  administrator_authorized action (bool_decide (ads_pause_principal state = caller))
    (bool_decide (ads_governance_principal state = caller)).

Definition is_governance (s : Store) (caller : bytes) : Result AdminError bool :=
  if bool_decide (caller = Principal_anonymous) then Ok false
  else
    let? state := ok_or (in_admin (st_intake s)) AdminError_StorageFailure in
    Ok (bool_decide (ads_governance_principal state = caller)).

Definition storage_failed {A} (r : Result StorageError A) : Result AdminError A :=
  map_err (fun _ => AdminError_StorageFailure) r.

Definition with_paused (a : AdminState) (paused : bool) : AdminState :=
  {| ads_deposits_paused := paused; ads_withdrawal_fee_guard := ads_withdrawal_fee_guard a;
     ads_pause_principal := ads_pause_principal a;
     ads_governance_principal := ads_governance_principal a;
     ads_fee_recipient := ads_fee_recipient a |}.

Definition with_pause_principal (a : AdminState) (principal : bytes) : AdminState :=
  {| ads_deposits_paused := ads_deposits_paused a;
     ads_withdrawal_fee_guard := ads_withdrawal_fee_guard a;
     ads_pause_principal := principal; ads_governance_principal := ads_governance_principal a;
     ads_fee_recipient := ads_fee_recipient a |}.

Definition with_fee_recipient (a : AdminState) (recipient : FeeRecipientConfig) : AdminState :=
  {| ads_deposits_paused := ads_deposits_paused a;
     ads_withdrawal_fee_guard := ads_withdrawal_fee_guard a;
     ads_pause_principal := ads_pause_principal a;
     ads_governance_principal := ads_governance_principal a; ads_fee_recipient := recipient |}.

Section admin.
Context (encode : StoredValue -> Result StorageError unit).
Context (encode_event : AuditEvent AuditEventKind -> Result StorageError bytes).
Context (retention_encodes : AuditRetentionState -> bool).
Context (sha256 : bytes -> bytes) (test_deployment : bool).

(** The audit log of a store. *)
Definition store_log (s : Store) : AuditLog :=
  {| al_events := st_audit_events s; al_retention := st_audit_retention s;
     al_next_sequence := cs_next_audit_sequence (st_counters s) |}.

Definition with_log (s : Store) (log : AuditLog) : Store :=
  with_counters (with_audit s (al_events log) (al_retention log))
    (with_next_audit (st_counters s) (al_next_sequence log)).

Definition append_audit_event (s : Store) (caller : bytes) (kind : AuditEventKind) (now : Z)
    : Result StorageError Store :=
  let? (_, log) :=
    append_audit_event_at encode_event retention_encodes sha256 (store_log s) caller kind now in
  let? _ := encode (SV_Counters (with_next_audit (st_counters s) (al_next_sequence log))) in
  Ok (with_log s log).

Definition set_admin_state (s : Store) (state : AdminState) : Result StorageError Store :=
  let? _ := encode (SV_Admin state) in
  Ok (with_intake s (with_admin (st_intake s) (Some state))).

Definition mutate (s : Store) (caller : bytes) (now : Z)
    (action : AdminState -> Result AdminError (AuditEventKind * AdminState))
    : Result AdminError Store :=
  let? state := ok_or (in_admin (st_intake s)) AdminError_StorageFailure in
  let? (event, state) := action state in
  let? s := storage_failed (set_admin_state s state) in
  storage_failed (append_audit_event s caller event now).

Definition pause_with_audit (s : Store) (caller : bytes) (now : Z) : Result AdminError Store :=
  mutate s caller now (fun state =>
    if negb (authorized state caller ACTION_PAUSE) then Err AdminError_Unauthorized
    else if ads_deposits_paused state then Ok (Audit_DepositsPauseRepeated, state)
    else Ok (Audit_DepositsPaused, with_paused state true)).

Definition rotate_pause_principal
    (s : Store) (config : option BridgeInitArgs) (caller : bytes) (now : Z)
    (pause_principal : bytes) : Result AdminError Store :=
  if bool_decide (pause_principal = Principal_anonymous)
  then Err (AdminError_InvalidArgument "invalid pause principal")
  else
    let? config := ok_or config AdminError_StorageFailure in
    mutate s caller now (fun state =>
      if negb (authorized state caller ACTION_ROTATE) then Err AdminError_Unauthorized
      else if bool_decide (pause_principal = ads_governance_principal state)
              || bool_decide (pause_principal = frc_owner (ads_fee_recipient state))
              || bool_decide (pause_principal = bia_confirmation_relayer_principal config)
      then Err (AdminError_InvalidArgument
        "pause principal must not overlap governance, fee recipient, or confirmation relayer")
      else Ok (Audit_PausePrincipalRotated, with_pause_principal state pause_principal)).

Definition fee_recipient_digest (value : FeeRecipientConfig) : bytes :=
  sha256 (str "KINIC-FEE-RECIPIENT" ++ frc_owner value
          ++ to_be_bytes 8 (len (frc_subaccount value)) ++ frc_subaccount value).

Definition rotate_fee_recipient_with_audit
    (s : Store) (next_recipient : FeeRecipientConfig) (caller : bytes) (timestamp_ns : Z)
    (previous_sha256 current_sha256 : bytes) : Result StorageError Store :=
  let? admin := ok_or (in_admin (st_intake s)) RecordNotFound in
  let admin := with_fee_recipient admin next_recipient in
  let? _ := encode (SV_Admin admin) in
  let? (audit, counters) :=
    prepare_bundle_audit encode_event retention_encodes sha256 s (st_counters s)
      (Some (caller, timestamp_ns,
             [Audit_FeeRecipientRotated previous_sha256 current_sha256])) in
  let? _ := encode (SV_Counters counters) in
  let? s := db (commit_bundle_audit s audit) in
  Ok (with_counters (with_intake s (with_admin (st_intake s) (Some admin))) counters).

Definition rotate_fee_recipient
    (s : Store) (config : option BridgeInitArgs) (caller : bytes) (now : Z)
    (next : FeeRecipientConfig) : Result AdminError Store :=
  if bool_decide (frc_owner next = Principal_anonymous)
     || negb ((len (frc_subaccount next) =? 0) || (len (frc_subaccount next) =? 32))
  then Err (AdminError_InvalidArgument "invalid fee recipient")
  else
    let? state := ok_or (in_admin (st_intake s)) AdminError_StorageFailure in
    let pending := cs_pending_fee_payout_debit (st_counters s) in
    let? config := ok_or config AdminError_StorageFailure in
    match fee_recipient_rotation_decision (authorized state caller ACTION_ROTATE)
            (bool_decide (frc_owner next = Principal_anonymous))
            (bool_decide (frc_owner next = ads_governance_principal state)
             || bool_decide (frc_owner next = ads_pause_principal state)
             || bool_decide (frc_owner next = bia_confirmation_relayer_principal config))
            (len (frc_subaccount next)) pending with
    | FeeRotation_Unauthorized => Err AdminError_Unauthorized
    | FeeRotation_InvalidInput =>
        Err (AdminError_InvalidArgument
          "fee recipient must not overlap governance, pause principal, or confirmation relayer")
    | FeeRotation_Busy => Err AdminError_Busy
    | FeeRotation_Allow =>
        if bool_decide (next = ads_fee_recipient state) then Ok s
        else
          storage_failed
            (rotate_fee_recipient_with_audit s next caller now
               (fee_recipient_digest (ads_fee_recipient state)) (fee_recipient_digest next))
    end.

(** ** Fee payouts *)

Definition payout_memo (id : Z) : bytes := sha256 (str "KINIC-FEE-PAYOUT" ++ to_be_bytes 8 id).

(** The record of a payout of [payout_amount] to the current fee recipient. *)
Definition payout_record (env : Environment) (admin : AdminState) (id payout_amount : Z)
    : Result AdminError FeePayoutRecord :=
  let recipient := ads_fee_recipient admin in
  let? subaccount :=
    if bool_decide (frc_subaccount recipient = []) then Ok (zeros 32)
    else if len (frc_subaccount recipient) =? 32 then Ok (frc_subaccount recipient)
    else Err (AdminError_InvalidArgument "invalid subaccount") in
  let? from := map_err (fun _ => AdminError_StorageFailure) (Account_new (env_self env) (zeros 32)) in
  let? to :=
    map_err (fun _ => AdminError_InvalidArgument "invalid recipient")
      (Account_new (frc_owner recipient) subaccount) in
  Ok {| fpr_id := id; fpr_amount := payout_amount; fpr_recipient := recipient;
        fpr_transfer :=
          {| lti_operation := FeePayout; lti_created_at_time_ns := env_now env;
             lti_memo := payout_memo id; lti_amount := payout_amount;
             lti_fee := KINIC_LEDGER_FEE test_deployment; lti_from := from; lti_to := to;
             lti_spender := None |};
        fpr_state := Payout_Pending |}.

Definition request_fee_payout (s : Store) (env : Environment) (caller : bytes) (amount : Z)
    : Result AdminError (FeePayoutRecord * Store) :=
  let? admin := ok_or (in_admin (st_intake s)) AdminError_StorageFailure in
  if negb (authorized admin caller ACTION_PAYOUT) then Err AdminError_Unauthorized
  else
    let? amount :=
      ok_or (bounded_nat_u128 amount) (AdminError_InvalidArgument "amount exceeds u128") in
    if amount =? 0 then Err (AdminError_InvalidArgument "amount must be nonzero")
    else
      let fee := KINIC_LEDGER_FEE test_deployment in
      let? payout :=
        ok_or (payout_decision (as_fee_reserve (st_accounting s))
                 (cs_pending_fee_payout_debit (st_counters s)) amount fee true)
          AdminError_InsufficientFeeReserve in
      let? payout_amount := ok_or (checked_sub (pd_debit payout) fee)
                              AdminError_InsufficientFeeReserve in
      let? record := payout_record env admin (cs_next_fee_payout_id (st_counters s)) payout_amount in
      let? s :=
        storage_failed
          (commit_fee_payout_request encode encode_event retention_encodes sha256 s record caller
             (env_now env)) in
      Ok (record, s).

Record FeeStatus := {
  fs_fee_reserve : Z;
  fs_pending_payout_debit : Z;
  fs_ledger_fee : Z;
  fs_max_payout_amount : Z;
  fs_fee_recipient : FeeRecipientConfig;
  fs_next_fee_payout_id : Z;
}.

Definition fee_status (s : Store) : Result AdminError FeeStatus :=
  let reserve := as_fee_reserve (st_accounting s) in
  let pending := cs_pending_fee_payout_debit (st_counters s) in
  if pending >? reserve then Err AdminError_StorageFailure
  else
    let fee := KINIC_LEDGER_FEE test_deployment in
    let? admin := ok_or (in_admin (st_intake s)) AdminError_StorageFailure in
    Ok {| fs_fee_reserve := reserve; fs_pending_payout_debit := pending; fs_ledger_fee := fee;
          fs_max_payout_amount := fee_payout_capacity reserve pending fee;
          fs_fee_recipient := ads_fee_recipient admin;
          fs_next_fee_payout_id := cs_next_fee_payout_id (st_counters s) |}.

(** ** Resuming deposits *)

(** The part of [complete_confirmed_activation_and_resume_if_clear] that concerns
    the administrator state; [resume] says that the completed activation leaves no
    emergency action outstanding.  The governance transaction itself, in the same
    commit, is not modelled. *)
Definition complete_activation (s : Store) (caller : bytes) (timestamp_ns : Z) (resume : bool)
    : Result StorageError Store :=
  let? admin := ok_or (in_admin (st_intake s)) RecordNotFound in
  if negb (ads_deposits_paused admin) || negb (authorized admin caller ACTION_RESUME)
  then Err DecodeFailed
  else
    let admin := with_paused admin (negb resume) in
    let? (audit, counters) :=
      prepare_bundle_audit encode_event retention_encodes sha256 s (st_counters s)
        (if resume then Some (caller, timestamp_ns, [Audit_DepositsResumed]) else None) in
    let? _ := encode (SV_Admin admin) in
    let? _ := encode (SV_Counters counters) in
    let? s := db (commit_bundle_audit s audit) in
    Ok (with_counters (with_intake s (with_admin (st_intake s) (Some admin))) counters).
End admin.
