(* ===== verification/DepositRows.v ===== *)
(** * Stored deposits

    The invariant of the deposit tables of [Store.v]: every row is a well-formed
    record under its own identifier, and the three indexes are exactly what the
    rows say.  The write of [put_deposit_with_audit] preserves it, and the
    effects the storage layer expects of a transition are the ones the core
    reports. *)

From S2P Require Import Prelude KernelArith KernelPolicy KernelDeposit Types Accounting.
From S2P Require Import Authorization External Withdrawal Deposit DepositProtocol DepositInvariant Examples.
From S2P Require Import Tables StorageTypes Jobs Store.

(** ** Keys *)

Definition owner_key (sd : StoredDeposit) : bytes :=
  deposit_owner_index_bytes
    (deposit_owner_index_prefix (a_owner (lti_from (dr_transfer (sd_record sd)))))
    (u64_max -u64 sd_owner_sequence sd).

Definition deadline_entry (d : DepositRecord) : option bytes :=
  (fun deadline => to_be_bytes 8 deadline ++ dr_id d) <$> deposit_authorization_deadline d.

Record stored_wf (id : bytes) (sd : StoredDeposit) : Prop := {
  sdw_id : dr_id (sd_record sd) = id;
  sdw_id_length : length id = 32%nat;
  sdw_owner : (length (a_owner (lti_from (dr_transfer (sd_record sd)))) <= 29)%nat;
  sdw_record : DepositRecord_wf (sd_record sd);
}.

Lemma StableBlob_new_short b : (length b <= 100)%nat -> StableBlob_new b = Ok b.
Proof.
  intros Hb. unfold StableBlob_new, MAX_STABLE_VALUE_BYTES.
  destruct (Z.gtb_spec (Z.of_nat (length b)) (16 * 1024)); [lia|done].
Qed.

Lemma deadline_key_eq id sd :
  stored_wf id sd -> deadline_key (sd_record sd) = Ok (deadline_entry (sd_record sd)).
Proof.
  intros [Hid Hlen _ _]. unfold deadline_key, deadline_entry.
  destruct (deposit_authorization_deadline _); [|done].
  unfold deposit_authorization_deadline_index_key.
  rewrite StableBlob_new_short; [done|]. rewrite length_app, to_be_bytes_length, Hid. lia.
Qed.

Lemma owner_key_eq id sd :
  stored_wf id sd ->
  deposit_owner_index_key (a_owner (lti_from (dr_transfer (sd_record sd)))) (sd_owner_sequence sd)
    = Ok (owner_key sd).
Proof.
  intros [_ _ Hlen _]. apply StableBlob_new_short.
  unfold owner_key, deposit_owner_index_bytes, deposit_owner_index_prefix.
  rewrite length_app, to_be_bytes_length. simpl. lia.
Qed.

Lemma deadline_entry_id d d' k :
  deadline_entry d = Some k -> deadline_entry d' = Some k -> dr_id d = dr_id d'.
Proof.
  unfold deadline_entry. intros (t & _ & ->)%fmap_Some (t' & _ & Hk)%fmap_Some.
  by apply app_inj_1 in Hk as [_ ?]; [|rewrite !to_be_bytes_length].
Qed.

(** ** The invariant *)

Record deposits_wf (t : DepositTables) : Prop := {
  dw_deposits_table : table_wf (dt_deposits t);
  dw_pull_table : table_wf (dt_pull_pending t);
  dw_deadlines_table : table_wf (dt_deadlines t);
  dw_nonterminal_table : table_wf (dt_nonterminal t);
  dw_row : forall id sd, t_rows (dt_deposits t) !! id = Some sd -> stored_wf id sd;
  dw_owner_keys : forall id sd id' sd',
    t_rows (dt_deposits t) !! id = Some sd -> t_rows (dt_deposits t) !! id' = Some sd' ->
    owner_key sd = owner_key sd' -> id = id';
  dw_pull : members (fun sd => is_pending_deposit_ledger (sd_record sd))
    (t_rows (dt_deposits t)) (t_rows (dt_pull_pending t));
  dw_deadlines : indexed (fun sd => deadline_entry (sd_record sd))
    (t_rows (dt_deposits t)) (t_rows (dt_deadlines t));
  dw_nonterminal : forall id sd, t_rows (dt_deposits t) !! id = Some sd ->
    t_rows (dt_nonterminal t) !! owner_key sd =
      if is_terminal_deposit (sd_record sd) then None else Some id;
}.

(** The row of a deposit may be replaced by one for the same request. *)
Record replaces (prev next : StoredDeposit) : Prop := {
  rep_request : same_request (sd_record prev) (sd_record next);
  rep_sequence : sd_owner_sequence next = sd_owner_sequence prev;
  rep_wf : DepositRecord_wf (sd_record next);
}.

Lemma replaces_stored id prev next : stored_wf id prev -> replaces prev next -> stored_wf id next.
Proof.
  intros [Hid Hlen Ho _] [(Hi & _ & _ & _ & Ht) _ Hwf]. split; [by rewrite Hi|done|by rewrite Ht|done].
Qed.

Lemma replaces_owner_key prev next : replaces prev next -> owner_key next = owner_key prev.
Proof. intros [(_ & _ & _ & _ & Ht) Hs _]. unfold owner_key. by rewrite Ht, Hs. Qed.

(** The tables after the row and its index entries are replaced. *)
Record deposits_updated (t : DepositTables) (id : bytes) (prev next : StoredDeposit)
    (t' : DepositTables) : Prop := {
  du_deposits_table : table_wf (dt_deposits t');
  du_pull_table : table_wf (dt_pull_pending t');
  du_deadlines_table : table_wf (dt_deadlines t');
  du_nonterminal_table : table_wf (dt_nonterminal t');
  du_deposits : t_rows (dt_deposits t') = <[id := next]> (t_rows (dt_deposits t));
  du_pull : t_rows (dt_pull_pending t') =
    (if is_pending_deposit_ledger (sd_record next) then <[id := tt]> else delete id)
      (t_rows (dt_pull_pending t));
  du_deadlines : t_rows (dt_deadlines t') =
    reindex (deadline_entry (sd_record prev)) (deadline_entry (sd_record next)) id
      (t_rows (dt_deadlines t));
  du_nonterminal : t_rows (dt_nonterminal t') =
    (if is_terminal_deposit (sd_record next) then delete (owner_key next)
     else <[owner_key next := id]>) (t_rows (dt_nonterminal t));
}.

Section update.
Context (t t' : DepositTables) (id : bytes) (prev next : StoredDeposit).
Hypothesis (Hwf : deposits_wf t) (Hrow : t_rows (dt_deposits t) !! id = Some prev).
Hypothesis (Hrep : replaces prev next) (Hup : deposits_updated t id prev next t').

Lemma updated_row id' sd :
  t_rows (dt_deposits t') !! id' = Some sd <->
  (id' = id /\ sd = next) \/ (id' <> id /\ t_rows (dt_deposits t) !! id' = Some sd).
Proof. rewrite (du_deposits _ _ _ _ _ Hup), lookup_insert_Some. naive_solver. Qed.

Lemma updated_deadlines :
  indexed (fun sd => deadline_entry (sd_record sd))
    (t_rows (dt_deposits t')) (t_rows (dt_deadlines t')).
Proof.
  rewrite (du_deposits _ _ _ _ _ Hup), (du_deadlines _ _ _ _ _ Hup).
  pose proof (indexed_update _ _ _ id next (dw_deadlines _ Hwf)) as H. rewrite Hrow in H. apply H.
  intros k id' sd Hne Hsd Hk Hk'. apply Hne.
  pose proof (replaces_stored _ _ _ (dw_row _ Hwf _ _ Hrow) Hrep) as Hnext.
  rewrite <- (sdw_id _ _ Hnext), <- (sdw_id _ _ (dw_row _ Hwf _ _ Hsd)).
  by apply (deadline_entry_id _ _ k).
Qed.

Lemma updated_nonterminal id' sd :
  t_rows (dt_deposits t') !! id' = Some sd ->
  t_rows (dt_nonterminal t') !! owner_key sd =
    if is_terminal_deposit (sd_record sd) then None else Some id'.
Proof.
  rewrite (du_nonterminal _ _ _ _ _ Hup), updated_row. intros [[-> ->]|[Hne Hsd]].
  - destruct (is_terminal_deposit (sd_record next)); [apply lookup_delete_eq|apply lookup_insert_eq].
  - assert (owner_key next <> owner_key sd).
    { rewrite (replaces_owner_key _ _ Hrep). intros Heq. apply Hne.
      by apply (dw_owner_keys _ Hwf _ sd _ prev). }
    destruct (is_terminal_deposit (sd_record next));
      [rewrite lookup_delete_ne by done|rewrite lookup_insert_ne by done];
      by apply (dw_nonterminal _ Hwf).
Qed.

Lemma deposits_update : deposits_wf t'.
Proof.
  pose proof (replaces_stored _ _ _ (dw_row _ Hwf _ _ Hrow) Hrep).
  pose proof (replaces_owner_key _ _ Hrep) as Hkey.
  split; [apply Hup..| | | |apply updated_deadlines|apply updated_nonterminal].
  - intros id' sd. rewrite updated_row. intros [[-> ->]|[_ ?]]; [done|by apply (dw_row _ Hwf)].
  - intros id1 sd1 id2 sd2. rewrite !updated_row.
    intros [[-> ->]|[? H1]] [[-> ->]|[? H2]] Heq; rewrite ?Hkey in Heq; [done|..];
      by eapply (dw_owner_keys _ Hwf).
  - rewrite (du_deposits _ _ _ _ _ Hup), (du_pull _ _ _ _ _ Hup).
    apply (members_update _ _ _ id next (dw_pull _ Hwf)).
Qed.
End update.

(** ** Writing the rows *)

Section write_rows.
Context (t t' : DepositTables) (id : bytes) (prev next : StoredDeposit).
Hypothesis (Hwf : deposits_wf t) (Hrow : t_rows (dt_deposits t) !! id = Some prev).
Hypothesis (Hrep : replaces prev next).

Lemma write_deposit_rows_updated :
  write_deposit_rows t (Some (sd_record prev)) next (deadline_entry (sd_record prev))
    (deadline_entry (sd_record next)) (owner_key next) = Ok t' ->
  deposits_updated t id prev next t'.
Proof.
  pose proof (replaces_stored _ _ _ (dw_row _ Hwf _ _ Hrow) Hrep) as [Hid _ _ _].
  unfold write_deposit_rows. cbn [is_some_and]. rewrite Hid. intros H.
  bind H as p1 E1.
  apply remove_if_rows in E1 as [Hp1 Rp1]; [|apply Hwf|].
  2: { by apply (members_absent _ _ _ _ _ (dw_pull _ Hwf) Hrow). }
  bind H as d1 E2.
  assert (table_wf d1 /\ t_rows d1 = map_or (fun m => m) delete (deadline_entry (sd_record prev))
            (t_rows (dt_deadlines t))) as [Hd1 Rd1].
  { destruct (deadline_entry (sd_record prev)); simplify_eq/=; [|split; [apply Hwf|done]].
    by apply (remove_if_rows true) in E2; [|apply Hwf|]. }
  bind H as p2 E3.
  bind H as d2 E4.
  bind H as n1 E5.
  bind H as r1 E6.
  apply Ok_inj in H as <-.
  apply upsert_rows in E6 as [Hr1 Rr1]; [|apply Hwf].
  assert (table_wf p2 /\ t_rows p2 = (if is_pending_deposit_ledger (sd_record next)
            then <[id := tt]> else delete id) (t_rows (dt_pull_pending t))) as [Hp2 Rp2].
  { destruct (is_pending_deposit_ledger (sd_record next)); simplify_eq; [|done].
    apply upsert_rows in E3 as [? ->]; [|done]. by rewrite Rp1, insert_delete_eq. }
  assert (table_wf d2 /\ t_rows d2 = map_or (fun m => m) (fun k => <[k := id]>)
            (deadline_entry (sd_record next)) (t_rows d1)) as [Hd2 Rd2].
  { destruct (deadline_entry (sd_record next)); simplify_eq/=; [|done].
    by apply upsert_rows in E4. }
  assert (table_wf n1 /\ t_rows n1 = (if is_terminal_deposit (sd_record next)
            then delete (owner_key next) else <[owner_key next := id]>)
            (t_rows (dt_nonterminal t))) as [Hn1 Rn1].
  { destruct (is_terminal_deposit (sd_record next)).
    - by apply (remove_if_rows true) in E5; [|apply Hwf|].
    - by apply upsert_rows in E5; [|apply Hwf]. }
  split; simpl; try done. by rewrite Rd2, Rd1.
Qed.
End write_rows.

(** ** The effects of a transition *)

(** What the storage layer expects of a transition between two records. *)
Definition storage_effects (r r' : DepositRecord) (fee : Z) : DepositAccountingEffects :=
  let minted := is_minted r' && negb (is_minted r) in
  let refunded := is_refunded r' && negb (is_refunded r) in
  let paid := dr_gross_amount r' - charged_fee r' in
  {| dae_reservation_after := reserved r';
     dae_reservation_add := if reserved r =? 0 then reserved r' else 0;
     dae_reservation_release := if reserved r' =? 0 then reserved r else 0;
     dae_fee_credit := fee;
     dae_pending_liability_debit := if minted || refunded then paid else fee;
     dae_escrow_debit := if refunded then paid else 0;
     dae_mint_supply_increase := if minted then map_or 0 q_net_amount (dr_quote r') else 0 |}.

Lemma checked_transition_fee_Ok r r' derived res fee :
  DepositRecord_wf r -> DepositRecord_wf r' ->
  checked_transition_fee (Some r) r' derived res = Ok fee <->
  ar_outcome res = Applied /\ ar_deposit_effects res = Some (storage_effects r r' derived) /\
  fee = derived.
Proof.
  intros Hwf Hwf'. unfold checked_transition_fee, storage_effects.
  rewrite !reserved_mint_amount_wf by done. cbn [core map_err is_some_and].
  fold (DepositRecord_signed_authorization r'). fold (charged_fee r').
  rewrite (proj2 (Amount_checked_sub_Ok (dr_gross_amount r') (charged_fee r') _))
    by (split; [pose proof (charged_fee_range r' Hwf'); lia|done]).
  destruct (ar_deposit_effects res) as [e|]; [|split; [done|by intros (? & ? & ?)]]. cbn [ok_or].
  set (minted := is_minted r' && _). set (refunded := is_refunded r' && _).
  destruct e as [after add release credit debit escrow supply]. simpl.
  clearbody minted refunded.
  assert (forall b x, negb (b =? x) = false <-> b = x) as Heq
    by (intros; rewrite negb_false_iff; apply Z.eqb_eq).
  assert (bool_decide (ar_outcome res <> Applied) = false <-> ar_outcome res = Applied) as Hout
    by (rewrite bool_decide_eq_false; split; [apply dec_stable|by intros ? []]).
  destruct minted, refunded; simpl;
    (destruct (_ || _) eqn:E;
      [|rewrite !orb_false_iff, !Heq, Hout in E; destruct_and!; subst;
        split; [by intros [= ->]|by intros (_ & _ & ->)]]);
    (split; [done|]; intros (Ho & [= -> -> -> -> -> -> ->] & ->)); exfalso;
    rewrite ?(proj2 (Heq _ _)), (proj2 Hout) in E by done; done.
Qed.

(** Evaluate the storage check on a record whose state is known. *)
Ltac eval_storage r :=
  destruct r; cbn [dr_state dr_quote dr_mint_authorization dr_mint_finalization_evidence
    dr_mint_expiry_evidence dr_gross_amount] in *; simplify_eq;
  unfold derived_fee_delta, storage_effects, is_minted, is_refunded, reserved, charged_fee,
    DepositRecord_signed_authorization; simpl; rewrite ?map_or_const, ?Z.sub_0_r; simpl;
  split; [done|]; do 2 f_equal; repeat (case_match; reflect); lia.

Lemma storage_step_effects r e res r' :
  DepositRecord_wf r -> DepositStep r e res r' -> ar_outcome res = Applied ->
  derived_fee_delta (Some r) r' = Ok (ar_fee_delta res) /\
  ar_deposit_effects res = Some (storage_effects r r' (ar_fee_delta res)).
Proof.
  intros Hwf Hstep Happ. pose proof (dwf_state r Hwf) as Hst.
  unfold DepositRecord_state_wf, refundable, unquoted, no_evidence, committed in Hst.
  deposit_steps Hstep; [done|try rewrite Hs in Hst..].
  1-4: destruct Hst as [[? ?] _]; eval_storage r.
  - destruct Hst as (q' & a' & (? & ? & (? & _) & _) & _). eval_storage r.
  - destruct Ho as [? ? Hs ?|? ? Hs ?|? ? ? [Hs|Hs] ? ?]; rewrite Hs in Hst;
      [destruct Hst as [[? ?] _]|destruct Hst as (? & ? & (? & ? & (? & _) & _) & ? & _)..];
      eval_storage r.
  - assert (0 < q_net_amount q /\ q_net_amount q + q_service_fee q = dr_gross_amount r) as [Hn Hnet].
    { destruct (wf_unquoted_or_committed r Hwf) as [[? ?]|(q' & a' & ? & _ & (? & _ & ?) & _)];
        [congruence|]. by simplify_eq. }
    clear Hst. destruct Hs as [Hs|[? Hs]]; eval_storage r.
  - eval_storage r.
  - eval_storage r.
  - eval_storage r.
Qed.
