(* ===== verification/WithdrawalRows.v ===== *)
(** * Stored withdrawals

    The invariant of the withdrawal tables of [Store.v]: every row is a
    well-formed record under its own identifier, the indexes are exactly what the
    rows say, and the running liability and the counts of stop reasons are the
    totals over the open rows.  [replace_withdrawal_row] preserves it. *)

From S2P Require Import Prelude KernelArith KernelWithdrawal Types Withdrawal WithdrawalSafety.
From S2P Require Import Tables StorageTypes Store.

(** ** Totals of one record *)

(** The amount a record adds to the running liability. *)
Definition record_liability (w : WithdrawalRecord) : Z :=
  if is_nonterminal_withdrawal w then wr_amount_out w else 0.

(** What a record adds to the count of a stop reason. *)
Definition reason_weight (reason : string) (w : WithdrawalRecord) : Z :=
  Z.b2z (is_nonterminal_withdrawal w
         && bool_decide (wr_last_settlement_stop_reason w = Some reason)).

Definition liability_entry (w : WithdrawalRecord) : option bytes :=
  if is_nonterminal_withdrawal w then Some (withdrawal_liability_key w) else None.

Record stored_withdrawal_wf (id : bytes) (w : WithdrawalRecord) : Prop := {
  sww_id : wr_id w = id;
  sww_requester : length (wr_base_requester w) = 20%nat;
  sww_record : WithdrawalRecord_wf w;
}.

Lemma liability_entry_id w w' k :
  liability_entry w = Some k -> liability_entry w' = Some k -> wr_id w = wr_id w'.
Proof.
  unfold liability_entry, withdrawal_liability_key.
  destruct (is_nonterminal_withdrawal w), (is_nonterminal_withdrawal w'); try done.
  intros <- Hk%(inj Some). by apply app_inj_1 in Hk as [_ ?]; [|rewrite !to_be_bytes_length].
Qed.

Lemma history_key_id id w id' w' :
  stored_withdrawal_wf id w -> stored_withdrawal_wf id' w' ->
  withdrawal_history_key w = withdrawal_history_key w' -> id = id'.
Proof.
  intros [<- Hr _] [<- Hr' _]. unfold withdrawal_history_key. intros H.
  apply app_inj_1 in H as [_ H]; [|congruence].
  by apply app_inj_1 in H as [_ H]; [|by rewrite !to_be_bytes_length].
Qed.

(** ** The invariant *)

Abbreviation withdrawal_rows t := (t_rows (wt_withdrawals t)).

(** A reason is listed only while some record has it. *)
Definition reasons_positive (t : Table string Z) : Prop :=
  forall reason n, t_rows t !! reason = Some n -> 0 < n.

(** Everything but the index of pending releases. *)
Record withdrawal_rows_wf (t : WithdrawalTables) : Prop := {
  ww_withdrawals_table : table_wf (wt_withdrawals t);
  ww_liability_table : table_wf (wt_liability t);
  ww_requester_table : table_wf (wt_requester t);
  ww_reasons_table : table_wf (wt_stop_reasons t);
  ww_row : forall id w, withdrawal_rows t !! id = Some w -> stored_withdrawal_wf id w;
  ww_liability : indexed liability_entry (withdrawal_rows t) (t_rows (wt_liability t));
  ww_requester : indexed (fun w => Some (withdrawal_history_key w)) (withdrawal_rows t)
    (t_rows (wt_requester t));
  ww_amount : wt_liability_amount t = map_sum record_liability (withdrawal_rows t);
  ww_reasons : forall reason,
    default 0 (t_rows (wt_stop_reasons t) !! reason)
      = map_sum (reason_weight reason) (withdrawal_rows t);
  ww_reasons_positive : reasons_positive (wt_stop_reasons t);
}.

Definition release_index_wf (t : WithdrawalTables) : Prop :=
  table_wf (wt_release_pending t) /\
  members is_pending_withdrawal_ledger (withdrawal_rows t) (t_rows (wt_release_pending t)).

Definition withdrawals_wf (t : WithdrawalTables) : Prop :=
  withdrawal_rows_wf t /\ release_index_wf t.

(** ** Stop reasons and the running liability *)

(** On a table of positive counts the adjustment is one of the table operations. *)
Lemma adjust_stop_reason_count_cases t reason add t' :
  reasons_positive t -> adjust_stop_reason_count t reason add = Ok t' ->
  match t_rows t !! reason with
  | None => add = true /\ insert_tracked_entry t reason 1 = Ok t'
  | Some n =>
      if add then t' = update_entry t reason (n + 1)
      else if n =? 1 then delete_tracked_entry t reason = Ok t'
      else 1 < n /\ t' = update_entry t reason (n - 1)
  end.
Proof.
  intros Hpos. unfold adjust_stop_reason_count, insert_tracked_entry, delete_tracked_entry,
    require_tracked_entry, update_entry. cbv zeta.
  destruct (t_rows t !! reason) as [n|] eqn:Hn; cbn [from_option id].
  - pose proof (Hpos _ _ Hn). destruct add; intros H'.
    + bind H' as next E. apply ok_or_Ok, checked_add_Some in E as [_ ->].
      rewrite (proj2 (Z.eqb_neq n 0)) in H' by lia. by simplify_eq.
    + bind H' as next E. apply ok_or_Ok, checked_sub_Some in E as [_ ->].
      destruct (Z.eqb_spec n 1) as [->|]; [done|].
      rewrite (proj2 (Z.eqb_neq (n - 1) 0)) in H' by lia. split; [lia|by simplify_eq].
  - destruct add; intros H'; [by split|discriminate H'].
Qed.

Lemma adjust_stop_reason_count_Ok t reason add t' :
  table_wf t -> reasons_positive t -> adjust_stop_reason_count t reason add = Ok t' ->
  table_wf t' /\ reasons_positive t' /\
  forall r, default 0 (t_rows t' !! r) =
    default 0 (t_rows t !! r) + if bool_decide (r = reason) then if add then 1 else -1 else 0.
Proof.
  intros Hwf Hpos H. apply adjust_stop_reason_count_cases in H; [|done].
  assert (exists o, table_wf t' /\ t_rows t' = partial_alter (fun _ => o) reason (t_rows t) /\
    (forall n, o = Some n -> 0 < n) /\
    default 0 o = default 0 (t_rows t !! reason) + if add then 1 else -1)
    as (o & Hwf' & Hrows & Ho & Hd).
  { destruct (t_rows t !! reason) as [n|] eqn:Hn; simpl.
    - pose proof (Hpos _ _ Hn). destruct add.
      + subst. destruct (update_rows t reason (n + 1) Hwf ltac:(by rewrite Hn)) as [? ->].
        exists (Some (n + 1)). split_and!; [done|done|intros ? [= <-]; lia|done].
      + destruct (Z.eqb_spec n 1) as [->|].
        * apply delete_rows in H as (? & _ & ->); [|done]. exists None. by split_and!.
        * destruct H as [? ->].
          destruct (update_rows t reason (n - 1) Hwf ltac:(by rewrite Hn)) as [? ->].
          exists (Some (n - 1)). split_and!; [done|done|intros ? [= <-]; lia|done].
    - destruct H as [-> H]. apply insert_rows in H as (? & _ & ->); [|done].
      exists (Some 1). split_and!; [done|done|intros ? [= <-]; lia|done]. }
  split_and!; [done| |].
  - intros r n. rewrite Hrows. destruct (decide (r = reason)) as [->|];
      [rewrite lookup_partial_alter_eq; apply Ho|rewrite lookup_partial_alter_ne by done; apply Hpos].
  - intros r. rewrite Hrows. case_bool_decide; subst;
      [by rewrite lookup_partial_alter_eq|]. rewrite lookup_partial_alter_ne by done. lia.
Qed.

Lemma adjust_withdrawal_liability_record_Ok reasons w (add : bool) amount reasons' amount' :
  table_wf reasons -> reasons_positive reasons ->
  adjust_withdrawal_liability_record reasons w add amount = Ok (reasons', amount') ->
  let sign := if add then 1 else -1 in
  table_wf reasons' /\ reasons_positive reasons' /\
  amount' = amount + sign * record_liability w /\
  forall r, default 0 (t_rows reasons' !! r) =
    default 0 (t_rows reasons !! r) + sign * reason_weight r w.
Proof.
  intros Hwf Hpos H sign.
  unfold adjust_withdrawal_liability_record, record_liability, reason_weight in *.
  destruct (is_nonterminal_withdrawal w); simpl in *; cycle 1.
  { simplify_eq. split_and!; try done; intros; lia. }
  bind H as a E. bind H as rs Er. simplify_eq.
  assert (amount' = amount + sign * wr_amount_out w) as ->.
  { destruct add; apply ok_or_Ok in E; [apply checked_add_Some in E|apply checked_sub_Some in E];
      unfold sign; lia. }
  destruct (wr_last_settlement_stop_reason w) as [reason|].
  - apply adjust_stop_reason_count_Ok in Er as (? & ? & Hr); [|done..].
    split_and!; try done. intros r. rewrite Hr.
    repeat case_bool_decide; simplify_eq; try lia; destruct add; simpl; lia.
  - simplify_eq. split_and!; try done. intros r. simpl. lia.
Qed.

(** ** Replacing a row *)

Section replace.
Context (t : WithdrawalTables) (key : bytes) (next : WithdrawalRecord).
Hypothesis (Hwf : withdrawal_rows_wf t) (Hnext : stored_withdrawal_wf key next).

Lemma liability_reindexed :
  indexed liability_entry (<[key := next]> (withdrawal_rows t))
    (reindex (withdrawal_rows t !! key ≫= liability_entry) (liability_entry next) key
       (t_rows (wt_liability t))).
Proof.
  apply indexed_update; [apply Hwf|]. intros k id w Hne Hw Hk Hk'. apply Hne.
  rewrite <- (sww_id _ _ Hnext), <- (sww_id _ _ (ww_row _ Hwf _ _ Hw)).
  by apply (liability_entry_id _ _ k).
Qed.

Lemma requester_reindexed :
  (forall old, withdrawal_rows t !! key = Some old ->
     withdrawal_history_key old = withdrawal_history_key next) ->
  indexed (fun w => Some (withdrawal_history_key w)) (<[key := next]> (withdrawal_rows t))
    (<[withdrawal_history_key next := key]> (t_rows (wt_requester t))).
Proof.
  intros Hold.
  assert (indexed (fun w => Some (withdrawal_history_key w)) (<[key := next]> (withdrawal_rows t))
    (reindex (withdrawal_rows t !! key ≫= fun w => Some (withdrawal_history_key w))
       (Some (withdrawal_history_key next)) key (t_rows (wt_requester t)))) as Hix.
  { apply (indexed_update (fun w => Some (withdrawal_history_key w))); [apply Hwf|].
    intros k id w Hne Hw [= <-] [= Hk]. apply Hne.
    apply (history_key_id _ w _ next); [by apply (ww_row _ Hwf)|done|congruence]. }
  unfold reindex in Hix. simpl in Hix.
  destruct (withdrawal_rows t !! key) as [old|] eqn:Ho; simpl in Hix; [|done].
  by rewrite (Hold old eq_refl), insert_delete_eq in Hix.
Qed.

Lemma liability_transition_rows liability :
  transition_tracked_entry (wt_liability t)
    (withdrawal_rows t !! key ≫= fun record =>
       if is_nonterminal_withdrawal record then Some (withdrawal_liability_key record) else None)
    (if is_nonterminal_withdrawal next
     then Some (withdrawal_liability_key next, wr_id next) else None) = Ok liability ->
  table_wf liability /\
  t_rows liability = reindex (withdrawal_rows t !! key ≫= liability_entry) (liability_entry next) key
    (t_rows (wt_liability t)).
Proof.
  intros H. apply transition_rows in H as (? & Hrows & _); [|apply Hwf]. split; [done|].
  rewrite Hrows. unfold reindex, liability_entry. rewrite (sww_id _ _ Hnext).
  by destruct (is_nonterminal_withdrawal next).
Qed.

(** The totals after the old row is taken out and the new one added. *)
Lemma total_replaced (f : WithdrawalRecord -> Z) :
  map_sum f (<[key := next]> (withdrawal_rows t)) =
    map_sum f (withdrawal_rows t) - map_or 0 f (withdrawal_rows t !! key) + f next.
Proof.
  destruct (withdrawal_rows t !! key) as [old|] eqn:Ho; simpl.
  - by apply map_sum_update.
  - rewrite map_sum_insert by done. lia.
Qed.

Lemma old_taken_out withdrawals reasons amount :
  match withdrawal_rows t !! key with
  | Some old =>
      let? (reasons, amount) :=
        adjust_withdrawal_liability_record (wt_stop_reasons t) old false (wt_liability_amount t) in
      Ok (update_entry (wt_withdrawals t) key next, reasons, amount)
  | None =>
      let? withdrawals := insert_tracked_entry (wt_withdrawals t) key next in
      Ok (withdrawals, wt_stop_reasons t, wt_liability_amount t)
  end = Ok (withdrawals, reasons, amount) ->
  table_wf withdrawals /\ t_rows withdrawals = <[key := next]> (withdrawal_rows t) /\
  table_wf reasons /\ reasons_positive reasons /\
  amount = wt_liability_amount t - map_or 0 record_liability (withdrawal_rows t !! key) /\
  forall r, default 0 (t_rows reasons !! r) = default 0 (t_rows (wt_stop_reasons t) !! r)
    - map_or 0 (reason_weight r) (withdrawal_rows t !! key).
Proof.
  intros H. destruct (withdrawal_rows t !! key) as [old|] eqn:Hold; cbn [map_or].
  - bind H as [rs am] E. apply Ok_inj in H. injection H as <- <- <-.
    apply adjust_withdrawal_liability_record_Ok in E as (? & ? & ? & Hr); [|apply Hwf..].
    destruct (update_rows (wt_withdrawals t) key next) as [? ?]; [apply Hwf|by rewrite Hold|].
    split_and!; done || (intros; rewrite ?Hr; lia).
  - bind H as ws E. apply Ok_inj in H. injection H as <- <- <-.
    apply insert_rows in E as (? & _ & ?); [|apply Hwf].
    split_and!; [done|done|apply Hwf|apply Hwf|lia|intros; lia].
Qed.

Lemma replace_withdrawal_row_Ok expected t' :
  replace_withdrawal_row t key expected next = Ok t' ->
  withdrawal_rows_wf t' /\ expected = withdrawal_rows t !! key /\
  withdrawal_rows t' = <[key := next]> (withdrawal_rows t) /\
  wt_release_pending t' = wt_release_pending t.
Proof.
  unfold replace_withdrawal_row. intros H.
  destruct (bool_decide (_ <> expected)) eqn:Hexp; [done|].
  apply bool_decide_eq_false, dec_stable in Hexp.
  destruct (is_some_and _ _) eqn:Hhist in H; [done|].
  bind H as liability El. apply liability_transition_rows in El as [Hl Rl].
  bind H as [[withdrawals reasons] amount] Eold. bind H as requester Er.
  bind H as [reasons' amount'] Enew. apply Ok_inj in H as <-. cbn [wt_release_pending].
  apply upsert_rows in Er as [Hr Rr]; [|apply Hwf].
  apply old_taken_out in Eold as (Hw & Rw & Hrs & Hpos & Ham & Hre).
  apply adjust_withdrawal_liability_record_Ok in Enew as (Hrs' & Hpos' & Ham' & Hre'); [|done..].
  split_and!; [|done|done|done]. constructor; simpl; try done; rewrite ?Rw.
  - intros id w Hid. apply lookup_insert_Some in Hid as [[<- <-]|[_ ?]]; [done|by apply (ww_row _ Hwf)].
  - rewrite Rl. by apply liability_reindexed.
  - rewrite Rr, (sww_id _ _ Hnext). apply requester_reindexed. intros old Hold.
    rewrite Hold in Hhist. simpl in Hhist. by apply bool_decide_eq_false, dec_stable in Hhist.
  - rewrite total_replaced, Ham', Ham, (ww_amount _ Hwf). lia.
  - intros r. rewrite total_replaced, Hre', Hre, (ww_reasons _ Hwf). lia.
Qed.
End replace.
