(* ===== verification/IntakeRows.v ===== *)
(** * Stored intake

    The invariant of the intake tables of [Store.v]: the sequences of an owner
    are handed out in order, every funding attempt is the next deposit of its
    owner and has its reservation, and the index of open deposits holds exactly
    the open deposits and the attempts. *)

From S2P Require Import Prelude Types External Withdrawal Deposit DepositProtocol DepositInvariant.
From S2P Require Import Tables StorageTypes Admission Jobs Notifications Store Bundles Intake DepositRows.

(** ** Keys *)

Definition sequence_of (i : IntakeState) (owner : bytes) : Z :=
  default 0 (t_rows (in_owner_sequences i) !! owner).

Definition sequence_key (owner : bytes) (sequence : Z) : bytes :=
  deposit_owner_index_bytes (deposit_owner_index_prefix owner) (u64_max -u64 sequence).

Definition deposit_owner (sd : StoredDeposit) : bytes :=
  a_owner (lti_from (dr_transfer (sd_record sd))).

Definition attempt_owner (a : DepositFundingAttempt) : bytes := di_caller (dfa_intent a).

Definition attempt_key (a : DepositFundingAttempt) : bytes :=
  sequence_key (attempt_owner a) (di_owner_sequence (dfa_intent a)).

Lemma sequence_key_inj owner sequence owner' sequence' :
  (length owner <= 29)%nat -> (length owner' <= 29)%nat ->
  is_u64 sequence -> is_u64 sequence' ->
  sequence_key owner sequence = sequence_key owner' sequence' ->
  owner = owner' /\ sequence = sequence'.
Proof.
  intros Ho Ho' Hs Hs' H. unfold sequence_key, deposit_owner_index_bytes,
    deposit_owner_index_prefix in H.
  apply app_inj_2 in H as [Hp Hk]; [|by rewrite !to_be_bytes_length].
  injection Hp as _ ->. split; [done|].
  apply (f_equal be_value) in Hk. rewrite !be_value_to_be_bytes_mod in Hk.
  unfold is_u64, in_range in *. rewrite !wrapping_sub_exact in Hk by lia.
  change (256 ^ Z.of_nat 8) with 18446744073709551616 in Hk.
  rewrite !Z.mod_small in Hk by lia. lia.
Qed.

Lemma sequence_key_index owner sequence :
  (length owner <= 29)%nat ->
  deposit_owner_index_key owner sequence = Ok (sequence_key owner sequence).
Proof.
  intros Hlen. apply StableBlob_new_short.
  unfold sequence_key, deposit_owner_index_bytes, deposit_owner_index_prefix.
  rewrite length_app, to_be_bytes_length. simpl. lia.
Qed.

(** ** The invariant *)

Record attempt_wf (id : bytes) (a : DepositFundingAttempt) : Prop := {
  atw_id : di_deposit_id (dfa_intent a) = id;
  atw_id_length : length id = 32%nat;
  atw_owner : a_owner (lti_from (dfa_transfer a)) = attempt_owner a;
  atw_owner_length : (length (attempt_owner a) <= 29)%nat;
  atw_gross : is_u128 (dfa_gross_amount a);
  atw_amount : lti_amount (dfa_transfer a) = dfa_gross_amount a;
  atw_operation : lti_operation (dfa_transfer a) = PullDeposit;
}.

Abbreviation attempt_rows i := (t_rows (in_attempts i)).
Abbreviation deposit_rows t := (t_rows (dt_deposits t)).

(** The reservation of an attempt. *)
Definition reserves (r : DepositFundingReservation) (a : DepositFundingAttempt) : Prop :=
  dfr_deposit_id r = di_deposit_id (dfa_intent a) /\ dfr_caller r = attempt_owner a /\
  dfr_mint_amount r = dfa_gross_amount a.

Record reservations_wf (i : IntakeState) : Prop := {
  rw_bounded : (length (dac_funding_reservations (in_deposit_admission i)) <= 16)%nat;
  rw_unique : NoDup (dfr_deposit_id <$> dac_funding_reservations (in_deposit_admission i));
  rw_attempt : forall r, r ∈ dac_funding_reservations (in_deposit_admission i) ->
    exists a due, attempt_rows i !! dfr_deposit_id r = Some (a, due) /\ reserves r a;
  rw_reserved : forall id a due, attempt_rows i !! id = Some (a, due) ->
    exists r, r ∈ dac_funding_reservations (in_deposit_admission i) /\ reserves r a;
}.

(** What an entry of the index of open deposits stands for. *)
Definition open_entry (t : DepositTables) (i : IntakeState) (k id : bytes) : Prop :=
  (exists sd, deposit_rows t !! id = Some sd /\ owner_key sd = k /\
     is_terminal_deposit (sd_record sd) = false) \/
  (exists a due, attempt_rows i !! id = Some (a, due) /\ attempt_key a = k).

Record intake_wf (t : DepositTables) (i : IntakeState) : Prop := {
  iw_attempts_table : table_wf (in_attempts i);
  iw_sequences_table : table_wf (in_owner_sequences i);
  iw_attempt : forall id a due, attempt_rows i !! id = Some (a, due) -> attempt_wf id a;
  iw_fresh : forall id, is_Some (attempt_rows i !! id) -> deposit_rows t !! id = None;
  iw_sequence : forall owner, is_u64 (sequence_of i owner);
  iw_next : forall id a due, attempt_rows i !! id = Some (a, due) ->
    di_owner_sequence (dfa_intent a) = sequence_of i (attempt_owner a);
  iw_passed : forall id sd, deposit_rows t !! id = Some sd ->
    0 <= sd_owner_sequence sd < sequence_of i (deposit_owner sd);
  iw_open : forall k id, t_rows (dt_nonterminal t) !! k = Some id <-> open_entry t i k id;
  iw_reservations : reservations_wf i;
}.

Lemma intake_frame t i i' :
  intake_wf t i -> in_attempts i' = in_attempts i ->
  in_owner_sequences i' = in_owner_sequences i ->
  in_deposit_admission i' = in_deposit_admission i -> intake_wf t i'.
Proof.
  destruct i, i'. simpl. intros [? ? ? ? ? ? ? ? []] -> -> ->. by split.
Qed.

Section invariant.
Context (t : DepositTables) (i : IntakeState).
Hypothesis (Ht : deposits_wf t) (Hi : intake_wf t i).

(** The next key of an owner is not the key of a deposit. *)
Lemma next_key_fresh owner id sd :
  (length owner <= 29)%nat -> deposit_rows t !! id = Some sd ->
  sequence_key owner (sequence_of i owner) <> owner_key sd.
Proof.
  intros Hlen Hsd Hk. pose proof (iw_passed _ _ Hi _ _ Hsd) as Hp.
  pose proof (iw_sequence _ _ Hi owner). pose proof (iw_sequence _ _ Hi (deposit_owner sd)).
  pose proof (sdw_owner _ _ (dw_row _ Ht _ _ Hsd)). unfold in_range in *.
  apply sequence_key_inj in Hk as [-> Hs]; [|done..|unfold in_range; lia].
  unfold deposit_owner in Hp. lia.
Qed.

Lemma attempt_key_next id a due :
  attempt_rows i !! id = Some (a, due) ->
  attempt_key a = sequence_key (attempt_owner a) (sequence_of i (attempt_owner a)).
Proof. intros Ha. unfold attempt_key. by rewrite (iw_next _ _ Hi _ _ _ Ha). Qed.

Lemma attempt_key_fresh id sd id' a due :
  deposit_rows t !! id = Some sd -> attempt_rows i !! id' = Some (a, due) ->
  attempt_key a <> owner_key sd.
Proof.
  intros Hsd Ha. rewrite (attempt_key_next _ _ _ Ha). apply (next_key_fresh _ id); [|done].
  by apply (iw_attempt _ _ Hi _ _ _ Ha).
Qed.

(** Two attempts of the same owner are the same. *)
Lemma attempt_key_unique id a due id' a' due' :
  attempt_rows i !! id = Some (a, due) -> attempt_rows i !! id' = Some (a', due') ->
  attempt_owner a = attempt_owner a' -> id = id'.
Proof.
  intros Ha Ha' Ho.
  assert (attempt_key a = attempt_key a') as Hk
    by (by rewrite (attempt_key_next _ _ _ Ha), (attempt_key_next _ _ _ Ha'), Ho).
  assert (t_rows (dt_nonterminal t) !! attempt_key a = Some id) as H1
    by (apply (iw_open _ _ Hi); right; eauto).
  assert (t_rows (dt_nonterminal t) !! attempt_key a' = Some id') as H2
    by (apply (iw_open _ _ Hi); right; eauto).
  rewrite Hk, H2 in H1. by injection H1.
Qed.
End invariant.

(** ** Replacing a deposit *)

Section replaced.
Context (t t' : DepositTables) (i : IntakeState) (id : bytes) (prev next : StoredDeposit).
Hypothesis (Ht : deposits_wf t) (Hi : intake_wf t i).
Hypothesis (Hrow : deposit_rows t !! id = Some prev) (Hrep : replaces prev next).
Hypothesis (Hup : deposits_updated t id prev next t').

Lemma deposit_owner_replaced : deposit_owner next = deposit_owner prev.
Proof. destruct Hrep as [(_ & _ & _ & _ & He) _ _]. unfold deposit_owner. by rewrite He. Qed.

Lemma replaced_open k id' : t_rows (dt_nonterminal t') !! k = Some id' <-> open_entry t' i k id'.
Proof.
  pose proof (deposits_update _ _ _ _ _ Ht Hrow Hrep Hup) as Ht'.
  pose proof (replaces_owner_key _ _ Hrep) as Hkey.
  assert (deposit_rows t' !! id = Some next) as Hnext
    by (rewrite (du_deposits _ _ _ _ _ Hup); apply lookup_insert_eq).
  destruct (decide (k = owner_key next)) as [->|Hne].
  - rewrite (dw_nonterminal _ Ht' _ _ Hnext). unfold open_entry. split.
    + destruct (is_terminal_deposit (sd_record next)) eqn:E; [done|]. intros [= <-]. left. eauto.
    + intros [(sd & Hsd & Hk & E)|(a & due & Ha & Hk)].
      * assert (id' = id) as -> by (by apply (dw_owner_keys _ Ht' _ sd _ next)).
        rewrite Hnext in Hsd. injection Hsd as <-. by rewrite E.
      * rewrite Hkey in Hk. by apply (attempt_key_fresh t i Ht Hi id prev id' a due) in Hk.
  - assert (t_rows (dt_nonterminal t') !! k = t_rows (dt_nonterminal t) !! k) as ->.
    { rewrite (du_nonterminal _ _ _ _ _ Hup).
      destruct (is_terminal_deposit _); [by apply lookup_delete_ne|by apply lookup_insert_ne]. }
    rewrite (iw_open _ _ Hi). unfold open_entry. rewrite (du_deposits _ _ _ _ _ Hup).
    setoid_rewrite lookup_insert_Some. split; (intros [(sd & Hsd & Hk & E)|?]; [left|by right]).
    + exists sd. split_and!; try done. right. split; [|done]. intros <-.
      rewrite Hrow in Hsd. injection Hsd as <-. by rewrite <- Hkey in Hk.
    + destruct Hsd as [[_ <-]|[_ ?]]; [done|by exists sd].
Qed.

Lemma intake_replaced : intake_wf t' i.
Proof.
  destruct Hi as [? ? Ha Hfresh Hseq Hnext Hpassed _ ?]. split; try done; [| |apply replaced_open].
  - intros id' Hid'. rewrite (du_deposits _ _ _ _ _ Hup), lookup_insert_None.
    split; [by apply Hfresh|]. intros ->. apply Hfresh in Hid'. congruence.
  - intros id' sd. rewrite (du_deposits _ _ _ _ _ Hup), lookup_insert_Some.
    intros [[<- <-]|[_ ?]]; [|by eapply Hpassed].
    rewrite deposit_owner_replaced. destruct Hrep as [_ -> _]. by eapply Hpassed.
Qed.
End replaced.

(** ** Attempts *)

(** An attempt is added with its reservation. *)
Section attempt_added.
Context (t : DepositTables) (i : IntakeState) (a : DepositFundingAttempt) (due : Z).
Context (nonterminal : Table bytes bytes) (attempts : Table bytes (DepositFundingAttempt * Z)).
Context (adm : DepositAdmissionControl) (r : DepositFundingReservation).
Hypothesis (Ht : deposits_wf t) (Hi : intake_wf t i).
Abbreviation id := (di_deposit_id (dfa_intent a)).
Hypothesis (Ha : attempt_wf id a) (Hid : deposit_rows t !! id = None).
Hypothesis (Hseq : di_owner_sequence (dfa_intent a) = sequence_of i (attempt_owner a)).
Hypothesis (Hnwf : table_wf nonterminal) (Hawf : table_wf attempts).
Hypothesis (Hnk : t_rows (dt_nonterminal t) !! attempt_key a = None).
Hypothesis (Hnr : t_rows nonterminal = <[attempt_key a := id]> (t_rows (dt_nonterminal t))).
Hypothesis (Hak : attempt_rows i !! id = None).
Hypothesis (Har : t_rows attempts = <[id := (a, due)]> (attempt_rows i)).
Hypothesis (Hres : dac_funding_reservations adm
  = dac_funding_reservations (in_deposit_admission i) ++ [r]).
Hypothesis (Hroom : (length (dac_funding_reservations (in_deposit_admission i)) < 16)%nat).
Hypothesis (Hr : reserves r a).

Lemma added_key_next : attempt_key a = sequence_key (attempt_owner a) (sequence_of i (attempt_owner a)).
Proof. unfold attempt_key. by rewrite Hseq. Qed.

Lemma added_deposits : deposits_wf (with_nonterminal t nonterminal).
Proof.
  pose proof Ht as []. split; simpl; try done. intros id' sd Hsd.
  rewrite Hnr, lookup_insert_ne; [by apply dw_nonterminal|].
  rewrite added_key_next. apply (next_key_fresh t i Ht Hi _ id'); [apply Ha|done].
Qed.

Lemma added_reservations : reservations_wf (with_attempts i attempts adm).
Proof.
  destruct (iw_reservations _ _ Hi) as [_ Hu Hat Hre]. destruct Hr as (Hri & _ & _).
  split; simpl; rewrite ?Hres; [| |intros r'; rewrite elem_of_app, list_elem_of_singleton|].
  - rewrite length_app. simpl. lia.
  - rewrite fmap_app, NoDup_app. split_and!; [done| |apply NoDup_singleton].
    intros x (r' & -> & Hr')%list_elem_of_fmap. simpl. rewrite list_elem_of_singleton.
    intros Heq. apply Hat in Hr' as (a' & due' & Ha' & _). congruence.
  - rewrite Har. intros [Hr'| ->]; [|rewrite Hri, lookup_insert_eq; eauto].
    apply Hat in Hr' as (a' & due' & Ha' & ?). rewrite lookup_insert_ne by congruence. eauto.
  - intros id' a' due'. rewrite Har, lookup_insert_Some. setoid_rewrite elem_of_app.
    intros [[<- [= <- <-]]|[_ Ha']]; [exists r; split; [right; by left|done]|].
    apply Hre in Ha' as (r' & ? & ?). eauto.
Qed.

Lemma added_intake : intake_wf (with_nonterminal t nonterminal) (with_attempts i attempts adm).
Proof.
  pose proof added_reservations. destruct Hi as [H1 H2 Hatt Hfr Hsq Hnx Hpa Hop H3]. split; simpl; try done; [intros id' a' due'|intros id'|..].
  - rewrite Har, lookup_insert_Some. intros [[<- [= <- <-]]|[_ ?]]; [done|by eapply Hatt].
  - rewrite Har, lookup_insert_is_Some. intros [<-|[_ ?]]; [done|by apply Hfr].
  - intros id' a' due'. rewrite Har, lookup_insert_Some.
    intros [[<- [= <- <-]]|[_ ?]]; [done|by eapply Hnx].
  - intros k id'. rewrite Hnr, lookup_insert_Some. unfold open_entry in *. simpl. rewrite Har.
    setoid_rewrite lookup_insert_Some. split.
    + intros [[<- <-]|[Hk Hn]]; [right; exists a, due; auto|].
      apply Hop in Hn as [?|(a' & due' & Ha' & Hk')]; [by left|right; exists a', due'].
      split; [|done]. right. split; [congruence|done].
    + intros [(sd & Hsd & Hk & E)|(a' & due' & [[<- [= <- <-]]|[Hne Ha']] & Hk)]; [|by left|].
      * right. split; [|apply Hop; left; eauto]. rewrite <- Hk, added_key_next.
        apply (next_key_fresh t i Ht) with id'; [by split|apply Ha|done].
      * right. assert (t_rows (dt_nonterminal t) !! k = Some id') as Hn
          by (apply Hop; right; eauto). split; [congruence|done].
Qed.
End attempt_added.

(** An attempt leaves with its reservation. *)
Section attempt_taken.
Context (t : DepositTables) (i : IntakeState) (id : bytes) (a : DepositFundingAttempt) (due : Z).
Context (nonterminal : Table bytes bytes) (attempts : Table bytes (DepositFundingAttempt * Z)).
Context (adm : DepositAdmissionControl) (r : DepositFundingReservation).
Hypothesis (Ht : deposits_wf t) (Hi : intake_wf t i).
Hypothesis (Ha : attempt_rows i !! id = Some (a, due)).
Hypothesis (Hres : take_reservation (attempt_owner a) id
  (dac_funding_reservations (in_deposit_admission i)) = Some (r, dac_funding_reservations adm)).
Hypothesis (Hawf : table_wf attempts) (Har : t_rows attempts = delete id (attempt_rows i)).

Lemma taken_reservations : reservations_wf (with_attempts i attempts adm).
Proof.
  destruct (iw_reservations _ _ Hi) as [Hlen Hu Hat Hre].
  apply take_reservation_Some in Hres as (Hp & Hrid & _).
  assert (NoDup (dfr_deposit_id <$> r :: dac_funding_reservations adm)) as Hu'
    by (by rewrite <- Hp).
  simpl in Hu'. apply NoDup_cons in Hu' as [Hnot Hu']. rewrite Hrid in Hnot.
  split; simpl; rewrite ?Har; [|done|intros r' Hr'|intros id' a' due'].
  - rewrite Hp in Hlen. simpl in Hlen. lia.
  - assert (r' ∈ dac_funding_reservations (in_deposit_admission i)) as Hin
      by (rewrite Hp; by right).
    apply Hat in Hin as (a' & due' & Ha' & ?). exists a', due'. split; [|done].
    rewrite lookup_delete_ne; [done|]. intros ->. apply Hnot. by apply list_elem_of_fmap_2.
  - rewrite lookup_delete_Some. intros [Hne Ha'].
    pose proof (atw_id _ _ (iw_attempt _ _ Hi _ _ _ Ha')) as Hid'.
    apply Hre in Ha' as (r' & Hr' & Hrv). exists r'. split; [|done].
    rewrite Hp in Hr'. apply elem_of_cons in Hr' as [->|?]; [|done]. destruct Hrv as [? _]. congruence.
Qed.

Hypothesis (Hnwf : table_wf nonterminal).
Hypothesis (Hnr : t_rows nonterminal = delete (attempt_key a) (t_rows (dt_nonterminal t))).

Lemma taken_deposits : deposits_wf (with_nonterminal t nonterminal).
Proof.
  pose proof Ht as []. split; simpl; try done. intros id' sd Hsd.
  rewrite Hnr, lookup_delete_ne; [by apply dw_nonterminal|].
  by apply (attempt_key_fresh t i Ht Hi id' _ id _ due).
Qed.

Lemma taken_intake : intake_wf (with_nonterminal t nonterminal) (with_attempts i attempts adm).
Proof.
  pose proof taken_reservations.
  destruct Hi as [H1 H2 Hatt Hfr Hsq Hnx Hpa Hop H3].
  split; simpl; try done; [intros id' a' due'|intros id'|intros id' a' due'|intros k id'].
  - rewrite Har, lookup_delete_Some. intros [_ ?]. by eapply Hatt.
  - rewrite Har, lookup_delete_is_Some. intros [_ ?]. by apply Hfr.
  - rewrite Har, lookup_delete_Some. intros [_ ?]. by eapply Hnx.
  - assert (t_rows (dt_nonterminal t) !! attempt_key a = Some id) as Hk
      by (apply Hop; right; eauto).
    rewrite Hnr, lookup_delete_Some, Hop. unfold open_entry. simpl. rewrite Har.
    setoid_rewrite lookup_delete_Some. split.
    + intros [Hne [?|(a' & due' & Ha' & Hk')]]; [by left|right]. exists a', due'.
      split; [split; [|done]|done]. intros <-. rewrite Ha in Ha'. congruence.
    + intros [(sd & Hsd & Hk' & E)|(a' & due' & [Hne Ha'] & Hk')].
      * split; [|left; eauto]. rewrite <- Hk'. by apply (attempt_key_fresh t i Ht Hi id' _ id _ due).
      * split; [|right; eauto]. intros Heq.
        assert (t_rows (dt_nonterminal t) !! k = Some id') as Hk2 by (apply Hop; right; eauto).
        congruence.
Qed.
End attempt_taken.

(** An attempt becomes the deposit it was made for. *)
Section promoted.
Context (t t' : DepositTables) (i : IntakeState) (id : bytes) (a : DepositFundingAttempt) (due : Z).
Context (sd : StoredDeposit) (adm : DepositAdmissionControl) (r : DepositFundingReservation).
Context (attempts : Table bytes (DepositFundingAttempt * Z)) (owners : Table bytes bytes).
Context (sequences : Table bytes Z).
Hypothesis (Ht : deposits_wf t) (Hi : intake_wf t i).
Hypothesis (Ha : attempt_rows i !! id = Some (a, due)).
Hypothesis (Hres : take_reservation (attempt_owner a) id
  (dac_funding_reservations (in_deposit_admission i)) = Some (r, dac_funding_reservations adm)).
Hypothesis (Hawf : table_wf attempts) (Har : t_rows attempts = delete id (attempt_rows i)).
Hypothesis (Hsd : stored_wf id sd) (Howner : deposit_owner sd = attempt_owner a).
Hypothesis (Hseq : sd_owner_sequence sd = di_owner_sequence (dfa_intent a)).
Hypothesis (Hopen : is_terminal_deposit (sd_record sd) = false).
Hypothesis (Hdead : deadline_entry (sd_record sd) = None).
Hypothesis (Hswf : table_wf sequences).
Hypothesis (Hsr : t_rows sequences
  = <[attempt_owner a := sequence_of i (attempt_owner a) + 1]> (t_rows (in_owner_sequences i))).
Hypothesis (Hlast : sequence_of i (attempt_owner a) + 1 <= u64_max).
Hypothesis (Hdwf : table_wf (dt_deposits t')) (Hpwf : table_wf (dt_pull_pending t')).
Hypothesis (Hnwf : table_wf (dt_nonterminal t')).
Hypothesis (Hdr : deposit_rows t' = <[id := sd]> (deposit_rows t)).
Hypothesis (Hpr : t_rows (dt_pull_pending t') =
  (if is_pending_deposit_ledger (sd_record sd) then <[id := tt]> else delete id)
    (t_rows (dt_pull_pending t))).
Hypothesis (Hdl : dt_deadlines t' = dt_deadlines t).
Hypothesis (Hnr : t_rows (dt_nonterminal t') = <[owner_key sd := id]> (t_rows (dt_nonterminal t))).

Abbreviation i' := (with_owners (with_attempts i attempts adm) owners sequences).

Lemma promoted_key : owner_key sd = attempt_key a.
Proof.
  unfold owner_key, attempt_key, sequence_key. unfold deposit_owner in Howner.
  by rewrite Howner, Hseq.
Qed.

Lemma promoted_absent : deposit_rows t !! id = None.
Proof. apply (iw_fresh _ _ Hi). by rewrite Ha. Qed.

Lemma promoted_entry : t_rows (dt_nonterminal t) !! owner_key sd = Some id.
Proof. apply (iw_open _ _ Hi). right. exists a, due. by rewrite promoted_key. Qed.

Lemma promoted_nonterminal : t_rows (dt_nonterminal t') = t_rows (dt_nonterminal t).
Proof. rewrite Hnr. apply insert_id, promoted_entry. Qed.

Lemma promoted_key_fresh id' sd' : deposit_rows t !! id' = Some sd' -> owner_key sd <> owner_key sd'.
Proof. intros Hsd'. rewrite promoted_key. by apply (attempt_key_fresh t i Ht Hi id' _ id _ due). Qed.

Lemma promoted_deposits : deposits_wf t'.
Proof.
  pose proof Ht as []. split; try done.
  - by rewrite Hdl.
  - intros id' sd'. rewrite Hdr, lookup_insert_Some. intros [[<- <-]|[_ ?]]; [done|by apply dw_row].
  - intros id1 sd1 id2 sd2. rewrite Hdr, !lookup_insert_Some.
    intros [[<- <-]|[? H1]] [[<- <-]|[? H2]] Hk; [done|..|by eapply dw_owner_keys].
    + by apply promoted_key_fresh in H2.
    + symmetry in Hk. by apply promoted_key_fresh in H1.
  - rewrite Hdr, Hpr. by apply (members_update (fun sd => is_pending_deposit_ledger (sd_record sd))).
  - rewrite Hdr, Hdl. intros k id'. rewrite (dw_deadlines k id').
    setoid_rewrite lookup_insert_Some. split.
    + intros (sd' & Hs & ?). exists sd'. split; [|done]. right. split; [|done].
      intros <-. by rewrite promoted_absent in Hs.
    + intros (sd' & [[_ <-]|[_ ?]] & Hk); [by rewrite Hdead in Hk|eauto].
  - intros id' sd'. rewrite Hdr, lookup_insert_Some. intros [[<- <-]|[_ Hs]].
    + by rewrite promoted_nonterminal, promoted_entry, Hopen.
    + rewrite promoted_nonterminal. by apply dw_nonterminal.
Qed.

Lemma promoted_sequence owner :
  sequence_of i' owner =
    if decide (owner = attempt_owner a) then sequence_of i (attempt_owner a) + 1
    else sequence_of i owner.
Proof.
  unfold sequence_of. simpl. rewrite Hsr. case_decide as E; subst.
  - by rewrite lookup_insert_eq.
  - by rewrite lookup_insert_ne.
Qed.

Lemma promoted_intake : intake_wf t' i'.
Proof.
  pose proof (taken_reservations t i id a due attempts adm r Hi Ha Hres Har) as [].
  pose proof (iw_sequence _ _ Hi) as Hsq. pose proof promoted_sequence as Hps.
  split; simpl; try done.
  - intros id' a' due'. rewrite Har, lookup_delete_Some. intros [_ ?]. by eapply (iw_attempt _ _ Hi).
  - intros id'. rewrite Har, Hdr, lookup_delete_is_Some, lookup_insert_None.
    intros [Hne ?]. split; [by apply (iw_fresh _ _ Hi)|done].
  - intros owner. rewrite Hps. pose proof (Hsq owner). pose proof (Hsq (attempt_owner a)).
    unfold in_range in *. case_decide; lia.
  - intros id' a' due'. rewrite Har, lookup_delete_Some, Hps. intros [Hne Ha'].
    rewrite decide_False; [by eapply (iw_next _ _ Hi)|]. intros Heq. apply Hne. symmetry.
    by eapply (attempt_key_unique t i Hi).
  - intros id' sd'. rewrite Hdr, lookup_insert_Some, Hps. intros [[<- <-]|[_ Hs]].
    + rewrite Howner, decide_True, Hseq, (iw_next _ _ Hi _ _ _ Ha) by done.
      specialize (Hsq (attempt_owner a)). unfold in_range in Hsq. lia.
    + apply (iw_passed _ _ Hi) in Hs. case_decide as E; [rewrite E in Hs|]; lia.
  - intros k id'. rewrite promoted_nonterminal, (iw_open _ _ Hi). unfold open_entry. simpl.
    rewrite Har, Hdr. setoid_rewrite lookup_insert_Some. setoid_rewrite lookup_delete_Some. split.
    + intros [(sd' & Hs & ? & ?)|(a' & due' & Ha' & Hk)].
      * left. exists sd'. split_and!; try done. right. split; [|done]. intros <-.
        by rewrite promoted_absent in Hs.
      * destruct (decide (id = id')) as [<-|Hne]; [|right; eauto 6].
        left. exists sd. rewrite Ha in Ha'. injection Ha' as <- <-. rewrite promoted_key. auto.
    + intros [(sd' & [[<- <-]|[_ ?]] & Hk & ?)|(a' & due' & [_ ?] & ?)]; [|left; eauto|right; eauto].
      right. exists a, due. by rewrite <- promoted_key.
Qed.
End promoted.

(** An attempt changes its state only. *)
Section attempt_updated.
Context (t : DepositTables) (i : IntakeState) (id : bytes) (a a' : DepositFundingAttempt).
Context (due due' : Z) (attempts : Table bytes (DepositFundingAttempt * Z)).
Hypothesis (Hi : intake_wf t i) (Ha : attempt_rows i !! id = Some (a, due)).
Hypothesis (Hintent : dfa_intent a' = dfa_intent a) (Htransfer : dfa_transfer a' = dfa_transfer a).
Hypothesis (Hgross : dfa_gross_amount a' = dfa_gross_amount a).
Hypothesis (Hawf : table_wf attempts).
Hypothesis (Har : t_rows attempts = <[id := (a', due')]> (attempt_rows i)).

Lemma same_attempt_key : attempt_key a' = attempt_key a.
Proof. unfold attempt_key, attempt_owner. by rewrite Hintent. Qed.

(** What holds of the stored attempts and depends on the intent, the transfer and
    the amount only holds of the updated one. *)
Lemma updated_attempt (P : bytes -> DepositFundingAttempt -> Prop) :
  (P id a -> P id a') ->
  (forall id' b d, attempt_rows i !! id' = Some (b, d) -> P id' b) ->
  forall id' b d, t_rows attempts !! id' = Some (b, d) -> P id' b.
Proof.
  intros Hp Hall id' b d. rewrite Har, lookup_insert_Some.
  intros [[<- [= <- <-]]|[_ ?]]; [|by eapply Hall]. apply Hp. by eapply Hall.
Qed.

Lemma updated_reservations : reservations_wf (with_attempts i attempts (in_deposit_admission i)).
Proof.
  destruct (iw_reservations _ _ Hi) as [Hlen Hu Hat Hre]. split; simpl; try done.
  - intros r Hr. apply Hat in Hr as (b & d & Hb & Hrv). rewrite Har.
    destruct (decide (id = dfr_deposit_id r)) as [Heq|Hne].
    + exists a', due'. rewrite <- Heq, lookup_insert_eq. split; [done|].
      rewrite <- Heq, Ha in Hb. injection Hb as <- <-.
      unfold reserves, attempt_owner in *. by rewrite Hintent, Hgross.
    + exists b, d. by rewrite lookup_insert_ne.
  - apply (updated_attempt (fun _ b => exists r, r ∈ _ /\ reserves r b)); [|done].
    unfold reserves, attempt_owner. by rewrite Hintent, Hgross.
Qed.

Lemma updated_intake : intake_wf t (with_attempts i attempts (in_deposit_admission i)).
Proof.
  pose proof updated_reservations.
  destruct Hi as [H1 H2 Hatt Hfr Hsq Hnx Hpa Hop H3]. split; simpl; try done.
  - apply updated_attempt; [|done]. intros []. unfold attempt_owner in *.
    split; unfold attempt_owner; by rewrite ?Hintent, ?Htransfer, ?Hgross.
  - intros id'. rewrite Har, lookup_insert_is_Some. intros [<-|[_ ?]]; apply Hfr; [by rewrite Ha|done].
  - apply (updated_attempt (fun _ b => di_owner_sequence (dfa_intent b) = sequence_of i (attempt_owner b)));
      [|done]. unfold attempt_owner. by rewrite Hintent.
  - intros k id'. rewrite Hop. unfold open_entry. simpl. rewrite Har. setoid_rewrite lookup_insert_Some.
    split; (intros [?|(b & d & Hb & Hk)]; [by left|right]).
    + destruct (decide (id = id')) as [<-|]; [|eauto 6].
      rewrite Ha in Hb. injection Hb as <- <-. exists a', due'. rewrite same_attempt_key. auto.
    + destruct Hb as [[<- [= <- <-]]|[_ ?]]; [|eauto]. rewrite same_attempt_key in Hk. eauto.
Qed.
End attempt_updated.
