(* ===== verification/StoreInvariant.v ===== *)
(** * The invariant of the store

    What holds of the whole store between transactions: the tables of deposits
    and withdrawals are well formed ([DepositRows.v], [WithdrawalRows.v]), every
    counter and the fee accounting are the totals over the rows, the open
    reconciliation holds are exactly the ones records wait for, and the intake is
    well formed ([IntakeRows.v]).  The lemmas here
    say what replacing one row does to each part. *)

From S2P Require Import Prelude KernelArith KernelPolicy Types Accounting External Authorization.
From S2P Require Import Withdrawal WithdrawalSafety Deposit DepositProtocol DepositInvariant Reconciliation.
From S2P Require Import Tables StorageTypes Jobs EventLog Store Bundles Intake DepositRows WithdrawalRows IntakeRows.

(** ** Totals *)

Definition deposit_total (f : DepositRecord -> Z) (s : Store) : Z :=
  map_sum (fun sd => f (sd_record sd)) (t_rows (dt_deposits (st_deposits s))).

Definition withdrawal_total (f : WithdrawalRecord -> Z) (s : Store) : Z :=
  map_sum f (t_rows (wt_withdrawals (st_withdrawals s))).

Definition payout_total (f : FeePayoutRecord -> Z) (s : Store) : Z :=
  map_sum f (t_rows (st_payouts s)).

(** What a payout takes from the fee reserve, while it is pending and once it
    has succeeded. *)
Definition payout_cost (p : FeePayoutRecord) : Z := fpr_amount p + lti_fee (fpr_transfer p).

Definition payout_pending (p : FeePayoutRecord) : Z :=
  if is_pending_fee_payout p then payout_cost p else 0.

Definition payout_spent (p : FeePayoutRecord) : Z :=
  match fpr_state p with Payout_Succeeded _ => payout_cost p | _ => 0 end.

Definition deposit_pending (d : DepositRecord) : Z := Z.b2z (is_pending_deposit_ledger d).
Definition deposit_reserved (d : DepositRecord) : Z := Z.b2z (is_deposit_mint_reserved d).
Definition withdrawal_pending (w : WithdrawalRecord) : Z := Z.b2z (is_pending_withdrawal_ledger w).

(** The counters are the totals over the rows. *)
Record counters_balance (s : Store) : Prop := {
  cb_reserved : cs_reserved_deposit_mint_amount (st_counters s) = deposit_total reserved s;
  cb_operations : cs_reserved_deposit_mint_operations (st_counters s)
      = deposit_total deposit_reserved s;
  cb_pending : cs_pending_ledger_operations (st_counters s)
      = deposit_total deposit_pending s + withdrawal_total withdrawal_pending s;
  cb_debit : cs_pending_fee_payout_debit (st_counters s) = payout_total payout_pending s;
  cb_operations_range : is_u64 (cs_reserved_deposit_mint_operations (st_counters s));
  cb_pending_range : is_u64 (cs_pending_ledger_operations (st_counters s));
}.

(** The fee accounting is what the records were charged, less what was paid
    out. *)
Record fees_balance (s : Store) : Prop := {
  fb_deposit : as_confirmed_deposit_fees (st_accounting s) = deposit_total charged_fee s;
  fb_withdrawal : as_confirmed_withdrawal_fees (st_accounting s)
      = withdrawal_total withdrawal_fee s;
  fb_reserve : as_fee_reserve (st_accounting s)
      = deposit_total charged_fee s + withdrawal_total withdrawal_fee s
        - payout_total payout_spent s;
}.

(** ** Holds *)

Record holds_wf (t : HoldTables) (next : Z) : Prop := {
  hw_holds_table : table_wf (ht_holds t);
  hw_open_table : table_wf (ht_open t);
  hw_scans_table : table_wf (ht_scans t);
  hw_row : forall id h, t_rows (ht_holds t) !! id = Some h -> rh_id h = id /\ id < next;
  hw_open : members is_open_hold (t_rows (ht_holds t)) (t_rows (ht_open t));
}.

(** The hold a record waits for, with the request and the transfer it is
    about. *)
Definition deposit_waits_on (d : DepositRecord)
    : option (Z * RequestReference * LedgerTransferIdentity) :=
  match dr_state d with
  | FundingReconciliationHold h => Some (h, Ref_DepositFunding (dr_id d), dr_transfer d)
  | RefundReconciliationHold _ _ h a => Some (h, Ref_DepositRefund (dr_id d), ta_identity a)
  | _ => None
  end.

Definition withdrawal_waits_on (w : WithdrawalRecord)
    : option (Z * RequestReference * LedgerTransferIdentity) :=
  match wr_state w with
  | ReconciliationHold h a _ => Some (h, Ref_Withdrawal (wr_id w), ta_identity a)
  | _ => None
  end.

Definition waits (s : Store) (x : Z * RequestReference * LedgerTransferIdentity) : Prop :=
  (exists id sd, deposit_row s id = Some sd /\ deposit_waits_on (sd_record sd) = Some x) \/
  (exists id w, withdrawal_row s id = Some w /\ withdrawal_waits_on w = Some x).

(** The open holds are exactly the ones that are waited for. *)
Definition holds_coupled (s : Store) : Prop :=
  forall h r t, waits s (h, r, t) <-> hold_row s h = Some (ReconciliationHoldRecord_open h r t).

(** ** Payouts *)

Record payout_wf (next id : Z) (p : FeePayoutRecord) : Prop := {
  pw_id : fpr_id p = id;
  pw_next : id < next;
  pw_amount : 0 <= fpr_amount p;
  pw_fee : 0 <= lti_fee (fpr_transfer p);
  pw_cost : payout_cost p <= u128_max;
  pw_sends : lti_amount (fpr_transfer p) = fpr_amount p;
}.

Definition payouts_wf (t : Table Z FeePayoutRecord) (next : Z) : Prop :=
  table_wf t /\ forall id p, t_rows t !! id = Some p -> payout_wf next id p.

Record store_wf (s : Store) : Prop := {
  sw_deposits : deposits_wf (st_deposits s);
  sw_withdrawals : withdrawals_wf (st_withdrawals s);
  sw_holds : holds_wf (st_holds s) (cs_next_hold_id (st_counters s));
  sw_payouts : payouts_wf (st_payouts s) (cs_next_fee_payout_id (st_counters s));
  sw_counters : counters_balance s;
  sw_fees : fees_balance s;
  sw_coupled : holds_coupled s;
  sw_intake : intake_wf (st_deposits s) (st_intake s);
}.

(** ** Adjusting the counters *)

Lemma adjust_active_count_Ok n was now_ n' :
  is_u64 n -> adjust_active_count n was now_ = Ok n' ->
  n' = n - Z.b2z was + Z.b2z now_ /\ is_u64 n'.
Proof.
  intros Hn. unfold adjust_active_count. rewrite checked_counter_transition_spec by done. cbv zeta.
  destruct (_ || _) eqn:E; simpl; [done|]. reflect. intros [= <-]. ranges. lia.
Qed.

Lemma reserved_none r : is_deposit_mint_reserved r = false -> reserved r = 0.
Proof. unfold reserved, is_deposit_mint_reserved. by intros ->. Qed.

Lemma adjust_reserved_mint_amount_Ok n r r' n' :
  DepositRecord_wf r -> DepositRecord_wf r' ->
  adjust_reserved_mint_amount n (Some r) r' = Ok n' -> n' = n - reserved r + reserved r'.
Proof.
  intros Hr Hr' H. unfold adjust_reserved_mint_amount in H.
  rewrite !reserved_mint_amount_wf in H by done. cbn [core map_err] in H. bind H as m Em.
  assert (m = n - reserved r) as ->.
  { destruct (is_deposit_mint_reserved r) eqn:E.
    - apply ok_or_Ok, checked_sub_Some in Em. lia.
    - rewrite reserved_none by done. simplify_eq. lia. }
  destruct (is_deposit_mint_reserved r') eqn:E.
  - apply ok_or_Ok, checked_add_Some in H. lia.
  - rewrite (reserved_none r') by done. simplify_eq. lia.
Qed.

(** The counters after a deposit is replaced, whatever happens to the identifiers
    they hand out. *)
Record deposit_counted (c : CounterState) (prev next : DepositRecord) (c' : CounterState)
    : Prop := {
  dc_reserved : cs_reserved_deposit_mint_amount c'
      = cs_reserved_deposit_mint_amount c - reserved prev + reserved next;
  dc_operations : cs_reserved_deposit_mint_operations c'
      = cs_reserved_deposit_mint_operations c - deposit_reserved prev + deposit_reserved next;
  dc_pending : cs_pending_ledger_operations c'
      = cs_pending_ledger_operations c - deposit_pending prev + deposit_pending next;
  dc_debit : cs_pending_fee_payout_debit c' = cs_pending_fee_payout_debit c;
  dc_payout : cs_next_fee_payout_id c' = cs_next_fee_payout_id c;
  dc_operations_range : is_u64 (cs_reserved_deposit_mint_operations c');
  dc_pending_range : is_u64 (cs_pending_ledger_operations c');
}.

Lemma adjust_deposit_counters_counted s r r' c' :
  counters_balance s -> DepositRecord_wf r -> DepositRecord_wf r' ->
  adjust_deposit_counters (st_counters s) (Some r) r' = Ok c' ->
  deposit_counted (st_counters s) r r' c' /\
  cs_next_hold_id c' = cs_next_hold_id (st_counters s).
Proof.
  intros Hb Hr Hr' H. unfold adjust_deposit_counters in H. cbn [is_some_and] in H.
  bind H as pending Ep. bind H as amount Ea. bind H as operations Eo. apply Ok_inj in H as <-.
  apply adjust_active_count_Ok in Ep as [-> ?]; [|apply Hb].
  apply adjust_reserved_mint_amount_Ok in Ea as ->; [|done..].
  apply adjust_active_count_Ok in Eo as [-> ?]; [|apply Hb]. split; [|done]. by split.
Qed.

(** ** Replacing a deposit *)

Lemma deposit_waits_request d h r t :
  deposit_waits_on d = Some (h, r, t) ->
  r = Ref_DepositFunding (dr_id d) \/ r = Ref_DepositRefund (dr_id d).
Proof. unfold deposit_waits_on. destruct (dr_state d); naive_solver. Qed.

Lemma withdrawal_waits_request w h r t :
  withdrawal_waits_on w = Some (h, r, t) -> r = Ref_Withdrawal (wr_id w).
Proof. unfold withdrawal_waits_on. destruct (wr_state w); naive_solver. Qed.

Section deposit_replaced.
Context (s s' : Store) (id : bytes) (prev next : StoredDeposit).
Hypothesis (Hwf : store_wf s) (Hrow : deposit_row s id = Some prev).
Hypothesis (Hrep : replaces prev next).
Hypothesis (Hup : deposits_updated (st_deposits s) id prev next (st_deposits s')).
Hypothesis (Hsame : st_withdrawals s' = st_withdrawals s) (Hpay : st_payouts s' = st_payouts s).

Lemma deposit_rows_replaced :
  t_rows (dt_deposits (st_deposits s')) = <[id := next]> (t_rows (dt_deposits (st_deposits s))).
Proof. apply Hup. Qed.

Lemma deposit_total_replaced f :
  deposit_total f s' = deposit_total f s - f (sd_record prev) + f (sd_record next).
Proof.
  unfold deposit_total. rewrite deposit_rows_replaced.
  by rewrite (map_sum_update (fun sd => f (sd_record sd)) _ id prev next Hrow).
Qed.

Lemma deposits_wf_replaced : deposits_wf (st_deposits s').
Proof. by eapply deposits_update; [apply Hwf|..]. Qed.

Lemma intake_wf_replaced : st_intake s' = st_intake s -> intake_wf (st_deposits s') (st_intake s').
Proof. intros ->. eapply intake_replaced; [apply Hwf|apply Hwf|done..]. Qed.

Lemma withdrawal_total_same f : withdrawal_total f s' = withdrawal_total f s.
Proof. unfold withdrawal_total. by rewrite Hsame. Qed.

Lemma payout_total_same f : payout_total f s' = payout_total f s.
Proof. unfold payout_total. by rewrite Hpay. Qed.

Lemma counters_replaced :
  deposit_counted (st_counters s) (sd_record prev) (sd_record next) (st_counters s') ->
  counters_balance s'.
Proof.
  intros []. destruct (sw_counters _ Hwf).
  split; rewrite ?deposit_total_replaced, ?withdrawal_total_same, ?payout_total_same; try done; lia.
Qed.

Lemma fees_replaced (fee : Z) :
  charged_fee (sd_record next) = charged_fee (sd_record prev) + fee ->
  as_confirmed_deposit_fees (st_accounting s') = as_confirmed_deposit_fees (st_accounting s) + fee ->
  as_confirmed_withdrawal_fees (st_accounting s') = as_confirmed_withdrawal_fees (st_accounting s) ->
  as_fee_reserve (st_accounting s') = as_fee_reserve (st_accounting s) + fee ->
  fees_balance s'.
Proof.
  intros Hc Hd Hw Hr. destruct (sw_fees _ Hwf).
  split; rewrite ?deposit_total_replaced, ?withdrawal_total_same, ?payout_total_same; lia.
Qed.

(** Who waits for a hold after the replacement. *)
Lemma waits_deposit_replaced x :
  waits s' x <->
  (waits s x /\ deposit_waits_on (sd_record prev) <> Some x) \/
  deposit_waits_on (sd_record next) = Some x.
Proof.
  pose proof (dw_row _ (sw_deposits _ Hwf)) as Hrows.
  assert (dr_id (sd_record prev) = id) as Hid by (by apply (Hrows id prev)).
  unfold waits, deposit_row, withdrawal_row. rewrite Hsame, deposit_rows_replaced.
  setoid_rewrite lookup_insert_Some. destruct x as [[h r] t]. split.
  - intros [(id' & sd & [[<- <-]|[Hne Hsd]] & Hx)|(id' & w & Hw & Hx)]; [by right| |]; left.
    + split; [by left; exists id', sd|]. intros Hp. apply Hne.
      pose proof (sdw_id _ _ (Hrows _ _ Hsd)) as Hid'.
      apply deposit_waits_request in Hp, Hx. naive_solver congruence.
    + split; [by right; exists id', w|]. intros Hp.
      apply deposit_waits_request in Hp. apply withdrawal_waits_request in Hx. naive_solver.
  - intros [[[(id' & sd & Hsd & Hx)|?] Hp]|Hn]; [|by right|left; exists id, next; naive_solver].
    left. exists id', sd. split; [|done]. right. split; [|done]. intros <-.
    unfold deposit_row in Hrow. congruence.
Qed.

Lemma coupled_deposit_same :
  deposit_waits_on (sd_record next) = deposit_waits_on (sd_record prev) ->
  st_holds s' = st_holds s -> holds_coupled s'.
Proof.
  intros Heq Hh h r t. rewrite waits_deposit_replaced. unfold hold_row. rewrite Hh.
  pose proof (sw_coupled _ Hwf h r t) as Hc. unfold hold_row in Hc. rewrite <- Hc, Heq.
  split; [|destruct (decide (deposit_waits_on (sd_record prev) = Some (h, r, t))); naive_solver].
  intros [[? _]|Hp]; [done|]. left. by exists id, prev.
Qed.
End deposit_replaced.

(** ** Replacing or adding a withdrawal *)

Section withdrawal_replaced.
Context (s s' : Store) (id : bytes) (next : WithdrawalRecord).
Hypothesis (Hwf : store_wf s) (Hnext : stored_withdrawal_wf id next).
Hypothesis (Hrows : t_rows (wt_withdrawals (st_withdrawals s'))
  = <[id := next]> (t_rows (wt_withdrawals (st_withdrawals s)))).
Hypothesis (Hsame : st_deposits s' = st_deposits s) (Hpay : st_payouts s' = st_payouts s).

Abbreviation prev := (withdrawal_row s id).

Lemma withdrawal_total_replaced f :
  withdrawal_total f s' = withdrawal_total f s - map_or 0 f prev + f next.
Proof.
  unfold withdrawal_total. rewrite Hrows. unfold withdrawal_row.
  destruct (t_rows (wt_withdrawals (st_withdrawals s)) !! id) as [old|] eqn:Ho; simpl.
  - by apply map_sum_update.
  - rewrite map_sum_insert by done. lia.
Qed.

Lemma deposit_total_kept f : deposit_total f s' = deposit_total f s.
Proof. unfold deposit_total. by rewrite Hsame. Qed.

Lemma payout_total_kept f : payout_total f s' = payout_total f s.
Proof. unfold payout_total. by rewrite Hpay. Qed.

Lemma withdrawal_counted pending :
  adjust_active_count (cs_pending_ledger_operations (st_counters s))
    (is_some_and prev is_pending_withdrawal_ledger) (is_pending_withdrawal_ledger next)
    = Ok pending ->
  cs_pending_ledger_operations (st_counters s') = pending ->
  cs_reserved_deposit_mint_amount (st_counters s')
    = cs_reserved_deposit_mint_amount (st_counters s) ->
  cs_reserved_deposit_mint_operations (st_counters s')
    = cs_reserved_deposit_mint_operations (st_counters s) ->
  cs_pending_fee_payout_debit (st_counters s') = cs_pending_fee_payout_debit (st_counters s) ->
  counters_balance s'.
Proof.
  intros Hp Heq Ha Ho Hd. pose proof (sw_counters _ Hwf) as Hb.
  apply adjust_active_count_Ok in Hp as [-> Hrange]; [|apply Hb]. destruct Hb.
  assert (map_or 0 withdrawal_pending prev
    = Z.b2z (is_some_and prev is_pending_withdrawal_ledger)) as Hprev by (by destruct prev).
  split; rewrite ?withdrawal_total_replaced, ?deposit_total_kept, ?payout_total_kept, ?Hprev;
    rewrite ?Heq, ?Ha, ?Ho, ?Hd; try done; unfold withdrawal_pending at 2; lia.
Qed.

Lemma withdrawal_fees fee :
  withdrawal_fee next = map_or 0 withdrawal_fee prev + fee ->
  as_confirmed_deposit_fees (st_accounting s') = as_confirmed_deposit_fees (st_accounting s) ->
  as_confirmed_withdrawal_fees (st_accounting s')
    = as_confirmed_withdrawal_fees (st_accounting s) + fee ->
  as_fee_reserve (st_accounting s') = as_fee_reserve (st_accounting s) + fee ->
  fees_balance s'.
Proof.
  intros Hc Hd Hw Hr. destruct (sw_fees _ Hwf).
  split; rewrite ?withdrawal_total_replaced, ?deposit_total_kept, ?payout_total_kept; lia.
Qed.

Lemma waits_withdrawal_replaced x :
  waits s' x <->
  (waits s x /\ prev ≫= withdrawal_waits_on <> Some x) \/ withdrawal_waits_on next = Some x.
Proof.
  pose proof (ww_row _ (proj1 (sw_withdrawals _ Hwf))) as Hold.
  unfold waits, deposit_row, withdrawal_row. rewrite Hsame, Hrows.
  setoid_rewrite lookup_insert_Some. destruct x as [[h r] t]. split.
  - intros [(id' & sd & Hsd & Hx)|(id' & w & [[<- <-]|[Hne Hw]] & Hx)]; [| by right|]; left.
    + split; [by left; exists id', sd|]. intros (w & _ & Hp)%bind_Some.
      apply deposit_waits_request in Hx. apply withdrawal_waits_request in Hp. naive_solver.
    + split; [by right; exists id', w|]. intros (w' & Hw' & Hp)%bind_Some. apply Hne.
      rewrite <- (sww_id _ _ (Hold _ _ Hw)), <- (sww_id _ _ (Hold _ _ Hw')).
      apply withdrawal_waits_request in Hp, Hx. congruence.
  - intros [[[?|(id' & w & Hw & Hx)] Hp]|Hn]; [by left| |right; exists id, next; naive_solver].
    right. exists id', w. split; [|done]. right. split; [|done]. intros <-.
    apply Hp. by rewrite Hw.
Qed.

Lemma coupled_withdrawal_same :
  withdrawal_waits_on next = prev ≫= withdrawal_waits_on ->
  st_holds s' = st_holds s -> holds_coupled s'.
Proof.
  intros Heq Hh h r t. rewrite waits_withdrawal_replaced. unfold hold_row. rewrite Hh.
  pose proof (sw_coupled _ Hwf h r t) as Hc. unfold hold_row in Hc. rewrite <- Hc, Heq.
  split; [|destruct (decide (prev ≫= withdrawal_waits_on = Some (h, r, t))); naive_solver].
  intros [[? _]|(w & Hw & Hx)%bind_Some]; [done|]. right. by exists id, w.
Qed.
End withdrawal_replaced.
