(* ===== verification/StoreSafety.v ===== *)
(** * What the store guarantees

    Every transaction of [Store.v] and [Bundles.v] preserves the invariant of
    [StoreInvariant.v]; along any history of transactions the escrow then covers
    the circulating supply, the open obligations and the fee reserve. *)

From S2P Require Import Prelude KernelArith KernelPolicy Types Accounting External Authorization.
From S2P Require Import Withdrawal WithdrawalSafety Deposit DepositProtocol DepositInvariant Reconciliation HoldSafety.
From S2P Require Import Tables StorageTypes Jobs EventLog Store Bundles Intake DepositRows WithdrawalRows IntakeRows StoreInvariant Examples.

(** ** Frames *)

(** Jobs, the manual claim quota and the audit log are not part of the
    invariant. *)
Lemma store_wf_frame s s' :
  store_wf s -> st_deposits s' = st_deposits s -> st_withdrawals s' = st_withdrawals s ->
  st_holds s' = st_holds s -> st_payouts s' = st_payouts s -> st_counters s' = st_counters s ->
  st_accounting s' = st_accounting s -> st_intake s' = st_intake s -> store_wf s'.
Proof.
  destruct s, s'. simpl. intros [] -> -> -> -> -> -> ->. simpl in *.
  split; simpl; try done.
  - destruct sw_counters. by split.
  - destruct sw_fees. by split.
Qed.

(** A fee of zero is not confirmed. *)
Lemma confirm_core a kind fee a' :
  (if fee =? 0 then Ok a else core (AccountingState_confirm_fee a kind fee)) = Ok a' ->
  as_fee_reserve a' = as_fee_reserve a + fee /\
  as_confirmed_deposit_fees a' = as_confirmed_deposit_fees a
    + match kind with FeeKind_Deposit => fee | FeeKind_Withdrawal => 0 end /\
  as_confirmed_withdrawal_fees a' = as_confirmed_withdrawal_fees a
    + match kind with FeeKind_Deposit => 0 | FeeKind_Withdrawal => fee end.
Proof.
  intros H. apply confirm_fee_credits. destruct (fee =? 0); [by apply Ok_inj in H as ->|].
  by apply core_Ok.
Qed.

Section transactions.
Context (encode : StoredValue -> Result StorageError unit).
Context (transfer_identity_hash : LedgerTransferIdentity -> bytes).
Context (scan_key : ReconciliationTarget -> bytes).
Context (encode_event : AuditEvent AuditEventKind -> Result StorageError bytes).
Context (retention_encodes : AuditRetentionState -> bool).
Context (sha256 : bytes -> bytes).

Lemma claim_for_frame s context outcome s' :
  claim_for encode s context = Ok (outcome, s') ->
  exists jobs admission, s' = with_jobs s jobs admission.
Proof.
  unfold claim_for. intros H. bind H as limits El. bind H as [[o jobs] adm] Ec.
  apply Ok_inj in H. injection H as <- <-. eauto.
Qed.

(** ** Writing a deposit *)

Definition with_record (prev : StoredDeposit) (value : DepositRecord) : StoredDeposit :=
  {| sd_record := value; sd_owner_sequence := sd_owner_sequence prev;
     sd_base_recipient := sd_base_recipient prev |}.

(** A record that may replace a stored one outside of a hold bundle. *)
Record writable (s : Store) (prev : StoredDeposit) (value : DepositRecord) : Prop := {
  wb_row : deposit_row s (dr_id value) = Some prev;
  wb_request : same_request (sd_record prev) value;
  wb_wf : DepositRecord_wf value;
  wb_waits : deposit_waits_on value = deposit_waits_on (sd_record prev);
  wb_fee : forall fee, derived_fee_delta (Some (sd_record prev)) value = Ok fee ->
    charged_fee value = charged_fee (sd_record prev) + fee;
}.

Section put.
Context (s : Store) (prev : StoredDeposit) (value : DepositRecord).
Hypothesis (Hwf : store_wf s) (Hwritable : writable s prev value).
Let Hrow : deposit_row s (dr_id value) = Some prev.
Proof. apply Hwritable. Qed.
Let Hreq : same_request (sd_record prev) value.
Proof. apply Hwritable. Qed.
Let Hvalue : DepositRecord_wf value.
Proof. apply Hwritable. Qed.

Abbreviation next := (with_record prev value).

Lemma put_replaces : replaces prev next.
Proof. by split. Qed.

(** The claim of the same transaction: refused, or nothing but jobs changed. *)
Lemma put_claim (context : option ManualSettlementClaimContext) (claim : option ManualClaimTransaction) s1 :
  match context with
  | Some context => let? (outcome, s) := db (claim_for encode s context) in Ok (Some outcome, s)
  | None => Ok (None, s)
  end = Ok (claim, s1) ->
  exists jobs admission, s1 = with_jobs s jobs admission.
Proof.
  destruct context as [context|]; intros H.
  - bind H as [o s2] E. apply Ok_inj in H. injection H as _ <-.
    apply db_Ok in E. by apply claim_for_frame in E.
  - apply Ok_inj in H. injection H as _ <-.
    exists (st_jobs s), (st_settlement_admission s). by destruct s.
Qed.

(** The fee the write confirms, with or without the result of a transition. *)
Lemma put_fee result derived fee :
  derived_fee_delta (Some (sd_record prev)) value = Ok derived ->
  match result with
  | Some result => checked_transition_fee (Some (sd_record prev)) value derived result
  | None => Ok derived
  end = Ok fee ->
  charged_fee value = charged_fee (sd_record prev) + fee.
Proof.
  intros Hd Hf. apply (wb_fee _ _ _ Hwritable). rewrite Hd. f_equal. destruct result; [|by apply Ok_inj in Hf].
  apply checked_transition_fee_Ok in Hf as (_ & _ & ->); [done| |done].
  apply (sdw_record (dr_id value)). by apply (dw_row _ (sw_deposits _ Hwf)).
Qed.

Lemma put_written jobs admission d counters accounting fee :
  write_deposit_rows (st_deposits s) (Some (sd_record prev)) next
    (deadline_entry (sd_record prev)) (deadline_entry value) (owner_key next) = Ok d ->
  adjust_deposit_counters (st_counters s) (Some (sd_record prev)) value = Ok counters ->
  (if fee =? 0 then Ok (st_accounting s)
   else core (AccountingState_confirm_fee (st_accounting s) FeeKind_Deposit fee)) = Ok accounting ->
  charged_fee value = charged_fee (sd_record prev) + fee ->
  store_wf (with_singletons (with_deposits (with_jobs s jobs admission) d) counters accounting).
Proof.
  intros Hd Hc Ha Hf. pose proof (dw_row _ (sw_deposits _ Hwf) _ _ Hrow) as Hprev.
  apply (write_deposit_rows_updated _ _ (dr_id value) prev next) in Hd;
    [|apply Hwf|done|apply put_replaces].
  apply adjust_deposit_counters_counted in Hc as [Hc Hhold]; [|apply Hwf|apply Hprev|done].
  apply confirm_core in Ha as (? & ? & ?). pose proof put_replaces as Hrep.
  set (s' := with_singletons _ _ _). split.
  - by apply (deposits_wf_replaced s s' (dr_id value) prev next).
  - apply Hwf.
  - simpl. rewrite Hhold. apply Hwf.
  - simpl. rewrite (dc_payout _ _ _ _ Hc). apply Hwf.
  - by apply (counters_replaced s s' (dr_id value) prev next).
  - apply (fees_replaced s s' (dr_id value) prev next) with fee; try done; simpl; lia.
  - apply (coupled_deposit_same s s' (dr_id value) prev next); try done. apply Hwritable.
  - by apply (intake_wf_replaced s s' (dr_id value) prev next).
Qed.

(** The write itself: nothing but the jobs, when the claim of the same transaction
    is refused, or the row with its indexes, the counters and the fee. *)
Lemma put_deposit_outcome token result context out s' :
  put_deposit_with_audit encode transfer_identity_hash s value token result context = Ok (out, s') ->
  exists jobs admission, s' = with_jobs s jobs admission \/
    exists d counters accounting fee,
      write_deposit_rows (st_deposits s) (Some (sd_record prev)) next
        (deadline_entry (sd_record prev)) (deadline_entry value) (owner_key next) = Ok d /\
      adjust_deposit_counters (st_counters s) (Some (sd_record prev)) value = Ok counters /\
      (if fee =? 0 then Ok (st_accounting s)
       else core (AccountingState_confirm_fee (st_accounting s) FeeKind_Deposit fee)) = Ok accounting /\
      charged_fee value = charged_fee (sd_record prev) + fee /\
      s' = with_singletons (with_deposits (with_jobs s jobs admission) d) counters accounting.
Proof.
  pose proof (dw_row _ (sw_deposits _ Hwf) _ _ Hrow) as Hprev.
  pose proof (replaces_stored _ _ _ Hprev put_replaces) as Hnext. pose proof put_fee as Hput.
  unfold put_deposit_with_audit. intros H.
  change (t_rows (dt_deposits (st_deposits s)) !! dr_id value) with (deposit_row s (dr_id value)) in H.
  rewrite Hrow in H. cbn [fmap option_fmap option_map ok_or] in H. fold (with_record prev value) in H.
  bind H as u0 E0. bind H as counters Ec. bind H as derived Ed. bind H as fee Ef.
  bind H as accounting Ea. bind H as u1 E1. bind H as u2 E2. bind H as u3 E3.
  pose proof (owner_key_eq _ _ Hnext) as Hokey. pose proof (deadline_key_eq _ _ Hnext) as Hdkey.
  cbn [sd_record sd_owner_sequence with_record] in Hokey, Hdkey.
  rewrite Hokey, (deadline_key_eq _ _ Hprev), Hdkey in H.
  bind H as [claim s1] Eclaim. apply put_claim in Eclaim as (jobs & admission & ->).
  apply Hput in Ef; [|done]. exists jobs, admission.
  destruct claim as [[]|]; try (apply Ok_inj in H; injection H as _ <-; by left);
    bind H as u4 E4; bind H as d E5; apply db_Ok in E5; apply Ok_inj in H; injection H as _ <-;
    right; by exists d, counters, accounting, fee.
Qed.

Lemma put_deposit_with_audit_wf token result context out s' :
  put_deposit_with_audit encode transfer_identity_hash s value token result context = Ok (out, s') ->
  store_wf s'.
Proof.
  intros H. apply put_deposit_outcome in H
    as (jobs & admission & [->|(d & counters & accounting & fee & Hd & Hc & Ha & Hf & ->)]).
  - by apply (store_wf_frame s).
  - by apply put_written with fee.
Qed.
End put.

(** An event that puts no hold on the deposit, and the dispatch of a signature. *)
Definition unambiguous (e : DepositEvent) : bool :=
  match e with FundingAmbiguous _ | RefundAmbiguous _ => false | _ => true end.

Lemma step_waits r e res r' :
  DepositStep r e res r' -> unambiguous e = true -> deposit_waits_on r' = deposit_waits_on r.
Proof.
  unfold deposit_waits_on. intros Hstep He. deposit_steps Hstep; simpl in *; try done; try by rewrite Hs.
  - by destruct Ho as [? ? Hs|? ? Hs|? ? ? [Hs|Hs]]; rewrite Hs.
  - by destruct Hs as [Hs|[? Hs]]; rewrite Hs.
Qed.

Lemma derived_fee_same r : derived_fee_delta (Some r) r = Ok 0.
Proof. unfold derived_fee_delta. by destruct (dr_state r). Qed.

Lemma step_fee r e res r' fee :
  DepositRecord_wf r -> DepositStep r e res r' -> derived_fee_delta (Some r) r' = Ok fee ->
  charged_fee r' = charged_fee r + fee.
Proof.
  intros Hwf Hstep Hfee. destruct (ar_outcome res) eqn:Happ.
  - pose proof (storage_step_effects _ _ _ _ Hwf Hstep Happ) as [Hd Heff].
    pose proof (eb_fee _ _ _ (proj1 (deposit_step_balance _ _ _ _ Hwf Hstep Happ))) as Hb.
    unfold effects_of in Hb. rewrite Heff in Hb. simpl in Hb. rewrite Hd in Hfee.
    by injection Hfee as <-.
  - assert (r' = r) as ->. { by deposit_steps Hstep. }
    rewrite derived_fee_same in Hfee. injection Hfee as <-. lia.
Qed.

Lemma event_writable s sd e res r' :
  store_wf s -> deposit_row s (dr_id (sd_record sd)) = Some sd ->
  DepositStep (sd_record sd) e res r' -> unambiguous e = true -> writable s sd r'.
Proof.
  intros Hwf Hrow Hstep Hu.
  pose proof (sdw_record _ _ (dw_row _ (sw_deposits _ Hwf) _ _ Hrow)) as Hr.
  pose proof (deposit_step_same_request _ _ _ _ Hstep) as Hreq. split; [|done|..].
  - by destruct Hreq as [-> _].
  - by eapply deposit_step_wf.
  - by eapply step_waits.
  - intros fee. by eapply step_fee.
Qed.

Lemma dispatch_writable s sd t digest r' :
  store_wf s -> deposit_row s (dr_id (sd_record sd)) = Some sd ->
  dispatch_mint_signature (sd_record sd) t = Ok (digest, r') -> writable s sd r'.
Proof.
  intros Hwf Hrow Hd.
  pose proof (sdw_record _ _ (dw_row _ (sw_deposits _ Hwf) _ _ Hrow)) as Hr.
  pose proof (dispatch_wf _ _ _ _ Hr Hd) as (Hwf' & Hreq & Hbal).
  assert (dr_state r' = dr_state (sd_record sd)) as Hst.
  { by apply dispatch_mint_signature_Ok in Hd as [->|(? & ? & -> & _)]. }
  split; [|done|done|..].
  - by destruct Hreq as [-> _].
  - destruct Hreq as (Hi & _ & _ & _ & Ht). unfold deposit_waits_on. by rewrite Hst, Hi, Ht.
  - intros fee Hfee. pose proof (eb_fee _ _ _ Hbal) as Hb. simpl in Hb.
    unfold derived_fee_delta in Hfee. rewrite Hst in Hfee.
    destruct (dr_state (sd_record sd)); injection Hfee as <-; lia.
Qed.

(** ** Writing a withdrawal *)

(** The counters that only follow the pending ledger calls. *)
Record pending_counted (c : CounterState) (pending : Z) (c' : CounterState) : Prop := {
  pc_pending : cs_pending_ledger_operations c' = pending;
  pc_amount : cs_reserved_deposit_mint_amount c' = cs_reserved_deposit_mint_amount c;
  pc_operations : cs_reserved_deposit_mint_operations c' = cs_reserved_deposit_mint_operations c;
  pc_debit : cs_pending_fee_payout_debit c' = cs_pending_fee_payout_debit c;
}.

Section put_withdrawal.
Context (s s' : Store) (value : WithdrawalRecord) (pending fee : Z).
Hypothesis (Hwf : store_wf s).
Abbreviation prev := (withdrawal_row s (wr_id value)).
Hypothesis (Hrows_wf : withdrawal_rows_wf (st_withdrawals s')).
Hypothesis (Hrows : withdrawal_rows (st_withdrawals s')
  = <[wr_id value := value]> (withdrawal_rows (st_withdrawals s))).
Hypothesis (Hrelease_wf : table_wf (wt_release_pending (st_withdrawals s'))).
Hypothesis (Hrelease : t_rows (wt_release_pending (st_withdrawals s')) =
    (if is_pending_withdrawal_ledger value then <[wr_id value := tt]> else delete (wr_id value))
      (t_rows (wt_release_pending (st_withdrawals s)))).
Hypothesis (Hpending : adjust_active_count (cs_pending_ledger_operations (st_counters s))
    (is_some_and prev is_pending_withdrawal_ledger) (is_pending_withdrawal_ledger value)
    = Ok pending).
Hypothesis (Hcounters : pending_counted (st_counters s) pending (st_counters s')).
Hypothesis (Hfee : withdrawal_fee value = map_or 0 withdrawal_fee prev + fee).
Hypothesis (Haccounting : (if fee =? 0 then Ok (st_accounting s)
   else core (AccountingState_confirm_fee (st_accounting s) FeeKind_Withdrawal fee))
    = Ok (st_accounting s')).
Hypothesis (Hdeposits : st_deposits s' = st_deposits s) (Hpayouts : st_payouts s' = st_payouts s).

(** The row, its index entry, the pending count and the fee. *)
Lemma withdrawal_parts :
  withdrawals_wf (st_withdrawals s') /\ counters_balance s' /\ fees_balance s'.
Proof.
  destruct (sw_withdrawals _ Hwf) as [Hrw [_ Hmem]].
  apply confirm_core in Haccounting as (? & ? & ?). destruct Hcounters. split_and!.
  - split; [done|]. split; [done|]. rewrite Hrelease, Hrows. by apply members_update.
  - by eapply (withdrawal_counted s s' (wr_id value)).
  - apply (withdrawal_fees s s' (wr_id value) value Hwf) with fee; try done; lia.
Qed.

Lemma withdrawal_written sequence :
  withdrawal_waits_on value = prev ≫= withdrawal_waits_on ->
  st_counters s' = with_next_audit (with_pending (st_counters s) pending) sequence ->
  st_holds s' = st_holds s -> intake_wf (st_deposits s) (st_intake s') -> store_wf s'.
Proof.
  intros Hwaits Ec Eh Hi. destruct withdrawal_parts as (? & ? & ?).
  split; rewrite ?Hdeposits, ?Eh, ?Hpayouts, ?Ec; simpl; try done; try apply Hwf.
  by apply (coupled_withdrawal_same s s' (wr_id value) value Hwf).
Qed.
End put_withdrawal.

Lemma withdrawal_step_stored id r e res r' :
  stored_withdrawal_wf id r -> WithdrawalStep r e res r' -> stored_withdrawal_wf id r'.
Proof.
  intros [Hid Hreq Hwf] Hstep. pose proof (withdrawal_step_wf _ _ _ _ Hwf Hstep) as Hwf'.
  destruct Hstep; by split.
Qed.

Definition unambiguous_release (e : WithdrawalEvent) : bool :=
  match e with ReleaseAmbiguous _ => false | _ => true end.

Lemma release_step_waits r e res r' :
  WithdrawalStep r e res r' -> unambiguous_release e = true ->
  withdrawal_waits_on r' = withdrawal_waits_on r.
Proof.
  unfold withdrawal_waits_on. by destruct 1 as [|? ? Hs|? ? ? Hs|? ? ? Hs]; simpl; rewrite ?Hs.
Qed.

(** The fee a paid release keeps, as the storage layer computes it. *)
Lemma net_fee w a s fee :
  WithdrawalRecord_quoted w -> attempt_pays w a s -> Settlement_net_service_fee s = Ok fee ->
  fee = wr_charged_service_fee w - s_ledger_fee s.
Proof.
  intros Hq Hp H. pose proof (attempt_pays_ranged _ _ _ Hq Hp) as (? & ? & ?). destruct Hp.
  apply ok_or_Ok, fmap_Some in H as (d & Hd & ->). rewrite settlement_decision_spec in Hd by done.
  case_match; [|done]. injection Hd as <-. simpl. lia.
Qed.

Lemma release_step_fee r e res r' fee :
  WithdrawalRecord_wf r -> WithdrawalStep r e res r' -> released_fee (Some r) r' = Ok fee ->
  withdrawal_fee r' = withdrawal_fee r + fee.
Proof.
  intros [Hq Hst] Hstep Hfee. unfold released_fee, withdrawal_fee in *. simpl in Hfee.
  destruct Hstep as [e _|a s Hs|a s b Hs|a s h Hs]; simpl in *; try rewrite Hs in Hfee;
    try rewrite Hs; try (injection Hfee as <-; lia).
  - destruct (wr_state r); injection Hfee as <-; lia.
  - rewrite Hs in Hst. apply core_Ok, (net_fee r a s) in Hfee; [lia|done..].
Qed.

Lemma withdrawal_event_wf s r e res r' s' :
  store_wf s -> withdrawal_row s (wr_id r) = Some r ->
  WithdrawalEvent_ranged e -> unambiguous_release e = true ->
  WithdrawalRecord_apply r e = Ok (res, r') -> put_withdrawal encode s r' = Ok s' -> store_wf s'.
Proof.
  intros Hwf Hrow He Hu Happ H. destruct (sw_withdrawals _ Hwf) as [Hrw [Hrel Hmem]].
  pose proof (ww_row _ Hrw _ _ Hrow) as Hr.
  apply withdrawal_apply_sound in Happ; [|apply Hr|done].
  pose proof (withdrawal_step_stored _ _ _ _ _ Hr Happ) as Hr'.
  pose proof (sww_id _ _ Hr') as Hid. rewrite <- Hid in Hrow, Hr'.
  unfold put_withdrawal in H. cbv zeta in H.
  change (t_rows (wt_withdrawals (st_withdrawals s)) !! wr_id r') with (withdrawal_row s (wr_id r')) in H.
  bind H as fee Ef. bind H as accounting Ea. bind H as pending Ep.
  bind H as u1 E1. bind H as u2 E2. bind H as u3 E3.
  bind H as rel1 Er1. bind H as rel2 Er2. bind H as t Et.
  apply Ok_inj in H as <-. apply db_Ok in Er1, Er2, Et.
  assert (withdrawal_rows_wf (with_release_pending (st_withdrawals s) rel2)) as Hrw'
    by (by destruct Hrw).
  apply replace_withdrawal_row_Ok in Et as (Hw' & _ & Rw & Rr); [|done..].
  apply remove_if_rows in Er1 as [Hr1 Rr1]; [|done|].
  2: { rewrite Hrow. intros Hn. by eapply members_absent. }
  assert (table_wf rel2 /\ t_rows rel2 = (if is_pending_withdrawal_ledger r'
            then <[wr_id r' := tt]> else delete (wr_id r'))
            (t_rows (wt_release_pending (st_withdrawals s)))) as [Hr2 Rr2].
  { destruct (is_pending_withdrawal_ledger r'); [|by injection Er2 as <-].
    apply upsert_rows in Er2 as [? ->]; [|done]. by rewrite Rr1, insert_delete_eq. }
  assert (withdrawal_waits_on r' = withdrawal_row s (wr_id r') ≫= withdrawal_waits_on) as Hw
    by (rewrite Hrow; by eapply release_step_waits).
  apply (withdrawal_written s _ r' pending fee Hwf) with (cs_next_audit_sequence (st_counters s));
    simpl; rewrite ?Rr; try done; [|apply Hwf].
  rewrite Hrow in Ef |- *. eapply release_step_fee; [apply Hr|done..].
Qed.

(** ** New withdrawals and the fee guard *)

Lemma prepare_bundle_audit_counters s counters audit batch counters' :
  prepare_bundle_audit encode_event retention_encodes sha256 s counters audit
    = Ok (batch, counters') ->
  exists sequence, counters' = with_next_audit counters sequence.
Proof.
  destruct audit as [[[caller timestamp] kinds]|]; simpl; intros H.
  - bind H as [b n] E. apply Ok_inj in H. injection H as _ <-. eauto.
  - apply Ok_inj in H. injection H as _ <-.
    exists (cs_next_audit_sequence counters). by destruct counters.
Qed.

Lemma commit_bundle_audit_frame s audit s' :
  commit_bundle_audit s audit = Ok s' ->
  exists events retention, s' = with_audit s events retention.
Proof.
  destruct audit as [batch|]; simpl; intros H.
  - bind H as events E. apply Ok_inj in H as <-. eauto.
  - apply Ok_inj in H as <-. exists (st_audit_events s), (st_audit_retention s). by destruct s.
Qed.

Lemma record_notification_frame t i id hash i' :
  record_notification i id hash = Ok i' -> intake_wf t i ->
  intake_wf t i' /\ in_attempts i' = in_attempts i.
Proof.
  destruct hash as [hash|]; simpl; intros H Hi; [|by apply Ok_inj in H as <-].
  bind H as notes En. bind H as trans Et. apply Ok_inj in H as <-. split; [by apply (intake_frame t i)|done].
Qed.

(** A withdrawal observed on Base, before anything was paid for it. *)
Definition unpaid (w : WithdrawalRecord) : Prop :=
  withdrawal_waits_on w = None /\ withdrawal_fee w = 0.

(** The writes of a bundle that stores a withdrawal that was not known. *)
Record withdrawal_added (s s' : Store) (w : WithdrawalRecord) : Prop := {
  wa_rows : exists t release,
    replace_withdrawal_row (st_withdrawals s) (wr_id w) None w = Ok t /\
    (if is_pending_withdrawal_ledger w then insert_tracked_entry (wt_release_pending t) (wr_id w) tt
     else Ok (wt_release_pending t)) = Ok release /\
    st_withdrawals s' = with_release_pending t release;
  wa_room : cs_pending_ledger_operations (st_counters s) + withdrawal_pending w <= u64_max;
  wa_counters : exists sequence,
    st_counters s' = with_next_audit (with_pending (st_counters s)
      (cs_pending_ledger_operations (st_counters s) + withdrawal_pending w)) sequence;
  wa_deposits : st_deposits s' = st_deposits s;
  wa_holds : st_holds s' = st_holds s;
  wa_payouts : st_payouts s' = st_payouts s;
  wa_accounting : st_accounting s' = st_accounting s;
  wa_intake : intake_wf (st_deposits s) (st_intake s');
  wa_attempts : in_attempts (st_intake s') = in_attempts (st_intake s);
}.

Lemma withdrawal_added_wf s w s' :
  store_wf s -> stored_withdrawal_wf (wr_id w) w -> unpaid w -> withdrawal_added s s' w -> store_wf s'.
Proof.
  intros Hwf Hw [Hwait Hfee] [(t & release & Ht & Hrel & Es) Hmax [sequence Ec] Ed Eh Ep Ea Hi _].
  destruct (sw_withdrawals _ Hwf) as [Hrw [Hrelwf Hmem]].
  apply replace_withdrawal_row_Ok in Ht as (Hw' & Hnone & Rw & Rr); [|done..].
  change (None = withdrawal_row s (wr_id w)) in Hnone. rewrite Rr in Hrel.
  assert (t_rows (wt_release_pending (st_withdrawals s)) !! wr_id w = None) as Habs.
  { destruct (_ !! wr_id w) as [[]|] eqn:E; [|done]. apply Hmem in E as (w' & Hw1 & _).
    unfold withdrawal_row in Hnone. congruence. }
  apply (withdrawal_written s s' w (cs_pending_ledger_operations (st_counters s)
    + withdrawal_pending w) 0 Hwf) with sequence; rewrite ?Es, ?Ea, ?Ec, <- ?Hnone; try done.
  - by destruct Hw'.
  - destruct (is_pending_withdrawal_ledger w); [|by injection Hrel as <-].
    by apply insert_rows in Hrel as [? _].
  - simpl. destruct (is_pending_withdrawal_ledger w); [by apply insert_rows in Hrel as (_ & _ & ?)|].
    injection Hrel as <-. by rewrite delete_id.
  - pose proof (cb_pending_range _ (sw_counters _ Hwf)) as Hrange. ranges.
    unfold adjust_active_count. rewrite checked_counter_transition_spec by done. cbv zeta. simpl.
    unfold withdrawal_pending in *. destruct (is_pending_withdrawal_ledger w); simpl in *.
    all: destruct (_ || _) eqn:E; simpl; [reflect; lia|]. all: f_equal; lia.
Qed.

(** What the caller of a bundle knows of a withdrawal observed on Base. *)
Record observed_burn (w : WithdrawalRecord) : Prop := {
  ob_requester : length (wr_base_requester w) = 20%nat;
  ob_quoted : WithdrawalRecord_quoted w;
  ob_settlement : match wr_state w with ReleasePending _ s => Settlement_ranged s | _ => True end;
}.

Lemma apply_withdrawal_step r e r' :
  WithdrawalRecord_wf r -> WithdrawalEvent_ranged e -> apply_withdrawal r e = Ok r' ->
  exists res, WithdrawalStep r e res r'.
Proof.
  intros Hwf He H. unfold apply_withdrawal in H. bind H as [res r1] E. apply Ok_inj in H as <-.
  apply core_Ok in E. exists res. by apply withdrawal_apply_sound.
Qed.

Lemma started_wf w a s :
  observed_burn w -> wr_state w = ReleasePending a s ->
  apply_withdrawal (WithdrawalRecord_with_state w Observed) (StartRelease a s) = Ok w ->
  stored_withdrawal_wf (wr_id w) w.
Proof.
  intros [Hreq Hq Hs] Hst H. rewrite Hst in Hs.
  apply apply_withdrawal_step in H as [res Hstep]; [|split; [by apply quoted_with_state|done]|done].
  split; [done..|]. eapply withdrawal_step_wf; [|done]. split; [by apply quoted_with_state|done].
Qed.

(** A new withdrawal starts its release in the transaction that stores it. *)
Lemma new_withdrawal_bundle_Ok s w progress audit hash ingestion fresh s' :
  store_wf s ->
  commit_new_withdrawal_release_bundle_inner encode encode_event retention_encodes sha256
    s w progress audit hash ingestion = Ok (fresh, s') ->
  s' = s \/ exists a st, wr_state w = ReleasePending a st /\
    apply_withdrawal (WithdrawalRecord_with_state w Observed) (StartRelease a st) = Ok w /\
    withdrawal_added s s' w.
Proof.
  intros Hwf H. unfold commit_new_withdrawal_release_bundle_inner in H. cbv zeta in H.
  destruct (is_some_and hash _); [done|]. destruct (withdrawal_row s (wr_id w)) eqn:Hrow.
  { left. case_bool_decide; [|done]. apply Ok_inj in H. by injection H as _ <-. }
  right. bind H as [a st] Es. assert (wr_state w = ReleasePending a st) as Hst.
  { by destruct (wr_state w); simplify_eq. } clear Es.
  bind H as expected Ee. case_bool_decide as Hexp; [done|]. subst expected.
  bind H as pending Ep. bind H as [batch counters] Ec. bind H as u1 E1. bind H as u2 E2.
  bind H as u3 E3. bind H as adm Eadm. bind H as s1 E. apply Ok_inj in H. injection H as _ <-.
  apply db_Ok in E. bind E as t Et. bind E as i1 Ei. bind E as rel Er. bind E as s2 Ea.
  apply Ok_inj in E as <-. apply commit_bundle_audit_frame in Ea as (events & retention & ->).
  apply prepare_bundle_audit_counters in Ec as [sequence ->].
  apply ok_or_Ok, checked_add_Some in Ep as [Hp ->].
  apply (record_notification_frame (st_deposits s)) in Ei as [Hi Hatt]; [|apply Hwf].
  assert (is_pending_withdrawal_ledger w = true) as Hpend
    by (unfold is_pending_withdrawal_ledger; by rewrite Hst).
  exists a, st. split; [done|]. split; [done|].
  split; simpl; unfold withdrawal_pending; rewrite ?Hpend; eauto. by apply (intake_frame _ i1).
Qed.

Lemma new_withdrawal_bundle_wf s w progress audit hash ingestion fresh s' :
  store_wf s -> observed_burn w ->
  commit_new_withdrawal_release_bundle_inner encode encode_event retention_encodes sha256
    s w progress audit hash ingestion = Ok (fresh, s') -> store_wf s'.
Proof.
  intros Hwf Hob H. apply new_withdrawal_bundle_Ok in H as [->|(a & st & Hst & Happ & Hadd)]; [done| |done].
  apply (withdrawal_added_wf s w); try done; [by eapply started_wf|].
  unfold unpaid, withdrawal_waits_on, withdrawal_fee. by rewrite Hst.
Qed.

(** A withdrawal the fee guard stops is stored as it was observed. *)
Lemma fee_guard_trip_Ok s w progress admin caller now kinds hash window limit s' :
  store_wf s ->
  commit_withdrawal_fee_guard_trip_bundle encode encode_event retention_encodes sha256
    s w progress admin caller now kinds hash window limit = Ok s' ->
  wr_state w = Observed /\ withdrawal_added s s' w.
Proof.
  intros Hwf H. unfold commit_withdrawal_fee_guard_trip_bundle in H. cbv zeta in H.
  destruct (_ || _) eqn:Eg; [done|]. bind H as u0 E0. bind H as [batch counters] Ec.
  bind H as u1 E1. bind H as u2 E2. bind H as u3 E3. bind H as u4 E4. bind H as adm Eadm.
  bind H as s1 E. apply Ok_inj in H as <-.
  apply db_Ok in E. bind E as t Et. bind E as i1 Ei. bind E as s2 Ea. apply Ok_inj in E as <-.
  apply commit_bundle_audit_frame in Ea as (events & retention & ->).
  apply prepare_bundle_audit_counters in Ec as [sequence ->].
  apply (record_notification_frame (st_deposits s)) in Ei as [Hi Hatt]; [|apply Hwf].
  assert (wr_state w = Observed) as Hst.
  { unfold is_observed in Eg. destruct (wr_state w); [done|..]; by rewrite !orb_true_r in Eg. }
  assert (is_pending_withdrawal_ledger w = false) as Hnp
    by (unfold is_pending_withdrawal_ledger; by rewrite Hst).
  pose proof (cb_pending_range _ (sw_counters _ Hwf)) as Hrange. ranges. split; [done|].
  split; simpl; unfold withdrawal_pending; rewrite ?Hnp; simpl; try done; try lia.
  - exists t, (wt_release_pending t). by destruct t.
  - exists sequence. rewrite Z.add_0_r. by destruct (st_counters s).
  - by apply (intake_frame _ i1).
Qed.

Lemma fee_guard_trip_wf s w progress admin caller now kinds hash window limit s' :
  store_wf s -> observed_burn w ->
  commit_withdrawal_fee_guard_trip_bundle encode encode_event retention_encodes sha256
    s w progress admin caller now kinds hash window limit = Ok s' -> store_wf s'.
Proof.
  intros Hwf [Hreq Hq _] H. apply fee_guard_trip_Ok in H as [Hst Hadd]; [|done].
  apply (withdrawal_added_wf s w); try done.
  - split; [done..|]. split; [done|by rewrite Hst].
  - unfold unpaid, withdrawal_waits_on, withdrawal_fee. by rewrite Hst.
Qed.

Lemma fee_guard_update_wf s previous w admin caller now kinds s' :
  store_wf s -> withdrawal_row s (wr_id w) = Some previous -> wr_state previous = Observed ->
  stored_withdrawal_wf (wr_id w) w -> unpaid w ->
  commit_withdrawal_fee_guard_update encode encode_event retention_encodes sha256
    s previous w admin caller now kinds = Ok s' -> store_wf s'.
Proof.
  intros Hwf Hrow Hobs Hw [Hwait Hfee] H. unfold commit_withdrawal_fee_guard_update in H. cbv zeta in H.
  bind H as pending Ep. bind H as [batch counters] Ec. bind H as u1 E1. bind H as u2 E2.
  bind H as u3 E3. bind H as s1 E. apply Ok_inj in H as <-.
  apply db_Ok in E. bind E as t Et. bind E as rel Er. bind E as s2 Ea. apply Ok_inj in E as <-.
  apply commit_bundle_audit_frame in Ea as (events & retention & ->).
  apply prepare_bundle_audit_counters in Ec as [sequence ->].
  destruct (sw_withdrawals _ Hwf) as [Hrw [Hrel Hmem]].
  apply replace_withdrawal_row_Ok in Et as (Hw' & _ & Rw & Rr); [|done..]. rewrite Rr in Er.
  assert (is_pending_withdrawal_ledger previous = false) as Hnp
    by (unfold is_pending_withdrawal_ledger; by rewrite Hobs).
  pose proof (members_absent _ _ _ _ _ Hmem Hrow Hnp) as Habs.
  apply (withdrawal_written s _ w pending 0 Hwf) with sequence;
    simpl; rewrite ?Hrow; simpl; try done.
  - by destruct Hw'.
  - destruct (is_pending_withdrawal_ledger w); [by apply insert_rows in Er as [? _]|].
    by injection Er as <-.
  - destruct (is_pending_withdrawal_ledger w); [by apply insert_rows in Er as (_ & _ & ?)|].
    injection Er as <-. by rewrite delete_id.
  - unfold withdrawal_fee at 2. rewrite Hobs. lia.
  - unfold withdrawal_waits_on at 2. by rewrite Hobs.
  - apply (intake_frame _ (st_intake s)); [apply Hwf|done..].
Qed.

Lemma withdrawal_stop_reason_wf w reason :
  WithdrawalRecord_wf w -> WithdrawalRecord_wf (withdrawal_with_stop_reason w reason).
Proof.
  intros [[] Hst]. split; [by split|].
  simpl. destruct (wr_state w); try done; destruct Hst; by split.
Qed.

Lemma with_stop_reason_wf id w reason :
  stored_withdrawal_wf id w -> stored_withdrawal_wf id (withdrawal_with_stop_reason w reason).
Proof. intros [Hid Hreq Hwf]. split; [done..|]. by apply withdrawal_stop_reason_wf. Qed.

Lemma fee_guard_continue_Ok s w admin caller now kinds s' :
  commit_withdrawal_fee_guard_continue_bundle encode encode_event retention_encodes sha256
    s w admin caller now kinds = Ok s' ->
  exists previous, withdrawal_row s (wr_id w) = Some previous /\ wr_state previous = Observed /\
    w = withdrawal_with_stop_reason previous (wr_last_settlement_stop_reason w) /\
    commit_withdrawal_fee_guard_update encode encode_event retention_encodes sha256
      s previous w admin caller now kinds = Ok s'.
Proof.
  intros H. unfold commit_withdrawal_fee_guard_continue_bundle in H.
  bind H as previous Erow. apply ok_or_Ok in Erow. destruct (_ || _) eqn:Eg; [done|].
  case_bool_decide as Hexp; [done|]. bind H as u0 E0. exists previous. split_and!; try done.
  unfold is_observed in Eg. by destruct (wr_state previous).
Qed.

Lemma fee_guard_continue_wf s w admin caller now kinds s' :
  store_wf s ->
  commit_withdrawal_fee_guard_continue_bundle encode encode_event retention_encodes sha256
    s w admin caller now kinds = Ok s' -> store_wf s'.
Proof.
  intros Hwf H. apply fee_guard_continue_Ok in H as (previous & Erow & Hobs & Hexp & H).
  pose proof (with_stop_reason_wf _ _ (wr_last_settlement_stop_reason w)
    (ww_row _ (proj1 (sw_withdrawals _ Hwf)) _ _ Erow)) as Hw. rewrite <- Hexp in Hw.
  assert (wr_state w = Observed) as Hobs' by (by rewrite Hexp).
  apply (fee_guard_update_wf _ _ _ _ _ _ _ _ Hwf Erow) in H; try done.
  unfold unpaid, withdrawal_waits_on, withdrawal_fee. by rewrite Hobs'.
Qed.

Lemma fee_guard_clear_Ok s w admin caller now kinds s' :
  store_wf s -> match wr_state w with ReleasePending _ st => Settlement_ranged st | _ => True end ->
  commit_withdrawal_fee_guard_clear_bundle encode encode_event retention_encodes sha256
    s w admin caller now kinds = Ok s' ->
  exists previous a st res started,
    withdrawal_row s (wr_id w) = Some previous /\ wr_state previous = Observed /\
    wr_state w = ReleasePending a st /\ WithdrawalStep previous (StartRelease a st) res started /\
    w = withdrawal_with_stop_reason started None /\
    commit_withdrawal_fee_guard_update encode encode_event retention_encodes sha256
      s previous w admin caller now kinds = Ok s'.
Proof.
  intros Hwf Hranged H. unfold commit_withdrawal_fee_guard_clear_bundle in H.
  bind H as previous Erow. apply ok_or_Ok in Erow.
  bind H as [a st] Es. assert (wr_state w = ReleasePending a st) as Hst.
  { by destruct (wr_state w); simplify_eq. } rewrite Hst in Hranged. clear Es.
  bind H as expected Ee. destruct (_ || _) eqn:Eg; [done|].
  assert (wr_state previous = Observed) as Hobs.
  { unfold is_observed in Eg. by destruct (wr_state previous). }
  apply orb_false_iff in Eg as [Eg _]. apply orb_false_iff in Eg as [_ Eg].
  apply bool_decide_eq_false, dec_stable in Eg. destruct (sw_withdrawals _ Hwf) as [Hrw _].
  pose proof (ww_row _ Hrw _ _ Erow) as Hprev.
  apply apply_withdrawal_step in Ee as [res Hstep]; [|apply Hprev|done].
  by exists previous, a, st, res, expected.
Qed.

Lemma fee_guard_clear_wf s w admin caller now kinds s' :
  store_wf s -> match wr_state w with ReleasePending _ st => Settlement_ranged st | _ => True end ->
  commit_withdrawal_fee_guard_clear_bundle encode encode_event retention_encodes sha256
    s w admin caller now kinds = Ok s' -> store_wf s'.
Proof.
  intros Hwf Hranged H. apply fee_guard_clear_Ok in H
    as (previous & a & st & res & started & Erow & Hobs & Hst & Hstep & Hw & H); [|done..].
  pose proof (withdrawal_step_stored _ _ _ _ _ (ww_row _ (proj1 (sw_withdrawals _ Hwf)) _ _ Erow) Hstep)
    as Hexp. apply (with_stop_reason_wf _ _ None) in Hexp. rewrite <- Hw in Hexp.
  apply (fee_guard_update_wf _ _ _ _ _ _ _ _ Hwf Erow) in H; try done.
  unfold unpaid, withdrawal_waits_on, withdrawal_fee. by rewrite Hst.
Qed.

(** What a fee guard update writes. *)
Lemma fee_guard_update_rows s previous w admin caller now kinds s' :
  store_wf s -> stored_withdrawal_wf (wr_id w) w ->
  commit_withdrawal_fee_guard_update encode encode_event retention_encodes sha256
    s previous w admin caller now kinds = Ok s' ->
  withdrawal_rows (st_withdrawals s') = <[wr_id w := w]> (withdrawal_rows (st_withdrawals s)) /\
  st_deposits s' = st_deposits s /\ st_payouts s' = st_payouts s /\
  in_attempts (st_intake s') = in_attempts (st_intake s).
Proof.
  intros Hwf Hw H. unfold commit_withdrawal_fee_guard_update in H. cbv zeta in H.
  bind H as pending Ep. bind H as [batch counters] Ec. bind H as u1 E1. bind H as u2 E2.
  bind H as u3 E3. bind H as s1 E. apply Ok_inj in H as <-.
  apply db_Ok in E. bind E as t Et. bind E as rel Er. bind E as s2 Ea. apply Ok_inj in E as <-.
  apply commit_bundle_audit_frame in Ea as (events & retention & ->).
  apply replace_withdrawal_row_Ok in Et as (_ & _ & Rw & _); [|apply Hwf|done]. done.
Qed.
End transactions.
