(* ===== verification/StoreHolds.v ===== *)
(** * Holds, payouts and jobs in the store

    The bundled transactions of [Bundles.v] preserve the invariant of
    [StoreInvariant.v]: a hold is opened with the record that waits for it and
    resolved with the record that moves on, a payout is charged to the reserve
    once, and the outcome of a job only annotates its record. *)

From S2P Require Import Prelude KernelArith KernelPolicy Types Accounting External Authorization.
From S2P Require Import Withdrawal WithdrawalSafety Deposit DepositProtocol DepositInvariant Reconciliation HoldSafety.
From S2P Require Import Tables StorageTypes Jobs EventLog Store Bundles Intake.
From S2P Require Import DepositRows WithdrawalRows IntakeRows StoreInvariant StoreSafety.

(** ** Coupling *)

Section coupling.
Context (s s' : Store) (h : Z) (r : RequestReference) (t : LedgerTransferIdentity).
Hypothesis (Hwf : store_wf s).

Lemma coupled_opened :
  (forall y, waits s' y <-> waits s y \/ y = (h, r, t)) ->
  hold_row s h = None ->
  t_rows (ht_holds (st_holds s')) =
    <[h := ReconciliationHoldRecord_open h r t]> (t_rows (ht_holds (st_holds s))) ->
  holds_coupled s'.
Proof.
  intros Hw Hnone Hrows h' r' t'. rewrite Hw, (sw_coupled _ Hwf h' r' t'). unfold hold_row in *.
  rewrite Hrows. destruct (decide (h' = h)) as [->|Hne].
  - rewrite lookup_insert_eq, Hnone. split; [intros [?|[= -> ->]]; done|]. intros [= -> ->]. by right.
  - rewrite lookup_insert_ne by done. split; [|by left]. intros [?|[= ? _ _]]; done.
Qed.

Lemma coupled_resolved hold' :
  (forall y, waits s' y <-> waits s y /\ y <> (h, r, t)) -> waits s (h, r, t) ->
  rh_state hold' <> HoldOpen ->
  t_rows (ht_holds (st_holds s')) = <[h := hold']> (t_rows (ht_holds (st_holds s))) ->
  holds_coupled s'.
Proof.
  intros Hw Hx Hclosed Hrows h' r' t'. rewrite Hw, (sw_coupled _ Hwf h' r' t').
  apply (sw_coupled _ Hwf) in Hx. unfold hold_row in *. rewrite Hrows.
  destruct (decide (h' = h)) as [->|Hne].
  - rewrite lookup_insert_eq, Hx. split; [|by intros [= ->]].
    intros [[= -> ->] Hd]. by destruct Hd.
  - rewrite lookup_insert_ne by done. split; [by intros [? _]|]. intros ?. split; [done|]. congruence.
Qed.
End coupling.

(** ** Moving a record between index states *)

Lemma move_pending_rows t key was is_ t' :
  table_wf t -> is_some (t_rows t !! key) = was -> move_pending t key was is_ = Ok t' ->
  table_wf t' /\ t_rows t' = (if is_ then <[key := tt]> else delete key) (t_rows t).
Proof.
  intros Hwf Hwas H. unfold move_pending in H. bind H as t1 E.
  assert (table_wf t1 /\ t_rows t1 = delete key (t_rows t)) as [H1 R1].
  { destruct was.
    - destruct (delete_rows t key t1) as (? & _ & ?); [done| |done].
      unfold delete_tracked_entry, require_tracked_entry. by destruct (t_rows t !! key).
    - injection E as <-. split; [done|]. rewrite delete_id; [done|]. by destruct (t_rows t !! key). }
  destruct is_; [|by injection H as <-].
  apply insert_rows in H as (? & _ & ->); [|done]. by rewrite R1, insert_delete_eq.
Qed.

(** A deposit that is not waiting for its authorization has no deadline. *)
Definition no_deadline (d : DepositRecord) : Prop :=
  match dr_state d with
  | AuthorizationPending _ | AuthorizationAvailable _ => False
  | _ => True
  end.

Lemma no_deadline_entry d : no_deadline d -> deadline_entry d = None.
Proof.
  unfold no_deadline, deadline_entry, deposit_authorization_deadline. by destruct (dr_state d).
Qed.

Section parent_deposit.
Context (t : DepositTables) (id : bytes) (prev next : StoredDeposit).
Hypothesis (Hwf : deposits_wf t) (Hrow : t_rows (dt_deposits t) !! id = Some prev).
Hypothesis (Hrep : replaces prev next).
Hypothesis (Hdl : no_deadline (sd_record prev)) (Hdl' : no_deadline (sd_record next)).

Lemma parent_deposit_updated nonterminal pull :
  table_wf nonterminal ->
  t_rows nonterminal = (if is_terminal_deposit (sd_record next) then delete (owner_key next)
    else <[owner_key next := id]>) (t_rows (dt_nonterminal t)) ->
  move_pending (dt_pull_pending t) id (is_pending_deposit_ledger (sd_record prev))
    (is_pending_deposit_ledger (sd_record next)) = Ok pull ->
  deposits_updated t id prev next
    {| dt_deposits := update_entry (dt_deposits t) id next; dt_pull_pending := pull;
       dt_deadlines := dt_deadlines t; dt_nonterminal := nonterminal |}.
Proof.
  intros Hn Rn Hp. apply move_pending_rows in Hp as [? ?]; [|apply Hwf|].
  2: { apply (members_lookup _ _ _ _ _ (dw_pull _ Hwf) Hrow). }
  destruct (update_rows (dt_deposits t) id next) as [? ?]; [apply Hwf|by rewrite Hrow|].
  split; simpl; try done; [apply Hwf|]. by rewrite !no_deadline_entry.
Qed.
End parent_deposit.

(** ** Opening a hold *)

Lemma holds_opened t hold next holds open_ :
  holds_wf t next -> rh_id hold = next -> is_open_hold hold = true ->
  table_wf holds -> t_rows holds = <[next := hold]> (t_rows (ht_holds t)) ->
  table_wf open_ -> t_rows open_ = <[next := tt]> (t_rows (ht_open t)) ->
  holds_wf {| ht_holds := holds; ht_open := open_; ht_scans := ht_scans t |} (next + 1).
Proof.
  intros [? ? ? Hrow Hopen] Hid Hop Hh Rh Ho Ro. split; simpl; try done.
  - intros id h. rewrite Rh, lookup_insert_Some. intros [[<- <-]|[_ Hh']]; [split; [done|lia]|].
    apply Hrow in Hh' as [? ?]. split; [done|lia].
  - rewrite Rh, Ro. pose proof (members_update _ _ _ next hold Hopen) as H1. by rewrite Hop in H1.
Qed.

Lemma write_parent_holds s blob was is_ s' :
  write_parent s blob was is_ = Ok s' -> st_holds s' = st_holds s /\ st_accounting s' = st_accounting s.
Proof.
  destruct blob; simpl; intros H.
  - bind H as pull E. by apply Ok_inj in H as <-.
  - bind H as t Et. bind H as rel Er. by apply Ok_inj in H as <-.
Qed.

(** What a bundle that opens a hold does beside its record. *)
Lemma commit_hold_bundle_Ok encode s h r tr parent token s' :
  store_wf s ->
  commit_hold_bundle encode s (ReconciliationHoldRecord_open h r tr) parent token = Ok s' ->
  exists pending blob s1 holds,
    hold_row s h = None /\ cs_next_hold_id (st_counters s) = h /\
    adjust_active_count (cs_pending_ledger_operations (st_counters s)) (parent_was_pending parent)
      (parent_is_pending parent) = Ok pending /\
    parent_blob encode s parent = Ok blob /\
    write_parent s blob (parent_was_pending parent) (parent_is_pending parent) = Ok s1 /\
    s' = with_singletons (with_holds s1 holds)
           (with_pending (with_next_hold (st_counters s) (h + 1)) pending) (st_accounting s) /\
    holds_wf holds (h + 1) /\
    t_rows (ht_holds holds) =
      <[h := ReconciliationHoldRecord_open h r tr]> (t_rows (ht_holds (st_holds s))).
Proof.
  intros Hwf H. unfold commit_hold_bundle in H. cbn [rh_id ReconciliationHoldRecord_open] in H.
  destruct (_ || _) eqn:E0; [done|]. apply orb_false_iff in E0 as [_ Hnone].
  destruct (hold_row s h) eqn:Hrow; [done|]. clear Hnone.
  destruct (Z.eqb_spec (cs_next_hold_id (st_counters s)) h) as [Hid|]; [|done]. simpl in H.
  bind H as n En. apply ok_or_Ok, checked_add_Some in En as [_ ->].
  bind H as pending Ep. cbv zeta in H. bind H as blob Eb.
  destruct (is_some _) in H; [done|]. destruct (negb _) in H; [done|].
  bind H as u1 E1. bind H as u2 E2. bind H as u3 E3. bind H as s1 Es. bind H as holds Eh.
  bind H as open_ Eo. apply Ok_inj in H as <-. apply db_Ok in Es, Eh, Eo.
  destruct (write_parent_holds _ _ _ _ _ Es) as [Hholds Hacc]. rewrite Hholds in Eh, Eo.
  simpl in Eo. apply insert_rows in Eh as (Hh & _ & Rh); [|apply Hwf].
  apply insert_rows in Eo as (Ho & _ & Ro); [|apply Hwf].
  eexists pending, blob, s1, _. split_and!; try done; [by rewrite Hid, Hacc| |done].
  apply (holds_opened (st_holds s1) (ReconciliationHoldRecord_open h r tr)); rewrite ?Hholds; try done.
  rewrite <- Hid. apply Hwf.
Qed.

Lemma no_deadline_reserved d : no_deadline d -> is_deposit_mint_reserved d = false.
Proof.
  unfold no_deadline, is_deposit_mint_reserved, DepositRecord_reserves_mint_resources.
  by destruct (dr_state d).
Qed.

Section open_deposit_hold.
Context (encode : StoredValue -> Result StorageError unit).
Context (s : Store) (prev : StoredDeposit) (value : DepositRecord).
Context (h : Z) (r : RequestReference) (tr : LedgerTransferIdentity).
Hypothesis (Hwf : store_wf s) (Hrow : deposit_row s (dr_id value) = Some prev).
Hypothesis (Hreq : same_request (sd_record prev) value) (Hvalue : DepositRecord_wf value).
Hypothesis (Hdl : no_deadline (sd_record prev)) (Hdl' : no_deadline value).
Hypothesis (Hopen : is_terminal_deposit (sd_record prev) = false).
Hypothesis (Hopen' : is_terminal_deposit value = false).
Hypothesis (Hfee : charged_fee value = charged_fee (sd_record prev)).
Hypothesis (Hw : deposit_waits_on (sd_record prev) = None).
Hypothesis (Hw' : deposit_waits_on value = Some (h, r, tr)).

Abbreviation next := (with_record prev value).

Lemma opened_replaces : replaces prev next.
Proof. by split. Qed.

Lemma opened_updated pull :
  move_pending (dt_pull_pending (st_deposits s)) (dr_id value)
    (is_pending_deposit_ledger (sd_record prev)) (is_pending_deposit_ledger value) = Ok pull ->
  deposits_updated (st_deposits s) (dr_id value) prev next
    {| dt_deposits := update_entry (dt_deposits (st_deposits s)) (dr_id value) next;
       dt_pull_pending := pull; dt_deadlines := dt_deadlines (st_deposits s);
       dt_nonterminal := dt_nonterminal (st_deposits s) |}.
Proof.
  intros Hp. apply parent_deposit_updated; try done; [apply Hwf|apply Hwf|].
  simpl. rewrite Hopen', insert_id; [done|]. rewrite (replaces_owner_key _ _ opened_replaces).
  rewrite (dw_nonterminal _ (sw_deposits _ Hwf) _ _ Hrow). by rewrite Hopen.
Qed.

Lemma opened_written s' pull pending :
  move_pending (dt_pull_pending (st_deposits s)) (dr_id value)
    (is_pending_deposit_ledger (sd_record prev)) (is_pending_deposit_ledger value) = Ok pull ->
  adjust_active_count (cs_pending_ledger_operations (st_counters s))
    (is_pending_deposit_ledger (sd_record prev)) (is_pending_deposit_ledger value) = Ok pending ->
  st_deposits s' =
    {| dt_deposits := update_entry (dt_deposits (st_deposits s)) (dr_id value) next;
       dt_pull_pending := pull; dt_deadlines := dt_deadlines (st_deposits s);
       dt_nonterminal := dt_nonterminal (st_deposits s) |} ->
  st_counters s' = with_pending (with_next_hold (st_counters s) (h + 1)) pending ->
  cs_next_hold_id (st_counters s) = h -> hold_row s h = None ->
  holds_wf (st_holds s') (h + 1) ->
  t_rows (ht_holds (st_holds s')) =
    <[h := ReconciliationHoldRecord_open h r tr]> (t_rows (ht_holds (st_holds s))) ->
  st_withdrawals s' = st_withdrawals s -> st_payouts s' = st_payouts s ->
  st_accounting s' = st_accounting s -> st_intake s' = st_intake s -> store_wf s'.
Proof.
  intros Hp Hc Ed Ec Hid Hnone Hh Rh Ew Ep Ea Ei. apply opened_updated in Hp as Hup.
  rewrite <- Ed in Hup. pose proof opened_replaces as Hrep.
  apply adjust_active_count_Ok in Hc as [Hpend Hrange]; [|apply (sw_counters _ Hwf)].
  pose proof (reserved_none _ (no_deadline_reserved _ Hdl)).
  pose proof (reserved_none _ (no_deadline_reserved _ Hdl')).
  split.
  - by apply (deposits_wf_replaced s s' (dr_id value) prev next).
  - rewrite Ew. apply Hwf.
  - by rewrite Ec.
  - rewrite Ep, Ec. apply Hwf.
  - apply (counters_replaced s s' (dr_id value) prev next); try done. rewrite Ec.
    split; simpl; unfold deposit_reserved, deposit_pending; rewrite ?no_deadline_reserved by done;
      simpl; try lia; [apply (sw_counters _ Hwf)|by subst].
  - apply (fees_replaced s s' (dr_id value) prev next) with 0; try done; rewrite ?Ea; simpl; lia.
  - apply (coupled_opened s s' h r tr Hwf); [|done|done]. intros y.
    rewrite (waits_deposit_replaced s s' (dr_id value) prev next) by done. rewrite Hw. simpl.
    rewrite Hw'. naive_solver.
  - by apply (intake_wf_replaced s s' (dr_id value) prev next).
Qed.

Lemma commit_deposit_hold_Ok token s' :
  commit_hold_bundle encode s (ReconciliationHoldRecord_open h r tr)
    (Parent_Deposit (sd_record prev) value) token = Ok s' ->
  exists pull pending holds,
    move_pending (dt_pull_pending (st_deposits s)) (dr_id value)
      (is_pending_deposit_ledger (sd_record prev)) (is_pending_deposit_ledger value) = Ok pull /\
    adjust_active_count (cs_pending_ledger_operations (st_counters s))
      (is_pending_deposit_ledger (sd_record prev)) (is_pending_deposit_ledger value) = Ok pending /\
    cs_next_hold_id (st_counters s) = h /\ hold_row s h = None /\ holds_wf holds (h + 1) /\
    t_rows (ht_holds holds) =
      <[h := ReconciliationHoldRecord_open h r tr]> (t_rows (ht_holds (st_holds s))) /\
    s' = with_singletons
           (with_holds
              (with_deposits s
                 {| dt_deposits := update_entry (dt_deposits (st_deposits s)) (dr_id value) next;
                    dt_pull_pending := pull; dt_deadlines := dt_deadlines (st_deposits s);
                    dt_nonterminal := dt_nonterminal (st_deposits s) |}) holds)
           (with_pending (with_next_hold (st_counters s) (h + 1)) pending) (st_accounting s).
Proof.
  intros H. apply commit_hold_bundle_Ok in H
    as (pending & blob & s1 & holds & Hnone & Hid & Ep & Eb & Es & -> & Hh & Rh); [|done].
  simpl in Ep, Eb. bind Eb as stored Er. apply Ok_inj in Eb as <-.
  assert (stored = next) as ->.
  { unfold replaced_deposit in Er. destruct Hreq as [Hi _]. rewrite <- Hi, Hrow in Er. simpl in Er.
    rewrite bool_decide_false in Er by tauto. rewrite bool_decide_false in Er by tauto.
    bind Er as u E. by apply Ok_inj in Er as <-. }
  unfold write_parent in Es. cbn [sd_record with_record] in Es. bind Es as pull Epull.
  apply Ok_inj in Es as <-. by exists pull, pending, holds.
Qed.

Lemma commit_deposit_hold_wf token s' :
  commit_hold_bundle encode s (ReconciliationHoldRecord_open h r tr)
    (Parent_Deposit (sd_record prev) value) token = Ok s' -> store_wf s'.
Proof.
  intros H. apply commit_deposit_hold_Ok in H
    as (pull & pending & holds & Hp & Hc & Hid & Hnone & Hh & Rh & ->).
  by apply (opened_written _ pull pending).
Qed.
End open_deposit_hold.

Lemma apply_deposit_step r e r' :
  DepositRecord_wf r -> DepositEvent_ranged e -> apply_deposit r e = Ok r' ->
  exists res, DepositStep r e res r'.
Proof.
  intros Hwf He H. unfold apply_deposit in H. bind H as [res r1] E. apply Ok_inj in H as <-.
  apply core_Ok in E. exists res. by apply deposit_apply_sound.
Qed.

(** The deposit a hold is opened for. *)
Lemma ambiguous_deposit r h e r' :
  DepositRecord_wf r -> e = FundingAmbiguous h \/ e = RefundAmbiguous h ->
  is_pending_deposit_ledger r = true -> apply_deposit r e = Ok r' ->
  DepositRecord_wf r' /\ same_request r r' /\ charged_fee r' = charged_fee r /\
  no_deadline r /\ no_deadline r' /\ is_terminal_deposit r = false /\
  is_terminal_deposit r' = false /\ deposit_waits_on r = None /\
  deposit_waits_on r' =
    match dr_state r with
    | FundingPending => Some (h, Ref_DepositFunding (dr_id r), dr_transfer r)
    | RefundPending _ _ a => Some (h, Ref_DepositRefund (dr_id r), ta_identity a)
    | _ => None
    end.
Proof.
  intros Hwf He Hpend H.
  apply apply_deposit_step in H as [res Hstep]; [|done|by destruct He as [-> | ->]].
  pose proof (deposit_step_wf _ _ _ _ Hwf Hstep). pose proof (deposit_step_same_request _ _ _ _ Hstep).
  split; [done|]. split; [done|]. unfold is_pending_deposit_ledger in Hpend.
  assert ((dr_state r = FundingPending /\ r' = deposit_with_state r (FundingReconciliationHold h)) \/
    (exists reason f a, dr_state r = RefundPending reason f a /\
       r' = deposit_with_state r (RefundReconciliationHold reason f h a))) as [[Hs ->]|(reason & f & a & Hs & ->)].
  { destruct He as [-> | ->]; inversion Hstep as [e Hrec| | | | | | | | | |]; subst; simpl in *; eauto 8;
      rewrite Hrec in Hpend || (destruct Hrec as (? & ? & ? & Hrec); rewrite Hrec in Hpend); done. }
  all: unfold no_deadline, is_terminal_deposit, deposit_waits_on; rewrite Hs; by split_and!.
Qed.

Section deposit_holds.
Context (encode : StoredValue -> Result StorageError unit).
Context (transfer_identity_hash : LedgerTransferIdentity -> bytes).

Lemma commit_deposit_hold_bundle_Ok s deposit hold token s' :
  store_wf s ->
  commit_deposit_hold_bundle_fenced encode transfer_identity_hash s deposit hold token = Ok s' ->
  exists stored e h request transfer token',
    deposit_row s (dr_id deposit) = Some stored /\
    (e = FundingAmbiguous h \/ e = RefundAmbiguous h) /\
    is_pending_deposit_ledger (sd_record stored) = true /\
    apply_deposit (sd_record stored) e = Ok deposit /\
    match dr_state (sd_record stored) with
    | FundingPending => (request, transfer) = (Ref_DepositFunding (dr_id deposit), dr_transfer (sd_record stored))
    | RefundPending _ _ a => (request, transfer) = (Ref_DepositRefund (dr_id deposit), ta_identity a)
    | _ => False
    end /\
    commit_hold_bundle encode s (ReconciliationHoldRecord_open h request transfer)
      (Parent_Deposit (sd_record stored) deposit) token' = Ok s'.
Proof.
  intros Hwf H. unfold commit_deposit_hold_bundle_fenced in H. bind H as stored Erow.
  apply ok_or_Ok in Erow. bind H as u0 E0.
  bind H as [[[expected h] request] transfer] E.
  destruct (_ || _) eqn:Eg; [done|]. apply orb_false_iff in Eg as [He Hh].
  apply bool_decide_eq_false, dec_stable in He as ->, Hh as ->.
  unfold is_pending_deposit_ledger.
  destruct (dr_state (sd_record stored)) eqn:Es, (dr_state deposit); try done;
    bind E as expected' Ee; apply Ok_inj in E; injection E as -> -> <- <-;
    eexists stored, _, h, _, _, _; rewrite Es;
    (split_and!; [done| |done|exact Ee|done|exact H]); eauto.
Qed.

Lemma commit_deposit_hold_bundle_wf s deposit hold token s' :
  store_wf s ->
  commit_deposit_hold_bundle_fenced encode transfer_identity_hash s deposit hold token = Ok s' ->
  store_wf s'.
Proof.
  intros Hwf H. apply commit_deposit_hold_bundle_Ok in H
    as (stored & e & h & request & transfer & token' & Erow & He & Hpend & Happ & Hx & H); [|done].
  pose proof (sdw_record _ _ (dw_row _ (sw_deposits _ Hwf) _ _ Erow)) as Hr.
  destruct (ambiguous_deposit _ _ _ _ Hr He Hpend Happ) as (? & Hreq & ? & ? & ? & ? & ? & Hw & Hw').
  eapply (commit_deposit_hold_wf encode s stored deposit h request transfer Hwf); try done.
  rewrite Hw'. destruct Hreq as [Hi _]. rewrite <- Hi.
  destruct (dr_state (sd_record stored)); try done; by injection Hx as -> ->.
Qed.
End deposit_holds.

(** The withdrawal and the index row a bundle writes. *)
Lemma write_parent_withdrawal s previous value s' :
  withdrawals_wf (st_withdrawals s) -> stored_withdrawal_wf (wr_id value) value ->
  write_parent s (Blob_Withdrawal previous value) (is_pending_withdrawal_ledger previous)
    (is_pending_withdrawal_ledger value) = Ok s' ->
  exists t, s' = with_withdrawals s t /\ withdrawal_row s (wr_id value) = Some previous /\
    withdrawal_rows_wf t /\
    withdrawal_rows t = <[wr_id value := value]> (withdrawal_rows (st_withdrawals s)) /\
    table_wf (wt_release_pending t) /\
    t_rows (wt_release_pending t) =
      (if is_pending_withdrawal_ledger value then <[wr_id value := tt]> else delete (wr_id value))
        (t_rows (wt_release_pending (st_withdrawals s))).
Proof.
  intros [Hrw [Hrel Hmem]] Hv H. unfold write_parent in H. bind H as t Et. bind H as rel Er.
  apply Ok_inj in H as <-. apply replace_withdrawal_row_Ok in Et as (Hw' & Hrow & Rw & Rr); [|done..].
  rewrite Rr in Er. apply move_pending_rows in Er as [? ?]; [|done|].
  2: { by apply (members_lookup _ _ _ _ _ Hmem). }
  exists (with_release_pending t rel). split_and!; try done. by destruct Hw'.
Qed.

Section open_withdrawal_hold.
Context (encode : StoredValue -> Result StorageError unit).

Lemma commit_withdrawal_hold_bundle_Ok s withdrawal hold s' :
  store_wf s -> commit_withdrawal_hold_bundle encode s withdrawal hold = Ok s' ->
  exists previous a st h res pending t holds,
    withdrawal_row s (wr_id withdrawal) = Some previous /\ wr_state previous = ReleasePending a st /\
    WithdrawalStep previous (ReleaseAmbiguous h) res withdrawal /\
    withdrawal = WithdrawalRecord_with_state previous (ReconciliationHold h a st) /\
    stored_withdrawal_wf (wr_id withdrawal) withdrawal /\
    adjust_active_count (cs_pending_ledger_operations (st_counters s))
      (is_pending_withdrawal_ledger previous) (is_pending_withdrawal_ledger withdrawal) = Ok pending /\
    write_parent s (Blob_Withdrawal previous withdrawal) (is_pending_withdrawal_ledger previous)
      (is_pending_withdrawal_ledger withdrawal) = Ok (with_withdrawals s t) /\
    hold_row s h = None /\ holds_wf holds (h + 1) /\
    t_rows (ht_holds holds) =
      <[h := ReconciliationHoldRecord_open h (Ref_Withdrawal (wr_id withdrawal)) (ta_identity a)]>
        (t_rows (ht_holds (st_holds s))) /\
    s' = with_singletons (with_holds (with_withdrawals s t) holds)
           (with_pending (with_next_hold (st_counters s) (h + 1)) pending) (st_accounting s).
Proof.
  intros Hwf H. unfold commit_withdrawal_hold_bundle in H. bind H as previous Erow.
  apply ok_or_Ok in Erow. pose proof (ww_row _ (proj1 (sw_withdrawals _ Hwf)) _ _ Erow) as Hprev.
  bind H as [h transfer] Ex. bind H as expected Ee.
  destruct (_ || _) eqn:Eg; [done|]. apply orb_false_iff in Eg as [He Hh].
  apply bool_decide_eq_false, dec_stable in He as ->, Hh as ->.
  destruct (wr_state previous) as [|a st| |] eqn:Hs; try done.
  assert (transfer = ta_identity a) as ->.
  { by destruct (wr_state withdrawal); simplify_eq. } clear Ex.
  apply apply_withdrawal_step in Ee as [res Hstep]; [|apply Hprev|done].
  pose proof (withdrawal_step_stored _ _ _ _ _ Hprev Hstep) as Hnext.
  assert (withdrawal = WithdrawalRecord_with_state previous (ReconciliationHold h a st)) as Hw.
  { inversion Hstep as [e Hrec| | |]; subst; [|congruence].
    destruct Hrec as (? & ? & Hrec). congruence. }
  apply commit_hold_bundle_Ok in H
    as (pending & blob & s1 & holds & Hnone & Hid & Ep & Eb & Es & -> & Hh & Rh); [|done].
  simpl in Ep, Eb, Es. bind Eb as u3 E3. apply Ok_inj in Eb as <-. pose proof Es as Es'.
  apply write_parent_withdrawal in Es as (t & -> & _); [|apply Hwf|done].
  by exists previous, a, st, h, res, pending, t, holds.
Qed.

Lemma commit_withdrawal_hold_bundle_wf s withdrawal hold s' :
  store_wf s -> commit_withdrawal_hold_bundle encode s withdrawal hold = Ok s' -> store_wf s'.
Proof.
  intros Hwf H. apply commit_withdrawal_hold_bundle_Ok in H
    as (previous & a & st & h & res & pending & t & holds & Erow & Hs & _ & Hw & Hnext & Ep & Es
      & Hnone & Hh & Rh & ->); [|done].
  apply write_parent_withdrawal in Es as (t' & [= <-] & Hrow & Hrwf & Rw & Hrel & Rr); [|apply Hwf|done].
  set (s' := with_singletons _ _ _).
  destruct (withdrawal_parts s s' withdrawal pending 0 Hwf) as (? & ? & ?);
    rewrite ?Hrow; simpl; try done.
  { subst withdrawal. unfold withdrawal_fee. simpl. rewrite Hs. done. }
  split; simpl; try done; try apply Hwf.
  apply (coupled_opened s s' h (Ref_Withdrawal (wr_id withdrawal)) (ta_identity a) Hwf); [|done|done].
  intros y. rewrite (waits_withdrawal_replaced s s' (wr_id withdrawal) withdrawal Hwf) by done.
  rewrite Hrow. simpl. unfold withdrawal_waits_on at 1. rewrite Hs. subst withdrawal.
  unfold withdrawal_waits_on. simpl. naive_solver.
Qed.
End open_withdrawal_hold.

(** ** Resolving a hold *)

Lemma open_hold_state hold : is_open_hold hold = true <-> rh_state hold = HoldOpen.
Proof. unfold is_open_hold. by destruct (rh_state hold). Qed.

Lemma closed_hold hold : rh_state hold <> HoldOpen -> is_open_hold hold = false.
Proof. intros H. rewrite <- open_hold_state in H. by destruct (is_open_hold hold). Qed.

Lemma holds_resolved t next id hold' open_ scans :
  holds_wf t next -> is_Some (t_rows (ht_holds t) !! id) -> rh_id hold' = id ->
  is_open_hold hold' = false ->
  table_wf open_ -> t_rows open_ = delete id (t_rows (ht_open t)) -> table_wf scans ->
  holds_wf {| ht_holds := update_entry (ht_holds t) id hold'; ht_open := open_; ht_scans := scans |}
    next /\
  t_rows (ht_holds {| ht_holds := update_entry (ht_holds t) id hold'; ht_open := open_;
                      ht_scans := scans |}) = <[id := hold']> (t_rows (ht_holds t)).
Proof.
  intros [? ? ? Hrow Hopen] Hsome Hid Hc Ho Ro Hs.
  destruct (update_rows (ht_holds t) id hold') as [Hh Rh]; [done..|]. simpl in *. split; [|done].
  split; simpl; try done; rewrite Rh.
  - intros id' h. rewrite lookup_insert_Some. intros [[<- <-]|[_ Hh']]; [|by apply Hrow].
    split; [done|]. destruct Hsome as [h0 Hh0]. by apply Hrow in Hh0 as [_ ?].
  - rewrite Ro. pose proof (members_update _ _ _ id hold' Hopen) as H1. by rewrite Hc in H1.
Qed.

(** What a bundle that resolves a hold does. *)
Lemma persist_resolved_Ok encode scan_key s hold' parent scan s' :
  store_wf s -> is_open_hold hold' = false ->
  persist_resolved_hold_bundle encode scan_key s hold' parent scan = Ok s' ->
  s' = s \/
  exists previous key fee accounting counters blob s1 s2 holds,
    hold_row s (rh_id hold') = Some previous /\ rh_state previous = HoldOpen /\
    parent_owner_key s parent = Ok key /\ resolved_fee parent = Ok fee /\
    (if fee =? 0 then Ok (st_accounting s)
     else core (AccountingState_confirm_fee (st_accounting s) FeeKind_Withdrawal fee)) = Ok accounting /\
    resolved_counters (st_counters s) parent = Ok counters /\
    parent_blob encode s parent = Ok blob /\ move_nonterminal s parent key = Ok s1 /\
    write_parent s1 blob (parent_was_pending parent) (parent_is_pending parent) = Ok s2 /\
    s' = with_singletons (with_holds s2 holds) counters accounting /\
    holds_wf holds (cs_next_hold_id (st_counters s)) /\
    t_rows (ht_holds holds) = <[rh_id hold' := hold']> (t_rows (ht_holds (st_holds s))).
Proof.
  intros Hwf Hclosed H. unfold persist_resolved_hold_bundle in H. bind H as ph Eh. apply ok_or_Ok in Eh.
  destruct (_ && _) in H; [left; by apply Ok_inj in H|right].
  destruct (is_open_hold ph) eqn:Hopen; [|done]. apply open_hold_state in Hopen.
  destruct (_ || _) in H; [done|].
  bind H as key Ek. bind H as fee Ef. bind H as accounting Ea. bind H as counters Ec. bind H as blob Eb.
  destruct (is_none _) in H; [done|]. destruct (negb _) in H; [done|].
  bind H as u1 E1. bind H as u2 E2. bind H as u3 E3. bind H as u4 E4. bind H as s1 Em.
  bind H as s2 Es. bind H as open_ Eo. bind H as scans Esc. apply Ok_inj in H as <-.
  apply db_Ok in Em, Es, Eo.
  assert (st_holds s1 = st_holds s) as Hh1.
  { destruct parent; simpl in Em; [bind Em as n En|]; by apply Ok_inj in Em as <-. }
  destruct (write_parent_holds _ _ _ _ _ Es) as [Hh2 _]. rewrite Hh1 in Hh2. rewrite Hh2 in *.
  apply transition_rows in Eo as (Ho & Ro & _); [|apply Hwf]. simpl in Ro.
  assert (table_wf scans) as Hscans.
  { destruct scan; [|injection Esc as <-; apply Hwf]. apply db_Ok, delete_rows in Esc as [? _]; [done|].
    apply Hwf. }
  destruct (holds_resolved (st_holds s) _ (rh_id hold') hold' open_ scans (sw_holds _ Hwf)) as [? ?];
    try done.
  by eexists ph, key, fee, accounting, counters, blob, s1, s2, _.
Qed.

(** The deposit after its hold is resolved. *)
Lemma resolved_deposit d hold r res d' hold' :
  DepositRecord_wf d -> DepositHoldStep d hold r res d' hold' -> rh_state hold = HoldOpen ->
  no_deadline d /\ no_deadline d' /\ deposit_waits_on d' = None /\
  exists request, deposit_waits_on d = Some (rh_id hold, request, rh_transfer hold).
Proof.
  intros Hwf Hstep Hopen. unfold no_deadline, deposit_waits_on.
  destruct Hstep as [r Hrec|? [? Ht] _ Hs|? [? Ht] _ Hs|? ? ? ? _ _ Hs Ht|? ? ? ? ? ? _ _ Hs Ht _];
    [destruct r; simpl in Hrec; open_hyps; congruence|..]; rewrite Hs; simpl; rewrite ?Ht; eauto.
Qed.

(** The nonterminal entry and the row of a resolved deposit. *)
Lemma resolved_deposit_updated encode s prev value key blob s1 s2 :
  store_wf s -> deposit_row s (dr_id value) = Some prev ->
  same_request (sd_record prev) value -> DepositRecord_wf value ->
  no_deadline (sd_record prev) -> no_deadline value ->
  let parent := Parent_Deposit (sd_record prev) value in
  parent_owner_key s parent = Ok key -> parent_blob encode s parent = Ok blob ->
  move_nonterminal s parent key = Ok s1 ->
  write_parent s1 blob (parent_was_pending parent) (parent_is_pending parent) = Ok s2 ->
  exists t, s2 = with_deposits s t /\
    deposits_updated (st_deposits s) (dr_id value) prev (with_record prev value) t.
Proof.
  intros Hwf Hrow Hreq Hv Hd Hd' parent Hk Hb Hm Hw. unfold parent in *. clear parent.
  unfold parent_owner_key in Hk. unfold parent_blob in Hb. unfold move_nonterminal in Hm.
  assert (replaces prev (with_record prev value)) as Hrep by (by split).
  pose proof (replaces_stored _ _ _ (dw_row _ (sw_deposits _ Hwf) _ _ Hrow) Hrep) as Hst.
  pose proof (owner_key_eq _ _ Hst) as Hkey. cbn [sd_record sd_owner_sequence with_record] in Hkey.
  rewrite Hrow in Hk. cbn [ok_or] in Hk. rewrite Hkey in Hk. apply Ok_inj in Hk as <-.
  bind Hb as stored Er. apply Ok_inj in Hb as <-.
  assert (stored = with_record prev value) as ->.
  { unfold replaced_deposit in Er. destruct Hreq as [Hi _]. rewrite <- Hi, Hrow in Er. simpl in Er.
    rewrite bool_decide_false in Er by tauto. rewrite bool_decide_false in Er by tauto.
    bind Er as u E. by apply Ok_inj in Er as <-. }
  bind Hm as n En. apply Ok_inj in Hm as <-. simpl in Hw. bind Hw as pull Ep. apply Ok_inj in Hw as <-.
  eexists. split; [reflexivity|]. simpl.
  assert (table_wf n /\ t_rows n = (if is_terminal_deposit value then delete (owner_key (with_record prev value))
     else <[owner_key (with_record prev value) := dr_id value]>) (t_rows (dt_nonterminal (st_deposits s)))) as [? ?].
  { destruct (is_terminal_deposit value);
      [by apply (remove_if_rows true) in En; [|apply Hwf|]|by apply upsert_rows in En; [|apply Hwf]]. }
  apply (parent_deposit_updated (st_deposits s)); try done. apply Hwf.
Qed.

Section resolve.
Context (encode : StoredValue -> Result StorageError unit).
Context (scan_key : ReconciliationTarget -> bytes).

(** A resolution either repeats a recorded one or moves the deposit with its hold. *)
Lemma resolve_deposit_Ok s id hold_id resolution scan res s' :
  store_wf s ->
  resolve_deposit_hold_and_scan encode scan_key s id hold_id resolution scan = Ok (res, s') ->
  s' = s \/
  exists sd d' hold hold' result t counters holds,
    deposit_row s (dr_id d') = Some sd /\ hold_row s hold_id = Some hold /\ rh_id hold = hold_id /\
    rh_state hold = HoldOpen /\ rh_id hold' = rh_id hold /\
    DepositHoldStep (sd_record sd) hold resolution result d' hold' /\
    deposits_updated (st_deposits s) (dr_id d') sd (with_record sd d') t /\
    resolved_counters (st_counters s) (Parent_Deposit (sd_record sd) d') = Ok counters /\
    holds_wf holds (cs_next_hold_id (st_counters s)) /\
    t_rows (ht_holds holds) = <[rh_id hold := hold']> (t_rows (ht_holds (st_holds s))) /\
    s' = with_singletons (with_holds (with_deposits s t) holds) counters (st_accounting s).
Proof.
  intros Hwf H. unfold resolve_deposit_hold_and_scan in H. bind H as sd Erow. apply ok_or_Ok in Erow.
  bind H as hold Eh. apply ok_or_Ok in Eh. bind H as [[result d'] hold'] Er. apply core_Ok in Er.
  bind H as sd' Erow'. apply ok_or_Ok in Erow'. bind H as s1 E. apply Ok_inj in H. injection H as _ <-.
  apply resolve_deposit_hold_sound in Er. pose proof (dw_row _ (sw_deposits _ Hwf) _ _ Erow) as Hst.
  pose proof (sdw_record _ _ Hst) as Hd.
  destruct (hold_step_wf _ _ _ _ _ _ Hd Er) as (Hd' & Hreq & Hfee & Hres).
  destruct (hold_step_hold _ _ _ _ _ _ Er) as (Hid & _ & _ & Hopen).
  pose proof (hw_row _ _ (sw_holds _ Hwf) _ _ Eh) as [Hhid _].
  pose proof (closed_hold _ (hold_step_resolved _ _ _ _ _ _ Er)) as Hclosed.
  assert (sd' = sd) as ->. { destruct Hreq as [Hi _]. rewrite Hi, (sdw_id _ _ Hst) in Erow'. congruence. }
  apply persist_resolved_Ok in E as [->|(ph & key & fee & accounting & counters & blob & s2 & s3 & holds
    & Hph & Hpo & Hk & Hf & Ha & Hc & Hb & Hm & Hw & -> & Hh & Rh)]; [by left| |done|done]. right.
  rewrite Hid, Hhid, Eh in Hph. injection Hph as <-.
  destruct (resolved_deposit _ _ _ _ _ _ Hd Er Hpo) as (Hdl & Hdl' & Hnone & request & Hwait).
  destruct (resolved_deposit_updated encode s sd d' key blob s2 s3) as (t & -> & Hup); try done.
  injection Hf as <-. apply Ok_inj in Ha as <-. rewrite Hid in Rh.
  by exists sd, d', hold, hold', result, t, counters, holds.
Qed.

Lemma resolve_deposit_wf s id hold_id resolution scan res s' :
  store_wf s ->
  resolve_deposit_hold_and_scan encode scan_key s id hold_id resolution scan = Ok (res, s') ->
  store_wf s'.
Proof.
  intros Hwf H. apply resolve_deposit_Ok in H as [->|(sd & d' & hold & hold' & result & t & counters
    & holds & Erow & _ & _ & Hpo & Hid & Er & Hup & Hc & Hh & Rh & ->)]; [done| |done].
  pose proof (sdw_record _ _ (dw_row _ (sw_deposits _ Hwf) _ _ Erow)) as Hd.
  destruct (hold_step_wf _ _ _ _ _ _ Hd Er) as (Hd' & Hreq & Hfee & Hres).
  destruct (resolved_deposit _ _ _ _ _ _ Hd Er Hpo) as (Hdl & Hdl' & Hnone & request & Hwait).
  apply adjust_deposit_counters_counted in Hc as [Hc Hnext]; [|apply Hwf|done..].
  assert (replaces sd (with_record sd d')) as Hrep by (by split).
  set (s' := with_singletons _ _ _).
  split; simpl; [| | |rewrite (dc_payout _ _ _ _ Hc); apply Hwf|..].
  - by apply (deposits_wf_replaced s s' (dr_id d') sd (with_record sd d')).
  - apply Hwf.
  - by rewrite Hnext.
  - by apply (counters_replaced s s' (dr_id d') sd (with_record sd d')).
  - apply (fees_replaced s s' (dr_id d') sd (with_record sd d')) with 0; try done; simpl; lia.
  - apply (coupled_resolved s s' (rh_id hold) request (rh_transfer hold) Hwf hold').
    + intros y. rewrite (waits_deposit_replaced s s' (dr_id d') sd (with_record sd d')) by done.
      simpl. rewrite Hnone, Hwait. naive_solver.
    + left. by exists (dr_id d'), sd.
    + apply (hold_step_resolved _ _ _ _ _ _ Er).
    + simpl. by rewrite Rh.
  - by apply (intake_wf_replaced s s' (dr_id d') sd (with_record sd d')).
Qed.

(** The withdrawal after its hold is resolved: it is the one the hold was opened
    for, and its fee is the one the storage layer credits. *)
Lemma resolved_withdrawal w hold r res w' hold' fee :
  WithdrawalRecord_wf w -> WithdrawalHoldStep w hold r res w' hold' -> rh_state hold = HoldOpen ->
  resolved_fee (Parent_Withdrawal w w') = Ok fee ->
  withdrawal_waits_on w' = None /\ withdrawal_fee w' = withdrawal_fee w + fee /\
  exists transfer, withdrawal_waits_on w = Some (rh_id hold, Ref_Withdrawal (wr_id w), transfer).
Proof.
  intros [Hq Hst] Hstep Hopen Hfee. unfold withdrawal_waits_on, withdrawal_fee, resolved_fee in *.
  destruct Hstep as [r Hrec|b a s _ Hs _|m a s identity' a' _ Hs _ Hret];
    [destruct r; simpl in Hrec; open_hyps; congruence|..]; rewrite Hs in *; simpl in *.
  - apply core_Ok, (net_fee w a s) in Hfee; [|done..]. split_and!; [done|lia|eauto].
  - injection Hfee as <-. split_and!; [done|lia|eauto].
Qed.

Lemma withdrawal_hold_step_stored id w hold r res w' hold' :
  stored_withdrawal_wf id w -> WithdrawalHoldStep w hold r res w' hold' -> stored_withdrawal_wf id w'.
Proof.
  intros [Hid Hreq Hwf] Hstep. destruct (withdrawal_hold_step_wf _ _ _ _ _ _ Hwf Hstep) as [Hwf' _].
  destruct Hstep; by split.
Qed.

Lemma withdrawal_hold_step_resolved w hold r res w' hold' :
  WithdrawalHoldStep w hold r res w' hold' -> rh_state hold' <> HoldOpen.
Proof. destruct 1 as [[] Hrec| |]; simpl in *; open_hyps; congruence. Qed.

Lemma resolve_withdrawal_Ok s id hold_id resolution scan res s' :
  store_wf s ->
  resolve_withdrawal_hold_and_scan encode scan_key s id hold_id resolution scan = Ok (res, s') ->
  s' = s \/
  exists w w' hold hold' result fee accounting pending t holds,
    withdrawal_row s (wr_id w') = Some w /\ hold_row s hold_id = Some hold /\ rh_id hold = hold_id /\
    rh_state hold = HoldOpen /\ rh_id hold' = rh_id hold /\
    WithdrawalHoldStep w hold resolution result w' hold' /\
    resolved_fee (Parent_Withdrawal w w') = Ok fee /\
    (if fee =? 0 then Ok (st_accounting s)
     else core (AccountingState_confirm_fee (st_accounting s) FeeKind_Withdrawal fee)) = Ok accounting /\
    adjust_active_count (cs_pending_ledger_operations (st_counters s))
      (is_pending_withdrawal_ledger w) (is_pending_withdrawal_ledger w') = Ok pending /\
    write_parent s (Blob_Withdrawal w w') (is_pending_withdrawal_ledger w)
      (is_pending_withdrawal_ledger w') = Ok (with_withdrawals s t) /\
    holds_wf holds (cs_next_hold_id (st_counters s)) /\
    t_rows (ht_holds holds) = <[rh_id hold := hold']> (t_rows (ht_holds (st_holds s))) /\
    s' = with_singletons (with_holds (with_withdrawals s t) holds)
           (with_pending (st_counters s) pending) accounting.
Proof.
  intros Hwf H. unfold resolve_withdrawal_hold_and_scan in H. bind H as w Erow. apply ok_or_Ok in Erow.
  bind H as hold Eh. apply ok_or_Ok in Eh. bind H as [[result w'] hold'] Er. apply core_Ok in Er.
  bind H as w0 Erow'. apply ok_or_Ok in Erow'. bind H as s1 E. apply Ok_inj in H. injection H as _ <-.
  pose proof (ww_row _ (proj1 (sw_withdrawals _ Hwf)) _ _ Erow) as Hw.
  apply resolve_withdrawal_hold_sound in Er; [|apply Hw].
  pose proof (withdrawal_hold_step_stored _ _ _ _ _ _ _ Hw Er) as Hw'.
  destruct (withdrawal_hold_step_wf _ _ _ _ _ _ (sww_record _ _ Hw) Er) as (_ & Hid & _).
  pose proof (hw_row _ _ (sw_holds _ Hwf) _ _ Eh) as [Hhid _].
  pose proof (closed_hold _ (withdrawal_hold_step_resolved _ _ _ _ _ _ Er)) as Hclosed.
  assert (w0 = w) as ->. { rewrite (sww_id _ _ Hw') in Erow'. congruence. }
  apply persist_resolved_Ok in E as [->|(ph & key & fee & accounting & counters & blob & s2 & s3 & holds
    & Hph & Hpo & _ & Hf & Ha & Hc & Hb & Hm & Hwr & -> & Hh & Rh)]; [by left| |done|done]. right.
  rewrite Hid, Hhid, Eh in Hph. injection Hph as <-.
  simpl in Hb, Hm, Hc. bind Hb as u E. apply Ok_inj in Hb as <-. apply Ok_inj in Hm as <-.
  bind Hc as pending Ep. apply Ok_inj in Hc as <-. pose proof Hwr as Hwr'.
  apply write_parent_withdrawal in Hwr as (t & -> & _);
    [|apply Hwf|by rewrite <- (sww_id _ _ Hw') in Hw'].
  rewrite Hid in Rh.
  by exists w, w', hold, hold', result, fee, accounting, pending, t, holds.
Qed.

Lemma resolve_withdrawal_wf s id hold_id resolution scan res s' :
  store_wf s ->
  resolve_withdrawal_hold_and_scan encode scan_key s id hold_id resolution scan = Ok (res, s') ->
  store_wf s'.
Proof.
  intros Hwf H. apply resolve_withdrawal_Ok in H as [->|(w & w' & hold & hold' & result & fee
    & accounting & pending & t & holds & Erow & _ & _ & Hpo & Hid & Er & Hf & Ha & Ep & Hwr & Hh & Rh & ->)];
    [done| |done].
  pose proof (ww_row _ (proj1 (sw_withdrawals _ Hwf)) _ _ Erow) as Hw.
  pose proof (withdrawal_hold_step_stored _ _ _ _ _ _ _ Hw Er) as Hw'.
  destruct (resolved_withdrawal _ _ _ _ _ _ _ (sww_record _ _ Hw) Er Hpo Hf) as (Hnone & Hfee & tr & Hwait).
  apply write_parent_withdrawal in Hwr as (t' & [= <-] & Hrow & Hrwf & Rw & Hrel & Rr); [|apply Hwf|done].
  set (s' := with_singletons _ _ _).
  destruct (withdrawal_parts s s' w' pending fee Hwf) as (? & ? & ?); rewrite ?Hrow; simpl; try done.
  split; simpl; try done; try apply Hwf.
  apply (coupled_resolved s s' (rh_id hold) (Ref_Withdrawal (wr_id w)) tr Hwf hold').
  - intros y. rewrite (waits_withdrawal_replaced s s' (wr_id w') w' Hwf) by done.
    rewrite Hrow. simpl. rewrite Hnone, Hwait. naive_solver.
  - right. by exists (wr_id w'), w.
  - apply (withdrawal_hold_step_resolved _ _ _ _ _ _ Er).
  - simpl. by rewrite Rh.
Qed.

(** The comparison the resolver skips for a retried release is implied by the
    store: the hold a withdrawal waits for was opened for its attempt. *)
Lemma held_release_matches s id w h a st hold :
  store_wf s -> withdrawal_row s id = Some w -> wr_state w = ReconciliationHold h a st ->
  hold_row s h = Some hold ->
  rh_request hold = Ref_Withdrawal id /\ rh_transfer hold = ta_identity a /\ rh_state hold = HoldOpen.
Proof.
  intros Hwf Hrow Hs Hh. pose proof (sww_id _ _ (ww_row _ (proj1 (sw_withdrawals _ Hwf)) _ _ Hrow)) as Hid.
  assert (waits s (h, Ref_Withdrawal id, ta_identity a)) as Hw.
  { right. exists id, w. unfold withdrawal_waits_on. by rewrite Hs, Hid. }
  apply (sw_coupled _ Hwf) in Hw. rewrite Hh in Hw. by injection Hw as ->.
Qed.
End resolve.
