(* ===== verification/StorePayouts.v ===== *)
(** * Payouts and job outcomes in the store

    A fee payout is charged to the reserve once, when it succeeds, and the
    outcome of a settlement job only annotates its record: the transactions of
    [Bundles.v] that do this preserve the invariant of [StoreInvariant.v]. *)

From S2P Require Import Prelude KernelArith KernelPolicy Types Accounting External Authorization.
From S2P Require Import Withdrawal WithdrawalSafety Deposit DepositProtocol DepositInvariant Reconciliation.
From S2P Require Import Tables StorageTypes Jobs EventLog Store Bundles Intake.
From S2P Require Import DepositRows WithdrawalRows IntakeRows StoreInvariant StoreSafety.

(** ** The debit of a payout *)

(** The amounts of a payout are unsigned. *)
Definition payout_ranged (p : FeePayoutRecord) : Prop :=
  is_u128 (fpr_amount p) /\ is_u128 (lti_fee (fpr_transfer p)).

Lemma fee_payout_debit_Ok p d :
  payout_ranged p -> fee_payout_debit p = Ok d <-> d = payout_cost p /\ payout_cost p <= u128_max.
Proof.
  intros [Ha Hf]. unfold fee_payout_debit, payout_debit, payout_cost. simpl. ranges.
  rewrite wrapping_sub_exact by lia. destruct (Z.gtb_spec (fpr_amount p) (u128_max - lti_fee (fpr_transfer p))).
  - simpl. split; [done|lia].
  - simpl. rewrite wrapping_add_exact by lia. split; [intros [= <-]; lia|by intros [-> _]].
Qed.

Lemma payout_pending_Ok (current : Z) p d :
  payout_ranged p ->
  (if is_pending_fee_payout p
   then let? debit := fee_payout_debit p in ok_or (checked_add u128_max current debit) CounterOverflow
   else Ok current) = Ok d ->
  d = current + payout_pending p /\ (is_pending_fee_payout p = true -> payout_cost p <= u128_max).
Proof.
  intros Hp. unfold payout_pending. destruct (is_pending_fee_payout p); intros H.
  - bind H as debit E. apply fee_payout_debit_Ok in E as [-> ?]; [|done].
    apply ok_or_Ok, checked_add_Some in H as [_ ->]. by split.
  - apply Ok_inj in H as <-. split; [lia|done].
Qed.

Lemma adjust_payout_debit_Ok current previous p d :
  payout_ranged p -> (forall q, previous = Some q -> payout_ranged q) ->
  adjust_pending_fee_payout_debit current previous p = Ok d ->
  d = current - map_or 0 payout_pending previous + payout_pending p /\
  (is_pending_fee_payout p = true -> payout_cost p <= u128_max).
Proof.
  intros Hp Hprev H. unfold adjust_pending_fee_payout_debit in H. bind H as without E.
  apply payout_pending_Ok in H as [-> ?]; [|done]. split; [|done].
  destruct previous as [q|]; simpl; [|apply Ok_inj in E as <-; lia].
  specialize (Hprev q eq_refl). unfold payout_pending.
  destruct (is_pending_fee_payout q); [|apply Ok_inj in E as <-; lia].
  bind E as debit Ed. apply fee_payout_debit_Ok in Ed as [-> _]; [|done].
  apply ok_or_Ok, checked_sub_Some in E as [_ ->]. lia.
Qed.

Lemma payout_row_ranged next id p : payout_wf next id p -> payout_ranged p.
Proof. intros [_ _ Ha Hf Hc _]. unfold payout_cost in Hc. split; unfold in_range; lia. Qed.

(** ** Writing a payout *)

(** What a transaction that writes one payout does to the store. *)
Record payout_written (s s' : Store) (id : Z) (p : FeePayoutRecord) : Prop := {
  pw_rows : t_rows (st_payouts s') = <[id := p]> (t_rows (st_payouts s));
  pw_table : table_wf (st_payouts s');
  pw_deposits : st_deposits s' = st_deposits s;
  pw_withdrawals : st_withdrawals s' = st_withdrawals s;
  pw_holds : ht_holds (st_holds s') = ht_holds (st_holds s);
  pw_open : ht_open (st_holds s') = ht_open (st_holds s);
  pw_scans : table_wf (ht_scans (st_holds s'));
  pw_intake : st_intake s' = st_intake s;
  pw_counters : exists debit next audit,
    cs_next_fee_payout_id (st_counters s) <= next /\
    debit = cs_pending_fee_payout_debit (st_counters s)
      - map_or 0 payout_pending (t_rows (st_payouts s) !! id) + payout_pending p /\
    st_counters s' = with_next_audit (with_payout_debit (with_next_payout (st_counters s) next) debit) audit;
  pw_payout : payout_wf (cs_next_fee_payout_id (st_counters s')) id p;
  pw_deposit_fees :
    as_confirmed_deposit_fees (st_accounting s') = as_confirmed_deposit_fees (st_accounting s);
  pw_withdrawal_fees :
    as_confirmed_withdrawal_fees (st_accounting s') = as_confirmed_withdrawal_fees (st_accounting s);
  pw_reserve : as_fee_reserve (st_accounting s') = as_fee_reserve (st_accounting s)
    + map_or 0 payout_spent (t_rows (st_payouts s) !! id) - payout_spent p;
}.

Lemma payout_total_written s s' id p f :
  t_rows (st_payouts s') = <[id := p]> (t_rows (st_payouts s)) ->
  payout_total f s' = payout_total f s - map_or 0 f (t_rows (st_payouts s) !! id) + f p.
Proof.
  intros Hrows. unfold payout_total. rewrite Hrows.
  destruct (t_rows (st_payouts s) !! id) as [q|] eqn:Hq; simpl.
  - by apply map_sum_update.
  - rewrite map_sum_insert by done. lia.
Qed.

Lemma payout_written_wf s s' id p : store_wf s -> payout_written s s' id p -> store_wf s'.
Proof.
  intros Hwf [Hrows Hpwf Hdeposits Hwithdrawals Hholds Hopen Hscans Hintake Hcounters Hp Hd Hw Hr].
  destruct Hcounters as (debit & next & audit & Hnext & Hdebit & Hc).
  pose proof (fun f => payout_total_written s s' id p f Hrows) as Tp.
  assert (forall f, deposit_total f s' = deposit_total f s) as Td
    by (intros f; unfold deposit_total; by rewrite Hdeposits).
  assert (forall f, withdrawal_total f s' = withdrawal_total f s) as Tw
    by (intros f; unfold withdrawal_total; by rewrite Hwithdrawals).
  split; rewrite ?Hdeposits, ?Hwithdrawals, ?Hintake; try apply Hwf.
  - destruct (sw_holds _ Hwf). split; rewrite ?Hholds, ?Hopen, ?Hc; done.
  - split; [done|]. intros id' q. rewrite Hrows, lookup_insert_Some.
    intros [[<- <-]|[_ Hq]]; [done|]. apply (proj2 (sw_payouts _ Hwf)) in Hq as []. rewrite Hc.
    split; simpl; try done. lia.
  - destruct (sw_counters _ Hwf). split; rewrite ?Td, ?Tw, ?Tp, ?Hc; simpl; done || lia.
  - destruct (sw_fees _ Hwf). split; rewrite ?Td, ?Tw, ?Tp; lia.
  - intros h r t. unfold hold_row. rewrite Hholds. rewrite <- (sw_coupled _ Hwf h r t).
    unfold waits, deposit_row, withdrawal_row. by rewrite Hdeposits, Hwithdrawals.
Qed.

Section payouts.
Context (encode : StoredValue -> Result StorageError unit).
Context (scan_key : ReconciliationTarget -> bytes).
Context (encode_event : AuditEvent AuditEventKind -> Result StorageError bytes).
Context (retention_encodes : AuditRetentionState -> bool).
Context (sha256 : bytes -> bytes).

Lemma commit_fee_payout_request_Ok s p caller now s' :
  store_wf s -> payout_ranged p -> lti_amount (fpr_transfer p) = fpr_amount p ->
  commit_fee_payout_request encode encode_event retention_encodes sha256 s p caller now = Ok s' ->
  fpr_state p = Payout_Pending /\ t_rows (st_payouts s) !! fpr_id p = None /\
  payout_written s s' (fpr_id p) p.
Proof.
  intros Hwf Hp Hsends H. unfold commit_fee_payout_request in H.
  destruct (bool_decide _) eqn:Est in H; [done|]. apply bool_decide_eq_false, dec_stable in Est.
  destruct (_ || _) eqn:Eid; [done|]. apply orb_false_iff in Eid as [Eid _].
  apply negb_false_iff, Z.eqb_eq in Eid.
  bind H as next En. apply ok_or_Ok, checked_add_Some in En as [_ ->]. bind H as debit Ed.
  cbv zeta in H. bind H as [audit sequence] Ea. bind H as u1 E1. bind H as u2 E2.
  bind H as payouts Epay. bind H as events Eev. apply Ok_inj in H as <-. apply db_Ok in Epay.
  apply insert_rows in Epay as (Ht & Hnone & Rt); [|apply Hwf].
  apply adjust_payout_debit_Ok in Ed as [-> Hcost]; [|done|done].
  assert (is_pending_fee_payout p = true) as Hpend by (unfold is_pending_fee_payout; by rewrite Est).
  assert (payout_spent p = 0) as Hspent by (unfold payout_spent; by rewrite Est).
  split_and!; [done..|]. split; try done; simpl; rewrite ?Hnone; simpl.
  - apply Hwf.
  - eexists _, (fpr_id p + 1), sequence. split_and!; [lia|reflexivity|done].
  - destruct Hp as [Ha Hf]. ranges. split; try done; try lia. by apply Hcost.
  - lia.
Qed.

(** A transition moves a payout out of the pending states once; success is the
    only one that spends. *)
Lemma payout_transition_spent p transition state :
  payout_next_state transition (fpr_state p) = Ok state ->
  payout_spent p = 0 /\
  payout_spent (payout_with_state p state)
    = (if is_succeeded_transition transition then payout_cost p else 0).
Proof.
  unfold payout_spent, payout_next_state. destruct transition, (fpr_state p); try done; by intros [= <-].
Qed.

Lemma transition_fee_payout_Ok s id transition scan s' :
  store_wf s -> transition_fee_payout encode scan_key s id transition scan = Ok s' ->
  s' = s \/
  exists previous next,
    t_rows (st_payouts s) !! id = Some previous /\
    (next = previous \/ exists state,
       payout_next_state transition (fpr_state previous) = Ok state /\
       next = payout_with_state previous state) /\
    payout_written s s' id next.
Proof.
  intros Hwf H. unfold transition_fee_payout in H. destruct (is_some_and _ _) in H; [done|].
  bind H as previous Erow. apply ok_or_Ok in Erow. cbv zeta in H.
  pose proof (proj2 (sw_payouts _ Hwf) _ _ Erow) as Hprev. bind H as next En. bind H as debit Ed.
  bind H as accounting Ea.
  destruct (is_some scan && _ && _) in H; [done|].
  destruct (_ && _) in H; [left; by apply Ok_inj in H as <-|right].
  bind H as u1 E1. bind H as u2 E2. bind H as u3 E3. bind H as scans Esc. apply Ok_inj in H as <-.
  assert ((exists state, next = payout_with_state previous state) /\
    (next = previous \/ exists state,
       payout_next_state transition (fpr_state previous) = Ok state /\
       next = payout_with_state previous state)) as [[state Hstate] Hmove].
  { destruct (payout_terminal_replay _ _);
      [|bind En as state E; apply Ok_inj in En as <-; split; [|right]; by eauto].
    apply Ok_inj in En as <-. split; [|by left]. exists (fpr_state previous). by destruct previous. }
  pose proof (payout_row_ranged _ _ _ Hprev) as Hpr.
  assert (payout_ranged next) as Hr by (by subst).
  apply adjust_payout_debit_Ok in Ed as [-> _]; [|done|by intros q [= <-]].
  destruct (update_rows (st_payouts s) id next) as [Ht Rt]; [apply Hwf|by rewrite Erow|].
  assert (as_fee_reserve accounting = as_fee_reserve (st_accounting s) + payout_spent previous - payout_spent next
    /\ as_confirmed_deposit_fees accounting = as_confirmed_deposit_fees (st_accounting s)
    /\ as_confirmed_withdrawal_fees accounting = as_confirmed_withdrawal_fees (st_accounting s)) as (? & ? & ?).
  { destruct (payout_terminal_replay _ _); simpl in Ea.
    - apply Ok_inj in Ea as <-, En as <-. split_and!; lia.
    - bind En as st E. apply Ok_inj in En as <-. apply payout_transition_spent in E as [-> ->].
      destruct (is_succeeded_transition transition); [|apply Ok_inj in Ea as <-; split_and!; lia].
      bind Ea as spent Es. apply fee_payout_debit_Ok in Es as [-> _]; [|done].
      apply core_Ok, spend_fee_reserve_Ok in Ea as (? & ? & ? & ?). split_and!; lia. }
  exists previous, next. split_and!; [done..|]. split; try done; simpl; rewrite ?Erow; try done.
  - destruct scan; simpl in Esc; [|apply Ok_inj in Esc as <-; apply Hwf].
    destruct (_ !! _) in Esc; [apply db_Ok, delete_rows in Esc as [? _]; [done|apply Hwf]|].
    apply Ok_inj in Esc as <-. apply Hwf.
  - eexists _, (cs_next_fee_payout_id (st_counters s)), (cs_next_audit_sequence (st_counters s)).
    by split_and!.
  - subst next. destruct Hprev. by split.
Qed.

Lemma transition_fee_payout_wf s id transition scan s' :
  store_wf s -> transition_fee_payout encode scan_key s id transition scan = Ok s' -> store_wf s'.
Proof.
  intros Hwf H. apply transition_fee_payout_Ok in H as [->|(? & ? & _ & _ & Hw)]; [done| |done].
  by eapply payout_written_wf.
Qed.
End payouts.

(** ** Annotating a record *)

Lemma members_same {K V} `{Countable K} (f : V -> bool) (rows : gmap K V) (marks : gmap K unit) k v :
  members f rows marks -> rows !! k = Some v ->
  (if f v then <[k := tt]> else delete k) marks = marks.
Proof.
  intros Hm Hk. pose proof (members_lookup _ _ _ _ _ Hm Hk) as Hl.
  destruct (f v); [apply insert_id|apply delete_id]; by destruct (marks !! k) as [[]|].
Qed.

Lemma reindex_same {K I V} `{Countable K, Countable I} (entry : V -> option I) (rows : gmap K V)
    (index : gmap I K) k v :
  indexed entry rows index -> rows !! k = Some v -> reindex (entry v) (entry v) k index = index.
Proof.
  intros Hix Hk. unfold reindex. destruct (entry v) as [i|] eqn:Hi; simpl; [|done].
  rewrite insert_delete_eq. apply insert_id, Hix. eauto.
Qed.

Lemma with_stop_reason_record_wf d reason :
  DepositRecord_wf d -> DepositRecord_wf (deposit_with_stop_reason d reason).
Proof.
  intros [? ? ? Hst]. split; try done. unfold DepositRecord_state_wf in *. simpl.
  assert (same_request d (deposit_with_stop_reason d reason)) as Hr by done.
  destruct (dr_state d); try done; try by apply (refunding_frame d).
  - destruct Hst as (q & a & Hc & ?). exists q, a. split; [by apply (committed_frame d)|done].
  - destruct Hst as (q & a & Hc & ?). exists q, a. split; [by apply (committed_frame d)|done].
  - destruct Hst as [? ?]. split; [by apply (refundable_frame d)|done].
  - destruct Hst as (q & a & ev & Hc & ?). exists q, a, ev. split; [by apply (committed_frame d)|done].
Qed.

Section finish.
Context (encode : StoredValue -> Result StorageError unit).

(** The deposit table with one record annotated. *)
Definition annotated (s : Store) (id : bytes) (sd : StoredDeposit) (reason : option string) : Store :=
  with_deposits s
    {| dt_deposits := update_entry (dt_deposits (st_deposits s)) id
         (with_record sd (deposit_with_stop_reason (sd_record sd) reason));
       dt_pull_pending := dt_pull_pending (st_deposits s);
       dt_deadlines := dt_deadlines (st_deposits s);
       dt_nonterminal := dt_nonterminal (st_deposits s) |}.

Lemma annotated_deposit s id sd reason :
  store_wf s -> deposit_row s id = Some sd -> store_wf (annotated s id sd reason).
Proof.
  intros Hwf Hrow. unfold annotated. set (next := with_record sd _). pose proof (sw_deposits _ Hwf) as Hd.
  pose proof (dw_row _ Hd _ _ Hrow) as Hst.
  assert (replaces sd next) as Hrep by (split; [done|done|apply with_stop_reason_record_wf, Hst]).
  destruct (update_rows (dt_deposits (st_deposits s)) id next) as [Ht Rt]; [apply Hd|by exists sd|].
  set (s' := with_deposits _ _).
  assert (deposits_updated (st_deposits s) id sd next (st_deposits s')) as Hup.
  { split; simpl; try done; try apply Hd.
    - symmetry. apply (members_same _ _ _ _ _ (dw_pull _ Hd) Hrow).
    - symmetry. apply (reindex_same _ _ _ _ _ (dw_deadlines _ Hd) Hrow).
    - change (owner_key next) with (owner_key sd). pose proof (dw_nonterminal _ Hd _ _ Hrow) as Hn.
      change (is_terminal_deposit (deposit_with_stop_reason (sd_record sd) reason))
        with (is_terminal_deposit (sd_record sd)).
      destruct (is_terminal_deposit (sd_record sd)); symmetry; [by apply delete_id|by apply insert_id]. }
  split; simpl; try apply Hwf.
  - by apply (deposits_wf_replaced s s' id sd next).
  - apply (counters_replaced s s' id sd next); try done. destruct (sw_counters _ Hwf).
    assert (reserved (sd_record next) = reserved (sd_record sd)) by done.
    assert (deposit_reserved (sd_record next) = deposit_reserved (sd_record sd)) by done.
    assert (deposit_pending (sd_record next) = deposit_pending (sd_record sd)) by done.
    split; simpl st_counters; done || lia.
  - assert (charged_fee (sd_record next) = charged_fee (sd_record sd)) by done.
    apply (fees_replaced s s' id sd next) with 0; try done; simpl st_accounting; lia.
  - by apply (coupled_deposit_same s s' id sd next).
  - by apply (intake_wf_replaced s s' id sd next).
Qed.

Lemma annotated_withdrawal s id w reason t :
  store_wf s -> withdrawal_row s id = Some w ->
  replace_withdrawal_row (st_withdrawals s) id (Some w) (withdrawal_with_stop_reason w reason) = Ok t ->
  store_wf (with_withdrawals s t).
Proof.
  intros Hwf Hrow Ht. destruct (sw_withdrawals _ Hwf) as [Hrw [Hrel Hmem]].
  set (next := withdrawal_with_stop_reason w reason) in *.
  pose proof (with_stop_reason_wf _ _ reason (ww_row _ Hrw _ _ Hrow)) as Hnext.
  apply replace_withdrawal_row_Ok in Ht as (Hw' & _ & Rw & Rr); [|done..].
  set (s' := with_withdrawals s t).
  assert (forall f, f next = f w -> withdrawal_total f s' = withdrawal_total f s) as Tw.
  { intros f Hf. rewrite (withdrawal_total_replaced s s' id next Rw), Hrow. simpl. lia. }
  assert (forall f, deposit_total f s' = deposit_total f s) as Td by done.
  assert (forall f, payout_total f s' = payout_total f s) as Tp by done.
  split; simpl; try apply Hwf.
  - split; [done|]. split; rewrite Rr; [done|]. rewrite Rw.
    rewrite <- (members_same _ _ _ _ _ Hmem Hrow).
    change (is_pending_withdrawal_ledger w) with (is_pending_withdrawal_ledger next).
    by apply members_update.
  - destruct (sw_counters _ Hwf). split; rewrite ?Td, ?Tp, ?Tw by done; done.
  - destruct (sw_fees _ Hwf). split; rewrite ?Td, ?Tp, ?Tw by done; done.
  - apply (coupled_withdrawal_same s s' id next Hwf); try done. by rewrite Hrow.
Qed.

Lemma finish_settlement_job_Ok s job next_run attempts stop reason now s' :
  store_wf s ->
  finish_settlement_job encode s job next_run attempts stop reason now = Ok s' ->
  exists s1 jobs admission, s' = with_jobs s1 jobs admission /\
    (s1 = s \/
     (exists id sd reason', deposit_row s id = Some sd /\ s1 = annotated s id sd reason') \/
     (exists id w reason' t, withdrawal_row s id = Some w /\
        replace_withdrawal_row (st_withdrawals s) id (Some w) (withdrawal_with_stop_reason w reason') = Ok t /\
        s1 = with_withdrawals s t)).
Proof.
  intros Hwf H. unfold finish_settlement_job in H. bind H as blob Eb.
  destruct (finish_job_row _ _ _ _ _ _) as [jobs|] in H.
  2: { apply Ok_inj in H as <-. exists s, (st_jobs s), (st_settlement_admission s).
       split; [by destruct s|by left]. }
  bind H as s1 E. apply Ok_inj in H as <-. eexists s1, _, _. split; [reflexivity|].
  destruct (sj_kind job).
  - bind Eb as sd Erow. apply ok_or_Ok in Erow. bind Eb as next En. apply Ok_inj in Eb as <-.
    apply Ok_inj in E as <-. pose proof (sdw_id _ _ (dw_row _ (sw_deposits _ Hwf) _ _ Erow)) as Hid.
    unfold replaced_deposit in En. simpl in En. rewrite Hid, Erow in En. simpl in En.
    rewrite bool_decide_false in En by tauto. rewrite bool_decide_false in En by tauto.
    bind En as u E. apply Ok_inj in En as <-. right; left. by eexists _, sd, _.
  - bind Eb as w Erow. apply ok_or_Ok in Erow. bind Eb as u Eu. apply Ok_inj in Eb as <-.
    bind E as t Et. apply Ok_inj in E as <-. apply db_Ok in Et. right; right. by eexists _, w, _, t.
  - bind Eb as id Ei. bind Eb as p Erow. bind Eb as u Eu. apply Ok_inj in Eb as <-.
    apply Ok_inj in E as <-. by left.
Qed.

Lemma finish_settlement_job_wf s job next_run attempts stop reason now s' :
  store_wf s ->
  finish_settlement_job encode s job next_run attempts stop reason now = Ok s' -> store_wf s'.
Proof.
  intros Hwf H. apply finish_settlement_job_Ok in H as (s1 & jobs & admission & -> & Hs1); [|done].
  apply (store_wf_frame s1); try done.
  destruct Hs1 as [->|[(id & sd & r & Erow & ->)|(id & w & r & t & Erow & Et & ->)]]; [done|..].
  - by apply annotated_deposit.
  - by eapply annotated_withdrawal.
Qed.
End finish.
