(* ===== verification/StoreIntake.v ===== *)
(** * Intake in the store

    The transactions of [Intake.v] that prepare, update, remove and promote a
    funding attempt, and the sweep of expired authorizations, preserve the
    invariant of [StoreInvariant.v]. *)

From S2P Require Import Prelude KernelArith KernelPolicy Types Accounting External Authorization.
From S2P Require Import Withdrawal WithdrawalSafety Deposit DepositProtocol DepositInvariant Reconciliation.
From S2P Require Import Tables StorageTypes Admission Jobs Notifications EventLog Store Bundles Intake.
From S2P Require Import DepositRows WithdrawalRows IntakeRows StoreInvariant StoreSafety StoreHolds.

(** ** Frames *)

(** Nothing outside the deposit tables and the intake depends on the index of
    open deposits or on the intake. *)
Lemma intake_changed s t i :
  store_wf s -> dt_deposits t = dt_deposits (st_deposits s) ->
  deposits_wf t -> intake_wf t i -> store_wf (with_intake (with_deposits s t) i).
Proof.
  intros Hwf Hd Ht Hi. split; simpl; try done; try apply Hwf.
  - destruct (sw_counters _ Hwf). unfold deposit_total in *. rewrite <- Hd in *. by split.
  - destruct (sw_fees _ Hwf). unfold deposit_total in *. rewrite <- Hd in *. by split.
  - intros h r tr. pose proof (sw_coupled _ Hwf h r tr) as Hc. unfold waits, deposit_row in *.
    simpl. by rewrite Hd.
Qed.

Section intake.
Context (encode : StoredValue -> Result StorageError unit).
Context (transfer_identity_hash : LedgerTransferIdentity -> bytes).

(** ** Expired authorizations *)

Lemma expire_deposit_Ok s now id s' :
  store_wf s -> expire_deposit encode transfer_identity_hash s now id = Ok s' ->
  exists sd res d' out, deposit_row s id = Some sd /\
    DepositStep (sd_record sd) (MarkRefundAvailable Reason_AuthorizationExpired (Some now)) res d' /\
    writable s sd d' /\
    put_deposit_with_audit encode transfer_identity_hash s d' None (Some res) None = Ok (out, s').
Proof.
  intros Hwf H. unfold expire_deposit in H. bind H as sd Erow. apply ok_or_Ok in Erow.
  bind H as e Ee. bind H as [res d'] Ea. apply core_Ok in Ea.
  pose proof (dw_row _ (sw_deposits _ Hwf) _ _ Erow) as Hst.
  unfold put_deposit_transition in H. bind H as [out s1] E. apply Ok_inj in H as <-.
  assert (e = MarkRefundAvailable Reason_AuthorizationExpired (Some now)) as ->
    by (by destruct (dr_state (sd_record sd)); simplify_eq).
  apply deposit_apply_sound in Ea; [|apply Hst|done].
  exists sd, res, d', out.
  split_and!; [done..| |done]. eapply event_writable; [done| |done|done]. by rewrite (sdw_id _ _ Hst).
Qed.

Lemma expire_deposit_wf s now id s' :
  store_wf s -> expire_deposit encode transfer_identity_hash s now id = Ok s' -> store_wf s'.
Proof.
  intros Hwf H. apply expire_deposit_Ok in H as (? & ? & ? & ? & _ & _ & Hw & H); [|done].
  by eapply put_deposit_with_audit_wf.
Qed.

Lemma expire_deposits_wf s now ids :
  store_wf s -> store_wf (expire_deposits encode transfer_identity_hash s now ids).1.
Proof.
  revert s. induction ids as [|id ids IH]; intros s Hwf; simpl; [done|].
  destruct (expire_deposit encode transfer_identity_hash s now id) as [s'|] eqn:E; [|done].
  apply IH. by eapply expire_deposit_wf.
Qed.

Lemma release_expired_wf s now limit :
  store_wf s ->
  store_wf (release_expired_deposit_reservations encode transfer_identity_hash s now limit).1.
Proof.
  intros Hwf. unfold release_expired_deposit_reservations. destruct (_ || _); [done|].
  destruct (deposit_authorization_deadline_index_key _ _) as [last|]; [|done].
  pose proof (expire_deposits_wf s now (take limit (deadlines_until (dt_deadlines (st_deposits s)) last)) Hwf).
  by destruct (expire_deposits _ _ _ _ _) as [s' [|]].
Qed.

End intake.

(** ** Funding attempts *)

Section attempts.
Context (encode : StoredValue -> Result StorageError unit).

(** What the types of an attempt say of it. *)
Record attempt_ranged (a : DepositFundingAttempt) : Prop := {
  ar_id : length (di_deposit_id (dfa_intent a)) = 32%nat;
  ar_owner : (length (attempt_owner a) <= 29)%nat;
  ar_gross : is_u128 (dfa_gross_amount a);
}.

Lemma owner_sequence_key_eq owner : (length owner <= 29)%nat -> owner_sequence_key owner = Ok owner.
Proof. intros. apply StableBlob_new_short. lia. Qed.

Lemma consistent_attempt_wf owner a :
  attempt_ranged a -> attempt_consistent owner a = true ->
  owner = attempt_owner a /\ attempt_wf (di_deposit_id (dfa_intent a)) a.
Proof.
  intros [] H. unfold attempt_consistent in H. rewrite !andb_true_iff, !bool_decide_eq_true, Z.eqb_eq in H.
  destruct H as [[[[? ?] ?] ?] ?]. split; [done|]. split; try done. unfold attempt_owner. congruence.
Qed.

Lemma prepare_attempt_wf s owner a quota cycles notifications o s' :
  store_wf s -> attempt_ranged a ->
  prepare_deposit_funding_attempt encode s owner a quota cycles notifications = Ok (o, s') ->
  store_wf s'.
Proof.
  intros Hwf Hr H. unfold prepare_deposit_funding_attempt in H. cbv zeta in H.
  destruct (deposit_row s _) eqn:Hrow; [done|]. simpl in H.
  destruct (deposit_funding_attempt s _) eqn:Hatt.
  { destruct (_ && _) in H; [|done]. apply Ok_inj in H. by injection H as _ <-. }
  bind H as lifetime El. destruct (negb _) in H; [done|].
  destruct (attempt_consistent owner a) eqn:Hc; [|done]. cbn [negb] in H.
  apply consistent_attempt_wf in Hc as [-> Ha]; [|done].
  bind H as admin Eadm. destruct (ads_deposits_paused admin); [done|].
  rewrite owner_sequence_key_eq in H by apply Hr.
  destruct (Z.eqb_spec (di_owner_sequence (dfa_intent a)) (next_deposit_sequence s (attempt_owner a)))
    as [Hseq|]; [|done]. cbn [negb] in H.
  bind H as adm Er. bind H as token Et. bind H as n En. bind H as required Erq.
  destruct (_ <? _) in H; [done|]. bind H as u1 E1. bind H as u2 E2. bind H as due Edue.
  rewrite sequence_key_index in H by apply Hr. bind H as attempts Eat. bind H as nonterminal Ent.
  apply Ok_inj in H. injection H as _ <-. apply db_Ok in Eat, Ent.
  pose proof (sw_intake _ Hwf) as Hi. pose proof (sw_deposits _ Hwf) as Hd.
  apply insert_rows in Eat as (Hawf & Hak & Har); [|apply Hi].
  apply insert_rows in Ent as (Hnwf & Hnk & Hnr); [|apply Hd].
  pose proof (iw_reservations _ _ Hi) as Hres.
  apply reserve_funding_Ok in Er as [[Hin _]|(_ & _ & Hroom & consumed & Hcons & ->)]; [| |apply Hres].
  { apply list_elem_of_fmap in Hin as (r & Hid & Hin). apply (rw_attempt _ Hres) in Hin as (b & d & Hb & _).
    congruence. }
  apply consume_deposit_quota_Ok in Hcons as (_ & _ & _ & counts & _ & ->).
  apply intake_changed; try done.
  - apply (added_deposits _ (st_intake s) a nonterminal); try done.
  - by eapply added_intake.
Qed.

Lemma expect_attempt_Ok s a message :
  expect_attempt s a message = Ok tt <->
  exists due, t_rows (in_attempts (st_intake s)) !! di_deposit_id (dfa_intent a) = Some (a, due).
Proof.
  unfold expect_attempt. destruct (_ !! _) as [[b due]|]; [|naive_solver].
  case_bool_decide; naive_solver.
Qed.

Lemma intake_only s i : with_intake (with_deposits s (st_deposits s)) i = with_intake s i.
Proof. done. Qed.

Lemma update_attempt_wf s previous next s' :
  store_wf s -> dfa_gross_amount next = dfa_gross_amount previous ->
  update_deposit_funding_attempt encode s previous next = Ok s' -> store_wf s'.
Proof.
  intros Hwf Hg H. unfold update_deposit_funding_attempt in H.
  destruct (_ || _) eqn:E; [done|]. apply orb_false_iff in E as [Ei Et].
  apply bool_decide_eq_false, dec_stable in Ei, Et.
  bind H as u1 E1. bind H as u2 E2. bind H as due' Edue. bind H as [] Eex. apply Ok_inj in H as <-.
  apply db_Ok, expect_attempt_Ok in Eex as [due Hrow]. pose proof (sw_intake _ Hwf) as Hi.
  edestruct (update_rows (in_attempts (st_intake s))) as [Ht Rt]; [apply Hi|by rewrite Hrow|].
  rewrite <- intake_only. apply intake_changed; try done; [apply Hwf|].
  by eapply updated_intake.
Qed.

(** The attempt to remove is the owner's. *)
Lemma remove_attempt_wf s a s' :
  store_wf s -> remove_deposit_funding_attempt encode s (attempt_owner a) a = Ok s' -> store_wf s'.
Proof.
  intros Hwf H. unfold remove_deposit_funding_attempt in H. bind H as adm Er. bind H as u1 E1.
  bind H as u2 E2. bind H as key Ek. bind H as [] Eex. bind H as attempts Ea. bind H as nonterminal En.
  apply Ok_inj in H as <-. apply db_Ok, expect_attempt_Ok in Eex as [due Hrow]. apply db_Ok in Ea, En.
  pose proof (sw_intake _ Hwf) as Hi. pose proof (iw_attempt _ _ Hi _ _ _ Hrow) as Haw.
  rewrite sequence_key_index in Ek by apply Haw. apply Ok_inj in Ek as <-.
  apply delete_rows in Ea as (Hawf & _ & Har); [|apply Hi].
  apply delete_rows in En as (Hnwf & _ & Hnr); [|apply (sw_deposits _ Hwf)].
  assert (exists r, take_reservation (attempt_owner a) (di_deposit_id (dfa_intent a))
    (dac_funding_reservations (in_deposit_admission (st_intake s))) = Some (r, dac_funding_reservations adm))
    as [r Hr].
  { unfold rollback_failed_deposit_admission in Er. bind Er as [r others] Et. apply ok_or_Ok in Et.
    exists r. rewrite Et. destruct (_ || _) in Er; [by apply Ok_inj in Er as <-|].
    bind Er as g Eg. bind Er as c Ec. by apply Ok_inj in Er as <-. }
  apply intake_changed; try done.
  - by eapply taken_deposits; [apply Hwf|..].
  - by eapply taken_intake; [apply Hwf|..].
Qed.

(** ** Admitting a deposit *)

Section admitted.
Context (s s' : Store) (id : bytes) (sd : StoredDeposit).
Hypothesis (Hnew : deposit_row s id = None).
Hypothesis (Hrows : t_rows (dt_deposits (st_deposits s')) = <[id := sd]> (t_rows (dt_deposits (st_deposits s)))).
Hypothesis (Hw : st_withdrawals s' = st_withdrawals s).

Lemma deposit_total_admitted f : deposit_total f s' = deposit_total f s + f (sd_record sd).
Proof. unfold deposit_total. rewrite Hrows, map_sum_insert by done. lia. Qed.

Lemma waits_admitted x : waits s' x <-> waits s x \/ deposit_waits_on (sd_record sd) = Some x.
Proof.
  unfold waits, deposit_row, withdrawal_row in *. rewrite Hw, Hrows. setoid_rewrite lookup_insert_Some.
  split.
  - intros [(id' & sd' & [[<- <-]|[_ ?]] & ?)|?]; [by right|left; left; eauto|left; by right].
  - intros [[(id' & sd' & Hs & ?)|?]|?]; [|by right|left; exists id, sd; auto].
    left. exists id', sd'. split; [|done]. right. split; [|done]. congruence.
Qed.
End admitted.

(** A deposit as it is admitted: funded, or waiting for its funding hold. *)
Definition fresh_deposit (d : DepositRecord) (hold : option ReconciliationHoldRecord) : Prop :=
  match dr_state d, hold with
  | EscrowedUnquoted _, None => True
  | FundingReconciliationHold h, Some hold =>
      hold = ReconciliationHoldRecord_open h (Ref_DepositFunding (dr_id d)) (dr_transfer d)
  | _, _ => False
  end.

Lemma fresh_deposit_facts d hold :
  DepositRecord_wf d -> fresh_deposit d hold ->
  no_deadline d /\ is_terminal_deposit d = false /\ is_pending_deposit_ledger d = false /\
  charged_fee d = 0 /\
  deposit_waits_on d = (fun hold => (rh_id hold, rh_request hold, rh_transfer hold)) <$> hold.
Proof.
  intros Hwf Hf. pose proof (dwf_state _ Hwf) as Hst. unfold DepositRecord_state_wf in Hst.
  unfold fresh_deposit, no_deadline, is_terminal_deposit, is_pending_deposit_ledger, charged_fee,
    deposit_waits_on, DepositRecord_signed_authorization in *.
  destruct (dr_state d), hold; try done; destruct Hst as [[-> ->] _]; simpl; [|subst]; by split_and!.
Qed.

(** The counters after an admission. *)
Lemma admission_counters_Ok s d hold counters :
  store_wf s -> no_deadline d -> is_pending_deposit_ledger d = false ->
  admission_counters (st_counters s) d hold = Ok counters ->
  counters = with_next_deposit (with_next_hold (st_counters s)
      (cs_next_hold_id (st_counters s) + Z.b2z (is_some hold)))
      (cs_next_deposit_index_sequence (st_counters s) + 1) /\
  (forall h, hold = Some h -> rh_id h = cs_next_hold_id (st_counters s)).
Proof.
  intros Hwf Hnd Hnp H. unfold admission_counters in H. bind H as nh Enh. bind H as seq Es.
  bind H as pending Ep. bind H as amount Ea. bind H as reservation Er. destruct (_ || _) in H; [done|].
  bind H as ops Eo. apply Ok_inj in H as <-. apply ok_or_Ok, checked_add_Some in Es as [_ ->].
  destruct (sw_counters _ Hwf). rewrite Hnp in Ep.
  apply adjust_active_count_Ok in Ep as [-> _]; [|done].
  pose proof (no_deadline_reserved _ Hnd) as Hres.
  unfold adjust_reserved_mint_amount in Ea. simpl in Ea. rewrite Hres in Ea. apply Ok_inj in Ea as <-.
  unfold adjust_reserved_mint_operations in Eo. rewrite Hres in Eo.
  apply adjust_active_count_Ok in Eo as [-> _]; [|done]. simpl. rewrite !Z.sub_0_r, !Z.add_0_r.
  destruct hold as [hold|].
  - destruct (Z.eqb_spec (cs_next_hold_id (st_counters s)) (rh_id hold)) as [Hid|]; [|done]. simpl in Enh.
    apply ok_or_Ok, checked_add_Some in Enh as [_ ->]. split; [done|]. by intros ? [= <-].
  - apply Ok_inj in Enh as <-. by rewrite Z.add_0_r.
Qed.

Lemma insert_open_hold_Ok t next hold t' :
  holds_wf t next -> (forall h, hold = Some h -> rh_id h = next /\ is_open_hold h = true) ->
  insert_open_hold t hold = Ok t' ->
  holds_wf t' (next + Z.b2z (is_some hold)) /\
  match hold with
  | Some h => t_rows (ht_holds t) !! next = None /\ t_rows (ht_holds t') = <[next := h]> (t_rows (ht_holds t))
  | None => t' = t
  end.
Proof.
  intros Ht Hh H. destruct hold as [hold|]; simpl in *.
  - destruct (Hh hold eq_refl) as [Hid Ho]. bind H as holds Eh. bind H as open_ Eo. apply Ok_inj in H as <-.
    rewrite Hid in Eh, Eo. apply insert_rows in Eh as (Hhw & Hn & Rh); [|apply Ht].
    apply insert_rows in Eo as (How & _ & Ro); [|apply Ht]. split; [|done]. by eapply holds_opened.
  - apply Ok_inj in H as <-. by rewrite Z.add_0_r.
Qed.

Section admission.
Context (s : Store) (a : DepositFundingAttempt) (record : DepositRecord).
Context (hold : option ReconciliationHoldRecord).
Hypothesis (Hwf : store_wf s) (Hrecord : DepositRecord_wf record).
Hypothesis (Hfresh : fresh_deposit record hold).

Definition admitted_deposit : StoredDeposit :=
  {| sd_record := record; sd_owner_sequence := di_owner_sequence (dfa_intent a);
     sd_base_recipient := di_base_recipient (dfa_intent a) |}.

Lemma admitted_written s' counters holds :
  deposits_wf (st_deposits s') -> intake_wf (st_deposits s') (st_intake s') ->
  deposit_row s (dr_id record) = None ->
  t_rows (dt_deposits (st_deposits s'))
    = <[dr_id record := admitted_deposit]> (t_rows (dt_deposits (st_deposits s))) ->
  admission_counters (st_counters s) record hold = Ok counters ->
  insert_open_hold (st_holds s) hold = Ok holds ->
  st_holds s' = holds -> st_counters s' = counters -> st_withdrawals s' = st_withdrawals s ->
  st_payouts s' = st_payouts s -> st_accounting s' = st_accounting s -> store_wf s'.
Proof.
  intros Hd Hi Hnew Hrows Hc Hh <- <- Ew Ep Ea.
  destruct (fresh_deposit_facts _ _ Hrecord Hfresh) as (Hnd & _ & Hnp & Hfee & Hwait).
  apply admission_counters_Ok in Hc as [Hc Hid]; [|done..].
  assert (forall h, hold = Some h -> rh_id h = cs_next_hold_id (st_counters s) /\ is_open_hold h = true) as Hho.
  { intros h ->. split; [by apply Hid|]. unfold fresh_deposit in Hfresh.
    destruct (dr_state record); try done. by subst. }
  apply (insert_open_hold_Ok _ _ _ _ (sw_holds _ Hwf) Hho) in Hh as [Hh Rh].
  pose proof (deposit_total_admitted s s' _ _ Hnew Hrows) as Td. simpl in Td.
  assert (forall f, withdrawal_total f s' = withdrawal_total f s) as Tw
    by (intros f; unfold withdrawal_total; by rewrite Ew).
  assert (forall f, payout_total f s' = payout_total f s) as Tp
    by (intros f; unfold payout_total; by rewrite Ep).
  pose proof (no_deadline_reserved _ Hnd) as Hnr. pose proof (reserved_none _ Hnr).
  split; rewrite ?Ew, ?Ep; try done; try apply Hwf; try (rewrite Hc; simpl; done || apply Hwf).
  - destruct (sw_counters _ Hwf). unfold deposit_reserved, deposit_pending in Td.
    split; rewrite ?Td, ?Tw, ?Tp, ?Hc; unfold deposit_reserved, deposit_pending;
      rewrite ?Hnr, ?Hnp; simpl; unfold deposit_reserved, deposit_pending in *; done || lia.
  - destruct (sw_fees _ Hwf). split; rewrite ?Td, ?Tw, ?Tp, ?Ea; lia.
  - pose proof (waits_admitted s s' _ _ Hnew Hrows Ew) as Hw'. simpl in Hw'. rewrite Hwait in Hw'.
    destruct hold as [h|]; simpl in *.
    + destruct Rh as [Hnone Rh]. unfold fresh_deposit in Hfresh. destruct (dr_state record); try done.
      subst h. simpl in *. rewrite <- (Hid _ eq_refl) in Hnone, Rh. simpl in Hnone, Rh.
      eapply (coupled_opened s s'); [done|intros y; rewrite Hw'; naive_solver|done|done].
    + intros h r t. rewrite Hw'. unfold hold_row. rewrite Rh. fold (hold_row s h).
      rewrite <- (sw_coupled _ Hwf h r t). naive_solver.
Qed.

(** The record is the one the attempt was made for. *)
Hypothesis (Hid : dr_id record = di_deposit_id (dfa_intent a)).
Hypothesis (Htransfer : dr_transfer record = dfa_transfer a).

Lemma promotion_tables s' due r adm attempts owners sequences pull nonterminal deposits :
  t_rows (in_attempts (st_intake s)) !! dr_id record = Some (a, due) ->
  take_reservation (attempt_owner a) (dr_id record)
    (dac_funding_reservations (in_deposit_admission (st_intake s)))
    = Some (r, dac_funding_reservations adm) ->
  sequence_of (st_intake s) (attempt_owner a) + 1 <= u64_max ->
  insert_tracked_entry (dt_deposits (st_deposits s)) (dr_id record) admitted_deposit = Ok deposits ->
  upsert_table_entry (dt_nonterminal (st_deposits s))
    (sequence_key (attempt_owner a) (di_owner_sequence (dfa_intent a))) (dr_id record) = Ok nonterminal ->
  delete_tracked_entry (in_attempts (st_intake s)) (dr_id record) = Ok attempts ->
  upsert_table_entry (in_owner_sequences (st_intake s)) (attempt_owner a)
    (sequence_of (st_intake s) (attempt_owner a) + 1) = Ok sequences ->
  pull = dt_pull_pending (st_deposits s) ->
  st_deposits s' = {| dt_deposits := deposits; dt_pull_pending := pull;
    dt_deadlines := dt_deadlines (st_deposits s); dt_nonterminal := nonterminal |} ->
  st_intake s' = with_owners (with_attempts (st_intake s) attempts adm) owners sequences ->
  deposits_wf (st_deposits s') /\ intake_wf (st_deposits s') (st_intake s').
Proof.
  intros Hrow Hr Hmax Ed En Ea Es -> Et Ei.
  pose proof (sw_deposits _ Hwf) as Hd. pose proof (sw_intake _ Hwf) as Hi.
  pose proof (iw_attempt _ _ Hi _ _ _ Hrow) as Haw.
  destruct (fresh_deposit_facts _ _ Hrecord Hfresh) as (Hnd & Hnt & Hnp & _ & _).
  apply insert_rows in Ed as (Hdw & Habs & Rd); [|apply Hd].
  apply upsert_rows in En as [Hnw Rn]; [|apply Hd].
  apply delete_rows in Ea as (Haw' & _ & Ra); [|apply Hi].
  apply upsert_rows in Es as [Hsw Rs]; [|apply Hi].
  assert (t_rows (dt_pull_pending (st_deposits s)) !! dr_id record = None) as Hpull.
  { destruct (t_rows (dt_pull_pending _) !! _) as [[]|] eqn:E; [|done].
    apply (dw_pull _ Hd) in E as (sd & Hsd & _). congruence. }
  assert (deposit_owner admitted_deposit = attempt_owner a) as Hown.
  { unfold deposit_owner. simpl. rewrite Htransfer. apply Haw. }
  assert (owner_key admitted_deposit = sequence_key (attempt_owner a) (di_owner_sequence (dfa_intent a))) as Hkey.
  { unfold owner_key, sequence_key. unfold deposit_owner in Hown. by rewrite Hown. }
  assert (stored_wf (dr_id record) admitted_deposit) as Hst.
  { split; [done|apply Haw| |done].
    unfold deposit_owner in Hown. rewrite Hown. apply Haw. }
  rewrite Et, Ei. split.
  - eapply (promoted_deposits (st_deposits s)) with (sd := admitted_deposit); simpl; try done;
      rewrite ?Hnp, ?Hkey; try done; [by apply no_deadline_entry|apply Hd|by rewrite delete_id].
  - eapply (promoted_intake (st_deposits s)) with (sd := admitted_deposit); simpl; try done;
      rewrite ?Hkey; try done.
Qed.
End admission.

Lemma promotion_matches_true intent record a hold :
  promotion_matches intent record a hold = true ->
  dfa_intent a = intent /\ dfa_transfer a = dr_transfer record /\ dfa_state a <> Attempt_Prepared /\
  fresh_deposit record hold.
Proof.
  unfold promotion_matches, fresh_deposit. rewrite !andb_true_iff, !bool_decide_eq_true.
  intros [[[-> ->] Hs] Hm]. split_and!; [done|done|by destruct (dfa_state a)|].
  destruct hold as [hold|], (dr_state record); try done.
  rewrite !andb_true_iff, !bool_decide_eq_true, Z.eqb_eq in Hm. destruct Hm as [[[<- <-] <-] Ho].
  apply open_hold_state in Ho. destruct hold. simpl in *. by subst.
Qed.

(** What admitting the deposit of an attempt does to the store. *)
Definition promotion_written (s s' : Store) (a : DepositFundingAttempt) (record : DepositRecord)
    (hold : option ReconciliationHoldRecord) : Prop :=
  exists due r adm counters deposits nonterminal attempts owners sequences,
    t_rows (in_attempts (st_intake s)) !! dr_id record = Some (a, due) /\
    take_reservation (attempt_owner a) (dr_id record)
      (dac_funding_reservations (in_deposit_admission (st_intake s)))
      = Some (r, dac_funding_reservations adm) /\
    sequence_of (st_intake s) (attempt_owner a) + 1 <= u64_max /\
    insert_tracked_entry (dt_deposits (st_deposits s)) (dr_id record) (admitted_deposit a record)
      = Ok deposits /\
    upsert_table_entry (dt_nonterminal (st_deposits s))
      (sequence_key (attempt_owner a) (di_owner_sequence (dfa_intent a))) (dr_id record)
      = Ok nonterminal /\
    delete_tracked_entry (in_attempts (st_intake s)) (dr_id record) = Ok attempts /\
    upsert_table_entry (in_owner_sequences (st_intake s)) (attempt_owner a)
      (sequence_of (st_intake s) (attempt_owner a) + 1) = Ok sequences /\
    admission_counters (st_counters s) record hold = Ok counters /\
    insert_open_hold (st_holds s) hold = Ok (st_holds s') /\
    st_deposits s' = {| dt_deposits := deposits; dt_pull_pending := dt_pull_pending (st_deposits s);
      dt_deadlines := dt_deadlines (st_deposits s); dt_nonterminal := nonterminal |} /\
    st_intake s' = with_owners (with_attempts (st_intake s) attempts adm) owners sequences /\
    st_counters s' = counters /\ st_withdrawals s' = st_withdrawals s /\
    st_payouts s' = st_payouts s /\ st_accounting s' = st_accounting s.

Lemma admit_promotion_Ok s owner intent record quota a hold o s' :
  store_wf s -> DepositRecord_wf record ->
  admit_deposit encode s owner intent record (Some quota) (Some (a, hold)) = Ok (o, s') ->
  s' = s \/
  deposit_row s (dr_id record) = None /\ dr_id record = di_deposit_id (dfa_intent a) /\
  dfa_transfer a = dr_transfer record /\ dfa_state a <> Attempt_Prepared /\
  fresh_deposit record hold /\ promotion_written s s' a record hold.
Proof.
  intros Hwf Hrecord H. unfold admit_deposit in H. cbv zeta in H.
  destruct (deposit_row s (dr_id record)) eqn:Hnew.
  { destruct (_ && _) in H; [|done]. apply Ok_inj in H. injection H as _ <-. by left. } right.
  destruct (intent_matches owner intent record) eqn:Him; [|done].
  unfold intent_matches in Him. rewrite !andb_true_iff, !bool_decide_eq_true in Him.
  destruct Him as [[[[Hid _] Hc] Ho] _]. cbn [negb is_some_and] in H.
  destruct (promotion_matches intent record a hold) eqn:Hpm; [|done].
  apply promotion_matches_true in Hpm as (<- & Htr & Hst & Hfresh).
  cbn [negb fmap option_fmap option_map fst mbind option_bind snd] in H.
  bind H as adm Eadm. simpl in Eadm. bind Eadm as adm' Er. bind Eadm as u0 E0. apply Ok_inj in Eadm as <-.
  change (option_bind _ _ snd (Some (a, hold))) with hold in H.
  bind H as skey Ek. destruct (_ =? _) eqn:Esq in H; [|done]. cbn [negb] in H.
  bind H as next En0. bind H as counters Ec.
  bind H as u1 E1. bind H as u2 E2. bind H as ikey Eik. bind H as nkey Enk. bind H as rs Ers.
  bind H as re Ere. bind H as u3 E3. bind H as u4 E4. bind H as s1 Es1.
  apply Ok_inj in H. injection H as _ <-. apply db_Ok in Es1.
  bind Es1 as [] Eex. bind Es1 as deposits Ed. bind Es1 as oi1 Eoi1. bind Es1 as nt Ent.
  bind Es1 as oi2 Eoi2. bind Es1 as pull Epull. bind Es1 as holds Eholds. bind Es1 as attempts Eat.
  bind Es1 as seqs Eseq. apply Ok_inj in Es1 as <-.
  apply expect_attempt_Ok in Eex as [due Hrow]. rewrite Hid in Hrow, Er.
  pose proof (iw_attempt _ _ (sw_intake _ Hwf) _ _ _ Hrow) as Haw.
  rewrite <- Hc in Ek, Enk, Er. fold (attempt_owner a) in Ek, Enk, Er.
  rewrite owner_sequence_key_eq in Ek by apply Haw. apply Ok_inj in Ek as <-.
  rewrite sequence_key_index in Enk by apply Haw. apply Ok_inj in Enk as <-.
  apply ok_or_Ok, checked_add_Some in En0 as [Hmax ->].
  destruct (fresh_deposit_facts _ _ Hrecord Hfresh) as (_ & _ & Hnp & _ & _).
  rewrite Hnp in Epull. apply Ok_inj in Epull as <-.
  unfold release_deposit_funding_reservation in Er.
  destruct (take_reservation _ _ _) as [[r others]|] eqn:Ht; [|done]. apply Ok_inj in Er as <-.
  split_and!; [done..|]. eexists due, r, _, counters, deposits, nt, attempts, _, seqs.
  split_and!; try done; exact Ht.
Qed.

Lemma admit_promotion_wf s owner intent record quota a hold o s' :
  store_wf s -> DepositRecord_wf record ->
  admit_deposit encode s owner intent record (Some quota) (Some (a, hold)) = Ok (o, s') ->
  store_wf s'.
Proof.
  intros Hwf Hrecord H. apply admit_promotion_Ok in H
    as [->|(Hnew & Hid & Htr & _ & Hfresh & due & r & adm & counters & deposits & nonterminal
      & attempts & owners & sequences & Hrow & Hr & Hmax & Ed & En & Ea & Es & Ec & Eh & Et & Ei
      & Hc & Hw & Hp & Hacc)]; [done| |done..].
  assert (deposits_wf (st_deposits s') /\ intake_wf (st_deposits s') (st_intake s')) as [Hd Hi].
  { by eapply (promotion_tables s a record hold Hwf Hrecord Hfresh); simpl; eauto. }
  apply insert_rows in Ed as (_ & _ & Rd); [|apply (sw_deposits _ Hwf)].
  eapply (admitted_written s a record hold Hwf Hrecord Hfresh s'); try done. by rewrite Et.
Qed.
End attempts.
