(* ===== verification/StoreFunding.v ===== *)
(** * What the funding handlers do to the store

    The two handlers of [Funding], each as the message before and the callback
    after its canister call.  Whatever they answer, they write the store only by
    four transactions: an attempt is prepared, moves one step in its life, is
    dropped, or becomes a deposit.  What those four keep, the handlers keep: the
    section [keeps] proves this for any preorder on stores, and the invariant of
    [StoreInvariant] is the first instance. *)

From stdpp Require Import sorting.
From S2P Require Import Prelude KernelArith KernelPolicy Types Accounting External Authorization.
From S2P Require Import Withdrawal Deposit DepositProtocol DepositInvariant Reconciliation Tables.
From S2P Require Import StorageTypes Config Admission Jobs Notifications EventLog Store Bundles.
From S2P Require Import Intake Funding DepositRows WithdrawalRows IntakeRows StoreInvariant.
From S2P Require Import StoreSafety StoreHolds StoreIntake.

(** ** The life of a funding attempt *)

Inductive AttemptMove : DepositFundingAttemptState -> DepositFundingAttemptState -> Prop :=
| AM_dispatch s t : s = Attempt_Prepared \/ (exists r, s = Attempt_Retryable r) ->
    AttemptMove s (Attempt_Dispatched t)
| AM_refused t r : AttemptMove (Attempt_Dispatched t) (Attempt_Retryable r)
| AM_reconcile t p n : AttemptMove (Attempt_Dispatched t) (Attempt_Reconciling p n false)
| AM_progress p n p' n' final :
    AttemptMove (Attempt_Reconciling p n final) (Attempt_Reconciling p' n' final)
| AM_final p n p' n' :
    AttemptMove (Attempt_Reconciling p n false) (Attempt_Reconciling p' n' true).

Definition attempt_kept (a a' : DepositFundingAttempt) : Prop :=
  dfa_intent a' = dfa_intent a /\ dfa_transfer a' = dfa_transfer a /\
  dfa_gross_amount a' = dfa_gross_amount a /\ dfa_max_service_fee a' = dfa_max_service_fee a.

(** An attempt that was sent is dropped only when the ledger refused it, or when
    the second scan did not find it. *)
Definition droppable (state : DepositFundingAttemptState) : bool :=
  match state with Attempt_Reconciling _ _ final => final | _ => true end.

(** A deposit comes into being by the event that ends its funding. *)
Definition ends_funding (e : DepositEvent) : Prop :=
  match e with FundingSucceeded _ | FundingAmbiguous _ => True | _ => False end.

Definition deposit_enters (request : DepositRequest) (d : DepositRecord) : Prop :=
  exists r0 e res, DepositRecord_accept request = Ok r0 /\ DepositStep r0 e res d /\ ends_funding e.

(** A new deposit has a funding block exactly when the event names it. *)
Lemma funding_block_of_event request r0 e res r b :
  DepositRecord_accept request = Ok r0 -> DepositStep r0 e res r -> ends_funding e ->
  DepositRecord_funding_ledger_block_index r = Some b -> e = FundingSucceeded b.
Proof.
  intros Hr0 Hstep He. assert (dr_state r0 = FundingPending) as Hs0.
  { unfold DepositRecord_accept in Hr0. by repeat (case_match; simplify_eq/=). }
  unfold DepositRecord_funding_ledger_block_index, DepositRecord_ledger_blocks.
  destruct Hstep; simpl; try done; try congruence. by rewrite Hs0.
Qed.

Lemma promoted_record_Ok a e record :
  is_u128 (dfa_gross_amount a) -> DepositEvent_ranged e -> ends_funding e ->
  promoted_record a e = Ok record ->
  DepositRecord_wf record /\ deposit_enters (promotion_request a) record /\
  (forall b, DepositRecord_funding_ledger_block_index record = Some b -> e = FundingSucceeded b).
Proof.
  intros Hu He Hf H. unfold promoted_record in H. bind H as r0 E0. bind H as [res r] E1.
  case_bool_decide; [done|]. apply Ok_inj in H as <-. unfold map_err in E0, E1.
  destruct (DepositRecord_accept _) as [r1|] eqn:Ea; [|done]. apply Ok_inj in E0 as ->.
  destruct (DepositRecord_apply r0 e) as [p|] eqn:Ep; [|done]. apply Ok_inj in E1 as ->.
  pose proof Ea as Ha. apply deposit_accept_wf in Ea as [Hwf _]; [|done].
  apply deposit_apply_sound in Ep; [|done..].
  split_and!; [by eapply deposit_step_wf|by exists r0, e, res|].
  intros b. by apply (funding_block_of_event _ _ _ _ _ _ Ha Ep Hf).
Qed.

(** ** What requests are made of *)

Lemma Account_new_Ok owner subaccount a :
  Account_new owner subaccount = Ok a ->
  (length owner <= 29)%nat /\ a_owner a = owner /\ a_subaccount a = subaccount.
Proof.
  unfold Account_new. destruct (_ || _) eqn:E; [done|]. intros [= <-].
  rewrite !orb_false_iff, Z.ltb_ge in E. split_and!; [lia|done..].
Qed.

Section request.
Context (sha256 : bytes -> bytes) (test_deployment : bool).

(** What an attempt asks the ledger for: to move the gross amount into the canister's
    account, under the memo of the deposit. *)
Record pulls (self : bytes) (a : DepositFundingAttempt) : Prop := {
  pl_to : lti_to (dfa_transfer a) = {| a_owner := self; a_subaccount := zeros 32 |};
  pl_memo : lti_memo (dfa_transfer a) =
      hash_concat sha256 [str "KINIC-DEPOSIT-MEMO-V3"; di_deposit_id (dfa_intent a)];
  pl_amount : lti_amount (dfa_transfer a) = dfa_gross_amount a;
}.

Lemma fresh_transfer_Ok env caller id v tr :
  fresh_transfer sha256 test_deployment env caller id v = Ok tr ->
  (length caller <= 29)%nat /\
  lti_to tr = {| a_owner := env_self env; a_subaccount := zeros 32 |} /\
  lti_memo tr = hash_concat sha256 [str "KINIC-DEPOSIT-MEMO-V3"; id] /\
  lti_amount tr = vda_gross_amount v.
Proof.
  unfold fresh_transfer. intros H. bind H as from Ef. bind H as to Et.
  apply Ok_inj in H as <-. unfold map_err in Ef, Et.
  destruct (Account_new caller _) eqn:Ea; [|done]. apply Account_new_Ok in Ea as [? _].
  destruct (Account_new (env_self env) _) as [to'|] eqn:Eto; [|done].
  apply Account_new_Ok in Eto as (_ & ? & ?). apply Ok_inj in Et as <-.
  split_and!; [done| |done..]. destruct to'. simpl in *. congruence.
Qed.

Lemma validated_gross caller args v :
  validate_deposit_args test_deployment caller args = Ok v -> is_u128 (vda_gross_amount v).
Proof.
  unfold validate_deposit_args, nat_u128, bounded_nat_u128.
  do 3 (case_match; [done|]). intros Hv. bind Hv as sub Es. bind Hv as gross Eg. bind Hv as fee Ef.
  destruct (Z.leb_spec gross (KINIC_LEDGER_FEE test_deployment)); [done|]. apply Ok_inj in Hv as <-.
  simpl. destruct (Z.ltb_spec u128_max (da_gross_amount args)); [done|].
  simpl in Eg. simplify_eq. unfold KINIC_LEDGER_FEE in *. ranges. destruct test_deployment; lia.
Qed.

Lemma derived_id_length config self caller sequence id :
  (forall b, length (sha256 b) = 32%nat) ->
  derive_deposit_id sha256 config self caller sequence = Ok id -> length id = 32%nat.
Proof. intros Hsha. unfold derive_deposit_id. do 2 (case_match; [done|]). intros [= <-]. apply Hsha. Qed.
End request.

(** ** Handlers *)

Section keeps.
Context (R : relation Store) `{!PreOrder R}.

Definition keeps {A} (m : Handler A) : Prop := forall s, R s (m s).1.

Lemma keeps_ret {A} (a : A) : keeps (ret a).
Proof. by intros s. Qed.

Lemma keeps_fail {A} error : keeps (fail (A := A) error).
Proof. by intros s. Qed.

Lemma keeps_pure {A} (r : Result DepositError A) : keeps (pure r).
Proof. by intros s. Qed.

Lemma keeps_read {A} (f : Store -> A) : keeps (read f).
Proof. by intros s. Qed.

Lemma keeps_guard b error : keeps (guard b error).
Proof. by destruct b; intros s. Qed.

Lemma keeps_receipt id hash : keeps (existing_receipt id hash).
Proof. intros s. unfold existing_receipt. repeat case_match; done. Qed.

Lemma keeps_commit {A} (f : Store -> Result StorageError (A * Store)) error :
  (forall s a s', f s = Ok (a, s') -> R s s') -> keeps (commit f error).
Proof. intros Hf s. unfold commit. destruct (f s) as [[a s']|] eqn:E; [|done]. by eapply Hf. Qed.

Lemma keeps_then {A B} (m : Handler A) (k : A -> Handler B) :
  keeps m -> (forall a, keeps (k a)) -> keeps (then_ m k).
Proof.
  intros Hm Hk s. unfold then_. specialize (Hm s). destruct (m s) as [s' [a|]]; [|done].
  simpl in Hm. etrans; [done|]. apply Hk.
Qed.

(** A pure step also says what it computed. *)
Lemma keeps_then_pure {A B} (r : Result DepositError A) (k : A -> Handler B) :
  (forall a, r = Ok a -> keeps (k a)) -> keeps (then_ (pure r) k).
Proof. intros Hk s. unfold then_, pure. destruct r; [by apply Hk|done]. Qed.

Lemma keeps_message {A} (m : Handler A) : keeps m -> keeps (message m).
Proof. intros Hm s. specialize (Hm s). unfold message. by destruct (m s) as [s' [|[]]]. Qed.
End keeps.

Create HintDb handlers.
#[export] Hint Resolve keeps_ret keeps_fail keeps_pure keeps_read : handlers.
#[export] Hint Resolve keeps_guard keeps_receipt keeps_message : handlers.

Ltac handler :=
  repeat (cbv zeta; lazymatch goal with
  | |- keeps _ (then_ (pure _) _) => apply keeps_then_pure; [done|]; intros ? ?
  | |- keeps _ (then_ (match ?x with _ => _ end) _) => destruct x eqn:?
  | |- keeps _ (then_ _ _) => apply keeps_then; [done|solve [eauto with handlers]|intros ?]
  | |- keeps _ (match ?x with _ => _ end) => destruct x eqn:?
  | |- keeps _ _ => solve [eauto with handlers]
  end).

(** ** The handlers of funding *)

Section funding.
Context (encode : StoredValue -> Result StorageError unit).
Context (sha256 : bytes -> bytes) (test_deployment : bool).
Hypothesis sha256_length : forall b, length (sha256 b) = 32%nat.

(** The attempts a message may prepare, and the blocks it may record for one. *)
Context (prepared : DepositFundingAttempt -> Prop) (funded : DepositFundingAttempt -> Z -> Prop).

(** The relation holds across each of the four transactions. *)
Record funding_keeps (R : relation Store) : Prop := {
  fk_preorder : PreOrder R;
  fk_prepare s owner a quota cycles notifications o s' :
    attempt_ranged a -> dfa_state a = Attempt_Prepared -> prepared a ->
    prepare_deposit_funding_attempt encode s owner a quota cycles notifications = Ok (o, s') -> R s s';
  fk_update s previous next s' :
    attempt_kept previous next -> AttemptMove (dfa_state previous) (dfa_state next) ->
    update_deposit_funding_attempt encode s previous next = Ok s' -> R s s';
  fk_remove s a s' :
    droppable (dfa_state a) = true ->
    remove_deposit_funding_attempt encode s (attempt_owner a) a = Ok s' -> R s s';
  fk_admit s owner intent quota a record hold o s' :
    DepositRecord_wf record -> deposit_enters (promotion_request a) record ->
    (forall b, DepositRecord_funding_ledger_block_index record = Some b -> funded a b) ->
    admit_deposit encode s owner intent record (Some quota) (Some (a, hold)) = Ok (o, s') -> R s s';
}.

Context (R : relation Store) (HR : funding_keeps R).
Let HPre : PreOrder R := fk_preorder R HR.

Lemma admit_promoted_keeps env config a record hold :
  DepositRecord_wf record -> deposit_enters (promotion_request a) record ->
  (forall b, DepositRecord_funding_ledger_block_index record = Some b -> funded a b) ->
  keeps R (admit_promoted encode env config a record hold).
Proof.
  intros Hr He Hb. unfold admit_promoted. apply keeps_then; [done| |intros; handler].
  apply keeps_commit; [done|]. intros s o s' H. by eapply fk_admit.
Qed.

Lemma promote_success_keeps env config a block_index :
  is_u128 (dfa_gross_amount a) -> funded a block_index ->
  keeps R (promote_funding_success encode env config a block_index).
Proof.
  intros Hu Hf. unfold promote_funding_success. handler.
  edestruct (promoted_record_Ok a (FundingSucceeded block_index)) as (? & ? & Hb); [done..|].
  apply admit_promoted_keeps; [done..|]. by intros b [= <-]%Hb.
Qed.

Lemma promote_ambiguous_keeps env config a :
  is_u128 (dfa_gross_amount a) -> keeps R (promote_funding_ambiguous encode env config a).
Proof.
  intros Hu. unfold promote_funding_ambiguous.
  apply keeps_then; [done|auto with handlers|intros _].
  apply keeps_then; [done| |intros hold_id].
  { apply keeps_commit; [done|]. intros s id s' H. bind H as i Ei. simplify_eq. apply HPre. }
  handler. edestruct (promoted_record_Ok a (FundingAmbiguous hold_id)) as (? & ? & Hb);
    [done..|].
  apply admit_promoted_keeps; [done..|]. by intros b ?%Hb.
Qed.

Lemma update_keeps previous next error :
  attempt_kept previous next -> AttemptMove (dfa_state previous) (dfa_state next) ->
  keeps R (commit (fun s =>
    let? s := update_deposit_funding_attempt encode s previous next in Ok (tt, s)) error).
Proof.
  intros Hk Hm. apply keeps_commit; [done|]. intros s [] s' H. bind H as s1 E. simplify_eq.
  by eapply fk_update.
Qed.

Lemma remove_keeps a error :
  droppable (dfa_state a) = true ->
  keeps R (commit (fun s =>
    let? s := remove_deposit_funding_attempt encode s (attempt_owner a) a in Ok (tt, s)) error).
Proof.
  intros Hd. apply keeps_commit; [done|]. intros s [] s' H. bind H as s1 E. simplify_eq.
  by eapply fk_remove.
Qed.

Lemma dispatch_keeps previous now error u :
  dispatchable now (dfa_state previous) = Ok u ->
  keeps R (commit (fun s =>
    let? s := update_deposit_funding_attempt encode s previous
      (with_state previous (Attempt_Dispatched now) now (dfa_last_failure previous)) in
    Ok (tt, s)) error).
Proof.
  intros H. apply update_keeps; [done|]. constructor. unfold dispatchable in H.
  destruct (dfa_state previous); try done; eauto.
Qed.

Hint Resolve dispatch_keeps : handlers.

Lemma request_dispatch_keeps env caller args :
  (forall a, pulls sha256 (env_self env) a -> prepared a) ->
  keeps R (request_deposit_dispatch encode sha256 test_deployment env caller args).
Proof.
  intros Hprep. unfold request_deposit_dispatch. handler.
  apply keeps_then; [done| |intros ?; handler]. apply keeps_commit; [done|]. intros s o s'.
  match goal with E : fresh_transfer _ _ _ _ _ _ = Ok _ |- _ =>
    destruct (fresh_transfer_Ok _ _ _ _ _ _ _ E) as (? & ? & ? & ?) end.
  match goal with E : is_some ?o = false |- _ => destruct o; [done|] end.
  eapply fk_prepare; [done|split|done|by apply Hprep]; simpl.
  - by eapply derived_id_length.
  - done.
  - by eapply validated_gross.
Qed.

Lemma request_complete_keeps env config a t outcome :
  is_u128 (dfa_gross_amount a) -> dfa_state a = Attempt_Dispatched t ->
  (forall b, LedgerCallOutcome_confirmed_block outcome = Some b -> funded a b) ->
  keeps R (request_deposit_complete encode env config (attempt_owner a) a outcome).
Proof.
  intros Hu Hs Hf. unfold request_deposit_complete.
  pose proof promote_success_keeps. pose proof promote_ambiguous_keeps.
  destruct outcome; simpl; auto with handlers.
  - apply keeps_then; [done| |intros ?; handler]. apply remove_keeps. by rewrite Hs.
  - apply keeps_then; [done| |intros ?; handler]. apply update_keeps; [done|].
    rewrite Hs. constructor.
Qed.

(** ** Recovery *)

Lemma store_or_fault_keeps (r : Result StorageError Store) s :
  (forall s', r = Ok s' -> R s s') -> R s (store_or_fault r s id).
Proof. intros H. unfold store_or_fault. destruct r; [by apply H|]. apply HPre. Qed.

Lemma recover_start_keeps env allowed s : R s (recover_funding_start encode env allowed s).1.
Proof.
  unfold recover_funding_start. destruct (_ || _); [apply HPre|].
  destruct (next_deposit_funding_attempt_for_recovery _ _) as [a|]; [|apply HPre]. cbv zeta.
  destruct (negb _); [apply HPre|].
  destruct (dfa_state a) as [| | |] eqn:Es; simpl; try apply HPre;
    try (apply store_or_fault_keeps; intros s' Hs'; eapply fk_remove; [done| |done]; by rewrite Es).
  destruct (update_deposit_funding_attempt _ _ _ _) eqn:E; simpl; [|apply HPre].
  eapply fk_update; [done| | |exact E]; [done|]. rewrite Es. constructor.
Qed.

Lemma recover_finish_keeps env config a outcome s :
  is_u128 (dfa_gross_amount a) -> (forall b, outcome = Reconciliation_Succeeded b -> funded a b) ->
  R s (recover_funding_finish encode env config a outcome s).
Proof.
  intros Hu Hf. unfold recover_funding_finish.
  destruct (dfa_state a) as [| | |progress n final] eqn:Es; try apply HPre.
  destruct outcome as [p|p|block|l i]; cbv zeta.
  1,2: apply store_or_fault_keeps; intros s' Hs';
    (eapply fk_update; [done| | |exact Hs']; [done|]); rewrite Es; constructor.
  - apply keeps_message; [done|]. by apply promote_success_keeps; [|apply Hf].
  - unfold funding_reconciliation_decision.
    destruct final, (funding_dedup_expired _ _); simpl; try apply HPre;
      apply store_or_fault_keeps; intros s' Hs'.
    all: first [eapply fk_remove; [done| |exact Hs']; by rewrite Es
               |eapply fk_update; [done| | |exact Hs']; [done|]; rewrite Es; constructor].
Qed.
End funding.

(** ** The invariant *)

Definition keeps_wf (s s' : Store) : Prop := store_wf s -> store_wf s'.

Lemma funding_keeps_wf encode prepared funded : funding_keeps encode prepared funded keeps_wf.
Proof.
  unfold keeps_wf. split.
  - split; [by intros s|]. intros s1 s2 s3; auto.
  - intros; by eapply prepare_attempt_wf.
  - intros ? ? ? ? (_ & _ & ? & _) _ ? ?. by eapply update_attempt_wf; [..|done].
  - intros; by eapply remove_attempt_wf.
  - intros; by eapply admit_promotion_wf.
Qed.
