(* ===== verification/StoreAdmin.v ===== *)
(** * Administration keeps the store well-formed

    The administrator's transactions touch the administrator state, the audit log
    and, for a payout request, the payouts; the invariant of [StoreInvariant] is
    preserved by each of them. *)

From stdpp Require Import sorting.
From S2P Require Import Prelude KernelArith KernelPolicy Types Accounting External Authorization.
From S2P Require Import Withdrawal Deposit Reconciliation Tables StorageTypes Config Admission Jobs.
From S2P Require Import Notifications EventLog Store Bundles Intake Funding Admin DepositRows.
From S2P Require Import WithdrawalRows IntakeRows StoreInvariant StoreSafety StorePayouts.

(** The store with another audit log and administrator state. *)
Definition readministered (s : Store) (sequence : Z) (events : Table Z bytes)
    (retention : AuditRetentionState) (admin : option AdminState) : Store :=
  with_counters (with_intake (with_audit s events retention) (with_admin (st_intake s) admin))
    (with_next_audit (st_counters s) sequence).

Lemma readministered_wf s sequence events retention admin :
  store_wf s -> store_wf (readministered s sequence events retention admin).
Proof.
  intros [Hd Hw Hh Hp Hc Hf Hx Hi]. unfold readministered.
  split; simpl; try done.
  - by destruct Hc.
  - by destruct Hf.
  - by eapply intake_frame.
Qed.

Section admin.
Context (encode : StoredValue -> Result StorageError unit).
Context (encode_event : AuditEvent AuditEventKind -> Result StorageError bytes).
Context (retention_encodes : AuditRetentionState -> bool).
Context (sha256 : bytes -> bytes) (test_deployment : bool).

Lemma storage_failed_Ok {A} (r : Result StorageError A) a : storage_failed r = Ok a <-> r = Ok a.
Proof. unfold storage_failed, map_err. destruct r; naive_solver. Qed.

(** What a mutation of the administrator state stores. *)
Lemma mutate_Ok s caller now action s' :
  mutate encode encode_event retention_encodes sha256 s caller now action = Ok s' ->
  exists state event state' sequence events retention,
    in_admin (st_intake s) = Some state /\ action state = Ok (event, state') /\
    s' = readministered s sequence events retention (Some state').
Proof.
  intros H. unfold mutate in H. bind H as state Es. apply ok_or_Ok in Es.
  bind H as [event state'] Ea. bind H as s1 E1. apply storage_failed_Ok in E1, H.
  unfold set_admin_state in E1. bind E1 as u Eu. apply Ok_inj in E1 as <-.
  unfold append_audit_event in H. bind H as [e log] El. bind H as u' Eu'. apply Ok_inj in H as <-.
  by exists state, event, state', (al_next_sequence log), (al_events log), (al_retention log).
Qed.

Lemma pause_wf s caller now s' :
  store_wf s -> pause_with_audit encode encode_event retention_encodes sha256 s caller now = Ok s' ->
  store_wf s'.
Proof.
  intros Hwf H. apply mutate_Ok in H as (? & ? & ? & ? & ? & ? & _ & _ & ->).
  by apply readministered_wf.
Qed.

(** The pause role may only go to a principal that is neither reserved nor the
    governance. *)
Lemma rotate_pause_Ok s config caller now principal s' :
  rotate_pause_principal encode encode_event retention_encodes sha256 s config caller now principal
    = Ok s' ->
  exists sequence events retention admin, s' = readministered s sequence events retention admin.
Proof.
  intros H. unfold rotate_pause_principal in H. case_bool_decide; [done|]. bind H as c Ec.
  apply mutate_Ok in H as (? & ? & ? & ? & ? & ? & _ & _ & ->). eauto.
Qed.

Lemma rotate_pause_wf s config caller now principal s' :
  store_wf s ->
  rotate_pause_principal encode encode_event retention_encodes sha256 s config caller now principal
    = Ok s' -> store_wf s'.
Proof. intros Hwf H. apply rotate_pause_Ok in H as (? & ? & ? & ? & ->). by apply readministered_wf. Qed.

Lemma rotate_recipient_Ok s next caller now p c s' :
  rotate_fee_recipient_with_audit encode encode_event retention_encodes sha256 s next caller now p c
    = Ok s' ->
  exists admin sequence events retention, in_admin (st_intake s) = Some admin /\
    s' = readministered s sequence events retention (Some (with_fee_recipient admin next)).
Proof.
  intros H. unfold rotate_fee_recipient_with_audit in H. bind H as admin Ea. apply ok_or_Ok in Ea.
  bind H as u Eu. bind H as [audit counters] Ep. bind H as u' Eu'. bind H as s1 E1.
  apply Ok_inj in H as <-. apply prepare_bundle_audit_counters in Ep as [sequence ->].
  apply db_Ok, commit_bundle_audit_frame in E1 as (events & retention & ->).
  by exists admin, sequence, events, retention.
Qed.

Lemma rotate_fee_recipient_Ok s config caller now next s' :
  rotate_fee_recipient encode encode_event retention_encodes sha256 s config caller now next = Ok s' ->
  s' = s \/
  exists sequence events retention admin, s' = readministered s sequence events retention admin.
Proof.
  intros H. unfold rotate_fee_recipient in H. destruct (_ || _) in H; [done|].
  bind H as state Es. bind H as c Ec. destruct (fee_recipient_rotation_decision _ _ _ _ _) in H; try done.
  case_bool_decide; [left; by apply Ok_inj in H as <-|right].
  apply storage_failed_Ok, rotate_recipient_Ok in H as (? & ? & ? & ? & _ & ->). eauto.
Qed.

Lemma rotate_fee_recipient_wf s config caller now next s' :
  store_wf s ->
  rotate_fee_recipient encode encode_event retention_encodes sha256 s config caller now next = Ok s' ->
  store_wf s'.
Proof.
  intros Hwf H. apply rotate_fee_recipient_Ok in H as [->|(? & ? & ? & ? & ->)]; [done|].
  by apply readministered_wf.
Qed.

Lemma complete_activation_Ok s caller now resume s' :
  complete_activation encode encode_event retention_encodes sha256 s caller now resume = Ok s' ->
  exists admin sequence events retention,
    in_admin (st_intake s) = Some admin /\ authorized admin caller ACTION_RESUME = true /\
    s' = readministered s sequence events retention (Some (with_paused admin (negb resume))).
Proof.
  intros H. unfold complete_activation in H. bind H as admin Ea. apply ok_or_Ok in Ea.
  destruct (_ || _) eqn:Eg in H; [done|]. apply orb_false_iff in Eg as [_ Eg].
  apply negb_false_iff in Eg. cbv zeta in H. bind H as [audit counters] Ep.
  bind H as u Eu. bind H as u' Eu'. bind H as s1 E1.
  apply Ok_inj in H as <-. apply prepare_bundle_audit_counters in Ep as [sequence ->].
  apply db_Ok, commit_bundle_audit_frame in E1 as (events & retention & ->).
  by exists admin, sequence, events, retention.
Qed.

Lemma complete_activation_wf s caller now resume s' :
  store_wf s ->
  complete_activation encode encode_event retention_encodes sha256 s caller now resume = Ok s' ->
  store_wf s'.
Proof.
  intros Hwf H. apply complete_activation_Ok in H as (? & ? & ? & ? & _ & _ & ->).
  by apply readministered_wf.
Qed.

(** The record a request commits. *)
Lemma request_fee_payout_Ok s env caller amount record s' :
  request_fee_payout encode encode_event retention_encodes sha256 test_deployment s env caller amount
    = Ok (record, s') ->
  exists admin, in_admin (st_intake s) = Some admin /\ authorized admin caller ACTION_PAYOUT = true /\
    is_u128 (fpr_amount record) /\ lti_fee (fpr_transfer record) = KINIC_LEDGER_FEE test_deployment /\
    lti_amount (fpr_transfer record) = fpr_amount record /\
    (exists amount', bounded_nat_u128 amount = Some amount' /\ amount' <> 0 /\
       payout_decision (as_fee_reserve (st_accounting s))
         (cs_pending_fee_payout_debit (st_counters s)) amount' (KINIC_LEDGER_FEE test_deployment) true
         = Some {| pd_debit := fpr_amount record + KINIC_LEDGER_FEE test_deployment |}) /\
    commit_fee_payout_request encode encode_event retention_encodes sha256 s record caller
      (env_now env) = Ok s'.
Proof.
  intros H. unfold request_fee_payout in H. bind H as admin Ea. apply ok_or_Ok in Ea.
  destruct (authorized admin caller ACTION_PAYOUT) eqn:Eau; [|done]. cbn [negb] in H.
  bind H as amount' Eam. apply ok_or_Ok in Eam. destruct (Z.eqb_spec amount' 0); [done|]. cbv zeta in H.
  bind H as payout Ep. bind H as pa Epa. bind H as r Er. bind H as s1 E1. apply Ok_inj in H.
  injection H as -> ->. apply ok_or_Ok in Ep, Epa. apply storage_failed_Ok in E1.
  unfold checked_sub in Epa. destruct (Z.leb_spec (KINIC_LEDGER_FEE test_deployment) (pd_debit payout)); [|done].
  injection Epa as <-.
  unfold payout_record in Er. bind Er as sub Esub. bind Er as from Ef. bind Er as to Et.
  apply Ok_inj in Er as <-. simpl.
  assert (is_u128 (pd_debit payout)) as Hd.
  { unfold payout_decision in Ep. destruct (_ || _) in Ep; [done|]. injection Ep as <-. simpl.
    apply wrap_range. done. }
  exists admin. split_and!; try done.
  - unfold KINIC_LEDGER_FEE in *. destruct Hd. split; destruct test_deployment; lia.
  - exists amount'. split_and!; [done..|]. rewrite Ep. destruct payout. simpl. f_equal. f_equal. lia.
Qed.

Lemma request_fee_payout_written s env caller amount record s' :
  store_wf s ->
  request_fee_payout encode encode_event retention_encodes sha256 test_deployment s env caller amount
    = Ok (record, s') ->
  fpr_state record = Payout_Pending /\ t_rows (st_payouts s) !! fpr_id record = None /\
  payout_written s s' (fpr_id record) record.
Proof.
  intros Hwf H. apply request_fee_payout_Ok in H as (admin & _ & _ & Hr & Hf & Ha & _ & H).
  eapply commit_fee_payout_request_Ok; [done| |done..]. split; [done|]. rewrite Hf.
  unfold KINIC_LEDGER_FEE. by destruct test_deployment.
Qed.

Lemma request_fee_payout_wf s env caller amount record s' :
  store_wf s ->
  request_fee_payout encode encode_event retention_encodes sha256 test_deployment s env caller amount
    = Ok (record, s') -> store_wf s'.
Proof.
  intros Hwf H. apply request_fee_payout_written in H as (_ & _ & Hw); [|done].
  by eapply payout_written_wf.
Qed.
End admin.
