(* ===== verification/StoreHistory.v ===== *)
(** * Histories of the store

    The messages of the canister that write the store, each as the source composes
    them from a stored record, a core transition and a storage transaction; the
    store a new canister starts from; and what holds after any sequence of them:
    the invariant of [StoreInvariant], and with it that the escrow on the ledger
    covers the supply on Base, every open claim and the fee reserve. *)

From stdpp Require Import sorting.
From S2P Require Import Prelude KernelArith KernelPolicy KernelWithdrawal Types Accounting External.
From S2P Require Import Authorization Withdrawal WithdrawalSafety Deposit DepositProtocol DepositInvariant.
From S2P Require Import Reconciliation Tables StorageTypes Config Admission Jobs Notifications EventLog.
From S2P Require Import Store Bundles Intake Funding Admin DepositRows WithdrawalRows IntakeRows.
From S2P Require Import StoreInvariant StoreSafety StoreHolds StorePayouts StoreIntake StoreFunding StoreAdmin.

(** ** The first store *)

(** [initialize_singleton_state] over empty tables. *)
Definition initial_store (config : option BridgeInitArgs) : Store :=
  {| st_deposits :=
       {| dt_deposits := Table_empty; dt_pull_pending := Table_empty; dt_deadlines := Table_empty;
          dt_nonterminal := Table_empty |};
     st_withdrawals :=
       {| wt_withdrawals := Table_empty; wt_release_pending := Table_empty;
          wt_liability := Table_empty; wt_requester := Table_empty;
          wt_stop_reasons := Table_empty; wt_liability_amount := 0 |};
     st_holds := {| ht_holds := Table_empty; ht_open := Table_empty; ht_scans := Table_empty |};
     st_payouts := Table_empty;
     st_jobs := ∅;
     st_settlement_admission := SettlementAdmissionControl_default;
     st_counters := CounterState_default;
     st_accounting := AccountingState_default;
     st_audit_events := Table_empty;
     st_audit_retention := AuditRetentionState_default;
     st_intake :=
       {| in_attempts := Table_empty; in_owner_index := Table_empty;
          in_owner_sequences := Table_empty;
          in_deposit_admission := DepositAdmissionControl_default;
          in_admin :=
            (fun config =>
               {| ads_deposits_paused := true; ads_withdrawal_fee_guard := None;
                  ads_pause_principal := bia_pause_principal config;
                  ads_governance_principal := bia_governance_principal config;
                  ads_fee_recipient := bia_fee_recipient config |}) <$> config;
          in_external_progress := ExternalProgress_default;
          in_notification_admission := NotificationAdmissionControl_default;
          in_notifications := Table_empty; in_transactions := Table_empty |} |}.

Lemma empty_table_wf {K V} `{Countable K} : table_wf (Table_empty (K := K) (V := V)).
Proof. split; simpl; by rewrite ?map_size_empty. Qed.

Lemma indexed_empty {K I V} `{Countable K, Countable I} (entry : V -> option I) :
  indexed entry (∅ : gmap K V) ∅.
Proof.
  intros i k. split; [by rewrite lookup_empty|]. intros (v & Hv & _). by rewrite lookup_empty in Hv.
Qed.

Lemma members_empty {K V} `{Countable K} (p : V -> bool) : members p (∅ : gmap K V) ∅.
Proof. intros k. split; [by rewrite lookup_empty|]. intros (v & Hv & _). by rewrite lookup_empty in Hv. Qed.

Lemma initial_intake_wf config :
  intake_wf (st_deposits (initial_store config)) (st_intake (initial_store config)).
Proof.
  split; try apply empty_table_wf; simpl; try done.
  - intros k id. split; [by rewrite lookup_empty|].
    intros [(sd & Hsd & _)|(a & due & Ha & _)]; done.
  - split; simpl; [lia|constructor|by intros r ?%elem_of_nil|done].
Qed.

Lemma initial_store_wf config : store_wf (initial_store config).
Proof.
  split; [..|apply initial_intake_wf].
  - split; try apply empty_table_wf; simpl; try done; [apply members_empty|apply indexed_empty].
  - split; [split|split]; try apply empty_table_wf; simpl; try done;
      try apply members_empty; try apply indexed_empty.
  - split; try apply empty_table_wf; simpl; [done|apply members_empty].
  - split; [apply empty_table_wf|done].
  - by split.
  - by split.
  - intros h r t. unfold hold_row. simpl. rewrite lookup_empty. split; [|done].
    intros [(id & sd & Hsd & _)|(id & w & Hw & _)]; done.
Qed.

(** ** Messages *)

Inductive StoreOp :=
| Op_deposit_event (id : bytes) (event : DepositEvent) (token : option SettlementCallbackToken)
    (claim : option ManualSettlementClaimContext)
| Op_deposit_signature (id : bytes) (finalized_timestamp : Z)
| Op_withdrawal_event (id : bytes) (event : WithdrawalEvent)
| Op_new_withdrawal (withdrawal : WithdrawalRecord) (progress : ExternalProgress) (caller : bytes)
    (now : Z) (audit : list AuditEventKind) (transaction_hash : bytes) (window limit : Z)
| Op_fee_guard_trip (withdrawal : WithdrawalRecord) (progress : ExternalProgress)
    (admin : AdminState) (caller : bytes) (now : Z) (audit : list AuditEventKind)
    (transaction_hash : bytes) (window limit : Z)
| Op_fee_guard_continue (withdrawal : WithdrawalRecord) (admin : AdminState) (caller : bytes)
    (now : Z) (audit : list AuditEventKind)
| Op_fee_guard_clear (withdrawal : WithdrawalRecord) (admin : AdminState) (caller : bytes)
    (now : Z) (audit : list AuditEventKind)
| Op_deposit_hold (deposit : DepositRecord) (hold : ReconciliationHoldRecord)
    (token : option SettlementCallbackToken)
| Op_withdrawal_hold (withdrawal : WithdrawalRecord) (hold : ReconciliationHoldRecord)
| Op_resolve_deposit (id : bytes) (hold_id : Z) (resolution : DepositHoldResolution)
    (scan : option ReconciliationTarget)
| Op_resolve_withdrawal (id : bytes) (hold_id : Z) (resolution : WithdrawalHoldResolution)
    (scan : option ReconciliationTarget)
| Op_pause (caller : bytes) (now : Z)
| Op_rotate_pause (config : option BridgeInitArgs) (caller : bytes) (now : Z) (principal : bytes)
| Op_rotate_fee_recipient (config : option BridgeInitArgs) (caller : bytes) (now : Z)
    (next : FeeRecipientConfig)
| Op_activate (caller : bytes) (now : Z) (resume : bool)
| Op_request_payout (env : Environment) (caller : bytes) (amount : Z)
| Op_payout_transition (id : Z) (transition : FeePayoutTransition)
    (scan : option ReconciliationTarget)
| Op_finish_job (job : SettlementJob) (next_run : option Z) (attempts : Z)
    (stop : option (string * string)) (reason : option string) (now : Z)
| Op_release_expired (finalized_timestamp : Z) (limit : nat)
| Op_request (env : Environment) (caller : bytes) (args : DepositArgs)
| Op_request_complete (env : Environment) (config : BridgeInitArgs)
    (attempt : DepositFundingAttempt) (outcome : LedgerCallOutcome)
| Op_recover (env : Environment) (allowed : bool)
| Op_recover_finish (env : Environment) (config : BridgeInitArgs)
    (attempt : DepositFundingAttempt) (outcome : ReconciliationOutcome).

(** A storage transaction that is refused changes nothing. *)
Definition committed {E} (s : Store) (r : Result E Store) : Store :=
  match r with Ok s => s | Err _ => s end.

Section history.
Context (encode : StoredValue -> Result StorageError unit).
Context (transfer_identity_hash : LedgerTransferIdentity -> bytes).
Context (scan_key : ReconciliationTarget -> bytes).
Context (encode_event : AuditEvent AuditEventKind -> Result StorageError bytes).
Context (retention_encodes : AuditRetentionState -> bool).
Context (sha256 : bytes -> bytes) (test_deployment : bool).

(** The callback of a settlement applies the event to the record it reads and
    stores the record with the transition's effects. *)
Definition deposit_event (s : Store) (id : bytes) (event : DepositEvent)
    (token : option SettlementCallbackToken) (claim : option ManualSettlementClaimContext)
    : Result StorageError Store :=
  let? sd := ok_or (deposit_row s id) RecordNotFound in
  let? (result, record) := core (DepositRecord_apply (sd_record sd) event) in
  let? (_, s) := put_deposit_with_audit encode transfer_identity_hash s record token
                   (Some result) claim in
  Ok s.

Definition deposit_signature (s : Store) (id : bytes) (finalized_timestamp : Z)
    : Result StorageError Store :=
  let? sd := ok_or (deposit_row s id) RecordNotFound in
  let? (_, record) :=
    map_err (fun _ => RecordNotFound) (dispatch_mint_signature (sd_record sd) finalized_timestamp) in
  put_deposit encode transfer_identity_hash s record.

Definition withdrawal_event (s : Store) (id : bytes) (event : WithdrawalEvent)
    : Result StorageError Store :=
  let? record := ok_or (withdrawal_row s id) RecordNotFound in
  let? (_, record) := core (WithdrawalRecord_apply record event) in
  put_withdrawal encode s record.

Definition store_run (s : Store) (op : StoreOp) : Store :=
  match op with
  | Op_deposit_event id event token claim =>
      committed s (deposit_event s id event token claim)
  | Op_deposit_signature id t => committed s (deposit_signature s id t)
  | Op_withdrawal_event id event => committed s (withdrawal_event s id event)
  | Op_new_withdrawal w progress caller now audit hash window limit =>
      committed s (result_map snd (commit_new_withdrawal_release_bundle_with_rpc_audit encode encode_event
        retention_encodes sha256 s w progress caller now audit hash window limit))
  | Op_fee_guard_trip w progress admin caller now audit hash window limit =>
      committed s (commit_withdrawal_fee_guard_trip_bundle encode encode_event retention_encodes
        sha256 s w progress admin caller now audit hash window limit)
  | Op_fee_guard_continue w admin caller now audit =>
      committed s (commit_withdrawal_fee_guard_continue_bundle encode encode_event
        retention_encodes sha256 s w admin caller now audit)
  | Op_fee_guard_clear w admin caller now audit =>
      committed s (commit_withdrawal_fee_guard_clear_bundle encode encode_event
        retention_encodes sha256 s w admin caller now audit)
  | Op_deposit_hold deposit hold token =>
      committed s (commit_deposit_hold_bundle_fenced encode transfer_identity_hash s deposit
        hold token)
  | Op_withdrawal_hold w hold => committed s (commit_withdrawal_hold_bundle encode s w hold)
  | Op_resolve_deposit id hold_id resolution scan =>
      committed s (result_map snd (resolve_deposit_hold_and_scan encode scan_key s id hold_id resolution scan))
  | Op_resolve_withdrawal id hold_id resolution scan =>
      committed s (result_map snd
        (resolve_withdrawal_hold_and_scan encode scan_key s id hold_id resolution scan))
  | Op_pause caller now =>
      committed s (pause_with_audit encode encode_event retention_encodes sha256 s caller now)
  | Op_rotate_pause config caller now principal =>
      committed s (rotate_pause_principal encode encode_event retention_encodes sha256 s config
        caller now principal)
  | Op_rotate_fee_recipient config caller now next =>
      committed s (rotate_fee_recipient encode encode_event retention_encodes sha256 s config
        caller now next)
  | Op_activate caller now resume =>
      committed s (complete_activation encode encode_event retention_encodes sha256 s caller now
        resume)
  | Op_request_payout env caller amount =>
      committed s (result_map snd
        (request_fee_payout encode encode_event retention_encodes sha256 test_deployment s env
           caller amount))
  | Op_payout_transition id transition scan =>
      committed s (transition_fee_payout encode scan_key s id transition scan)
  | Op_finish_job job next_run attempts stop reason now =>
      committed s (finish_settlement_job encode s job next_run attempts stop reason now)
  | Op_release_expired t limit =>
      (release_expired_deposit_reservations encode transfer_identity_hash s t limit).1
  | Op_request env caller args =>
      (message (request_deposit_dispatch encode sha256 test_deployment env caller args) s).1
  | Op_request_complete env config a outcome =>
      (message
         (request_deposit_complete encode env config (di_caller (dfa_intent a)) a outcome) s).1
  | Op_recover env allowed => (recover_funding_start encode env allowed s).1
  | Op_recover_finish env config a outcome => recover_funding_finish encode env config a outcome s
  end.

Definition store_history (s : Store) (ops : list StoreOp) : Store := foldl store_run s ops.

(** What the types of the arguments say, and the rules the callers keep: an
    ambiguous outcome is only stored together with its hold, a withdrawal record is
    built from the burn it was observed in, and the callback of a request carries
    the attempt the request marked as sent. *)
Definition op_ranged (op : StoreOp) : Prop :=
  match op with
  | Op_deposit_event _ event _ _ => DepositEvent_ranged event /\ unambiguous event = true
  | Op_withdrawal_event _ event => WithdrawalEvent_ranged event /\ unambiguous_release event = true
  | Op_new_withdrawal w _ _ _ _ _ _ _ | Op_fee_guard_trip w _ _ _ _ _ _ _ _ => observed_burn w
  | Op_fee_guard_clear w _ _ _ _ =>
      match wr_state w with ReleasePending _ st => Settlement_ranged st | _ => True end
  | Op_request_payout _ _ amount => 0 <= amount
  | Op_request_complete _ _ a _ =>
      is_u128 (dfa_gross_amount a) /\ exists t, dfa_state a = Attempt_Dispatched t
  | Op_recover_finish _ _ a _ => is_u128 (dfa_gross_amount a)
  | _ => True
  end.

Hypothesis sha256_length : forall b, length (sha256 b) = 32%nat.

Lemma committed_wf {E} s (r : Result E Store) :
  store_wf s -> (forall s', r = Ok s' -> store_wf s') -> store_wf (committed s r).
Proof. intros. unfold committed. destruct r; auto. Qed.

Lemma deposit_event_Ok s id e token claim s' :
  store_wf s -> DepositEvent_ranged e -> unambiguous e = true ->
  deposit_event s id e token claim = Ok s' ->
  exists sd res d' out, deposit_row s id = Some sd /\ DepositStep (sd_record sd) e res d' /\
    writable s sd d' /\
    put_deposit_with_audit encode transfer_identity_hash s d' token (Some res) claim = Ok (out, s').
Proof.
  intros Hwf He Hu H. unfold deposit_event in H. bind H as sd Esd. apply ok_or_Ok in Esd.
  bind H as [res r'] Ea. apply core_Ok in Ea. bind H as [out s1] Ep. apply Ok_inj in H as <-.
  pose proof (dw_row _ (sw_deposits _ Hwf) _ _ Esd) as Hst.
  apply deposit_apply_sound in Ea; [|apply Hst|done]. exists sd, res, r', out.
  split_and!; [done..| |done]. eapply event_writable; [done| |done|done]. by rewrite (sdw_id _ _ Hst).
Qed.

Lemma deposit_signature_Ok s id t s' :
  store_wf s -> deposit_signature s id t = Ok s' ->
  exists sd digest d' out, deposit_row s id = Some sd /\
    dispatch_mint_signature (sd_record sd) t = Ok (digest, d') /\ writable s sd d' /\
    put_deposit_with_audit encode transfer_identity_hash s d' None None None = Ok (out, s').
Proof.
  intros Hwf H. unfold deposit_signature in H. bind H as sd Esd. apply ok_or_Ok in Esd.
  bind H as [d r'] Ea. unfold map_err in Ea. destruct (dispatch_mint_signature _ _) eqn:Ed; [|done].
  apply Ok_inj in Ea as ->. unfold put_deposit in H. bind H as [out s1] Ep. apply Ok_inj in H as <-.
  exists sd, d, r', out. split_and!; [done..| |done]. eapply dispatch_writable; [done| |done].
  by rewrite (sdw_id _ _ (dw_row _ (sw_deposits _ Hwf) _ _ Esd)).
Qed.

Lemma withdrawal_event_kept s id e s' :
  store_wf s -> WithdrawalEvent_ranged e -> unambiguous_release e = true ->
  withdrawal_event s id e = Ok s' -> store_wf s'.
Proof.
  intros Hwf He Hu H. unfold withdrawal_event in H. bind H as w Ew. apply ok_or_Ok in Ew.
  bind H as [res r'] Ea. apply core_Ok in Ea.
  assert (wr_id w = id) as Hid
    by apply (ww_row _ (proj1 (sw_withdrawals _ Hwf)) _ _ Ew).
  eapply withdrawal_event_wf; [done| |done..]. by rewrite Hid.
Qed.

Lemma result_map_Ok {E A B} (f : A -> B) (r : Result E A) b :
  result_map f r = Ok b <-> exists a, r = Ok a /\ b = f a.
Proof. destruct r; naive_solver. Qed.

(** Every message keeps the store well-formed. *)
Lemma store_run_wf s op : store_wf s -> op_ranged op -> store_wf (store_run s op).
Proof.
  intros Hwf Hop. pose proof (funding_keeps_wf encode (fun _ => True) (fun _ _ => True)) as HR.
  destruct op; cbn [store_run op_ranged] in *;
    try (apply committed_wf; [done|]; intros s' Hs');
    try (apply result_map_Ok in Hs' as ([] & Hs' & ->); simpl).
  - apply deposit_event_Ok in Hs' as (? & ? & ? & ? & _ & _ & Hw & Hs'); [|tauto..].
    by eapply put_deposit_with_audit_wf.
  - apply deposit_signature_Ok in Hs' as (? & ? & ? & ? & _ & _ & Hw & Hs'); [|done].
    by eapply put_deposit_with_audit_wf.
  - destruct Hop. by eapply withdrawal_event_kept.
  - by eapply new_withdrawal_bundle_wf.
  - by eapply fee_guard_trip_wf.
  - by eapply fee_guard_continue_wf.
  - by eapply fee_guard_clear_wf.
  - by eapply commit_deposit_hold_bundle_wf.
  - by eapply commit_withdrawal_hold_bundle_wf.
  - by eapply resolve_deposit_wf.
  - by eapply resolve_withdrawal_wf.
  - by eapply pause_wf.
  - by eapply rotate_pause_wf.
  - by eapply rotate_fee_recipient_wf.
  - by eapply complete_activation_wf.
  - by eapply request_fee_payout_wf.
  - by eapply transition_fee_payout_wf.
  - by eapply finish_settlement_job_wf.
  - by apply release_expired_wf.
  - revert Hwf. apply keeps_message; [apply HR|]. by eapply request_dispatch_keeps.
  - destruct Hop as [? [t Ht]].
    revert Hwf. apply keeps_message; [apply HR|]. by eapply request_complete_keeps.
  - revert Hwf. by eapply recover_start_keeps.
  - revert Hwf. by eapply recover_finish_keeps.
Qed.

Lemma store_history_wf s ops :
  store_wf s -> Forall op_ranged ops -> store_wf (store_history s ops).
Proof.
  intros Hwf Hops. revert s Hwf. induction Hops as [|op ops Hop _ IH]; intros s Hwf; [done|].
  apply IH. by apply store_run_wf.
Qed.
End history.
