(* ===== verification/StoreRefinement.v ===== *)
(** * The store refines the protocols

    The tables, indexes and counters of the store are one way to keep four maps:
    the deposits, the withdrawals, the payouts and the funding attempts.  The
    abstract system here moves one row at a time by a transition of the core
    protocols, and every message of [StoreHistory] is such moves.  From the abstract
    system follows what holds across messages: rows are never removed, a record
    keeps the request it was made for, a fee once charged and a funding block once
    known stay, and a terminal state is final. *)

From stdpp Require Import sorting.
From S2P Require Import Prelude KernelArith KernelPolicy KernelDeposit KernelWithdrawal Types Accounting.
From S2P Require Import External Authorization Withdrawal WithdrawalSafety Deposit DepositProtocol.
From S2P Require Import DepositInvariant Reconciliation HoldSafety Tables StorageTypes Config Admission.
From S2P Require Import Jobs Notifications EventLog Store Bundles Intake Funding Admin DepositRows.
From S2P Require Import WithdrawalRows IntakeRows StoreInvariant StoreSafety StoreHolds StorePayouts.
From S2P Require Import StoreIntake StoreFunding StoreAdmin StoreHistory.

(** ** Records *)

Record deposit_grows (d d' : DepositRecord) : Prop := {
  dg_request : same_request d d';
  dg_fee : charged_fee d <= charged_fee d';
  dg_funded : forall b, DepositRecord_funding_ledger_block_index d = Some b ->
    DepositRecord_funding_ledger_block_index d' = Some b;
  dg_terminal : is_terminal_deposit d = true -> dr_state d' = dr_state d;
}.

#[export] Instance deposit_grows_preorder : PreOrder deposit_grows.
Proof.
  split; [by intros d; split|].
  intros d1 d2 d3 [R1 F1 B1 T1] [R2 F2 B2 T2]. split; [by etrans|lia|auto|].
  intros H. rewrite T2; [by apply T1|]. unfold is_terminal_deposit in *. by rewrite T1.
Qed.

Record withdrawal_grows (w w' : WithdrawalRecord) : Prop := {
  wg_burn : same_burn w w';
  wg_fee : withdrawal_fee w <= withdrawal_fee w';
  wg_paid : forall a s b h, wr_state w = Paid a s b h -> wr_state w' = Paid a s b h;
}.

#[export] Instance withdrawal_grows_preorder : PreOrder withdrawal_grows.
Proof.
  split; [by intros d; split|].
  intros d1 d2 d3 [R1 F1 T1] [R2 F2 T2]. split; [by etrans|lia|auto].
Qed.

Record payout_grows (p p' : FeePayoutRecord) : Prop := {
  pg_same : payout_with_state p' (fpr_state p) = p;
  pg_final : is_pending_fee_payout p = false -> fpr_state p' = fpr_state p;
}.

#[export] Instance payout_grows_preorder : PreOrder payout_grows.
Proof.
  split; [intros []; by split|].
  intros [] [] [] [S1 F1] [S2 F2]. unfold payout_with_state, is_pending_fee_payout in *. simpl in *.
  simplify_eq. split; [done|]. simpl in *. intros H. rewrite F2; [by apply F1|]. by rewrite F1.
Qed.

Lemma deposit_step_grows r e res r' :
  DepositRecord_wf r -> DepositStep r e res r' -> deposit_grows r r'.
Proof.
  intros Hwf Hstep. pose proof (deposit_step_same_request _ _ _ _ Hstep) as Hreq.
  pose proof (charged_fee_range _ (deposit_step_wf _ _ _ _ Hwf Hstep)) as [Hc _].
  split; [done|..].
  - pose proof (dwf_state r Hwf) as Hst. unfold DepositRecord_state_wf in Hst.
    deposit_steps Hstep; try done; unfold charged_fee, DepositRecord_signed_authorization in *; simpl in *.
    + rewrite Hs in Hst. destruct Hst as [[_ Ha] _]. by rewrite Ha.
    + rewrite Hq. simpl. destruct (is_some_and _ _); [done|]. simpl in Hc. done.
    + by rewrite Hq, Ha.
  - intros block. unfold DepositRecord_funding_ledger_block_index, DepositRecord_ledger_blocks.
    deposit_steps Hstep; simpl; try rewrite Hs; try done.
    + by destruct Ho as [? ? Hs|? ? Hs|? ? ? [Hs|Hs]]; rewrite Hs.
    + by destruct Hs as [Hs|[? Hs]]; rewrite Hs.
  - unfold is_terminal_deposit. deposit_steps Hstep; try rewrite Hs; try done.
    + by destruct Ho as [? ? Hs|? ? Hs|? ? ? [Hs|Hs]]; rewrite Hs.
    + by destruct Hs as [Hs|[? Hs]]; rewrite Hs.
Qed.

Lemma hold_step_grows d h r res d' h' :
  DepositRecord_wf d -> DepositHoldStep d h r res d' h' -> deposit_grows d d'.
Proof.
  intros Hwf Hstep. destruct (hold_step_wf _ _ _ _ _ _ Hwf Hstep) as (_ & Hreq & Hfee & _).
  split; [done|by rewrite Hfee|..];
    [intros b; unfold DepositRecord_funding_ledger_block_index, DepositRecord_ledger_blocks
    |unfold is_terminal_deposit];
    destruct Hstep as [r _|? _ _ Hs|? _ _ Hs|? ? ? ? _ _ Hs _|? ? ? ? ? ? _ _ Hs _ _];
    simpl; try rewrite Hs; done.
Qed.

Lemma dispatch_grows r t digest r' :
  DepositRecord_wf r -> dispatch_mint_signature r t = Ok (digest, r') -> deposit_grows r r'.
Proof.
  intros Hwf H. destruct (dispatch_wf _ _ _ _ Hwf H) as (_ & Hreq & Hb).
  apply eb_fee in Hb. simpl in Hb.
  assert (dr_state r' = dr_state r) as Hst
    by (by apply dispatch_mint_signature_Ok in H as [->|(? & ? & -> & _)]).
  split; [done|lia|..]; [|done]. intros b.
  unfold DepositRecord_funding_ledger_block_index, DepositRecord_ledger_blocks. by rewrite Hst.
Qed.

Lemma withdrawal_step_grows r e res r' :
  WithdrawalRecord_wf r -> WithdrawalStep r e res r' -> withdrawal_grows r r'.
Proof.
  intros Hwf Hstep. destruct (withdrawal_step_books _ _ _ _ Hstep) as [Hb Hf].
  pose proof (withdrawal_books _ (withdrawal_step_wf _ _ _ _ Hwf Hstep)) as [_ Hn].
  split; [done|..].
  - unfold withdrawal_fee in *. destruct Hstep as [e _|a s Hs|a s b Hs|a s h Hs]; [done|..];
      rewrite Hs; simpl in *; lia.
  - destruct Hstep as [e _|a s Hs|a s b Hs|a s h Hs]; [done|..]; rewrite Hs; done.
Qed.

Lemma withdrawal_hold_step_grows w h r res w' h' :
  WithdrawalRecord_wf w -> WithdrawalHoldStep w h r res w' h' -> withdrawal_grows w w'.
Proof.
  intros Hwf Hstep. pose proof (withdrawal_hold_step_wf _ _ _ _ _ _ Hwf Hstep) as [Hwf' _].
  pose proof (withdrawal_books _ Hwf') as [_ Hn]. unfold withdrawal_fee in Hn.
  destruct Hstep as [r _|b a s Ho Hs _|m a s identity' a' Ho Hs _ Hretry]; [done|..];
    (split; [done|unfold withdrawal_fee; by rewrite Hs|by rewrite Hs]).
Qed.

(** ** Moves of one row *)

(** The deposit events a message may apply, the withdrawals it may add, the holds of the
    store [s0] it may resolve and how, the payouts it may move, the attempts it may prepare
    and the blocks it may record as their funding. *)
Definition op_event (op : StoreOp) (e : DepositEvent) : Prop :=
  match op with
  | Op_deposit_event _ event _ _ => e = event
  | Op_deposit_hold _ _ _ => unambiguous e = false
  | Op_release_expired _ _ => exists reason t, e = MarkRefundAvailable reason t
  | _ => False
  end.

Definition op_withdrawal (op : StoreOp) (w : WithdrawalRecord) : Prop :=
  match op with
  | Op_new_withdrawal w' _ _ _ _ _ _ _ | Op_fee_guard_trip w' _ _ _ _ _ _ _ _ => w = w'
  | _ => False
  end.

Definition op_resolution (s0 : Store) (op : StoreOp) (hold : ReconciliationHoldRecord)
    (r : DepositHoldResolution) : Prop :=
  match op with
  | Op_resolve_deposit _ hold_id resolution _ => hold_row s0 hold_id = Some hold /\ r = resolution
  | _ => False
  end.

Definition op_release_resolution (s0 : Store) (op : StoreOp) (hold : ReconciliationHoldRecord)
    (r : WithdrawalHoldResolution) : Prop :=
  match op with
  | Op_resolve_withdrawal _ hold_id resolution _ => hold_row s0 hold_id = Some hold /\ r = resolution
  | _ => False
  end.

Definition op_payout (s0 : Store) (op : StoreOp) (p : FeePayoutRecord)
    (transition : FeePayoutTransition) : Prop :=
  match op with
  | Op_payout_transition id t _ => t_rows (st_payouts s0) !! id = Some p /\ transition = t
  | _ => False
  end.

Definition op_prepares (sha256 : bytes -> bytes) (op : StoreOp) (f : DepositFundingAttempt) : Prop :=
  match op with
  | Op_request env _ _ => pulls sha256 (env_self env) f
  | _ => False
  end.

Definition op_funding (op : StoreOp) (f : DepositFundingAttempt) (b : Z) : Prop :=
  match op with
  | Op_request_complete _ _ a outcome =>
      f = a /\ LedgerCallOutcome_confirmed_block outcome = Some b
  | Op_recover_finish _ _ a outcome => f = a /\ outcome = Reconciliation_Succeeded b
  | _ => False
  end.

Section moves.
Context (s0 : Store) (op : StoreOp).

Inductive DepositMove (d : DepositRecord) : DepositRecord -> Prop :=
| DM_event e res d' : op_event op e -> DepositStep d e res d' -> DepositMove d d'
| DM_hold hold r res d' hold' :
    op_resolution s0 op hold r -> DepositHoldStep d hold r res d' hold' -> DepositMove d d'
| DM_dispatch t digest d' : dispatch_mint_signature d t = Ok (digest, d') -> DepositMove d d'
| DM_annotate reason : DepositMove d (deposit_with_stop_reason d reason).

Inductive WithdrawalMove (w : WithdrawalRecord) : WithdrawalRecord -> Prop :=
| WM_event e res w' : WithdrawalStep w e res w' -> WithdrawalMove w w'
| WM_hold hold r res w' hold' :
    op_release_resolution s0 op hold r -> WithdrawalHoldStep w hold r res w' hold' ->
    WithdrawalMove w w'
| WM_annotate reason : WithdrawalMove w (withdrawal_with_stop_reason w reason).

Inductive PayoutMove (p : FeePayoutRecord) : FeePayoutRecord -> Prop :=
| PM_transition transition state :
    op_payout s0 op p transition -> payout_next_state transition (fpr_state p) = Ok state ->
    PayoutMove p (payout_with_state p state).

(** How a record comes into being. *)
Definition withdrawal_enters (w : WithdrawalRecord) : Prop :=
  WithdrawalRecord_wf w /\
  (wr_state w = Observed \/
   exists a st res, WithdrawalStep (WithdrawalRecord_with_state w Observed) (StartRelease a st) res w).

Lemma deposit_move_grows d d' : DepositRecord_wf d -> DepositMove d d' -> deposit_grows d d'.
Proof.
  intros Hwf [e res d1 _ H|hold r res d1 hold' _ H|t digest d1 H|reason].
  - by eapply deposit_step_grows.
  - by eapply hold_step_grows.
  - by eapply dispatch_grows.
  - by split.
Qed.

Lemma deposit_move_wf d d' : DepositRecord_wf d -> DepositMove d d' -> DepositRecord_wf d'.
Proof.
  intros Hwf [e res d1 _ H|hold r res d1 hold' _ H|t digest d1 H|reason].
  - by eapply deposit_step_wf.
  - by eapply hold_step_wf.
  - by eapply dispatch_wf.
  - by apply with_stop_reason_record_wf.
Qed.

Lemma withdrawal_move_grows w w' : WithdrawalRecord_wf w -> WithdrawalMove w w' -> withdrawal_grows w w'.
Proof.
  intros Hwf [e res w1 H|hold r res w1 hold' _ H|reason].
  - by eapply withdrawal_step_grows.
  - by eapply withdrawal_hold_step_grows.
  - by split.
Qed.

Lemma withdrawal_move_wf w w' : WithdrawalRecord_wf w -> WithdrawalMove w w' -> WithdrawalRecord_wf w'.
Proof.
  intros Hwf [e res w1 H|hold r res w1 hold' _ H|reason].
  - by eapply withdrawal_step_wf.
  - by eapply withdrawal_hold_step_wf.
  - by apply withdrawal_stop_reason_wf.
Qed.

Lemma withdrawal_moves_grow w w' :
  WithdrawalRecord_wf w -> rtc WithdrawalMove w w' -> WithdrawalRecord_wf w' /\ withdrawal_grows w w'.
Proof.
  intros Hwf H. revert Hwf. induction H as [w|w w1 w' Hm _ IH]; intros Hwf; [done|].
  destruct (IH (withdrawal_move_wf _ _ Hwf Hm)). split; [done|]. etrans; [|done].
  by apply withdrawal_move_grows.
Qed.

Lemma payout_move_grows p p' : PayoutMove p p' -> payout_grows p p'.
Proof.
  intros [transition state _ H]. split; [by destruct p|]. unfold is_pending_fee_payout, payout_next_state in *.
  by destruct transition, (fpr_state p); simplify_eq.
Qed.

Lemma payout_move_committed p p' :
  0 <= payout_cost p -> PayoutMove p p' ->
  payout_cost p' = payout_cost p /\ payout_pending p' + payout_spent p' <= payout_pending p + payout_spent p.
Proof.
  intros Hc [transition state _ H]. split; [done|].
  unfold payout_pending, payout_spent, is_pending_fee_payout, payout_next_state in *.
  change (payout_cost (payout_with_state p state)) with (payout_cost p).
  destruct transition, (fpr_state p); simpl in *; simplify_eq; simpl; lia.
Qed.
End moves.

(** ** The abstract system *)

Record Abstract := {
  ab_deposits : gmap bytes StoredDeposit;
  ab_withdrawals : gmap bytes WithdrawalRecord;
  ab_payouts : gmap Z FeePayoutRecord;
  ab_attempts : gmap bytes DepositFundingAttempt;
}.

Definition abstract (s : Store) : Abstract :=
  {| ab_deposits := t_rows (dt_deposits (st_deposits s));
     ab_withdrawals := t_rows (wt_withdrawals (st_withdrawals s));
     ab_payouts := t_rows (st_payouts s);
     ab_attempts := fst <$> t_rows (in_attempts (st_intake s)) |}.

Definition set_deposit (a : Abstract) (id : bytes) (sd : StoredDeposit) : Abstract :=
  {| ab_deposits := <[id := sd]> (ab_deposits a); ab_withdrawals := ab_withdrawals a;
     ab_payouts := ab_payouts a; ab_attempts := ab_attempts a |}.
Definition set_withdrawal (a : Abstract) (id : bytes) (w : WithdrawalRecord) : Abstract :=
  {| ab_deposits := ab_deposits a; ab_withdrawals := <[id := w]> (ab_withdrawals a);
     ab_payouts := ab_payouts a; ab_attempts := ab_attempts a |}.
Definition set_payout (a : Abstract) (id : Z) (p : FeePayoutRecord) : Abstract :=
  {| ab_deposits := ab_deposits a; ab_withdrawals := ab_withdrawals a;
     ab_payouts := <[id := p]> (ab_payouts a); ab_attempts := ab_attempts a |}.
Definition set_attempts (a : Abstract) (attempts : gmap bytes DepositFundingAttempt) : Abstract :=
  {| ab_deposits := ab_deposits a; ab_withdrawals := ab_withdrawals a;
     ab_payouts := ab_payouts a; ab_attempts := attempts |}.

(** The fees charged so far, and what payouts took or may still take of them. *)
Definition fees_charged (a : Abstract) : Z :=
  map_sum (fun sd => charged_fee (sd_record sd)) (ab_deposits a) + map_sum withdrawal_fee (ab_withdrawals a).

Definition fees_committed (a : Abstract) : Z :=
  map_sum (fun p => payout_pending p + payout_spent p) (ab_payouts a).

Section steps.
Context (sha256 : bytes -> bytes) (s0 : Store) (op : StoreOp).

(** A step of the message [op] that found the store [s0]. *)
Inductive AbstractStep (a : Abstract) : Abstract -> Prop :=
| AS_deposit id sd d' :
    ab_deposits a !! id = Some sd -> DepositMove s0 op (sd_record sd) d' ->
    AbstractStep a (set_deposit a id (with_record sd d'))
| AS_new_withdrawal w :
    op_withdrawal op w -> ab_withdrawals a !! wr_id w = None -> withdrawal_enters w ->
    AbstractStep a (set_withdrawal a (wr_id w) w)
| AS_withdrawal id w w' :
    ab_withdrawals a !! id = Some w -> rtc (WithdrawalMove s0 op) w w' ->
    AbstractStep a (set_withdrawal a id w')
| AS_new_payout p :
    ab_payouts a !! fpr_id p = None -> fpr_state p = Payout_Pending ->
    0 <= payout_cost p -> fees_committed a + payout_cost p <= fees_charged a ->
    AbstractStep a (set_payout a (fpr_id p) p)
| AS_payout id p p' :
    ab_payouts a !! id = Some p -> PayoutMove s0 op p p' -> AbstractStep a (set_payout a id p')
| AS_prepare f :
    let id := di_deposit_id (dfa_intent f) in
    ab_attempts a !! id = None -> ab_deposits a !! id = None -> dfa_state f = Attempt_Prepared ->
    op_prepares sha256 op f ->
    AbstractStep a (set_attempts a (<[id := f]> (ab_attempts a)))
| AS_attempt id f f' :
    ab_attempts a !! id = Some f -> attempt_kept f f' -> AttemptMove (dfa_state f) (dfa_state f') ->
    AbstractStep a (set_attempts a (<[id := f']> (ab_attempts a)))
| AS_drop id f :
    ab_attempts a !! id = Some f -> droppable (dfa_state f) = true ->
    AbstractStep a (set_attempts a (delete id (ab_attempts a)))
| AS_promote id f sd :
    ab_attempts a !! id = Some f -> ab_deposits a !! id = None ->
    dfa_state f <> Attempt_Prepared -> di_deposit_id (dfa_intent f) = id ->
    DepositRecord_wf (sd_record sd) -> deposit_enters (promotion_request f) (sd_record sd) ->
    (forall b, DepositRecord_funding_ledger_block_index (sd_record sd) = Some b -> op_funding op f b) ->
    AbstractStep a (set_attempts (set_deposit a id sd) (delete id (ab_attempts a))).

Definition refines (s s' : Store) : Prop := rtc AbstractStep (abstract s) (abstract s').

#[export] Instance refines_preorder : PreOrder refines.
Proof. unfold refines. split; [by intros s|]. intros s1 s2 s3 ? ?. by etrans. Qed.
End steps.

(** ** What the abstract system keeps *)

Record abstract_wf (a : Abstract) : Prop := {
  aw_deposits : map_Forall (fun _ sd => DepositRecord_wf (sd_record sd)) (ab_deposits a);
  aw_withdrawals : map_Forall (fun _ w => WithdrawalRecord_wf w) (ab_withdrawals a);
  aw_payouts : map_Forall (fun _ p => 0 <= payout_cost p) (ab_payouts a);
}.

(** Rows grow in place: none is removed. *)
Definition rows_grow {K V} `{Countable K} (R : relation V) (m m' : gmap K V) : Prop :=
  forall k v, m !! k = Some v -> exists v', m' !! k = Some v' /\ R v v'.

#[export] Instance rows_grow_preorder {K V} `{Countable K} (R : relation V) `{!PreOrder R} :
  PreOrder (rows_grow (K := K) R).
Proof.
  split; [intros m k v Hv; by exists v|].
  intros m1 m2 m3 H1 H2 k v Hv. apply H1 in Hv as (v2 & Hv2 & ?). apply H2 in Hv2 as (v3 & ? & ?).
  exists v3. split; [done|]. by etrans.
Qed.

Lemma rows_grow_insert {K V} `{Countable K} (R : relation V) `{!PreOrder R} (m : gmap K V) k v :
  (forall v0, m !! k = Some v0 -> R v0 v) -> rows_grow R m (<[k := v]> m).
Proof.
  intros HR k' v' Hv'. destruct (decide (k = k')) as [<-|].
  - exists v. rewrite lookup_insert_eq. auto.
  - exists v'. by rewrite lookup_insert_ne.
Qed.

Definition stored_grows (sd sd' : StoredDeposit) : Prop :=
  sd_owner_sequence sd' = sd_owner_sequence sd /\ sd_base_recipient sd' = sd_base_recipient sd /\
  deposit_grows (sd_record sd) (sd_record sd').

#[export] Instance stored_grows_preorder : PreOrder stored_grows.
Proof.
  split; [by intros sd|]. intros d1 d2 d3 (? & ? & ?) (? & ? & ?). split_and!; [congruence..|by etrans].
Qed.

Record grows (a a' : Abstract) : Prop := {
  gr_deposits : rows_grow stored_grows (ab_deposits a) (ab_deposits a');
  gr_withdrawals : rows_grow withdrawal_grows (ab_withdrawals a) (ab_withdrawals a');
  gr_payouts : rows_grow payout_grows (ab_payouts a) (ab_payouts a');
}.

#[export] Instance grows_preorder : PreOrder grows.
Proof. split; [by intros a|]. intros a b c [] []. split; by etrans. Qed.

Section kept.
Context (sha256 : bytes -> bytes).

Lemma abstract_step_grows s0 op a a' :
  abstract_wf a -> AbstractStep sha256 s0 op a a' -> abstract_wf a' /\ grows a a'.
Proof.
  intros [Hd Hw Hp] Hstep.
  destruct Hstep as [id sd d' Hrow Hm|w _ Hrow [Hwf _]|id w w' Hrow Hm|p Hrow _ Hc _|id p p' Hrow Hm|f id _ _ _ _
    |id f f' _ _ _|id f _ _|id f sd _ Hrow _ _ Hwf _ _]; split; split; simpl; try done;
    try (apply map_Forall_insert_2; [|done]); try (apply rows_grow_insert; [apply _|]; rewrite Hrow; try done).
  - by eapply deposit_move_wf; [apply (Hd id)|].
  - intros ? [= <-]. split_and!; [done..|]. by eapply deposit_move_grows; [apply (Hd id)|].
  - done.
  - by eapply withdrawal_moves_grow; [apply (Hw id)|].
  - intros ? [= <-]. by eapply withdrawal_moves_grow; [apply (Hw id)|].
  - done.
  - apply (Hp id) in Hrow as Hc. by eapply payout_move_committed in Hm as [-> _].
  - intros ? [= <-]. by eapply payout_move_grows.
  - done.
Qed.

(** A step of some message. *)
Definition AnyStep (a a' : Abstract) : Prop := exists s0 op, AbstractStep sha256 s0 op a a'.

Lemma abstract_run_grows a a' :
  abstract_wf a -> rtc AnyStep a a' -> abstract_wf a' /\ grows a a'.
Proof.
  intros Hwf H. revert Hwf. induction H as [a|a b a' (s0 & op & Hs) _ IH]; intros Hwf; [done|].
  destruct (abstract_step_grows _ _ _ _ Hwf Hs) as [Hb ?]. destruct (IH Hb). split; [done|]. by etrans.
Qed.

(** *** Payouts are covered by the fees *)

Lemma map_sum_grow {K V} `{Countable K} (R : relation V) (f : V -> Z) (m m' : gmap K V) :
  rows_grow R m m' -> (forall v v', R v v' -> f v <= f v') ->
  map_Forall (fun _ v => 0 <= f v) m' -> map_sum f m <= map_sum f m'.
Proof.
  intros Hg Hf. revert m' Hg. induction m as [|k v m Hk IH] using map_ind; intros m' Hg Hn.
  - rewrite map_sum_empty. apply map_sum_nonneg. intros k v Hv. by apply (Hn k).
  - rewrite map_sum_insert by done.
    destruct (Hg k v (lookup_insert_eq _ _ _)) as (v' & Hv' & HR).
    rewrite (map_sum_delete f m' k v' Hv'). apply Hf in HR.
    enough (map_sum f m <= map_sum f (delete k m')) by lia. apply IH.
    + intros k' u Hu. assert (k <> k') by congruence.
      destruct (Hg k' u) as (u' & Hu' & ?); [by rewrite lookup_insert_ne|].
      exists u'. by rewrite lookup_delete_ne.
    + by apply map_Forall_delete.
Qed.

Lemma fees_charged_grow a a' : abstract_wf a' -> grows a a' -> fees_charged a <= fees_charged a'.
Proof.
  intros [Hd Hw _] [Gd Gw _]. unfold fees_charged.
  assert (map_sum (fun sd => charged_fee (sd_record sd)) (ab_deposits a)
    <= map_sum (fun sd => charged_fee (sd_record sd)) (ab_deposits a')).
  { apply (map_sum_grow _ _ _ _ Gd); [by intros v v' (_ & _ & [])|].
    intros k v Hv. apply Hd in Hv. by apply charged_fee_range in Hv as [? _]. }
  assert (map_sum withdrawal_fee (ab_withdrawals a) <= map_sum withdrawal_fee (ab_withdrawals a')).
  { apply (map_sum_grow _ _ _ _ Gw); [by intros v v' []|].
    intros k v Hv. apply Hw in Hv. by apply withdrawal_books in Hv as [_ ?]. }
  lia.
Qed.

Lemma abstract_step_backed s0 op a a' :
  abstract_wf a -> AbstractStep sha256 s0 op a a' -> fees_committed a <= fees_charged a ->
  fees_committed a' <= fees_charged a'.
Proof.
  intros Hwf Hstep Hb. destruct (abstract_step_grows _ _ _ _ Hwf Hstep) as [Hwf' Hg].
  pose proof (fees_charged_grow _ _ Hwf' Hg) as Hfees.
  enough (fees_committed a' <= fees_committed a \/ fees_committed a' <= fees_charged a) by lia.
  destruct Hstep as [| | |p Hrow Hs _ Hcov|id p p' Hrow Hm| | | |];
    try (left; unfold fees_committed; simpl; lia).
  - right. unfold fees_committed in *. simpl in *. rewrite map_sum_insert by done.
    unfold payout_pending at 1, payout_spent at 1, is_pending_fee_payout. rewrite Hs. lia.
  - left. unfold fees_committed. simpl. rewrite (map_sum_update _ _ _ p) by done.
    eapply payout_move_committed in Hm as [_ ?]; [lia|]. by apply (aw_payouts _ Hwf id).
Qed.

End kept.

Lemma store_abstract_wf s : store_wf s -> abstract_wf (abstract s).
Proof.
  intros Hwf. split; intros id v Hv; simpl in Hv.
  - apply (dw_row _ (sw_deposits _ Hwf) _ _ Hv).
  - apply (ww_row _ (proj1 (sw_withdrawals _ Hwf)) _ _ Hv).
  - apply (proj2 (sw_payouts _ Hwf)) in Hv as []. unfold payout_cost. lia.
Qed.

(** ** From stores to the abstract system *)

Section labelled.
Context (sha256 : bytes -> bytes) (s0 : Store) (op : StoreOp).

(** Nothing of the abstract state changed. *)
Lemma refines_frame s s' :
  st_deposits s' = st_deposits s -> st_withdrawals s' = st_withdrawals s ->
  st_payouts s' = st_payouts s -> in_attempts (st_intake s') = in_attempts (st_intake s) -> refines sha256 s0 op s s'.
Proof. intros Hd Hw Hp Hi. unfold refines, abstract. by rewrite Hd, Hw, Hp, Hi. Qed.

(** One deposit, or one withdrawal, moved. *)
Lemma refines_deposit s s' id sd d' :
  deposit_row s id = Some sd -> DepositMove s0 op (sd_record sd) d' ->
  t_rows (dt_deposits (st_deposits s'))
    = <[id := with_record sd d']> (t_rows (dt_deposits (st_deposits s))) ->
  st_withdrawals s' = st_withdrawals s -> st_payouts s' = st_payouts s ->
  in_attempts (st_intake s') = in_attempts (st_intake s) -> refines sha256 s0 op s s'.
Proof.
  intros Hrow Hm Hrows Hw Hp Hi. apply rtc_once.
  replace (abstract s') with (set_deposit (abstract s) id (with_record sd d')).
  - by apply AS_deposit.
  - unfold abstract, set_deposit. by rewrite Hrows, Hw, Hp, Hi.
Qed.

Lemma refines_withdrawal s s' id w :
  match withdrawal_row s id with
  | Some w0 => rtc (WithdrawalMove s0 op) w0 w
  | None => wr_id w = id /\ op_withdrawal op w /\ withdrawal_enters w
  end ->
  t_rows (wt_withdrawals (st_withdrawals s')) = <[id := w]> (t_rows (wt_withdrawals (st_withdrawals s))) ->
  st_deposits s' = st_deposits s -> st_payouts s' = st_payouts s ->
  in_attempts (st_intake s') = in_attempts (st_intake s) -> refines sha256 s0 op s s'.
Proof.
  intros Hm Hrows Hd Hp Hi. apply rtc_once.
  replace (abstract s') with (set_withdrawal (abstract s) id w).
  - destruct (withdrawal_row s id) as [w0|] eqn:Hrow; [by eapply AS_withdrawal|].
    destruct Hm as (<- & Hop & Hm). by apply AS_new_withdrawal.
  - unfold abstract, set_withdrawal. by rewrite Hrows, Hd, Hp, Hi.
Qed.

(** ** Messages about deposits *)

Context (encode : StoredValue -> Result StorageError unit).
Context (transfer_identity_hash : LedgerTransferIdentity -> bytes).
Context (scan_key : ReconciliationTarget -> bytes).
Context (encode_event : AuditEvent AuditEventKind -> Result StorageError bytes).
Context (retention_encodes : AuditRetentionState -> bool).
Context (test_deployment : bool).

Lemma put_refines s sd d' token result context out s' :
  store_wf s -> writable s sd d' -> DepositMove s0 op (sd_record sd) d' ->
  put_deposit_with_audit encode transfer_identity_hash s d' token result context = Ok (out, s') ->
  refines sha256 s0 op s s'.
Proof.
  intros Hwf Hw Hm H. apply (put_deposit_outcome _ _ _ _ _ Hwf Hw) in H
    as (jobs & admission & [->|(t & counters & accounting & fee & Ht & _ & _ & _ & ->)]).
  { by apply refines_frame. }
  pose proof (wb_row _ _ _ Hw) as Hrow.
  apply (write_deposit_rows_updated _ _ (dr_id d') sd (with_record sd d')) in Ht;
    [|apply Hwf|done|by destruct Hw].
  eapply (refines_deposit s _ (dr_id d') sd d'); try done. apply Ht.
Qed.

Lemma expire_refines s now ids :
  (forall reason t, op_event op (MarkRefundAvailable reason t)) -> store_wf s -> refines sha256 s0 op s (expire_deposits encode transfer_identity_hash s now ids).1.
Proof.
  intros Hop. revert s. induction ids as [|id ids IH]; intros s Hwf; simpl; [done|].
  destruct (expire_deposit encode transfer_identity_hash s now id) as [s'|] eqn:E; [|done].
  pose proof (expire_deposit_wf _ _ _ _ _ _ Hwf E) as Hwf'. etrans; [|by apply IH].
  apply expire_deposit_Ok in E as (sd & res & d' & out & _ & Hstep & Hw & E); [|done].
  eapply put_refines; [done..| |done]. by eapply DM_event; [apply Hop|].
Qed.

Lemma release_expired_refines s now limit :
  (forall reason t, op_event op (MarkRefundAvailable reason t)) -> store_wf s ->
  refines sha256 s0 op s (release_expired_deposit_reservations encode transfer_identity_hash s now limit).1.
Proof.
  intros Hop Hwf. unfold release_expired_deposit_reservations. destruct (_ || _); [done|].
  destruct (deposit_authorization_deadline_index_key _ _) as [last|]; [|done].
  pose proof (expire_refines s now (take limit (deadlines_until (dt_deadlines (st_deposits s)) last)) Hop Hwf).
  by destruct (expire_deposits _ _ _ _ _) as [s' [|]].
Qed.

(** ** Messages about withdrawals *)

Lemma replaced_row t id prev w t' :
  withdrawal_rows_wf t -> stored_withdrawal_wf id w -> replace_withdrawal_row t id prev w = Ok t' ->
  prev = withdrawal_rows t !! id /\ withdrawal_rows t' = <[id := w]> (withdrawal_rows t).
Proof. intros Ht Hw H. by apply replace_withdrawal_row_Ok in H as (_ & ? & ? & _). Qed.

Lemma withdrawal_event_refines s id e s' :
  store_wf s -> WithdrawalEvent_ranged e -> withdrawal_event encode s id e = Ok s' -> refines sha256 s0 op s s'.
Proof.
  intros Hwf He H. unfold withdrawal_event in H. bind H as w Ew. apply ok_or_Ok in Ew.
  bind H as [res w'] Ea. apply core_Ok in Ea. destruct (sw_withdrawals _ Hwf) as [Hrw _].
  pose proof (ww_row _ Hrw _ _ Ew) as Hst. apply withdrawal_apply_sound in Ea; [|apply Hst|done].
  pose proof (withdrawal_step_stored _ _ _ _ _ Hst Ea) as Hst'.
  unfold put_withdrawal in H. cbv zeta in H.
  bind H as fee Ef. bind H as accounting Eacc. bind H as pending Ep.
  bind H as u1 E1. bind H as u2 E2. bind H as u3 E3.
  bind H as rel1 Er1. bind H as rel2 Er2. bind H as t Et.
  apply Ok_inj in H as <-. apply db_Ok in Et.
  rewrite (sww_id _ _ Hst') in Et.
  apply replaced_row in Et as [_ Rt]; [|by destruct Hrw|done].
  apply (refines_withdrawal s _ id w'); try done. rewrite Ew. by eapply rtc_once, WM_event.
Qed.

Lemma added_refines s w s' :
  store_wf s -> stored_withdrawal_wf (wr_id w) w -> op_withdrawal op w -> withdrawal_enters w ->
  withdrawal_added s s' w ->
  refines sha256 s0 op s s'.
Proof.
  intros Hwf Hw Hop He [(t & release & Ht & _ & Es) _ _ Ed _ Ep _ _ Ea].
  apply replaced_row in Ht as [Hnone Rt]; [|apply Hwf|done].
  change (None = withdrawal_row s (wr_id w)) in Hnone.
  apply (refines_withdrawal s s' (wr_id w) w); rewrite <- ?Hnone, ?Es; done.
Qed.

Lemma new_withdrawal_refines s w progress audit hash ingestion fresh s' :
  op_withdrawal op w -> store_wf s -> observed_burn w ->
  commit_new_withdrawal_release_bundle_inner encode encode_event retention_encodes sha256
    s w progress audit hash ingestion = Ok (fresh, s') -> refines sha256 s0 op s s'.
Proof.
  intros Hop Hwf Hob H. apply new_withdrawal_bundle_Ok in H as [->|(a & st & Hst & Happ & Hadd)]; [done| |done].
  pose proof (started_wf _ _ _ Hob Hst Happ) as Hw. apply (added_refines s w); try done.
  split; [apply Hw|right].
  apply apply_withdrawal_step in Happ as [res Hstep]; [by eauto|..]; destruct Hob as [_ Hq Hs].
  - split; [by apply quoted_with_state|done].
  - by rewrite Hst in Hs.
Qed.

Lemma fee_guard_trip_refines s w progress admin caller now kinds hash window limit s' :
  op_withdrawal op w -> store_wf s -> observed_burn w ->
  commit_withdrawal_fee_guard_trip_bundle encode encode_event retention_encodes sha256
    s w progress admin caller now kinds hash window limit = Ok s' -> refines sha256 s0 op s s'.
Proof.
  intros Hop Hwf [Hreq Hq _] H. apply fee_guard_trip_Ok in H as [Hst Hadd]; [|done].
  assert (WithdrawalRecord_wf w) by (split; [done|by rewrite Hst]).
  apply (added_refines s w); try done. split; [done|by left].
Qed.

Lemma fee_guard_update_refines s previous w admin caller now kinds s' :
  store_wf s -> withdrawal_row s (wr_id w) = Some previous -> stored_withdrawal_wf (wr_id w) w ->
  rtc (WithdrawalMove s0 op) previous w ->
  commit_withdrawal_fee_guard_update encode encode_event retention_encodes sha256
    s previous w admin caller now kinds = Ok s' -> refines sha256 s0 op s s'.
Proof.
  intros Hwf Hrow Hw Hm H. apply fee_guard_update_rows in H as (Rw & ? & ? & ?); [|done..].
  apply (refines_withdrawal s s' (wr_id w) w); try done. by rewrite Hrow.
Qed.

Lemma fee_guard_continue_refines s w admin caller now kinds s' :
  store_wf s ->
  commit_withdrawal_fee_guard_continue_bundle encode encode_event retention_encodes sha256
    s w admin caller now kinds = Ok s' -> refines sha256 s0 op s s'.
Proof.
  intros Hwf H. apply fee_guard_continue_Ok in H as (previous & Erow & Hobs & Hexp & H).
  pose proof (with_stop_reason_wf _ _ (wr_last_settlement_stop_reason w)
    (ww_row _ (proj1 (sw_withdrawals _ Hwf)) _ _ Erow)) as Hw. rewrite <- Hexp in Hw.
  eapply fee_guard_update_refines; [done..| |done]. rewrite Hexp. apply rtc_once, WM_annotate.
Qed.

Lemma fee_guard_clear_refines s w admin caller now kinds s' :
  store_wf s -> match wr_state w with ReleasePending _ st => Settlement_ranged st | _ => True end ->
  commit_withdrawal_fee_guard_clear_bundle encode encode_event retention_encodes sha256
    s w admin caller now kinds = Ok s' -> refines sha256 s0 op s s'.
Proof.
  intros Hwf Hranged H. apply fee_guard_clear_Ok in H
    as (previous & a & st & res & started & Erow & Hobs & Hst & Hstep & Hw & H); [|done..].
  pose proof (withdrawal_step_stored _ _ _ _ _ (ww_row _ (proj1 (sw_withdrawals _ Hwf)) _ _ Erow) Hstep)
    as Hexp. apply (with_stop_reason_wf _ _ None) in Hexp. rewrite <- Hw in Hexp.
  eapply fee_guard_update_refines; [done..| |done].
  eapply rtc_l; [by eapply WM_event|]. rewrite Hw. apply rtc_once, WM_annotate.
Qed.

(** ** Holds *)

Lemma deposit_hold_refines s deposit hold token s' :
  (forall e, unambiguous e = false -> op_event op e) -> store_wf s ->
  commit_deposit_hold_bundle_fenced encode transfer_identity_hash s deposit hold token = Ok s' ->
  refines sha256 s0 op s s'.
Proof.
  intros Hop Hwf H. apply commit_deposit_hold_bundle_Ok in H
    as (stored & e & h & request & transfer & token' & Erow & He & Hpend & Happ & _ & H); [|done].
  pose proof (sdw_record _ _ (dw_row _ (sw_deposits _ Hwf) _ _ Erow)) as Hr.
  destruct (ambiguous_deposit _ _ _ _ Hr He Hpend Happ) as (? & Hreq & ? & ? & ? & ? & ? & Hw & _).
  apply apply_deposit_step in Happ as [res Hstep]; [|done|by destruct He as [-> | ->]].
  apply (commit_deposit_hold_Ok encode s stored deposit h request transfer) in H
    as (pull & pending & holds & _ & _ & _ & _ & _ & _ & ->); try done.
  apply (refines_deposit s _ (dr_id deposit) stored deposit); try done;
    [eapply DM_event; [|done]; apply Hop; by destruct He as [-> | ->]|].
  apply update_rows; [apply Hwf|by exists stored].
Qed.

Lemma withdrawal_hold_refines s withdrawal hold s' :
  store_wf s -> commit_withdrawal_hold_bundle encode s withdrawal hold = Ok s' -> refines sha256 s0 op s s'.
Proof.
  intros Hwf H. apply commit_withdrawal_hold_bundle_Ok in H
    as (previous & a & st & h & res & pending & t & holds & Erow & _ & Hstep & _ & Hnext & _ & Es
      & _ & _ & _ & ->); [|done].
  apply write_parent_withdrawal in Es as (t' & [= <-] & _ & _ & Rw & _); [|apply Hwf|done].
  apply (refines_withdrawal s _ (wr_id withdrawal) withdrawal); try done.
  rewrite Erow. by eapply rtc_once, WM_event.
Qed.

Lemma resolve_deposit_refines s id hold_id resolution scan res s' :
  (forall hold, hold_row s hold_id = Some hold -> op_resolution s0 op hold resolution) -> store_wf s ->
  resolve_deposit_hold_and_scan encode scan_key s id hold_id resolution scan = Ok (res, s') ->
  refines sha256 s0 op s s'.
Proof.
  intros Hop Hwf H. apply resolve_deposit_Ok in H as [->|(sd & d' & hold & hold' & result & t & counters
    & holds & Erow & Eh & _ & _ & _ & Er & Hup & _ & _ & _ & ->)]; [done| |done].
  apply (refines_deposit s _ (dr_id d') sd d'); try done; [|apply Hup].
  by eapply DM_hold; [apply Hop|].
Qed.

Lemma resolve_withdrawal_refines s id hold_id resolution scan res s' :
  (forall hold, hold_row s hold_id = Some hold -> op_release_resolution s0 op hold resolution) ->
  store_wf s ->
  resolve_withdrawal_hold_and_scan encode scan_key s id hold_id resolution scan = Ok (res, s') ->
  refines sha256 s0 op s s'.
Proof.
  intros Hop Hwf H. apply resolve_withdrawal_Ok in H as [->|(w & w' & hold & hold' & result & fee
    & accounting & pending & t & holds & Erow & Eh & _ & _ & _ & Er & _ & _ & _ & Hwr & _ & _ & ->)];
    [done| |done].
  pose proof (withdrawal_hold_step_stored _ _ _ _ _ _ _ (ww_row _ (proj1 (sw_withdrawals _ Hwf)) _ _ Erow) Er)
    as Hw'.
  apply write_parent_withdrawal in Hwr as (t' & [= <-] & _ & _ & Rw & _); [|apply Hwf|done].
  apply (refines_withdrawal s _ (wr_id w') w'); try done. rewrite Erow.
  eapply rtc_once, WM_hold; [by apply Hop|done].
Qed.

(** ** Administration and payouts *)

Lemma payout_refines s s' id p :
  match t_rows (st_payouts s) !! id with
  | Some p0 => p = p0 \/ PayoutMove s0 op p0 p
  | None => fpr_id p = id /\ fpr_state p = Payout_Pending /\ 0 <= payout_cost p /\
      fees_committed (abstract s) + payout_cost p <= fees_charged (abstract s)
  end ->
  t_rows (st_payouts s') = <[id := p]> (t_rows (st_payouts s)) ->
  st_deposits s' = st_deposits s -> st_withdrawals s' = st_withdrawals s ->
  in_attempts (st_intake s') = in_attempts (st_intake s) -> refines sha256 s0 op s s'.
Proof.
  intros Hm Hrows Hd Hw Hi.
  assert (abstract s' = set_payout (abstract s) id p) as Hs'.
  { unfold abstract, set_payout. by rewrite Hrows, Hd, Hw, Hi. }
  unfold refines. rewrite Hs'.
  destruct (t_rows (st_payouts s) !! id) as [p0|] eqn:Hrow.
  - destruct Hm as [->|Hm]; [|by eapply rtc_once, AS_payout].
    unfold set_payout. simpl. by rewrite insert_id.
  - destruct Hm as (<- & ? & ? & ?). by apply rtc_once, AS_new_payout.
Qed.

Lemma readministered_refines s sequence events retention admin :
  refines sha256 s0 op s (readministered s sequence events retention admin).
Proof. by apply refines_frame. Qed.

Lemma store_fees s :
  store_wf s ->
  as_fee_reserve (st_accounting s) = fees_charged (abstract s) - payout_total payout_spent s /\
  fees_committed (abstract s)
    = cs_pending_fee_payout_debit (st_counters s) + payout_total payout_spent s.
Proof.
  intros Hwf. rewrite (cb_debit _ (sw_counters _ Hwf)), (fb_reserve _ (sw_fees _ Hwf)).
  unfold fees_committed. rewrite map_sum_add. split; [done|]. done.
Qed.

Lemma requested_payout_covered s env caller amount record s' :
  store_wf s -> 0 <= amount ->
  request_fee_payout encode encode_event retention_encodes sha256 test_deployment s env caller amount
    = Ok (record, s') ->
  fees_committed (abstract s) + payout_cost record <= fees_charged (abstract s).
Proof.
  intros Hwf Hn H. destruct (store_fees s Hwf) as [Hr Hc].
  apply request_fee_payout_Ok in H as (admin & _ & _ & Hu & Hf & _ & (amount' & Hb & _ & Hd) & _).
  unfold bounded_nat_u128 in Hb. destruct (Z.ltb_spec u128_max amount); [done|]. injection Hb as <-.
  assert (is_u128 (KINIC_LEDGER_FEE test_deployment)) as Hfee.
  { unfold KINIC_LEDGER_FEE. destruct test_deployment; ranges; lia. }
  assert (is_u128 amount) as Ha by (ranges; lia).
  pose proof (payout_decision_covers _ _ _ _ _ _ Ha Hfee Hd) as Hcov.
  unfold payout_cost. rewrite Hf. unfold payout_decision in Hd. destruct (_ || _) eqn:E in Hd; [done|].
  injection Hd as Hd. rewrite !orb_false_iff, !Z.gtb_ltb, !Z.ltb_ge in E. destruct E as [[_ E] _].
  ranges. rewrite wrapping_sub_exact in E by lia. rewrite wrapping_add_exact in Hd by lia. lia.
Qed.

Lemma request_payout_refines s env caller amount record s' :
  store_wf s -> 0 <= amount ->
  request_fee_payout encode encode_event retention_encodes sha256 test_deployment s env caller amount
    = Ok (record, s') -> refines sha256 s0 op s s'.
Proof.
  intros Hwf Hn H. pose proof H as Hok.
  apply request_fee_payout_written in H as (Hs & Hnone & Hpw); [|done].
  destruct (pw_payout _ _ _ _ Hpw) as [_ _ ? ? _ _].
  apply (payout_refines s s' (fpr_id record) record); try apply Hpw; [rewrite Hnone|f_equal; apply Hpw].
  split_and!; [done..| |by eapply requested_payout_covered; [..|exact Hok]]. unfold payout_cost. lia.
Qed.

Lemma transition_payout_refines s id transition scan s' :
  (forall p, t_rows (st_payouts s) !! id = Some p -> op_payout s0 op p transition) -> store_wf s -> transition_fee_payout encode scan_key s id transition scan = Ok s' -> refines sha256 s0 op s s'.
Proof.
  intros Hop Hwf H. apply transition_fee_payout_Ok in H as [->|(p & p' & Hrow & Hm & [])]; [done| |done].
  apply (payout_refines s s' id p'); try done; [rewrite Hrow|by f_equal].
  destruct Hm as [->|(state & Hn & ->)]; [by left|right].
  econstructor; [by apply Hop|done].
Qed.

Lemma finish_job_refines s job next_run attempts stop reason now s' :
  store_wf s ->
  finish_settlement_job encode s job next_run attempts stop reason now = Ok s' -> refines sha256 s0 op s s'.
Proof.
  intros Hwf H. apply finish_settlement_job_Ok in H as (s1 & jobs & admission & -> & Hs1); [|done].
  destruct Hs1 as [->|[(id & sd & r & Erow & ->)|(id & w & r & t & Erow & Et & ->)]].
  - by apply refines_frame.
  - eapply (refines_deposit s _ id sd); try done; [apply DM_annotate|].
    apply update_rows; [apply Hwf|by exists sd].
  - destruct (sw_withdrawals _ Hwf) as [Hrw _].
    apply replaced_row in Et as [_ Rt]; [|done|by apply with_stop_reason_wf, (ww_row _ Hrw)].
    eapply (refines_withdrawal s _ id); [|exact Rt|done..]. rewrite Erow. apply rtc_once, WM_annotate.
Qed.

(** ** Funding *)

Lemma attempts_refine s s' attempts :
  AbstractStep sha256 s0 op (abstract s) (set_attempts (abstract s) (fst <$> attempts)) ->
  t_rows (in_attempts (st_intake s')) = attempts ->
  t_rows (dt_deposits (st_deposits s')) = t_rows (dt_deposits (st_deposits s)) ->
  st_withdrawals s' = st_withdrawals s -> st_payouts s' = st_payouts s -> refines sha256 s0 op s s'.
Proof.
  intros Hstep <- Hd Hw Hp. apply rtc_once.
  replace (abstract s') with (set_attempts (abstract s) (fst <$> t_rows (in_attempts (st_intake s'))));
    [done|]. unfold abstract, set_attempts. simpl. by rewrite Hd, Hw, Hp.
Qed.

Lemma abstract_attempt s id f due :
  t_rows (in_attempts (st_intake s)) !! id = Some (f, due) -> ab_attempts (abstract s) !! id = Some f.
Proof. intros H. simpl. by rewrite lookup_fmap, H. Qed.

Lemma prepare_refines s owner a quota cycles notifications o s' :
  store_wf s -> dfa_state a = Attempt_Prepared -> op_prepares sha256 op a ->
  prepare_deposit_funding_attempt encode s owner a quota cycles notifications = Ok (o, s') ->
  refines sha256 s0 op s s'.
Proof.
  intros Hwf Hs Hop H. unfold prepare_deposit_funding_attempt in H. cbv zeta in H.
  destruct (deposit_row s _) eqn:Hrow; [done|]. simpl in H.
  destruct (deposit_funding_attempt s _) eqn:Hatt.
  { destruct (_ && _) in H; [|done]. apply Ok_inj in H. by injection H as _ <-. }
  bind H as lifetime El. destruct (negb _) in H; [done|]. destruct (negb _) in H; [done|].
  bind H as admin Eadm. destruct (ads_deposits_paused admin); [done|].
  bind H as key Ekey. destruct (negb _) in H; [done|].
  bind H as adm Er. bind H as token Et. bind H as n En. bind H as required Erq.
  destruct (_ <? _) in H; [done|]. bind H as u1 E1. bind H as u2 E2. bind H as due Edue.
  bind H as ikey Eik. bind H as attempts Eat. bind H as nonterminal Ent.
  apply Ok_inj in H. injection H as _ <-. apply db_Ok in Eat.
  apply insert_rows in Eat as (_ & Hak & Har); [|apply (sw_intake _ Hwf)].
  eapply attempts_refine; [|exact Har|done..]. rewrite fmap_insert.
  apply AS_prepare; simpl; try done. by rewrite lookup_fmap, Hak.
Qed.

Lemma update_refines s previous next s' :
  store_wf s -> attempt_kept previous next -> AttemptMove (dfa_state previous) (dfa_state next) ->
  update_deposit_funding_attempt encode s previous next = Ok s' -> refines sha256 s0 op s s'.
Proof.
  intros Hwf Hk Hm H. unfold update_deposit_funding_attempt in H. destruct (_ || _); [done|].
  bind H as u1 E1. bind H as u2 E2. bind H as due' Edue. bind H as [] Eex. apply Ok_inj in H as <-.
  apply db_Ok, expect_attempt_Ok in Eex as [due Hrow]. pose proof (sw_intake _ Hwf) as Hi.
  eapply attempts_refine; [|apply update_rows; [apply Hi|by rewrite Hrow]|done..].
  rewrite fmap_insert. by eapply AS_attempt; [eapply abstract_attempt|..].
Qed.

Lemma remove_refines s a s' :
  store_wf s -> droppable (dfa_state a) = true ->
  remove_deposit_funding_attempt encode s (attempt_owner a) a = Ok s' -> refines sha256 s0 op s s'.
Proof.
  intros Hwf Hd H. unfold remove_deposit_funding_attempt in H. bind H as adm Er. bind H as u1 E1.
  bind H as u2 E2. bind H as key Ek. bind H as [] Eex. bind H as attempts Ea. bind H as nonterminal En.
  apply Ok_inj in H as <-. apply db_Ok, expect_attempt_Ok in Eex as [due Hrow]. apply db_Ok in Ea.
  apply delete_rows in Ea as (_ & _ & Har); [|apply (sw_intake _ Hwf)].
  eapply attempts_refine; [|exact Har|done..]. rewrite fmap_delete.
  by eapply AS_drop; [eapply abstract_attempt|].
Qed.

Lemma admit_refines s owner intent quota a record hold o s' :
  store_wf s -> DepositRecord_wf record -> deposit_enters (promotion_request a) record ->
  (forall b, DepositRecord_funding_ledger_block_index record = Some b -> op_funding op a b) ->
  admit_deposit encode s owner intent record (Some quota) (Some (a, hold)) = Ok (o, s') ->
  refines sha256 s0 op s s'.
Proof.
  intros Hwf Hrecord He Hop H. apply admit_promotion_Ok in H
    as [->|(Hnew & Hid & Htr & Hst & Hfresh & due & r & adm & counters & deposits & nonterminal
      & attempts & owners & sequences & Hrow & _ & _ & Ed & _ & Ea & _ & _ & _ & Et & Ei
      & _ & Hw & Hp & _)]; [done| |done..].
  apply insert_rows in Ed as (_ & _ & Rd); [|apply (sw_deposits _ Hwf)].
  apply delete_rows in Ea as (_ & _ & Ra); [|apply (sw_intake _ Hwf)].
  apply rtc_once. replace (abstract s') with
    (set_attempts (set_deposit (abstract s) (dr_id record) (admitted_deposit a record))
       (delete (dr_id record) (ab_attempts (abstract s)))).
  - by eapply AS_promote; [eapply abstract_attempt|..].
  - unfold abstract, set_attempts, set_deposit. simpl.
    by rewrite Et, Ei, Hw, Hp; simpl; rewrite Rd, Ra, fmap_delete.
Qed.

(** Every message moves the store as the abstract system allows. *)
Definition keeps_refines (s s' : Store) : Prop := store_wf s -> store_wf s' /\ refines sha256 s0 op s s'.

Lemma funding_keeps_refines :
  funding_keeps encode (op_prepares sha256 op) (op_funding op) keeps_refines.
Proof.
  destruct (funding_keeps_wf encode (op_prepares sha256 op) (op_funding op)) as [_ Hp Hu Hr Ha]. unfold keeps_wf in *.
  unfold keeps_refines. split.
  - split; [by intros s|]. intros s1 s2 s3 H1 H2 Hwf. destruct (H1 Hwf) as [Hwf2 ?].
    destruct (H2 Hwf2). split; [done|by etrans].
  - intros; split; [by eapply Hp|by eapply prepare_refines].
  - intros; split; [by eapply Hu|by eapply update_refines].
  - intros; split; [by eapply Hr|by eapply remove_refines].
  - intros; split; [by eapply Ha|by eapply admit_refines].
Qed.

Lemma kept_refines s s' : store_wf s -> keeps_refines s s' -> refines sha256 s0 op s s'.
Proof. intros Hwf H. by apply H. Qed.

Lemma message_refines {A} (m : Handler A) s :
  keeps keeps_refines m -> store_wf s -> refines sha256 s0 op s (message m s).1.
Proof.
  intros Hm Hwf. apply kept_refines; [done|]. apply keeps_message; [apply funding_keeps_refines|done].
Qed.

Lemma committed_refines {E} s (r : Result E Store) :
  (forall s', r = Ok s' -> refines sha256 s0 op s s') -> refines sha256 s0 op s (committed s r).
Proof. intros H. unfold committed. destruct r; [by apply H|done]. Qed.

End labelled.

Section messages.
Context (encode : StoredValue -> Result StorageError unit).
Context (transfer_identity_hash : LedgerTransferIdentity -> bytes).
Context (scan_key : ReconciliationTarget -> bytes).
Context (encode_event : AuditEvent AuditEventKind -> Result StorageError bytes).
Context (retention_encodes : AuditRetentionState -> bool).
Context (sha256 : bytes -> bytes) (test_deployment : bool).

Hypothesis sha256_length : forall b, length (sha256 b) = 32%nat.

(** Every message moves the store as the abstract system allows. *)
Lemma store_run_refines s op :
  store_wf s -> op_ranged op ->
  refines sha256 s op s (store_run encode transfer_identity_hash scan_key encode_event retention_encodes sha256
    test_deployment s op).
Proof.
  intros Hwf Hop. pose proof (funding_keeps_refines sha256 s op encode) as HR.
  destruct op; cbn [store_run op_ranged] in *;
    try (apply committed_refines; intros s' Hs');
    try (apply result_map_Ok in Hs' as ([] & Hs' & ->); simpl).
  - apply deposit_event_Ok in Hs' as (? & ? & ? & ? & _ & Hstep & Hw & Hs'); [|tauto..].
    eapply put_refines; [done..| |done]. by eapply DM_event.
  - apply deposit_signature_Ok in Hs' as (? & ? & ? & ? & _ & Hd & Hw & Hs'); [|done].
    eapply put_refines; [done..| |done]. by eapply DM_dispatch.
  - destruct Hop. by eapply withdrawal_event_refines.
  - by eapply new_withdrawal_refines.
  - by eapply fee_guard_trip_refines.
  - by eapply fee_guard_continue_refines.
  - by eapply fee_guard_clear_refines.
  - by eapply deposit_hold_refines.
  - by eapply withdrawal_hold_refines.
  - by eapply resolve_deposit_refines; [| |exact Hs'].
  - by eapply resolve_withdrawal_refines; [| |exact Hs'].
  - apply mutate_Ok in Hs' as (? & ? & ? & ? & ? & ? & _ & _ & ->). apply readministered_refines.
  - apply rotate_pause_Ok in Hs' as (? & ? & ? & ? & ->). apply readministered_refines.
  - apply rotate_fee_recipient_Ok in Hs' as [->|(? & ? & ? & ? & ->)];
      [done|apply readministered_refines].
  - apply complete_activation_Ok in Hs' as (? & ? & ? & ? & _ & _ & ->). apply readministered_refines.
  - by eapply request_payout_refines.
  - by eapply transition_payout_refines; [| |exact Hs'].
  - by eapply finish_job_refines.
  - apply release_expired_refines; [simpl; eauto|done].
  - apply (message_refines _ _ _ encode); [|done]. by eapply request_dispatch_keeps.
  - destruct Hop as [? [t Ht]]. apply (message_refines _ _ _ encode); [|done].
    by eapply request_complete_keeps.
  - apply kept_refines; [done|]. by apply (recover_start_keeps _ _ _ _ HR).
  - apply kept_refines; [done|]. apply (recover_finish_keeps _ _ _ _ HR); [done|]. by intros b ->.
Qed.
End messages.
