(* ===== verification/Scenario.v ===== *)
(** * A concrete history of the store

    One canister from its first store: deposits are opened, a deposit of two
    million units is funded, signed and minted with a fee of fifty thousand, a
    second one stops with an ambiguous funding call and its hold, a burn of half a
    million is released, and the fee recipient asks for a payout.  The theorems
    about histories are evaluated on it.  The functions of other crates are small
    concrete ones: every value can be encoded, and a digest is the reversed input,
    cut to 32 bytes. *)

From stdpp Require Import sorting.
From S2P Require Import Prelude KernelArith KernelPolicy Types Accounting External Authorization.
From S2P Require Import Withdrawal WithdrawalSafety Deposit DepositProtocol DepositInvariant.
From S2P Require Import Reconciliation Tables StorageTypes Config Admission Jobs Notifications EventLog.
From S2P Require Import Store Bundles Intake Funding Admin Examples DepositRows WithdrawalRows IntakeRows.
From S2P Require Import StoreInvariant StoreSafety StoreHolds StorePayouts StoreIntake StoreFunding StoreAdmin.
From S2P Require Import StoreHistory.

Definition sc_encode (_ : StoredValue) : Result StorageError unit := Ok tt.
Definition sc_identity_hash (_ : LedgerTransferIdentity) : bytes := zeros 32.
Definition sc_scan_key (_ : ReconciliationTarget) : bytes := [1].
Definition sc_encode_event (_ : AuditEvent AuditEventKind) : Result StorageError bytes := Ok [0].
Definition sc_retention_encodes (_ : AuditRetentionState) : bool := true.
Definition sc_sha256 (b : bytes) : bytes := take 32 (rev b ++ zeros 32).

Lemma sc_sha256_length b : length (sc_sha256 b) = 32%nat.
Proof. unfold sc_sha256. rewrite length_take, length_app. change (length (zeros 32)) with 32%nat. lia. Qed.

Definition sc_run : Store -> StoreOp -> Store :=
  store_run sc_encode sc_identity_hash sc_scan_key sc_encode_event sc_retention_encodes sc_sha256 true.
Definition sc_history : Store -> list StoreOp -> Store :=
  store_history sc_encode sc_identity_hash sc_scan_key sc_encode_event sc_retention_encodes sc_sha256
    true.

Definition sc_attestation : ActivationAttestation :=
  {| aa_chain_id := 84532; aa_finalized_block_number := 70; aa_finalized_block_hash := replicate 32 5;
     aa_observed_at_ns := 50; aa_bridge_signer := replicate 20 9;
     aa_bridge_runtime_sha256 := replicate 32 1; aa_deposits_paused := false;
     aa_withdrawals_paused := false; aa_bridge_timelock := replicate 20 8;
     aa_runtime_administrator := replicate 20 11; aa_timelock_admin := replicate 20 8;
     aa_timelock_proposer := replicate 20 12; aa_timelock_canceller := replicate 20 12;
     aa_timelock_executor := replicate 20 12; aa_timelock_runtime_code_hash := replicate 32 6;
     aa_bridge_approved_timelock_runtime_code_hash := replicate 32 6;
     aa_timelock_minimum_delay_seconds := 3600; aa_bsns_address := replicate 20 6;
     aa_bsns_runtime_sha256 := replicate 32 2; aa_bsns_name := str "Bridged KINIC";
     aa_bsns_symbol := str "BSNS"; aa_bsns_decimals := 8; aa_bsns_bridge := replicate 20 3;
     aa_base_service_fee := 50000 |}.

Definition sc_env (now : Z) : Environment :=
  {| env_config := Some staging_config; env_attestation := Some sc_attestation; env_self := [9];
     env_cycles := 1000000; env_notifications := Some 0; env_now := now |}.

Definition sc_args (sequence : Z) : DepositArgs :=
  {| da_owner_sequence := sequence; da_base_recipient := replicate 20 5; da_from_subaccount := None;
     da_gross_amount := 2000000; da_max_service_fee := 60000 |}.

Definition sc_id (sequence : Z) : bytes := rev (to_be_bytes 8 sequence) ++ [1] ++ replicate 23 3.

(** The attempt as the first request marks it. *)
Definition sc_attempt (sequence now : Z) : DepositFundingAttempt :=
  let id := sc_id sequence in
  {| dfa_intent :=
       {| di_deposit_id := id; di_caller := [1]; di_owner_sequence := sequence;
          di_base_recipient := replicate 20 5; di_from_subaccount := zeros 32;
          di_payload_hash := rev (to_be_bytes 16 60000) ++ rev (to_be_bytes 16 2000000) |};
     dfa_gross_amount := 2000000; dfa_max_service_fee := 60000;
     dfa_transfer :=
       {| lti_operation := PullDeposit; lti_created_at_time_ns := now; lti_memo := rev id;
          lti_amount := 2000000; lti_fee := 10000; lti_from := ex_user; lti_to := ex_bridge;
          lti_spender := Some ex_bridge |};
     dfa_state := Attempt_Dispatched now; dfa_created_at_ns := now; dfa_updated_at_ns := now;
     dfa_last_failure := None |}.

Definition sc_quote : DepositQuote := {| q_service_fee := 50000; q_net_amount := 1950000 |}.

Definition sc_authorization : MintAuthorizationRecord :=
  {| mar_authorization :=
       {| ma_deposit_id := sc_id 0; ma_recipient := replicate 20 5; ma_gross_amount := 2000000;
          ma_max_service_fee := 60000; ma_charged_service_fee := 50000;
          ma_deadline := 1800; ma_authorization_epoch := 1 |};
     mar_domain := MintAuthorizationDomain_bridge 84532 (replicate 20 3);
     mar_digest := replicate 32 4;
     mar_origin :=
       {| mao_finalized_block_number := 70; mao_finalized_block_hash := replicate 32 5;
          mao_finalized_block_timestamp := 890; mao_issued_at_timestamp := 900 |};
     mar_signature_dispatch_attempt := 0; mar_signature_dispatched := false;
     mar_signature := None |}.

Definition sc_finalization : MintFinalizationEvidence :=
  {| mfe_deposit_id := sc_id 0; mfe_recipient := replicate 20 5;
     mfe_authorization_digest := replicate 32 4; mfe_chain_id := 84532;
     mfe_verifying_contract := replicate 20 3; mfe_gross_amount := 2000000;
     mfe_charged_service_fee := 50000; mfe_minted_amount := 1950000;
     mfe_transaction_hash := replicate 32 6; mfe_log_index := 0; mfe_receipt_succeeded := true;
     mfe_receipt_block_number := 80; mfe_receipt_block_hash := replicate 32 11;
     mfe_finalized_block_number := 90; mfe_finalized_block_hash := replicate 32 12;
     mfe_rpc_request_digest := replicate 32 13; mfe_rpc_response_digest := replicate 32 14 |}.

Definition sc_release : TransferAttempt :=
  {| ta_attempt_no := 0;
     ta_identity := ex_transfer ReleaseWithdrawal 480000 10000 30 ex_bridge ex_user None |}.

Definition sc_settlement : Settlement :=
  {| s_amount_out := 480000; s_service_fee := 20000; s_ledger_fee := 10000 |}.

Definition sc_withdrawal : WithdrawalRecord :=
  {| wr_id := replicate 32 21; wr_base_requester := replicate 20 22; wr_owner := [1];
     wr_subaccount := zeros 32; wr_payload_hash := replicate 32 23; wr_amount := 500000;
     wr_max_service_fee := 30000; wr_charged_service_fee := 20000; wr_amount_out := 480000;
     wr_observed_at_ns := 6; wr_state := ReleasePending sc_release sc_settlement;
     wr_last_settlement_stop_reason := None |}.

Definition sc_ops : list StoreOp :=
  [Op_activate [10] 100 true;
   Op_request (sc_env 1000) [1] (sc_args 0);
   Op_request_complete (sc_env 1001) staging_config (sc_attempt 0 1000) (Outcome_Succeeded 7);
   Op_deposit_event (sc_id 0) (CommitAuthorization sc_quote sc_authorization) None None;
   Op_deposit_signature (sc_id 0) 1000;
   Op_deposit_event (sc_id 0) (AuthorizationSigned ex_signature 1001) None None;
   Op_deposit_event (sc_id 0) (MintReconciled sc_finalization) None None;
   Op_request (sc_env 2000) [1] (sc_args 1);
   Op_request_complete (sc_env 2001) staging_config (sc_attempt 1 2000) Outcome_Ambiguous;
   Op_new_withdrawal sc_withdrawal ExternalProgress_default [1] 2100 [] (replicate 32 31) 60 30;
   Op_withdrawal_event (replicate 32 21) (ReleaseSucceeded 8);
   Op_request_payout (sc_env 3000) [10] 20000].

Definition sc_store : Store := sc_history (initial_store (Some staging_config)) sc_ops.
