(* ===== verification/StoreTheorems.v ===== *)
(** * What holds of every reachable store

    The store of a canister is reached from the first one by the messages of
    [StoreHistory], in any order and with any arguments of their types.  The
    theorems here are about every such store. *)

From stdpp Require Import sorting.
From S2P Require Import Prelude KernelArith KernelPolicy Types Accounting External Authorization.
From S2P Require Import Withdrawal WithdrawalSafety Deposit DepositProtocol DepositInvariant.
From S2P Require Import Reconciliation Tables StorageTypes Config Admission Jobs Notifications EventLog.
From S2P Require Import Store Bundles Intake Funding Admin Examples DepositRows WithdrawalRows IntakeRows.
From S2P Require Import StoreInvariant StoreSafety StoreHolds StorePayouts StoreIntake StoreFunding StoreAdmin.
From S2P Require Import StoreHistory StoreRefinement Scenario.

(** ** The books of the canister *)

(** The balance the canister's records add up to: what it has recorded as pulled from
    depositors, less what it has recorded as sent. *)
Definition escrow (s : Store) : Z :=
  deposit_total funded_amount s - deposit_total refunded_amount s
  - withdrawal_total withdrawal_paid_out s - payout_total payout_spent s.

(** The supply on Base: what was minted, less what was burnt. *)
Definition base_supply (s : Store) : Z :=
  deposit_total minted_amount s - withdrawal_total wr_amount s.

(** What depositors and withdrawers are still owed. *)
Definition open_claims (s : Store) : Z :=
  deposit_total open_liability s + withdrawal_total withdrawal_open s.

Lemma store_books s :
  store_wf s -> escrow s = base_supply s + open_claims s + as_fee_reserve (st_accounting s).
Proof.
  intros Hwf. pose proof (fb_reserve _ (sw_fees _ Hwf)) as Hr.
  assert (deposit_total funded_amount s = deposit_total charged_fee s + deposit_total minted_amount s
    + deposit_total refunded_amount s + deposit_total open_liability s) as Hd.
  { unfold deposit_total. rewrite <- !map_sum_add. apply map_sum_ext. intros id sd Hsd.
    apply deposit_books, (dw_row _ (sw_deposits _ Hwf) _ _ Hsd). }
  assert (withdrawal_total wr_amount s = withdrawal_total withdrawal_open s
    + withdrawal_total withdrawal_paid_out s + withdrawal_total withdrawal_fee s) as Hw.
  { unfold withdrawal_total. rewrite <- !map_sum_add. apply map_sum_ext. intros id w Hrow.
    apply withdrawal_books, (ww_row _ (proj1 (sw_withdrawals _ Hwf)) _ _ Hrow). }
  unfold escrow, base_supply, open_claims. lia.
Qed.

Lemma open_liability_nonneg d : DepositRecord_wf d -> 0 <= open_liability d.
Proof.
  intros Hwf. pose proof (charged_fee_range _ Hwf). unfold open_liability. destruct (dr_state d); lia.
Qed.

Lemma open_claims_nonneg s : store_wf s -> 0 <= open_claims s.
Proof.
  intros Hwf. unfold open_claims.
  assert (0 <= deposit_total open_liability s).
  { apply map_sum_nonneg. intros id sd Hsd.
    apply open_liability_nonneg, (dw_row _ (sw_deposits _ Hwf) _ _ Hsd). }
  assert (0 <= withdrawal_total withdrawal_open s); [|lia].
  apply map_sum_nonneg. intros id w Hw.
  destruct (sww_record _ _ (ww_row _ (proj1 (sw_withdrawals _ Hwf)) _ _ Hw)) as [[] _].
  unfold withdrawal_open. destruct (wr_state w); ranges; lia.
Qed.

Lemma abstract_run_backed sha256 a a' :
  abstract_wf a -> rtc (AnyStep sha256) a a' -> fees_committed a <= fees_charged a ->
  fees_committed a' <= fees_charged a'.
Proof.
  intros Hwf H. revert Hwf. induction H as [a|a b a' (s0 & op & Hs) _ IH]; intros Hwf Hb; [done|].
  destruct (abstract_step_grows _ _ _ _ _ Hwf Hs) as [Hwf' _]. apply IH; [done|].
  by apply (abstract_step_backed sha256 s0 op a).
Qed.

Section reachable.
Context (encode : StoredValue -> Result StorageError unit).
Context (transfer_identity_hash : LedgerTransferIdentity -> bytes).
Context (scan_key : ReconciliationTarget -> bytes).
Context (encode_event : AuditEvent AuditEventKind -> Result StorageError bytes).
Context (retention_encodes : AuditRetentionState -> bool).
Context (sha256 : bytes -> bytes) (test_deployment : bool).

Abbreviation run := (store_run encode transfer_identity_hash scan_key encode_event
  retention_encodes sha256 test_deployment).
Abbreviation history := (store_history encode transfer_identity_hash scan_key encode_event
  retention_encodes sha256 test_deployment).

Hypothesis sha256_length : forall b, length (sha256 b) = 32%nat.

Lemma store_history_refines s ops :
  store_wf s -> Forall op_ranged ops -> rtc (AnyStep sha256) (abstract s) (abstract (history s ops)).
Proof.
  intros Hwf Hops. revert s Hwf. induction Hops as [|op ops Hop _ IH]; intros s Hwf; [done|].
  etrans; [|apply IH; by apply store_run_wf].
  eapply rtc_subrel; [|by apply (store_run_refines encode transfer_identity_hash scan_key encode_event
    retention_encodes sha256 test_deployment sha256_length s op)]. intros a b Hs. by exists s, op.
Qed.

Lemma reachable_wf config ops :
  Forall op_ranged ops -> store_wf (history (initial_store config) ops).
Proof. intros. apply store_history_wf; try done. apply initial_store_wf. Qed.

(** C11 (the store is consistent).  Whatever messages arrive, in whatever order, the
    store of a canister satisfies its invariant: every index agrees with the table
    it indexes, every counter and the fee accounts are the totals over the rows,
    the open holds are exactly those records wait for, and the funding reservations
    are exactly the attempts. *)
Theorem store_reachable config ops :
  Forall op_ranged ops -> store_wf (history (initial_store config) ops).
Proof. apply reachable_wf. Qed.

(** C5 (messages are protocol steps).  On a reachable store every message, whether
    it succeeds or fails half way, changes the deposits, the withdrawals, the
    payouts and the funding attempts only by steps of the abstract system: one
    record at a time, by a transition of its protocol, with the event the message
    carries; a withdrawal is added only as the message reports it, a hold of the store is
    resolved only as the message resolves it, and a deposit is recorded as funded only by
    the block the message reports for its attempt. *)
Theorem store_messages_refine config ops op :
  Forall op_ranged ops -> op_ranged op ->
  let s := history (initial_store config) ops in
  rtc (AbstractStep sha256 s op) (abstract s) (abstract (run s op)).
Proof. intros Hops Hop s. apply store_run_refines; try done. by apply reachable_wf. Qed.

(** C12 (nothing recorded is lost).  Between any two points of a history no deposit,
    withdrawal or payout disappears; a deposit keeps its request, its owner's
    sequence, its funding block, and every fee charged, and one that is minted,
    refunded or cancelled stays so; a withdrawal keeps its burn, and once paid its
    payment; a payout that succeeded or failed stays so. *)
Theorem store_rows_final config ops ops' :
  Forall op_ranged ops -> Forall op_ranged ops' ->
  let s := history (initial_store config) ops in
  let s' := history s ops' in
  (forall id sd, deposit_row s id = Some sd ->
     exists sd', deposit_row s' id = Some sd' /\ stored_grows sd sd') /\
  (forall id w, withdrawal_row s id = Some w ->
     exists w', withdrawal_row s' id = Some w' /\ withdrawal_grows w w') /\
  (forall id p, t_rows (st_payouts s) !! id = Some p ->
     exists p', t_rows (st_payouts s') !! id = Some p' /\ payout_grows p p').
Proof.
  intros Hops Hops' s s'. assert (store_wf s) as Hwf by (by apply reachable_wf).
  destruct (abstract_run_grows sha256 (abstract s) (abstract s')) as [_ [Hd Hw Hp]].
  - by apply store_abstract_wf.
  - by apply store_history_refines.
  - split_and!; [exact Hd|exact Hw|exact Hp].
Qed.


(** C24 (held releases).  The resolver compares the hold of a release with the
    attempt only when the release is not retried.  On a reachable store the
    comparison could not fail: the hold a withdrawal waits for is open and was
    opened for that withdrawal and the transfer of its attempt. *)
Theorem reachable_held_release config ops id w h a st :
  Forall op_ranged ops ->
  let s := history (initial_store config) ops in
  withdrawal_row s id = Some w -> wr_state w = ReconciliationHold h a st ->
  hold_row s h = Some (ReconciliationHoldRecord_open h (Ref_Withdrawal id) (ta_identity a)).
Proof.
  intros Hops s Hrow Hs. assert (store_wf s) as Hwf by (by apply reachable_wf).
  apply (sw_coupled _ Hwf). right. exists id, w. split; [done|].
  unfold withdrawal_waits_on. rewrite Hs. repeat f_equal.
  apply (ww_row _ (proj1 (sw_withdrawals _ Hwf)) _ _ Hrow).
Qed.
End reachable.

(** ** The theorems on the concrete history *)

Lemma sc_ops_ranged : Forall op_ranged sc_ops.
Proof. unfold sc_ops. repeat constructor; simpl; try done; try lia; eauto. Qed.

Lemma store_reachable_witness :
  store_wf sc_store /\ t_count (dt_deposits (st_deposits sc_store)) = 2 /\
  t_count (ht_open (st_holds sc_store)) = 1.
Proof.
  split; [|split; vm_compute; reflexivity].
  apply (store_reachable _ _ _ _ _ _ _ sc_sha256_length), sc_ops_ranged.
Defined.

Lemma store_messages_refine_witness :
  let op := Op_payout_transition 0 (PayoutTransition_Succeeded 9) None in
  rtc (AbstractStep sc_sha256 sc_store op) (abstract sc_store) (abstract (sc_run sc_store op)) /\
  fpr_state <$> t_rows (st_payouts (sc_run sc_store op)) !! 0 = Some (Payout_Succeeded 9).
Proof.
  split; [|vm_compute; reflexivity].
  apply (store_messages_refine _ _ _ _ _ _ _ sc_sha256_length); [apply sc_ops_ranged|exact I].
Defined.

Lemma store_rows_final_witness :
  let s := sc_history (initial_store (Some staging_config)) (take 7 sc_ops) in
  dr_state ∘ sd_record <$> deposit_row s (sc_id 0) = Some (Minted 7) /\
  exists sd', deposit_row (sc_history s (drop 7 sc_ops)) (sc_id 0) = Some sd' /\
    dr_state (sd_record sd') = Minted 7.
Proof.
  cbv zeta. unfold sc_history.
  destruct (store_rows_final sc_encode sc_identity_hash sc_scan_key sc_encode_event
    sc_retention_encodes sc_sha256 true sc_sha256_length (Some staging_config)
    (take 7 sc_ops) (drop 7 sc_ops) (Forall_take _ _ _ sc_ops_ranged)
    (Forall_drop _ _ _ sc_ops_ranged)) as [H _].
  match goal with |- ?x = _ /\ _ => assert (x = Some (Minted 7)) as E by (vm_compute; reflexivity) end.
  split; [exact E|]. revert H E. generalize (store_history sc_encode sc_identity_hash sc_scan_key
    sc_encode_event sc_retention_encodes sc_sha256 true (initial_store (Some staging_config))
    (take 7 sc_ops)). intros s H E.
  destruct (deposit_row s (sc_id 0)) as [sd|] eqn:Hsd; [|discriminate].
  destruct (H _ _ Hsd) as (sd' & Hsd' & _ & _ & Hg). exists sd'. split; [exact Hsd'|].
  injection E as E. rewrite (dg_terminal _ _ Hg); [exact E|]. unfold is_terminal_deposit. by rewrite E.
Defined.


(** The release of the burn left open by the ledger, on the second hold. *)
Definition sc_held_ops : list StoreOp :=
  take 10 sc_ops ++
  [Op_withdrawal_hold
     (WithdrawalRecord_with_state sc_withdrawal (ReconciliationHold 1 sc_release sc_settlement))
     (ReconciliationHoldRecord_open 1 (Ref_Withdrawal (replicate 32 21)) (ta_identity sc_release))].

Lemma reachable_held_release_witness :
  let s := sc_history (initial_store (Some staging_config)) sc_held_ops in
  hold_row s 1 =
    Some (ReconciliationHoldRecord_open 1 (Ref_Withdrawal (replicate 32 21)) (ta_identity sc_release)).
Proof.
  apply (reachable_held_release _ _ _ _ _ _ _ sc_sha256_length) with
    (w := WithdrawalRecord_with_state sc_withdrawal (ReconciliationHold 1 sc_release sc_settlement))
    (st := sc_settlement).
  - apply Forall_app. split; [apply Forall_take, sc_ops_ranged|]. repeat constructor.
  - vm_compute. reflexivity.
  - reflexivity.
Defined.
