(* ===== verification/System.v ===== *)
(** * The canister and Base together

    The canister's store and the contracts on Base, moving in turns: the canister by a
    message of [StoreHistory], Base by a transaction of [BaseHistory].  What the canister
    records of Base is what was there to be seen ([op_truthful]: the authorizations carry
    the digest of their own fields, mints and burns were logged, an expired authorization
    was unused in some earlier state), and a signature that recovers to a key of the
    canister was published by it ([unforged]).  Then no deposit is both minted and
    refunded, and what the ledger holds covers the supply on Base. *)

From S2P Require Import Prelude KernelArith KernelPolicy Types Accounting External Authorization.
From S2P Require Import Eip712 BaseToken BaseBridge BasePolicy BaseCalls BaseHistory BaseMints EvmDecode EvmTruth.
From S2P Require Import Withdrawal WithdrawalSafety Deposit DepositProtocol DepositInvariant.
From S2P Require Import Reconciliation HoldSafety Tables StorageTypes Config Admission Jobs Notifications EventLog.
From S2P Require Import Store Bundles Intake Funding Admin Examples DepositRows WithdrawalRows IntakeRows.
From S2P Require Import StoreInvariant StoreSafety StoreHolds StorePayouts StoreIntake StoreFunding StoreAdmin.
From S2P Require Import StoreHistory StoreRefinement Scenario StoreTheorems BaseTheorems.

(** ** Sums over the log and over the rows *)

Section sums.
Context {A K V : Type} `{Countable K}.
Implicit Types (f : A -> Z) (g : V -> Z) (l : list A) (m : gmap K V).

Lemma total_permutation f l l' : l ≡ₚ l' -> total f l = total f l'.
Proof. induction 1; simpl; lia. Qed.

(** Entries with distinct keys, each covered by the row of its key. *)
Lemma total_le_map_sum f (key : A -> option K) g l m :
  NoDup (omap key l) -> (forall k v, m !! k = Some v -> 0 <= g v) ->
  (forall x, x ∈ l -> match key x with
     | None => f x <= 0
     | Some k => exists v, m !! k = Some v /\ f x <= g v
     end) ->
  total f l <= map_sum g m.
Proof.
  revert m. induction l as [|x l IH]; intros m Hnd Hg Hl; simpl; [by apply map_sum_nonneg|].
  pose proof (Hl x (list_elem_of_here _ _)) as Hx. simpl in Hnd.
  destruct (key x) as [k|] eqn:Ek.
  - destruct Hx as (v & Hv & Hle). apply NoDup_cons in Hnd as [Hn Hnd].
    rewrite (map_sum_delete g m k v Hv).
    enough (total f l <= map_sum g (delete k m)) by lia. apply IH; [done|..].
    + intros k' v' Hv'. apply lookup_delete_Some in Hv' as [_ Hv']. by apply (Hg k').
    + intros y Hy. specialize (Hl y (list_elem_of_further _ _ _ Hy)).
      destruct (key y) as [k'|] eqn:Ey; [|done]. destruct Hl as (v' & Hv' & ?). exists v'.
      rewrite lookup_delete_ne; [done|]. intros ->. apply Hn, list_elem_of_omap. eauto.
  - enough (total f l <= map_sum g m) by lia. apply IH; [done..|]. intros y Hy. apply Hl. by constructor.
Qed.

(** Rows with distinct images, each covered by the entry of its image. *)
Lemma map_sum_le_total {J : Type} f (key : A -> option J) (h : K -> J) g l m :
  (forall x, x ∈ l -> 0 <= f x) ->
  (forall k k', is_Some (m !! k) -> is_Some (m !! k') -> h k = h k' -> k = k') ->
  (forall k v, m !! k = Some v -> exists x, x ∈ l /\ key x = Some (h k) /\ g v <= f x) ->
  map_sum g m <= total f l.
Proof.
  revert l. induction m as [|k v m Hk IH] using map_ind; intros l Hf Hinj Hm.
  { rewrite map_sum_empty. by apply total_nonneg. }
  rewrite map_sum_insert by done. destruct (Hm k v) as (x & Hx & Ex & Hle); [apply lookup_insert_eq|].
  apply elem_of_Permutation in Hx as [l' Hp]. rewrite (total_permutation f _ _ Hp). simpl.
  enough (map_sum g m <= total f l') by lia. apply IH.
  - intros y Hy. apply Hf. rewrite Hp. by constructor.
  - intros k1 k2 [v1 H1] [v2 H2]. apply Hinj; rewrite lookup_insert_ne by congruence; by eexists.
  - intros k' v' Hv'. assert (k <> k') as Hne by congruence.
    destruct (Hm k' v') as (y & Hy & Ey & ?); [by rewrite lookup_insert_ne|].
    exists y. split; [|done]. rewrite Hp in Hy. apply elem_of_cons in Hy as [->|Hy]; [|done].
    exfalso. apply Hne, Hinj; [by rewrite lookup_insert_eq|by rewrite lookup_insert_ne, Hv'|].
    congruence.
Qed.
End sums.

(** ** What a deposit keeps of its authorization *)

Definition payload (a : MintAuthorizationRecord) : MintAuthorization * MintAuthorizationDomain * bytes :=
  (mar_authorization a, mar_domain a, mar_digest a).

(** The authorization of a deposit is the one committed to, and once signed it is kept. *)
Record authorization_kept (committed : MintAuthorizationRecord -> Prop) (d d' : DepositRecord)
    : Prop := {
  ak_from a' : dr_mint_authorization d' = Some a' ->
      committed a' \/ exists a, dr_mint_authorization d = Some a /\ payload a = payload a';
  ak_signed a : dr_mint_authorization d = Some a -> is_some (mar_signature a) = true ->
      dr_mint_authorization d' = Some a;
}.

Lemma authorization_kept_refl P d d' :
  dr_mint_authorization d' = dr_mint_authorization d -> authorization_kept P d d'.
Proof. intros E. split; intros a Ha; rewrite E in *; eauto. Qed.

Lemma deposit_step_authorization e r res r' :
  DepositRecord_wf r -> DepositStep r e res r' ->
  authorization_kept (fun a => exists q, e = CommitAuthorization q a) r r'.
Proof.
  intros Hwf Hstep. pose proof (dwf_state r Hwf) as Hst. unfold DepositRecord_state_wf in Hst.
  deposit_steps Hstep; try (by apply authorization_kept_refl).
  - rewrite Hs in Hst. destruct Hst as [[_ Hn] _]. split; simpl; [|congruence].
    intros a' [= <-]. left. by exists q.
  - rewrite Hs in Hst. destruct Hst as (q' & a' & Hc & Hn & _).
    destruct (committed_unique _ _ _ _ _ Hc Hq Ha) as [-> ->]. split; simpl.
    + intros ? [= <-]. right. by exists a.
    + intros a' Ha' Hsig. rewrite Ha in Ha'. injection Ha' as <-. by rewrite Hn in Hsig.
Qed.

Lemma deposit_move_authorization s0 op d d' :
  DepositRecord_wf d -> DepositMove s0 op d d' ->
  authorization_kept (fun a => exists q, op_event op (CommitAuthorization q a)) d d'.
Proof.
  intros Hwf [e res d1 He H|hold r res d1 hold' _ H|t digest d1 H|reason].
  - destruct (deposit_step_authorization _ _ _ _ Hwf H) as [Hf Hs]. split; [|done].
    intros a' Ha'. destruct (Hf a' Ha') as [[q ->]|Hk]; [left; by exists q|by right].
  - apply authorization_kept_refl. by destruct H.
  - apply dispatch_mint_signature_Ok in H as [->|(a & a' & -> & Ha & (H1 & H2 & H3 & _) & Hn & _)];
      [by apply authorization_kept_refl|]. split; simpl.
    + intros ? [= <-]. right. exists a. split; [done|]. unfold payload. congruence.
    + intros a1 Ha1 Hs. rewrite Ha in Ha1. injection Ha1 as <-. by rewrite Hn in Hs.
  - by apply authorization_kept_refl.
Qed.

(** The evidence of a deposit came with an event. *)
Record evidence_kept (op : StoreOp) (d d' : DepositRecord) : Prop := {
  ek_minted ev : dr_mint_finalization_evidence d' = Some ev ->
      op_event op (MintReconciled ev) \/ dr_mint_finalization_evidence d = Some ev;
  ek_expired ev : dr_mint_expiry_evidence d' = Some ev ->
      (exists reason attempt, op_event op (StartRefund reason attempt (Some ev))) \/
      dr_mint_expiry_evidence d = Some ev;
}.

Lemma deposit_move_evidence s0 op d d' : DepositMove s0 op d d' -> evidence_kept op d d'.
Proof.
  intros [e res d1 He H|hold r res d1 hold' _ H|t digest d1 H|reason].
  - deposit_steps H; split; simpl; intros ev' Hev'; simplify_eq; eauto.
  - destruct H; split; simpl; auto.
  - apply dispatch_mint_signature_Ok in H as [->|(a & a' & -> & _)]; split; simpl; auto.
  - split; simpl; auto.
Qed.

Lemma deposit_enters_fresh request d :
  deposit_enters request d ->
  dr_mint_authorization d = None /\ dr_mint_finalization_evidence d = None /\
  dr_mint_expiry_evidence d = None.
Proof.
  intros (r0 & e & res & Hr0 & Hstep & He).
  assert (dr_mint_authorization r0 = None /\ dr_mint_finalization_evidence r0 = None /\
    dr_mint_expiry_evidence r0 = None) as (? & ? & ?).
  { unfold DepositRecord_accept in Hr0. repeat (case_match; simplify_eq/=). done. }
  deposit_steps Hstep; simpl in *; done.
Qed.

(** A deposit keeps its signed authorization. *)
Definition signed_kept (sd sd' : StoredDeposit) : Prop :=
  forall a, dr_mint_authorization (sd_record sd) = Some a -> is_some (mar_signature a) = true ->
    dr_mint_authorization (sd_record sd') = Some a.

#[export] Instance signed_kept_preorder : PreOrder signed_kept.
Proof. split; [by intros sd a|]. intros x y z Hxy Hyz a Ha Hs. auto. Qed.

Lemma abstract_step_signed sha256 s0 op a a' :
  abstract_wf a -> AbstractStep sha256 s0 op a a' -> rows_grow signed_kept (ab_deposits a) (ab_deposits a').
Proof.
  intros Hwf Hs. destruct Hs as [id sd d' Hsd Hm| | | | | | | |id f sd Hf Hn]; simpl; try done.
  - apply rows_grow_insert; [typeclasses eauto|]. intros sd0 Hsd0. rewrite Hsd in Hsd0. injection Hsd0 as <-.
    intros a0 Ha0 Hs0. simpl. eapply ak_signed; [|done..].
    apply (deposit_move_authorization s0 op); [|done]. by apply (aw_deposits _ Hwf id).
  - apply rows_grow_insert; [typeclasses eauto|]. intros sd0 Hsd0. congruence.
Qed.

Lemma abstract_steps_signed sha256 s0 op a a' :
  abstract_wf a -> rtc (AbstractStep sha256 s0 op) a a' -> rows_grow signed_kept (ab_deposits a) (ab_deposits a').
Proof.
  intros Hwf Hs. revert Hwf. induction Hs as [a|a b c Hab _ IH]; intros Hwf; [done|].
  destruct (abstract_step_grows _ _ _ _ _ Hwf Hab) as [Hwf' _].
  etrans; [by eapply abstract_step_signed|by apply IH].
Qed.

(** ** The system *)

Section system.
Context {T : Type} `{!ERC20 T} `{!ERC20Laws T} `{EIP712} `{!ECDSA}.
Context (encode : StoredValue -> Result StorageError unit).
Context (transfer_identity_hash : LedgerTransferIdentity -> bytes).
Context (scan_key : ReconciliationTarget -> bytes).
Context (encode_event : AuditEvent AuditEventKind -> Result StorageError bytes).
Context (retention_encodes : AuditRetentionState -> bool).
Context (sha256 : bytes -> bytes) (test_deployment : bool).
Context (chainid : Z) (this : address).
Context (genesis_time : Z) (genesis : World T) (canister_key : address -> Prop).
Implicit Types (w : World T) (s : Store) (d : DepositRecord).

Abbreviation run := (store_run encode transfer_identity_hash scan_key encode_event
  retention_encodes sha256 test_deployment).
Abbreviation history := (store_history encode transfer_identity_hash scan_key encode_event
  retention_encodes sha256 test_deployment).

Record System := { sy_store : Store; sy_now : Z; sy_world : World T }.

(** [w0] at [t0] is between the deployment and [w] at [now]. *)
Definition past (now : Z) w (t0 : Z) w0 : Prop :=
  evolves chainid genesis_time genesis t0 w0 /\ evolves chainid t0 w0 now w.

(** The authorization is for this bridge, and its digest is of its own fields. *)
Record bound (a : MintAuthorizationRecord) : Prop := {
  bd_domain : mar_domain a = MintAuthorizationDomain_bridge chainid this;
  bd_typed : MintAuthorization_typed (mar_authorization a);
  bd_digest : mar_digest a = MintDigest.digest (mar_domain a) (mar_authorization a);
}.

Definition mint_logged w (ev : MintFinalizationEvidence) : Prop :=
  exists l, l ∈ w_logs w /\ log_event l = minted_event ev.

Definition expiry_seen (now : Z) w (ev : MintExpiryEvidence) : Prop :=
  exists w0, past now w (mee_finalized_block_timestamp ev) w0 /\
    Bridge.isDepositProcessed (w_bridge w0) (mee_deposit_id ev) = mee_deposit_processed ev.

(** The burn the record is about, as the bridge announced it. *)
Definition burn_event (r : WithdrawalRecord) : BridgeEvent :=
  WithdrawalCommitted (be_value (wr_id r)) (wr_base_requester r) (wr_amount r) (wr_max_service_fee r)
    (wr_charged_service_fee r) (wr_amount_out r) (wr_owner r) (wr_subaccount r).

Record burn_logged w (r : WithdrawalRecord) : Prop := {
  bl_id : length (wr_id r) = 32%nat /\ Forall is_byte (wr_id r);
  bl_logged : exists l, l ∈ w_logs w /\ log_event l = burn_event r;
}.

Definition event_true (now : Z) w (e : DepositEvent) : Prop :=
  match e with
  | CommitAuthorization _ a => bound a
  | MintReconciled ev => mint_logged w ev
  | StartRefund _ _ (Some ev) => expiry_seen now w ev
  | _ => True
  end.

(** What the canister acts on was there to be seen. *)
Definition op_truthful (now : Z) w (op : StoreOp) : Prop :=
  (forall e, op_event op e -> event_true now w e) /\
  (forall r, op_withdrawal op r -> burn_logged w r).

(** A row of the store carries the signed authorization. *)
Definition published s (a : MintAuthorizationRecord) : Prop :=
  exists id sd, deposit_row s id = Some sd /\ dr_mint_authorization (sd_record sd) = Some a /\
    is_some (mar_signature a) = true.

(** Calldata that a key of the canister signed has the digest of an authorization the
    canister has published, and the two are not a hash collision. *)
Definition unforged s (tx : Transaction) : Prop :=
  forall sender c signature signer,
    (sender, To_bridge (Call_mintDepositWithAuthorization c signature)) ∈ tx_calls tx ->
    canister_key signer ->
    ECDSA_tryRecoverCalldata (mintAuthorizationDigest chainid this c) signature
      = (signer, RecoverError_NoError) ->
    exists a, published s a /\ mar_digest a = mintAuthorizationDigest chainid this c /\
      ~ collision (contract_input chainid this (calldata_of (mar_authorization a)))
          (contract_input chainid this c) /\
      ~ collision (contract_struct (calldata_of (mar_authorization a))) (contract_struct c).

Inductive system_step (x : System) : System -> Prop :=
| Sys_canister op :
    op_ranged op -> op_truthful (sy_now x) (sy_world x) op ->
    system_step x {| sy_store := run (sy_store x) op; sy_now := sy_now x; sy_world := sy_world x |}
| Sys_base tx :
    sy_now x <= tx_timestamp tx -> tx_admissible this tx ->
    rotates_within canister_key (tx_calls tx) -> unforged (sy_store x) tx ->
    system_step x {| sy_store := sy_store x; sy_now := tx_timestamp tx;
                     sy_world := base_tx chainid (sy_world x) tx |}.

Definition system_start (config : option BridgeInitArgs) : System :=
  {| sy_store := initial_store config; sy_now := genesis_time; sy_world := genesis |}.

Definition system_reaches (config : option BridgeInitArgs) (x : System) : Prop :=
  rtc system_step (system_start config) x.

(** ** The invariant *)

Record deposit_true (now : Z) w d : Prop := {
  dt_bound a : dr_mint_authorization d = Some a -> bound a;
  dt_minted ev : dr_mint_finalization_evidence d = Some ev -> mint_logged w ev;
  dt_expired ev : dr_mint_expiry_evidence d = Some ev -> expiry_seen now w ev;
}.

Record abstract_true (now : Z) w (a : Abstract) : Prop := {
  at_deposits id sd : ab_deposits a !! id = Some sd -> deposit_true now w (sd_record sd);
  at_withdrawals id r : ab_withdrawals a !! id = Some r -> burn_logged w r;
}.

(** The event is the mint of this authorization, before its deadline. *)
Record mint_of (a : MintAuthorizationRecord) (l : Log) : Prop := {
  mo_event : let m := mar_authorization a in
      log_event l = DepositMinted (ma_deposit_id m) (ma_recipient m) (mar_digest a) (ma_gross_amount m)
        (ma_charged_service_fee m) (ma_gross_amount m - ma_charged_service_fee m);
  mo_deadline : log_timestamp l <= ma_deadline (mar_authorization a);
}.

Definition mints_authorized s (logs : list Log) : Prop :=
  forall l, l ∈ logs -> minted_id l <> None -> exists a, published s a /\ mint_of a l.

Record system_wf (x : System) : Prop := {
  sx_store : store_wf (sy_store x);
  sx_world : world_wf (sy_now x) (sy_world x);
  sx_past : evolves chainid genesis_time genesis (sy_now x) (sy_world x);
  sx_signer : canister_key (signer_of (sy_world x));
  sx_true : abstract_true (sy_now x) (sy_world x) (abstract (sy_store x));
  sx_mints : mints_authorized (sy_store x) (w_logs (sy_world x));
}.

(** ** The canister's steps *)

Lemma bound_payload a a' : payload a = payload a' -> bound a -> bound a'.
Proof. unfold payload. intros [= E1 E2 E3] []. split; congruence. Qed.

Lemma deposit_move_true now w s0 op d d' :
  DepositRecord_wf d -> op_truthful now w op -> deposit_true now w d -> DepositMove s0 op d d' ->
  deposit_true now w d'.
Proof.
  intros Hwf [Htrue _] [Hb Hm Hx] Hmove.
  pose proof (deposit_move_authorization _ _ _ _ Hwf Hmove) as [Hfrom _].
  pose proof (deposit_move_evidence _ _ _ _ Hmove) as [Hfm Hfx]. split.
  - intros a Ha. destruct (Hfrom a Ha) as [[q Hq]|(a0 & Ha0 & Hp)]; [by apply (Htrue _ Hq)|].
    apply (bound_payload a0); auto.
  - intros ev Hev. destruct (Hfm ev Hev) as [He|He]; [by apply (Htrue _ He)|auto].
  - intros ev Hev. destruct (Hfx ev Hev) as [(reason & attempt & He)|He]; [by apply (Htrue _ He)|auto].
Qed.

Lemma burn_logged_grows w r r' : withdrawal_grows r r' -> burn_logged w r -> burn_logged w r'.
Proof.
  intros [(Ei & Er & Eo & Es & _ & Ea & Em & Ec & Eout) _ _] [Hid Hl]. split; [by rewrite Ei|].
  destruct Hl as (l & ? & E). exists l. split; [done|]. rewrite E. unfold burn_event. congruence.
Qed.

Lemma abstract_step_true now w s0 op a a' :
  abstract_wf a -> op_truthful now w op -> abstract_true now w a -> AbstractStep sha256 s0 op a a' ->
  abstract_true now w a'.
Proof.
  intros Hwf Htrue [Hd Hw] Hs.
  destruct Hs as [id sd d' Hsd Hm|r Hop Hn _|id r r' Hr Hm| | | | | |id f sd Hf Hn _ _ _ He _];
    split; simpl; try done.
  - intros id' sd'. rewrite lookup_insert_Some. intros [[<- <-]|[_ ?]]; [|eauto]. simpl.
    eapply deposit_move_true; [|done|by eapply Hd|done]. by apply (aw_deposits _ Hwf id).
  - intros id' r'. rewrite lookup_insert_Some. intros [[<- <-]|[_ ?]]; [|eauto].
    by apply (proj2 Htrue).
  - intros id' r1. rewrite lookup_insert_Some. intros [[<- <-]|[_ ?]]; [|eauto].
    eapply burn_logged_grows; [|by eapply Hw].
    by apply (withdrawal_moves_grow s0 op r r' (aw_withdrawals _ Hwf id r Hr) Hm).
  - intros id' sd'. rewrite lookup_insert_Some. intros [[<- <-]|[_ ?]]; [|eauto].
    apply deposit_enters_fresh in He as (E1 & E2 & E3). split; congruence.
Qed.

Lemma abstract_steps_true now w s0 op a a' :
  abstract_wf a -> op_truthful now w op -> abstract_true now w a -> rtc (AbstractStep sha256 s0 op) a a' ->
  abstract_true now w a'.
Proof.
  intros Hwf Htrue Ha Hs. revert Hwf Ha. induction Hs as [a|a b c Hab _ IH]; intros Hwf Ha; [done|].
  destruct (abstract_step_grows _ _ _ _ _ Hwf Hab) as [Hwf' _].
  apply IH; [done|]. by apply (abstract_step_true now w s0 op a).
Qed.

Hypothesis sha256_length : forall b, length (sha256 b) = 32%nat.

Lemma canister_step_wf x op :
  op_ranged op -> op_truthful (sy_now x) (sy_world x) op -> system_wf x ->
  system_wf {| sy_store := run (sy_store x) op; sy_now := sy_now x; sy_world := sy_world x |}.
Proof.
  intros Hop Htrue [Hs Hw Hp Hk Ht Hm].
  pose proof (store_abstract_wf _ Hs) as Ha.
  assert (rtc (AbstractStep sha256 (sy_store x) op) (abstract (sy_store x)) (abstract (run (sy_store x) op))) as Hr
    by (by apply store_run_refines).
  split; simpl; try done.
  - by apply store_run_wf.
  - by eapply abstract_steps_true.
  - intros l Hl Hid. destruct (Hm l Hl Hid) as (a & (id & sd & Hsd & Hau & Hsig) & Hmo).
    destruct (abstract_steps_signed _ _ _ _ _ Ha Hr id sd Hsd) as (sd' & Hsd' & Hkept).
    exists a. split; [|done]. exists id, sd'. auto.
Qed.

(** ** Base's steps *)

Lemma abstract_true_later now w now' w' a :
  evolves chainid now w now' w' -> abstract_true now w a -> abstract_true now' w' a.
Proof.
  intros He [Hd Hw]. split.
  - intros id sd Hsd. destruct (Hd id sd Hsd) as [Hb Hm Hx]. split; [done|..].
    + intros ev Hev. destruct (Hm ev Hev) as (l & Hl & E). exists l. split; [|done].
      by eapply evolves_keeps_log.
    + intros ev Hev. destruct (Hx ev Hev) as (w0 & [? ?] & E). exists w0. split; [|done].
      split; [done|]. by eapply evolves_trans.
  - intros id r Hr. destruct (Hw id r Hr) as [Hid (l & Hl & E)]. split; [done|].
    exists l. split; [|done]. by eapply evolves_keeps_log.
Qed.

Hypothesis keccak_length : forall b, length (keccak256 b) = 32%nat.
Hypothesis chainid_u64 : is_u64 chainid.

(** A mint the canister's key signed is the mint of a published authorization. *)
Lemma mint_source_authorized s signer sender c signature l tx :
  (forall id sd a, deposit_row s id = Some sd -> dr_mint_authorization (sd_record sd) = Some a -> bound a) ->
  unforged s tx -> canister_key signer ->
  (sender, To_bridge (Call_mintDepositWithAuthorization c signature)) ∈ tx_calls tx ->
  mint_source chainid this signer c signature l -> exists a, published s a /\ mint_of a l.
Proof.
  intros Hb Hu Hk Hin [Hty Hsig Hdl Hev].
  destruct (Hu _ _ _ _ Hin Hk Hsig) as (a & Hpub & Hdig & Hc1 & Hc2).
  exists a. split; [done|]. destruct Hpub as (id & sd & Hsd & Ha & _).
  destruct (Hb _ _ _ Hsd Ha) as [Hdom Htya Hd].
  assert (is_u256 chainid) by (by apply u128_u256, u64_u128).
  destruct (contract_digest_binds keccak_length chainid this (calldata_of (mar_authorization a)) chainid this c)
    as [(_ & _ & <-)|[?|[[Hne _]|?]]]; try done.
  - by apply calldata_of_typed.
  - by rewrite <- Hdig, Hd, Hdom, digest_contract, mintAuthorizationDigest_input.
  - split; [|done]. by rewrite Hev, Hdig.
Qed.

Lemma base_step_wf x tx :
  Bridge.this (Bridge.immutables (w_bridge genesis)) = this ->
  sy_now x <= tx_timestamp tx -> tx_admissible this tx ->
  rotates_within canister_key (tx_calls tx) -> unforged (sy_store x) tx -> system_wf x ->
  system_wf {| sy_store := sy_store x; sy_now := tx_timestamp tx;
               sy_world := base_tx chainid (sy_world x) tx |}.
Proof.
  intros Hthis Hle Htx Hrot Hu [Hs Hw Hp Hk Ht Hm].
  assert (Bridge.this (Bridge.immutables (w_bridge (sy_world x))) = this) as Hi
    by (by rewrite (evolves_immutables _ _ _ _ _ Hp)).
  assert (evolves chainid (sy_now x) (sy_world x) (tx_timestamp tx) (base_tx chainid (sy_world x) tx))
    as He by (apply base_tx_evolves; [done..|by rewrite Hi]).
  destruct (base_tx_mints chainid canister_key (sy_now x) (sy_world x) tx) as [Hk' (ls & Hls & Hml)];
    [done|done|by rewrite Hi|done|done|].
  split; simpl; try done.
  - by eapply evolves_wf.
  - by eapply evolves_trans.
  - by eapply abstract_true_later.
  - rewrite Hls. intros l [Hl|Hl]%elem_of_app Hid; [by apply Hm|].
    destruct (Hml l Hl Hid) as (signer & sender & c & signature & Hkey & Hin & Hsrc).
    eapply mint_source_authorized; [|done..|by rewrite <- Hi].
    intros id sd a Hsd. by apply (at_deposits _ _ _ Ht id sd).
Qed.

(** ** What the invariant gives *)

Definition refund_started d : bool :=
  match dr_state d with
  | RefundPending _ _ _ | RefundReconciliationHold _ _ _ _ | Refunded _ _ _ _ _ => true
  | _ => false
  end.

(** What is owed for a deposit whose refund was not started. *)
Definition unrefunding d : Z := if refund_started d then 0 else open_liability d.

Lemma unrefunding_bounds d : DepositRecord_wf d -> 0 <= unrefunding d <= open_liability d.
Proof. intros Hwf%open_liability_nonneg. unfold unrefunding. destruct (refund_started d); lia. Qed.

(** The row of a minted deposit carries the authorization that was used. *)
Lemma minted_row x l id :
  system_wf x -> l ∈ w_logs (sy_world x) -> minted_id l = Some id ->
  exists sd q a, deposit_row (sy_store x) id = Some sd /\ DepositProtocol.committed (sd_record sd) q a /\
    is_some (mar_signature a) = true /\ mint_of a l.
Proof.
  intros Hwf Hl Hid. destruct (sx_mints _ Hwf l Hl) as (a & (id' & sd & Hsd & Ha & Hsig) & Hmo).
  { by rewrite Hid. }
  pose proof (dw_row _ (sw_deposits _ (sx_store _ Hwf)) _ _ Hsd) as Hrow.
  destruct (wf_unquoted_or_committed _ (sdw_record _ _ Hrow)) as [[_ ?]|(q & a' & Hc)]; [congruence|].
  destruct (Hc) as (_ & Ha' & _ & Hb & _). rewrite Ha in Ha'. injection Ha' as <-.
  assert (id' = id) as ->.
  { unfold minted_id in Hid. rewrite (mo_event _ _ Hmo) in Hid. injection Hid as <-.
    by rewrite (binds_id _ _ _ Hb), (sdw_id _ _ Hrow). }
  by exists sd, q, a.
Qed.

(** An authorization that expired unused was not used. *)
Lemma expired_unused x ev a l :
  world_wf genesis_time genesis -> expiry_seen (sy_now x) (sy_world x) ev -> expires a ev ->
  l ∈ w_logs (sy_world x) -> ~ mint_of a l.
Proof.
  intros Hg (w0 & [Hev1 Hev2] & Hp) Hx Hl [He Hd]. rewrite (exp_unprocessed _ _ Hx) in Hp.
  pose proof (evolves_wf _ _ _ _ _ Hev1 Hg) as Hwf0.
  destruct (evolves_logs _ _ _ _ _ Hev2) as (ls & Hls & Hts). rewrite Hls in Hl.
  apply elem_of_app in Hl as [Hl|Hl].
  - enough (Bridge.isDepositProcessed (w_bridge w0) (mee_deposit_id ev) = true) by congruence.
    apply (ww_processed _ _ Hwf0), list_elem_of_omap. exists l. split; [done|].
    unfold minted_id. by rewrite He, (exp_id _ _ Hx).
  - rewrite Forall_forall in Hts. specialize (Hts l Hl). pose proof (exp_deadline _ _ Hx). lia.
Qed.

Lemma refunding_not_minted x id sd l :
  world_wf genesis_time genesis -> system_wf x -> deposit_row (sy_store x) id = Some sd ->
  refund_started (sd_record sd) = true -> l ∈ w_logs (sy_world x) -> minted_id l <> Some id.
Proof.
  intros Hg Hwf Hsd Hst Hl Hid.
  destruct (minted_row x l id Hwf Hl Hid) as (sd' & q & a & Hsd' & (_ & Ha & _) & Hsig & Hmo).
  rewrite Hsd in Hsd'. injection Hsd' as <-.
  pose proof (sdw_record _ _ (dw_row _ (sw_deposits _ (sx_store _ Hwf)) _ _ Hsd)) as Hrow.
  assert (expiry_settled (sd_record sd) (dr_mint_expiry_evidence (sd_record sd))) as Hx.
  { pose proof (dwf_state _ Hrow) as Hs. unfold DepositRecord_state_wf in Hs. unfold refund_started in Hst.
    destruct (dr_state _); try done; by destruct Hs as (_ & _ & ? & _). }
  destruct (dr_mint_expiry_evidence (sd_record sd)) as [ev|] eqn:Eev; simpl in Hx.
  - destruct Hx as (a' & Ha' & _ & Hx). rewrite Ha in Ha'. injection Ha' as <-.
    apply (expired_unused x ev a l); try done.
    by apply (dt_expired _ _ _ (at_deposits _ _ _ (sx_true _ Hwf) id sd Hsd)).
  - unfold DepositRecord_signed_authorization in Hx. rewrite Ha in Hx. simpl in Hx. congruence.
Qed.

(** What was minted for a deposit is still in the books of the canister. *)
Lemma minted_covered x l id :
  world_wf genesis_time genesis -> system_wf x -> l ∈ w_logs (sy_world x) -> minted_id l = Some id ->
  exists sd, deposit_row (sy_store x) id = Some sd /\
    log_minted l <= minted_amount (sd_record sd) + unrefunding (sd_record sd).
Proof.
  intros Hg Hwf Hl Hid.
  destruct (minted_row x l id Hwf Hl Hid) as (sd & q & a & Hsd & Hc & Hsig & Hmo).
  exists sd. split; [done|].
  assert (refund_started (sd_record sd) = false) as Hst.
  { destruct (refund_started _) eqn:E; [|done]. by destruct (refunding_not_minted x id sd l). }
  pose proof (sdw_record _ _ (dw_row _ (sw_deposits _ (sx_store _ Hwf)) _ _ Hsd)) as Hrow.
  pose proof (dwf_state _ Hrow) as Hs. unfold DepositRecord_state_wf, unquoted in Hs.
  destruct Hc as (Hq & Ha & _ & Hb & _).
  unfold log_minted. rewrite (mo_event _ _ Hmo), (binds_gross _ _ _ Hb), (binds_fee _ _ _ Hb).
  unfold unrefunding, minted_amount, open_liability, charged_fee, DepositRecord_signed_authorization,
    refund_started in *.
  rewrite Ha, Hq in *. simpl in *. rewrite Hsig.
  destruct (dr_state (sd_record sd)); try done; try lia; destruct Hs as [[? ?] ?]; congruence.
Qed.

Lemma mints_covered x :
  world_wf genesis_time genesis -> system_wf x ->
  total log_minted (w_logs (sy_world x))
  <= deposit_total minted_amount (sy_store x) + deposit_total unrefunding (sy_store x).
Proof.
  intros Hg Hwf. unfold deposit_total. rewrite <- map_sum_add.
  apply (total_le_map_sum log_minted minted_id).
  - apply (ww_once _ _ (sx_world _ Hwf)).
  - intros id sd Hsd. pose proof (dw_row _ (sw_deposits _ (sx_store _ Hwf)) _ _ Hsd) as [_ _ _ Hrow].
    pose proof (unrefunding_bounds _ Hrow). pose proof (charged_fee_range _ Hrow).
    enough (0 <= minted_amount (sd_record sd)) by lia. unfold minted_amount. case_match; lia.
  - intros l Hl. destruct (minted_id l) as [id|] eqn:Hid; [by apply minted_covered|].
    unfold minted_id, log_minted in *. by destruct (log_event l).
Qed.

Lemma burns_recorded x :
  system_wf x -> withdrawal_total wr_amount (sy_store x) <= total log_burnt (w_logs (sy_world x)).
Proof.
  intros Hwf. pose proof (ww_requests _ _ (sx_world _ Hwf)) as Hr.
  pose proof (fun id r => at_withdrawals _ _ _ (sx_true _ Hwf) id r) as Hb.
  pose proof (ww_row _ (proj1 (sw_withdrawals _ (sx_store _ Hwf)))) as Hrow.
  apply (map_sum_le_total log_burnt withdrawal_id be_value).
  - intros l Hl. unfold log_burnt. destruct (log_event l) eqn:E; try done.
    edestruct (rw_logged _ _ Hr l) as (r & _ & Hc & _ & ? & _); [done|unfold withdrawal_id; by rewrite E|].
    rewrite E in Hc. injection Hc. lia.
  - intros id id' [r Hr1] [r' Hr2] E. pose proof (Hb id r Hr1) as [[Hl Hby] _].
    pose proof (Hb id' r' Hr2) as [[Hl' Hby'] _].
    rewrite (sww_id _ _ (Hrow _ _ Hr1)) in *. rewrite (sww_id _ _ (Hrow _ _ Hr2)) in *.
    apply be_value_inj; [done..|lia|done].
  - intros id r Hr1. destruct (Hb id r Hr1) as [_ (l & Hl & E)]. exists l. split; [done|].
    unfold withdrawal_id, log_burnt. rewrite E. simpl. rewrite (sww_id _ _ (Hrow _ _ Hr1)). done.
Qed.

(** ** Every reachable state *)

Record bridge_deployed (ctx : CallContext) (staging : bool) (token : address) (c : TimelockCandidate)
    (args : ConstructorArgs) : Prop := {
  bd_deployed : deployed ctx staging this token c args genesis;
  bd_time : block_timestamp ctx = genesis_time;
  bd_signer : canister_key (signer_of genesis);
}.

Lemma bridge_new_logs ctx staging token c args w :
  bridge_new ctx staging this token c args = Ok w -> w_logs w = [].
Proof.
  unfold bridge_new. intros Hn. do 6 (let E := fresh "E" in bind Hn as [] E). by apply Ok_inj in Hn as <-.
Qed.

Section reachable.
Context (ctx : CallContext) (staging : bool) (token : address) (c : TimelockCandidate)
  (args : ConstructorArgs).
Hypothesis Hdep : bridge_deployed ctx staging token c args.

Lemma system_start_wf config : system_wf (system_start config).
Proof.
  destruct Hdep as [[Hty Hts Hn] Ht Hk]. split; simpl; try done.
  - apply initial_store_wf.
  - rewrite <- Ht. by eapply bridge_new_wf.
  - constructor.
  - rewrite (bridge_new_logs _ _ _ _ _ _ Hn). by intros l ?%elem_of_nil.
Qed.

Lemma system_reaches_wf config x : system_reaches config x -> system_wf x.
Proof.
  intros Hr. assert (Bridge.this (Bridge.immutables (w_bridge genesis)) = this) as Hthis
    by (destruct Hdep as [[_ _ Hn] _ _]; by eapply bridge_new_this).
  assert (system_wf (system_start config)) as Hwf by apply system_start_wf. revert Hwf.
  induction Hr as [x|x y z Hst _ IH]; intros Hwf; [done|]. apply IH.
  destruct Hst; [by apply canister_step_wf|by apply base_step_wf].
Qed.
Lemma genesis_wf : world_wf genesis_time genesis.
Proof. destruct Hdep as [[Hty Hts Hn] <- _]. by eapply bridge_new_wf. Qed.

(** C2 (minted or refunded, never both).  However messages and transactions interleave,
    a deposit whose refund the canister has started, settled or left with the ledger has
    no mint event on Base, in this state and hence in every later one: an authorization
    that was seen unused after its deadline can no longer be used. *)
Theorem system_mint_or_refund config x id sd :
  system_reaches config x -> deposit_row (sy_store x) id = Some sd ->
  refund_started (sd_record sd) = true ->
  (id ∉ minted_ids (w_logs (sy_world x))) /\
  Bridge.isDepositProcessed (w_bridge (sy_world x)) id = false.
Proof.
  intros Hr Hsd Hst. apply system_reaches_wf in Hr.
  assert (id ∉ minted_ids (w_logs (sy_world x))) as Hn.
  { intros (l & Hl & Hid)%list_elem_of_omap. revert Hid.
    apply (refunding_not_minted x id sd l genesis_wf Hr Hsd Hst Hl). }
  split; [done|]. apply not_true_iff_false. intros Hp. apply Hn, (ww_processed _ _ (sx_world _ Hr)), Hp.
Qed.

(** C3 (mints are deposits).  Every mint event on Base is the mint of a deposit the
    canister has in its books: of the recipient, the gross amount and the fee of an
    authorization it signed for that deposit, not after its deadline; there is one such
    event per deposit; and a deposit the canister counts as minted has its event. *)
Theorem system_mints_agree config x :
  system_reaches config x ->
  let logs := w_logs (sy_world x) in
  NoDup (minted_ids logs) /\
  (forall l id, l ∈ logs -> minted_id l = Some id ->
     exists sd q a, deposit_row (sy_store x) id = Some sd /\
       DepositProtocol.committed (sd_record sd) q a /\ is_some (mar_signature a) = true /\ mint_of a l) /\
  (forall id sd f, deposit_row (sy_store x) id = Some sd -> dr_state (sd_record sd) = Minted f ->
     id ∈ minted_ids logs).
Proof.
  intros Hr logs. apply system_reaches_wf in Hr. split; [apply (ww_once _ _ (sx_world _ Hr))|].
  split; [intros l id; by apply minted_row|]. intros id sd f Hsd Hs.
  pose proof (dw_row _ (sw_deposits _ (sx_store _ Hr)) _ _ Hsd) as Hrow.
  pose proof (dwf_state _ (sdw_record _ _ Hrow)) as Hst. unfold DepositRecord_state_wf in Hst.
  rewrite Hs in Hst. destruct Hst as (q & a & ev & (_ & _ & _ & Hb & _) & _ & Hev & _ & Hfin).
  destruct (dt_minted _ _ _ (at_deposits _ _ _ (sx_true _ Hr) id sd Hsd) ev Hev) as (l & Hl & E).
  apply list_elem_of_omap. exists l. split; [done|]. unfold minted_id. rewrite E. simpl.
  by rewrite (fin_id _ _ Hfin), (binds_id _ _ _ Hb), (sdw_id _ _ Hrow).
Qed.

(** What was burnt on Base and is not yet in the canister's books. *)
Definition unrecorded_burns (x : System) : Z :=
  total log_burnt (w_logs (sy_world x)) - withdrawal_total wr_amount (sy_store x).

End reachable.

(** A run of messages is a run of steps. *)
Lemma system_messages x ops :
  Forall op_ranged ops -> Forall (op_truthful (sy_now x) (sy_world x)) ops ->
  rtc system_step x {| sy_store := history (sy_store x) ops; sy_now := sy_now x; sy_world := sy_world x |}.
Proof.
  intros Hops. revert x. induction Hops as [|op ops Hop _ IH]; intros x Ht; [by destruct x|].
  apply Forall_cons in Ht as [Ht Hts]. eapply rtc_l; [by apply Sys_canister|].
  exact (IH (Build_System (run (sy_store x) op) (sy_now x) (sy_world x)) Hts).
Qed.

End system.

(** ** A run of the two together

    The bridge is deployed and activated; two deposits are funded and signed; the first
    is minted and reconciled, and part of it burnt, reported and recorded; the second is
    left until its deadline has passed and its refund is started. *)

#[local] Existing Instance sample_Keccak.
#[local] Existing Instance sample_EIP712.
#[local] Existing Instance sample_ECDSA.

Definition rn_args : ConstructorArgs :=
  {| ca_bridgeSigner := demo_address 10; ca_runtimeAdministrator := demo_address 11;
     ca_baseAdminTimelock := demo_timelock; ca_approvedTimelockRuntimeCodeHash := replicate 32 77;
     ca_perDepositLimit := 5000000; ca_mintWindowLimit := 9000000; ca_mintWindowDuration := 3600;
     ca_minServiceFee := 5; ca_maxServiceFee := 60000; ca_serviceFee := 20000 |}.

Definition rn_context : CallContext :=
  {| msg_sender := demo_address 1; block_timestamp := 100; block_number := 100; block_chainid := 84532 |}.

Definition rn_genesis : World PlainToken.State :=
  match bridge_new rn_context false demo_this demo_token demo_candidate rn_args with
  | Ok w => w
  | Err _ => demo_world
  end.

Definition rn_authorization (sequence : Z) : MintAuthorizationRecord :=
  let authorization :=
    {| ma_deposit_id := sc_id sequence; ma_recipient := demo_address 5; ma_gross_amount := 2000000;
       ma_max_service_fee := 60000; ma_charged_service_fee := 50000;
       ma_deadline := 1800; ma_authorization_epoch := 2 |} in
  let domain := MintAuthorizationDomain_bridge 84532 demo_this in
  {| mar_authorization := authorization; mar_domain := domain;
     mar_digest := MintDigest.digest domain authorization;
     mar_origin :=
       {| mao_finalized_block_number := 70; mao_finalized_block_hash := replicate 32 5;
          mao_finalized_block_timestamp := 890; mao_issued_at_timestamp := 900 |};
     mar_signature_dispatch_attempt := 0; mar_signature_dispatched := false; mar_signature := None |}.

Definition rn_signed (sequence : Z) : MintAuthorizationRecord :=
  let a := rn_authorization sequence in
  {| mar_authorization := mar_authorization a; mar_domain := mar_domain a; mar_digest := mar_digest a;
     mar_origin := mar_origin a; mar_signature_dispatch_attempt := 1; mar_signature_dispatched := true;
     mar_signature := Some (demo_signature 10) |}.

Definition rn_deposit_ops (sequence now : Z) : list StoreOp :=
  [Op_request (sc_env now) [1] (sc_args sequence);
   Op_request_complete (sc_env (now + 1)) staging_config (sc_attempt sequence now) (Outcome_Succeeded (7 + sequence));
   Op_deposit_event (sc_id sequence) (CommitAuthorization sc_quote (rn_authorization sequence)) None None;
   Op_deposit_signature (sc_id sequence) 1000;
   Op_deposit_event (sc_id sequence) (AuthorizationSigned (demo_signature 10) 1001) None None].

Definition rn_first_ops : list StoreOp :=
  Op_activate [10] 100 true :: rn_deposit_ops 0 1000 ++ rn_deposit_ops 1 2000.

Definition rn_finalization : MintFinalizationEvidence :=
  {| mfe_deposit_id := sc_id 0; mfe_recipient := demo_address 5;
     mfe_authorization_digest := mar_digest (rn_authorization 0); mfe_chain_id := 84532;
     mfe_verifying_contract := demo_this; mfe_gross_amount := 2000000;
     mfe_charged_service_fee := 50000; mfe_minted_amount := 1950000;
     mfe_transaction_hash := replicate 32 6; mfe_log_index := 0; mfe_receipt_succeeded := true;
     mfe_receipt_block_number := 1500; mfe_receipt_block_hash := replicate 32 11;
     mfe_finalized_block_number := 1600; mfe_finalized_block_hash := replicate 32 12;
     mfe_rpc_request_digest := replicate 32 13; mfe_rpc_response_digest := replicate 32 14 |}.

Definition rn_expiry : MintExpiryEvidence :=
  {| mee_deposit_id := sc_id 1; mee_authorization_digest := mar_digest (rn_authorization 1);
     mee_chain_id := 84532; mee_verifying_contract := demo_this; mee_deposit_processed := false;
     mee_finalized_block_number := 3000; mee_finalized_block_hash := replicate 32 15;
     mee_finalized_block_timestamp := 3000; mee_bridge_signer := demo_address 10;
     mee_mint_authorization_epoch := 2; mee_runtime_sha256 := replicate 32 1;
     mee_rpc_request_digest := replicate 32 16; mee_rpc_response_digest := replicate 32 17 |}.

Definition rn_withdrawal : WithdrawalRecord :=
  {| wr_id := to_be_bytes 32 1; wr_base_requester := demo_address 5; wr_owner := [1];
     wr_subaccount := zeros 32; wr_payload_hash := replicate 32 23; wr_amount := 500000;
     wr_max_service_fee := 30000; wr_charged_service_fee := 20000; wr_amount_out := 480000;
     wr_observed_at_ns := 6; wr_state := ReleasePending sc_release sc_settlement;
     wr_last_settlement_stop_reason := None |}.

Definition rn_last_ops : list StoreOp :=
  [Op_deposit_event (sc_id 0) (MintReconciled rn_finalization) None None;
   Op_new_withdrawal rn_withdrawal ExternalProgress_default [1] 2100 [] (replicate 32 31) 60 30;
   Op_deposit_event (sc_id 1) (MarkRefundAvailable Reason_AuthorizationExpired (Some 3000)) None None;
   Op_deposit_event (sc_id 1)
     (StartRefund Reason_AuthorizationExpired
        {| ta_attempt_no := 0; ta_identity := ex_transfer RefundDeposit 1940000 10000 40 ex_bridge ex_user None |}
        (Some rn_expiry)) None None].

Definition rn_activation : Transaction :=
  demo_tx 200 [(demo_timelock, To_bridge Call_unpauseDepositMints);
               (demo_timelock, To_bridge Call_unpauseWithdrawals)].
Definition rn_mint : Transaction :=
  demo_tx 1500 [(demo_address 40, To_bridge (Call_mintDepositWithAuthorization
    (calldata_of (mar_authorization (rn_authorization 0))) (demo_signature 10)))].
Definition rn_burn : Transaction :=
  demo_tx 3000 [(demo_address 5, To_token (Call_approve demo_this 500000));
                (demo_address 5, To_bridge (Call_createWithdrawal 500000 30000 [1] (zeros 32)))].

Abbreviation rn_history := (store_history sc_encode sc_identity_hash sc_scan_key sc_encode_event
  sc_retention_encodes sc_sha256 true).
Abbreviation rn_store_1 := (rn_history (initial_store (Some staging_config)) rn_first_ops).
Abbreviation rn_store_2 := (rn_history rn_store_1 rn_last_ops).
Abbreviation rn_world_1 := (base_tx 84532 rn_genesis rn_activation).
Abbreviation rn_world_2 := (base_tx 84532 rn_world_1 rn_mint).
Abbreviation rn_world := (base_tx 84532 rn_world_2 rn_burn).

Definition rn_key (signer : address) : Prop := signer = demo_address 10.

Abbreviation rn_reaches := (system_reaches sc_encode sc_identity_hash sc_scan_key sc_encode_event
  sc_retention_encodes sc_sha256 true 84532 demo_this 100 rn_genesis rn_key (Some staging_config)).
Abbreviation rn_truthful := (op_truthful 84532 demo_this 100 rn_genesis).

Lemma rn_deployed :
  bridge_deployed demo_this 100 rn_genesis rn_key rn_context false demo_token demo_candidate rn_args.
Proof.
  split; [split|reflexivity|vm_compute; reflexivity].
  - unfold args_typed, is_u256. simpl. ranges. lia.
  - simpl. ranges. lia.
  - vm_compute. reflexivity.
Qed.

Lemma rn_authorization_typed sequence :
  0 <= sequence < 100 -> MintAuthorization_typed (mar_authorization (rn_authorization sequence)).
Proof. intros. split; simpl; ranges; done || lia. Qed.

Lemma rn_authorization_bound sequence :
  0 <= sequence < 100 -> bound 84532 demo_this (rn_authorization sequence).
Proof. intros. split; [done|by apply rn_authorization_typed|done]. Qed.

Lemma rn_admissible :
  Forall (tx_admissible demo_this) [rn_activation; rn_mint; rn_burn].
Proof.
  unfold rn_activation, rn_mint, rn_burn, tx_admissible, u256_max.
  repeat first [apply Forall_cons; split | apply Forall_nil; exact I | split]; simpl; try done; try lia;
    unfold is_u256; try lia.
Qed.

Lemma base_run_three {T} `{!ERC20 T, Keccak, !EIP712, !ECDSA} chainid (w : World T) tx1 tx2 tx3 :
  base_run chainid w [tx1; tx2; tx3] = base_tx chainid (base_tx chainid (base_tx chainid w tx1) tx2) tx3.
Proof. reflexivity. Qed.

Lemma rn_evolves : evolves 84532 100 rn_genesis 3000 rn_world.
Proof.
  destruct rn_deployed as [Hd Ht _].
  assert (includable demo_this 100 [rn_activation; rn_mint; rn_burn]) as Hi
    by (split; [simpl; lia|apply rn_admissible]).
  destruct (deployed_evolves 84532 _ _ _ _ _ _ _ _ Hd Hi) as [He _].
  rewrite base_run_three in He. exact He.
Qed.

Lemma rn_first_truthful now w : Forall op_ranged rn_first_ops /\ Forall (rn_truthful now w) rn_first_ops.
Proof.
  unfold rn_first_ops, rn_deposit_ops. cbn [app]. split.
  - repeat constructor; simpl; try done; try lia; eauto.
  - repeat (apply Forall_cons; split); try apply Forall_nil_2; split; intros ? Ho; simpl in Ho; try done;
      subst; try done; apply rn_authorization_bound; lia.
Qed.

Lemma rn_last_truthful :
  Forall op_ranged rn_last_ops /\ Forall (rn_truthful 3000 rn_world) rn_last_ops.
Proof.
  unfold rn_last_ops. split.
  - repeat constructor; simpl; try done; try lia.
  - repeat (apply Forall_cons; split); try apply Forall_nil_2; split; intros ? Ho; simpl in Ho; try done;
      subst; try done; try split.
    + exists {| log_block := 1500; log_timestamp := 1500; log_event := minted_event rn_finalization |}.
      split; [|reflexivity]. apply list_elem_of_lookup. exists 3%nat. vm_compute. reflexivity.
    + vm_compute. repeat constructor; done.
    + exists {| log_block := 3000; log_timestamp := 3000; log_event := burn_event rn_withdrawal |}.
      split; [|reflexivity]. apply list_elem_of_lookup. exists 4%nat. vm_compute. reflexivity.
    + exists rn_world. split; [split; [apply rn_evolves|constructor]|vm_compute; reflexivity].
Qed.

Lemma rn_published : published rn_store_1 (rn_signed 0).
Proof.
  assert (dr_mint_authorization ∘ sd_record <$> deposit_row rn_store_1 (sc_id 0) = Some (Some (rn_signed 0)))
    as E by (vm_compute; reflexivity).
  destruct (deposit_row rn_store_1 (sc_id 0)) as [sd|] eqn:Hsd; [|discriminate].
  exists (sc_id 0), sd. split; [done|]. apply (inj Some) in E. by split.
Qed.

Lemma rn_unforged : unforged 84532 demo_this rn_key rn_store_1 rn_mint.
Proof.
  intros sender c signature signer Hin _ _. apply list_elem_of_singleton in Hin.
  injection Hin as _ -> _. exists (rn_signed 0). split; [apply rn_published|].
  split; [|by split; intros [[] _]].
  rewrite mintAuthorizationDigest_input. apply digest_contract; [ranges; lia|].
  apply (rn_authorization_typed 0). lia.
Qed.

Abbreviation rn_step := (system_step sc_encode sc_identity_hash sc_scan_key sc_encode_event
  sc_retention_encodes sc_sha256 true 84532 demo_this 100 rn_genesis rn_key).

(** By the calls of a transaction of the run. *)
Ltac by_calls H :=
  exfalso; cbn [tx_calls rn_activation rn_mint rn_burn demo_tx] in H;
  rewrite !elem_of_cons, elem_of_nil in H; naive_solver.

(** One transaction of the run. *)
Lemma rn_base s now w tx :
  now <= tx_timestamp tx -> tx ∈ [rn_activation; rn_mint; rn_burn] ->
  unforged 84532 demo_this rn_key s tx ->
  rn_step (Build_System s now w) (Build_System s (tx_timestamp tx) (base_tx 84532 w tx)).
Proof.
  intros Hnow Htx Hu. pose proof rn_admissible as Hadm. rewrite Forall_forall in Hadm.
  apply (Sys_base _ _ _ _ _ _ _ _ _ _ _ _ (Build_System s now w) tx); try done; [by apply Hadm|].
  intros sender signer Hin. rewrite !elem_of_cons, elem_of_nil in Htx.
  destruct Htx as [->|[->|[->|[]]]]; by_calls Hin.
Qed.

Lemma rn_messages s now w ops :
  Forall op_ranged ops -> Forall (rn_truthful now w) ops ->
  rtc rn_step (Build_System s now w) (Build_System (rn_history s ops) now w).
Proof. exact (system_messages _ _ _ _ _ _ _ _ _ _ _ _ (Build_System s now w) ops). Qed.

Lemma rn_reached : rn_reaches (Build_System rn_store_2 3000 rn_world).
Proof.
  unfold system_reaches. transitivity (Build_System (initial_store (Some staging_config)) 200 rn_world_1).
  { apply rtc_once, (rn_base _ 100 rn_genesis rn_activation); [done|set_solver|].
    intros ? ? ? ? Hin. by_calls Hin. }
  transitivity (Build_System rn_store_1 200 rn_world_1).
  { destruct (rn_first_truthful 200 rn_world_1) as [Hr Ht]. exact (rn_messages _ _ _ _ Hr Ht). }
  transitivity (Build_System rn_store_1 1500 rn_world_2).
  { apply rtc_once, (rn_base rn_store_1 200 rn_world_1 rn_mint); [done|set_solver|apply rn_unforged]. }
  transitivity (Build_System rn_store_1 3000 rn_world).
  { apply rtc_once, (rn_base rn_store_1 1500 rn_world_2 rn_burn); [done|set_solver|].
    intros ? ? ? ? Hin. by_calls Hin. }
  destruct rn_last_truthful as [Hr Ht]. exact (rn_messages rn_store_1 3000 rn_world rn_last_ops Hr Ht).
Qed.

Lemma rn_chain : is_u64 84532.
Proof. ranges. lia. Qed.

Lemma system_mint_or_refund_witness :
  dr_state ∘ sd_record <$> deposit_row rn_store_2 (sc_id 0) = Some (Minted 7) /\
  exists sd, deposit_row rn_store_2 (sc_id 1) = Some sd /\ refund_started (sd_record sd) = true /\
    ((sc_id 1 ∉ minted_ids (w_logs rn_world)) /\
     Bridge.isDepositProcessed (w_bridge rn_world) (sc_id 1) = false).
Proof.
  split; [vm_compute; reflexivity|].
  assert (refund_started ∘ sd_record <$> deposit_row rn_store_2 (sc_id 1) = Some true) as E
    by (vm_compute; reflexivity).
  assert (forall s w, rn_reaches (Build_System s 3000 w) -> forall sd,
    deposit_row s (sc_id 1) = Some sd -> refund_started (sd_record sd) = true ->
    (sc_id 1 ∉ minted_ids (w_logs w)) /\ Bridge.isDepositProcessed (w_bridge w) (sc_id 1) = false) as Hthm
    by (intros s w Hr sd; exact (system_mint_or_refund sc_encode sc_identity_hash sc_scan_key sc_encode_event sc_retention_encodes sc_sha256 true 84532
    demo_this 100 rn_genesis rn_key sc_sha256_length sample_keccak_length rn_chain rn_context false
    demo_token demo_candidate rn_args rn_deployed (Some staging_config)
      (Build_System s 3000 w) (sc_id 1) sd Hr)).
  specialize (Hthm _ _ rn_reached). revert E Hthm.
  generalize (deposit_row rn_store_2 (sc_id 1)) as row. intros [sd|] E Hthm; [|discriminate].
  apply (inj Some) in E. exists sd. split; [reflexivity|]. split; [exact E|].
  exact (Hthm sd eq_refl E).
Defined.

Lemma system_mints_agree_witness :
  minted_ids (w_logs rn_world) = [sc_id 0] /\ NoDup (minted_ids (w_logs rn_world)).
Proof.
  split; [vm_compute; reflexivity|].
  assert (forall s w, rn_reaches (Build_System s 3000 w) -> NoDup (minted_ids (w_logs w))) as Hthm
    by (intros s w Hr; exact (proj1 (system_mints_agree sc_encode sc_identity_hash sc_scan_key sc_encode_event sc_retention_encodes sc_sha256 true 84532
    demo_this 100 rn_genesis rn_key sc_sha256_length sample_keccak_length rn_chain rn_context false
    demo_token demo_candidate rn_args rn_deployed (Some staging_config)
      (Build_System s 3000 w) Hr))).
  exact (Hthm _ _ rn_reached).
Defined.

